(** * Account store: a shallow embedding of the [Database] class

    The class under study is a thin wrapper around an embedded SQL engine:
    every method first awaits the memoised initialisation, then issues one
    parameterised statement and decodes the resulting rows.  The embedding
    has three layers, each in a module of its own:

    - [JS]: the part of the JavaScript runtime the class relies on
      (truthiness, [Date.prototype.toISOString], [new Date(x)],
      [JSON.stringify] and [JSON.parse]);
    - [Sqlite]: the engine and its Node driver, restricted to the ten
      statements the class issues;
    - [Db]: the class itself, method by method, in an error-and-state monad
      over the fields [db], [initialized] and [initPromise].

    A last module, [Singleton], holds [getDatabase] and the module
    variable behind it. *)

From Stdlib Require Import ZArith Lia Bool Ascii String List.
From stdpp Require Import base option list strings gmap.

Set Warnings "-register-all".
Local Open Scope string_scope.
Local Open Scope list_scope.
Local Open Scope Z_scope.

(* ===================================================================== *)
(** ** Strings of decimal digits *)
(* ===================================================================== *)

Module Digits.

Definition digit_of_ascii (c : ascii) : option Z :=
  let n := Z.of_N (N_of_ascii c) in
  if (48 <=? n) && (n <=? 57) then Some (n - 48) else None.

Definition ascii_of_digit (d : Z) : ascii := ascii_of_N (Z.to_N (48 + d)).

Definition is_digit (c : ascii) : bool :=
  match digit_of_ascii c with Some _ => true | None => false end.

(** [pad w n]: the [w] least significant decimal digits of [n], most
    significant first (what [padStart(w, "0")] gives for [0 <= n < 10^w]). *)
Fixpoint pad (w : nat) (n : Z) : string :=
  match w with
  | O => ""
  | S w' => pad w' (n / 10) +:+ String (ascii_of_digit (n mod 10)) ""
  end.

(** Reads exactly [w] digits, accumulating their value onto [acc]. *)
Fixpoint read_digits (w : nat) (acc : Z) (s : string) : option (Z * string) :=
  match w with
  | O => Some (acc, s)
  | S w' =>
      match s with
      | String c s' =>
          match digit_of_ascii c with
          | Some d => read_digits w' (acc * 10 + d) s'
          | None => None
          end
      | EmptyString => None
      end
  end.

(** Expects the character [c] at the head of [s]. *)
Definition expect (c : ascii) (s : string) : option string :=
  match s with
  | String c' s' => if Ascii.eqb c c' then Some s' else None
  | EmptyString => None
  end.

(** The longest prefix of digit characters, and what follows it. *)
Fixpoint span_digits (s : string) : string * string :=
  match s with
  | String c s' =>
      if is_digit c then let '(ds, r) := span_digits s' in (String c ds, r)
      else ("", s)
  | EmptyString => ("", "")
  end.

(** Value of a string of digits, most significant first. *)
Fixpoint value_of (acc : Z) (s : string) : Z :=
  match s with
  | String c s' =>
      match digit_of_ascii c with
      | Some d => value_of (acc * 10 + d) s'
      | None => acc
      end
  | EmptyString => acc
  end.

(** Decimal digits of a non-negative integer, without leading zeros
    ("0" for zero).  The fuel bounds the number of digits. *)
Fixpoint digits_fuel (fuel : nat) (n : Z) : string :=
  match fuel with
  | O => ""
  | S f =>
      if n <? 10 then String (ascii_of_digit n) ""
      else digits_fuel f (n / 10) +:+ String (ascii_of_digit (n mod 10)) ""
  end.

Definition decimal (n : Z) : string := digits_fuel (S (Z.to_nat (Z.log2 n))) n.

End Digits.

(* ===================================================================== *)
(** ** The JavaScript runtime *)
(* ===================================================================== *)

Module JS.
Import Digits.

(** *** Time values and the proleptic Gregorian calendar

    A [Date] holds a time value: an integral number of milliseconds since
    1970-01-01T00:00:00Z of magnitude at most 8.64e15, or NaN. *)

Inductive Date :=
| InvalidDate
| DateAt (t : Z).

Definition msPerDay : Z := 86400000.
Definition maxTime : Z := 8640000000000000.

Definition TimeClip (t : Z) : Date :=
  if (- maxTime <=? t) && (t <=? maxTime) then DateAt t else InvalidDate.

Definition valid_date (d : Date) : Prop :=
  match d with
  | InvalidDate => False
  | DateAt t => - maxTime <= t <= maxTime
  end.

(** Day number within a 400-year era (day 0 is 1 March of the era's first
    year) to year-of-era, month and day of month. *)
Definition civil_of_doe (doe : Z) : Z * Z * Z :=
  let yoe := (doe - doe / 1460 + doe / 36524 - doe / 146096) / 365 in
  let doy := doe - (365 * yoe + yoe / 4 - yoe / 100) in
  let mp := (5 * doy + 2) / 153 in
  let d := doy - (153 * mp + 2) / 5 + 1 in
  let m := if mp <? 10 then mp + 3 else mp - 9 in
  (yoe, m, d).

Definition doe_of_civil (yoe m d : Z) : Z :=
  let doy := (153 * (if 2 <? m then m - 3 else m + 9) + 2) / 5 + d - 1 in
  yoe * 365 + yoe / 4 - yoe / 100 + doy.

(** Days since the epoch to (year, month, day). *)
Definition civil_from_days (z : Z) : Z * Z * Z :=
  let z' := z + 719468 in
  let era := z' / 146097 in
  let '(yoe, m, d) := civil_of_doe (z' mod 146097) in
  (yoe + era * 400 + (if m <=? 2 then 1 else 0), m, d).

(** MakeDay: (year, month, day) to days since the epoch. *)
Definition days_from_civil (y m d : Z) : Z :=
  let y' := y - (if m <=? 2 then 1 else 0) in
  (y' / 400) * 146097 + doe_of_civil (y' mod 400) m d - 719468.

Definition isLeapYear (y : Z) : bool :=
  (y mod 4 =? 0) && (negb (y mod 100 =? 0) || (y mod 400 =? 0)).

Definition DaysInMonth (y m : Z) : Z :=
  if m =? 2 then (if isLeapYear y then 29 else 28)
  else if (m =? 4) || (m =? 6) || (m =? 9) || (m =? 11) then 30
  else 31.

(** The year as [toISOString] writes it: four digits for years 0 to 9999,
    otherwise a sign and six digits. *)
Definition year_string (y : Z) : string :=
  if (0 <=? y) && (y <=? 9999) then pad 4 y
  else (if y <? 0 then "-" else "+") +:+ pad 6 (Z.abs y).

(** [Date.prototype.toISOString] on a valid time value. *)
Definition iso_of_time (t : Z) : string :=
  let '(y, m, d) := civil_from_days (t / msPerDay) in
  let ms := t mod msPerDay in
  year_string y +:+ "-" +:+ pad 2 m +:+ "-" +:+ pad 2 d +:+ "T" +:+
  pad 2 (ms / 3600000) +:+ ":" +:+ pad 2 (ms / 60000 mod 60) +:+ ":" +:+
  pad 2 (ms / 1000 mod 60) +:+ "." +:+ pad 3 (ms mod 1000) +:+ "Z".

(** [toISOString] throws a RangeError on an invalid date. *)
Definition toISOString (d : Date) : option string :=
  match d with
  | InvalidDate => None
  | DateAt t => Some (iso_of_time t)
  end.

(** The year of a date-time string: [YYYY], or a sign and [YYYYYY]
    (where "-000000" is not allowed). *)
Definition read_year (s : string) : option (Z * string) :=
  match s with
  | String "+" s' => read_digits 6 0 s'
  | String "-" s' =>
      match read_digits 6 0 s' with
      | Some (y, r) => if y =? 0 then None else Some (- y, r)
      | None => None
      end
  | _ => read_digits 4 0 s
  end.

(** [Date.parse] on the complete UTC form of the date-time string format,
    [YYYY-MM-DDTHH:mm:ss.sssZ], which is the form [toISOString] writes.
    The shorter forms of the format (a date alone, a time without seconds
    or milliseconds, an offset in place of Z) and the forms that an
    implementation adds are outside the model: they are read as NaN
    here.  What is proved of a date that is read back is stated for
    texts in the complete form. *)
Definition Date_parse (s : string) : Date :=
  let result :=
    '(y, s) ← read_year s;
    s ← expect "-" s;
    '(m, s) ← read_digits 2 0 s;
    s ← expect "-" s;
    '(d, s) ← read_digits 2 0 s;
    s ← expect "T" s;
    '(hh, s) ← read_digits 2 0 s;
    s ← expect ":" s;
    '(mm, s) ← read_digits 2 0 s;
    s ← expect ":" s;
    '(ss, s) ← read_digits 2 0 s;
    s ← expect "." s;
    '(ms, s) ← read_digits 3 0 s;
    s ← expect "Z" s;
    if (s =? "")%string && (1 <=? m) && (m <=? 12) && (1 <=? d)
       && (d <=? DaysInMonth y m) && (hh <=? 23) && (mm <=? 59) && (ss <=? 59)
    then Some (TimeClip (days_from_civil y m d * msPerDay
                         + hh * 3600000 + mm * 60000 + ss * 1000 + ms))
    else None in
  default InvalidDate result.

(** *** Numbers

    A finite non-zero number is held the way [Number::toString] reads it:
    a sign, the digits [d1 ... dk] of the shortest decimal that denotes it
    ([d1] and [dk] non-zero) and the exponent [n], for the value
    [0.d1...dk * 10^n].  Reading a numeral back is exact on this
    representation: rounding to the nearest double is outside the model,
    and loses nothing on the numerals [Number::toString] writes. *)

Inductive number :=
| NaN
| Infinity (neg : bool)
| Zero (neg : bool)
| Finite (neg : bool) (digits : string) (n : Z).

#[global] Instance number_eq_dec : EqDecision number.
Proof. solve_decision. Defined.

Fixpoint zeros (k : nat) : string :=
  match k with
  | O => ""
  | S k' => String "0" (zeros k')
  end.

Fixpoint strip_leading (s : string) : nat * string :=
  match s with
  | String "0" s' => let '(z, r) := strip_leading s' in (S z, r)
  | _ => (O, s)
  end.

Fixpoint strip_trailing (s : string) : string :=
  match s with
  | String c s' =>
      let r := strip_trailing s' in
      if Ascii.eqb c "0" && (r =? "")%string then "" else String c r
  | EmptyString => ""
  end.

(** The number denoted by the digits [ds] scaled as [0.ds * 10^n]. *)
Definition normalize (neg : bool) (ds : string) (n : Z) : number :=
  let '(z, ds') := strip_leading ds in
  let ds'' := strip_trailing ds' in
  if (ds'' =? "")%string then Zero neg else Finite neg ds'' (n - Z.of_nat z).

Definition wf_number (x : number) : Prop :=
  match x with
  | Finite _ ds n =>
      ds <> "" /\ strip_leading ds = (O, ds) /\ strip_trailing ds = ds
      /\ forallb is_digit (list_ascii_of_string ds) = true
  | _ => True
  end.

Definition number_of_Z (z : Z) : number :=
  let ds := decimal (Z.abs z) in
  normalize (z <? 0) ds (Z.of_nat (String.length ds)).

(** Truncation towards zero; [None] for NaN and the infinities. *)
Definition to_integer (x : number) : option Z :=
  match x with
  | NaN | Infinity _ => None
  | Zero _ => Some 0
  | Finite neg ds n =>
      let k := Z.of_nat (String.length ds) in
      let a := if n <=? 0 then 0
               else if k <=? n then value_of 0 ds * 10 ^ (n - k)
               else value_of 0 (substring 0 (Z.to_nat n) ds) in
      Some (if neg then - a else a)
  end.

(** [Number::toString] in radix 10. *)
Definition Number_toString (x : number) : string :=
  match x with
  | NaN => "NaN"
  | Infinity neg => if neg then "-Infinity" else "Infinity"
  | Zero _ => "0"
  | Finite neg ds n =>
      let k := Z.of_nat (String.length ds) in
      (if neg then "-" else "") +:+
      (if (k <=? n) && (n <=? 21) then ds +:+ zeros (Z.to_nat (n - k))
       else if (0 <? n) && (n <=? 21) then
         substring 0 (Z.to_nat n) ds +:+ "." +:+
         substring (Z.to_nat n) (Z.to_nat (k - n)) ds
       else if (-6 <? n) && (n <=? 0) then "0." +:+ zeros (Z.to_nat (- n)) +:+ ds
       else
         let e := n - 1 in
         let exponent := (if e <? 0 then "-" else "+") +:+ decimal (Z.abs e) in
         match ds with
         | String c "" => String c "e" +:+ exponent
         | String c rest => String c "." +:+ rest +:+ "e" +:+ exponent
         | "" => ""
         end)
  end.

(** *** Values *)

Inductive value :=
| undefined
| null
| VBool (b : bool)
| VNum (x : number)
| VStr (s : string)
| VDate (d : Date)
| VArr (elements : list value)
| VObj (properties : list (string * value)).

(** ToBoolean. *)
Definition truthy (v : value) : bool :=
  match v with
  | undefined | null => false
  | VBool b => b
  | VNum NaN | VNum (Zero _) => false
  | VNum _ => true
  | VStr s => negb (s =? "")%string
  | VDate _ | VArr _ | VObj _ => true
  end.

(** [new Date(v)].  A string is parsed, a primitive is converted to a
    number and clipped, and a date is copied.  Arrays and objects go
    through their string form, which [Date_parse] reads as NaN. *)
Definition Date_new (v : value) : Date :=
  match v with
  | undefined => InvalidDate
  | null => DateAt 0
  | VBool b => DateAt (if b then 1 else 0)
  | VNum x => match to_integer x with Some t => TimeClip t | None => InvalidDate end
  | VStr s => Date_parse s
  | VDate d => d
  | VArr _ | VObj _ => InvalidDate
  end.

(** Own properties of an object literal, in insertion order: a later
    assignment to a present key replaces its value in place. *)
Fixpoint obj_set (k : string) (v : value) (o : list (string * value)) :=
  match o with
  | [] => [(k, v)]
  | (k', v') :: o' =>
      if (k =? k')%string then (k, v) :: o' else (k', v') :: obj_set k v o'
  end.

Fixpoint obj_get (k : string) (o : list (string * value)) : value :=
  match o with
  | [] => undefined
  | (k', v') :: o' => if (k =? k')%string then v' else obj_get k o'
  end.

(** *** JSON

    Strings are sequences of code units below 256; [JSON.stringify]
    escapes the quotation mark, the backslash and the control characters,
    and [JSON.parse] reads every escape of the grammar whose code unit is
    below 256. *)

Definition dquote : ascii := "034"%char.

Definition hex_digit (n : Z) : ascii :=
  if n <? 10 then ascii_of_digit n else ascii_of_N (Z.to_N (87 + n)).

Definition hex_value (c : ascii) : option Z :=
  let n := Z.of_N (N_of_ascii c) in
  if (48 <=? n) && (n <=? 57) then Some (n - 48)
  else if (97 <=? n) && (n <=? 102) then Some (n - 87)
  else if (65 <=? n) && (n <=? 70) then Some (n - 55)
  else None.

Definition quote_char (c : ascii) : string :=
  let n := Z.of_N (N_of_ascii c) in
  if n =? 8 then "\b" else if n =? 9 then "\t" else if n =? 10 then "\n"
  else if n =? 12 then "\f" else if n =? 13 then "\r"
  else if n =? 34 then String "\" (String dquote "")
  else if n =? 92 then "\\"
  else if n <? 32 then
    "\u00" +:+ String (hex_digit (n / 16)) (String (hex_digit (n mod 16)) "")
  else String c "".

Fixpoint quote_chars (s : string) : string :=
  match s with
  | String c s' => quote_char c +:+ quote_chars s'
  | EmptyString => ""
  end.

(** QuoteJSONString. *)
Definition quote (s : string) : string :=
  String dquote (quote_chars s +:+ String dquote "").

Definition join (sep : string) (l : list string) : string := String.concat sep l.

(** [JSON.stringify(v)]; [None] stands for the result [undefined]. *)
Fixpoint stringify (v : value) : option string :=
  match v with
  | undefined => None
  | null => Some "null"
  | VBool b => Some (if b then "true" else "false")
  | VNum x =>
      Some (match x with NaN | Infinity _ => "null" | _ => Number_toString x end)
  | VStr s => Some (quote s)
  | VDate d =>
      Some (match toISOString d with Some t => quote t | None => "null" end)
  | VArr l =>
      let fix elements (l : list value) : list string :=
        match l with
        | [] => []
        | e :: l' => default "null" (stringify e) :: elements l'
        end in
      Some ("[" +:+ join "," (elements l) +:+ "]")
  | VObj o =>
      let fix members (o : list (string * value)) : list string :=
        match o with
        | [] => []
        | (k, e) :: o' =>
            match stringify e with
            | Some t => (quote k +:+ ":" +:+ t) :: members o'
            | None => members o'
            end
        end in
      Some ("{" +:+ join "," (members o) +:+ "}")
  end.

Definition is_ws (c : ascii) : bool :=
  let n := Z.of_N (N_of_ascii c) in
  (n =? 32) || (n =? 9) || (n =? 10) || (n =? 13).

Fixpoint skip_ws (s : string) : string :=
  match s with
  | String c s' => if is_ws c then skip_ws s' else s
  | EmptyString => ""
  end.

(** The characters of a string literal after its opening quotation mark,
    up to and including the closing one.  Texts are strings of bytes
    here: an escape [\uXXXX] is read when it denotes one byte (up to
    00ff), and a higher one is outside the model (it is refused).
    [JSON.stringify] writes no such escape for the texts of the
    model. *)
Fixpoint parse_chars (s : string) : option (string * string) :=
  match s with
  | EmptyString => None
  | String c s' =>
      if Ascii.eqb c dquote then Some ("", s')
      else if Ascii.eqb c "\" then
        match s' with
        | String e s'' =>
            let plain (x : ascii) :=
              '(t, r) ← parse_chars s''; Some (String x t, r) in
            if Ascii.eqb e dquote then plain dquote
            else match e with
            | "\"%char => plain "\"%char
            | "/"%char => plain "/"%char
            | "b"%char => plain "008"%char
            | "f"%char => plain "012"%char
            | "n"%char => plain "010"%char
            | "r"%char => plain "013"%char
            | "t"%char => plain "009"%char
            | "u"%char =>
                match s'' with
                | String h1 (String h2 (String h3 (String h4 s3))) =>
                    a ← hex_value h1; b ← hex_value h2;
                    c ← hex_value h3; d ← hex_value h4;
                    let code := ((a * 16 + b) * 16 + c) * 16 + d in
                    if code <? 256 then
                      '(t, r) ← parse_chars s3;
                      Some (String (ascii_of_N (Z.to_N code)) t, r)
                    else None
                | _ => None
                end
            | _ => None
            end
        | EmptyString => None
        end
      else if Z.of_N (N_of_ascii c) <? 32 then None
      else '(t, r) ← parse_chars s'; Some (String c t, r)
  end.

(** The fraction of a numeral, if any: a point and at least one digit. *)
Definition parse_fraction (s : string) : option (string * string) :=
  match s with
  | String "." r =>
      let '(fp, r') := span_digits r in
      if (fp =? "")%string then None else Some (fp, r')
  | _ => Some ("", s)
  end.

(** The exponent of a numeral, if any: [e] or [E], an optional sign and
    at least one digit. *)
Definition parse_exponent (s : string) : option (Z * string) :=
  match s with
  | String c r =>
      if Ascii.eqb c "e" || Ascii.eqb c "E" then
        let '(sign, r1) :=
          match r with
          | String "-" r' => (-1, r')
          | String "+" r' => (1, r')
          | _ => (1, r)
          end in
        let '(ds, r2) := span_digits r1 in
        if (ds =? "")%string then None else Some (sign * value_of 0 ds, r2)
      else Some (0, s)
  | EmptyString => Some (0, s)
  end.

(** A numeral after its sign: an integer part without superfluous leading
    zero, then the fraction and the exponent. *)
Definition parse_unsigned (neg : bool) (s : string) : option (number * string) :=
  let '(ip, s2) := span_digits s in
  if (ip =? "")%string then None
  else if match ip with String "0" (String _ _) => true | _ => false end then None
  else
    '(fp, s3) ← parse_fraction s2;
    '(e, s4) ← parse_exponent s3;
    Some (normalize neg (ip +:+ fp) (Z.of_nat (String.length ip) + e), s4).

(** A numeral of the JSON grammar. *)
Definition parse_number (s : string) : option (number * string) :=
  match s with
  | String "-" r => parse_unsigned true r
  | _ => parse_unsigned false s
  end.

Fixpoint parse_value (fuel : nat) (s : string) : option (value * string) :=
  match fuel with
  | O => None
  | S f =>
      match skip_ws s with
      | String "{" r =>
          match skip_ws r with
          | String "}" r' => Some (VObj [], r')
          | r1 => parse_members f [] r1
          end
      | String "[" r =>
          match skip_ws r with
          | String "]" r' => Some (VArr [], r')
          | r1 => parse_elements f [] r1
          end
      | String "t" (String "r" (String "u" (String "e" r))) => Some (VBool true, r)
      | String "f" (String "a" (String "l" (String "s" (String "e" r)))) =>
          Some (VBool false, r)
      | String "n" (String "u" (String "l" (String "l" r))) => Some (null, r)
      | String c r =>
          if Ascii.eqb c dquote then '(t, r') ← parse_chars r; Some (VStr t, r')
          else '(x, r') ← parse_number (String c r); Some (VNum x, r')
      | EmptyString => None
      end
  end
with parse_elements (fuel : nat) (acc : list value) (s : string)
  : option (value * string) :=
  match fuel with
  | O => None
  | S f =>
      '(v, r) ← parse_value f s;
      match skip_ws r with
      | String "," r' => parse_elements f (acc ++ [v]) r'
      | String "]" r' => Some (VArr (acc ++ [v]), r')
      | _ => None
      end
  end
with parse_members (fuel : nat) (acc : list (string * value)) (s : string)
  : option (value * string) :=
  match fuel with
  | O => None
  | S f =>
      match skip_ws s with
      | String c r =>
          if Ascii.eqb c dquote then
            '(k, r1) ← parse_chars r;
            match skip_ws r1 with
            | String ":" r2 =>
                '(v, r3) ← parse_value f r2;
                match skip_ws r3 with
                | String "," r' => parse_members f (obj_set k v acc) r'
                | String "}" r' => Some (VObj (obj_set k v acc), r')
                | _ => None
                end
            | _ => None
            end
          else None
      | EmptyString => None
      end
  end.

(** [JSON.parse] on a text; [None] stands for a SyntaxError. *)
Definition parse (s : string) : option value :=
  '(v, r) ← parse_value (S (String.length s)) s;
  if (skip_ws r =? "")%string then Some v else None.

(** ToString on the primitives a row can hold. *)
Definition ToString (v : value) : string :=
  match v with
  | undefined => "undefined"
  | null => "null"
  | VBool b => if b then "true" else "false"
  | VNum x => Number_toString x
  | VStr s => s
  | VDate _ | VArr _ | VObj _ => "[object Object]"
  end.

End JS.

(* ===================================================================== *)
(** ** The SQL engine and its driver *)
(* ===================================================================== *)

Module Sqlite.
Import JS.

(** Stored values.  A value is stored as it is bound.  The engine itself
    converts a value to the affinity of its column when it stores it (a
    number put into a TEXT column becomes its text, a text that reads as
    a numeral put into a BOOLEAN or DATETIME column becomes that number,
    a float with an integral value becomes an integer there); [exec]
    leaves these conversions out.  They do not touch the values that the
    interface [User] allows: text in the text columns, 0 and 1 in the
    flag, ISO text in the timestamps; and a time value, bound as a float,
    reads back as the same JavaScript number whether it is kept as a
    float or as an integer.  What is proved of a value stored and read
    back is stated for such values only. *)
Inductive sqlval :=
| SNull
| SInt (z : Z)
| SReal (x : number)
| SText (s : string).

#[global] Instance sqlval_eq_dec : EqDecision sqlval.
Proof. solve_decision. Defined.

Abbreviation row := (gmap string sqlval).

Record table := { columns : list string; rows : list row }.

Inductive error :=
| SQLITE_ERROR (msg : string)
| SQLITE_CONSTRAINT (msg : string)
| SQLITE_FAULT (code : Z).

(** The statements of the class.  [INSERT] lists its columns and one
    parameter for each; [UPDATE] sets [fields] to the leading parameters
    and takes the row identifier as the last one.

    [updateUser] writes the keys of its argument into the text of the
    statement ("key = ?").  [UPDATE_BY_ID fields] stands for that text
    when every key is the name of a property of [User], written as the
    interface writes it: the engine then reads each key as a column
    name.  A key in another case, or one that carries SQL of its own, is
    outside this reading, and what is proved of [updateUser] is stated
    for keys of the interface. *)
Inductive statement :=
| CREATE_TABLE_IF_NOT_EXISTS
| ALTER_TABLE_ADD_COLUMN (column : string) (dflt : sqlval)
| INSERT (cols : list string) (params : list sqlval)
| SELECT_BY_EMAIL_OR_NAME (p1 p2 : sqlval)
| SELECT_BY_ID (p : sqlval)
| SELECT_BY_TOKEN (p : sqlval)
| UPDATE_BY_ID (fields : list string) (params : list sqlval)
| SELECT_COUNT_BY_EMAIL (p : sqlval)
| SELECT_ALL_ORDER_BY_CREATED_DESC
| DELETE_ALL.

(** How the driver binds a JavaScript parameter: [undefined] leaves the
    parameter unbound, which the engine reads as NULL; booleans are bound
    as 0 and 1; a number as an integer when it is one of 32 bits, else as
    a float (NaN is stored as NULL); a date as the float of its time
    value; any other object as the text "[object Object]". *)
Definition bind (v : value) : sqlval :=
  match v with
  | undefined | null => SNull
  | VBool b => SInt (if b then 1 else 0)
  | VNum NaN => SNull
  | VNum (Zero _) => SInt 0
  | VNum x =>
      match to_integer x with
      | Some z =>
          if decide (number_of_Z z = x /\ - 2 ^ 31 <= z < 2 ^ 31)
          then SInt z else SReal x
      | None => SReal x
      end
  | VStr s => SText s
  | VDate InvalidDate => SNull
  | VDate (DateAt t) => SReal (number_of_Z t)
  | VArr _ | VObj _ => SText "[object Object]"
  end.

(** How the driver hands a stored value back. *)
Definition unbind (v : sqlval) : value :=
  match v with
  | SNull => null
  | SInt z => VNum (number_of_Z z)
  | SReal x => VNum x
  | SText s => VStr s
  end.

(** Column [c] of a row (NULL when the row has no such column). *)
Definition col (r : row) (c : string) : sqlval := default SNull (r !! c).

(** The schema of CREATE TABLE. *)
Definition users_columns : list string :=
  ["id"; "fullName"; "universityEmail"; "password"; "phoneNumber";
   "universityName"; "universityId"; "program"; "yearOfStudy";
   "isEmailVerified"; "verificationToken"; "verificationTokenExpiry";
   "collegeData"; "createdAt"].

Definition not_null_columns : list string :=
  ["fullName"; "universityEmail"; "password"].

(** UNIQUE on [universityEmail] and PRIMARY KEY on [id], in the order in
    which the engine reports them. *)
Definition unique_columns : list string := ["universityEmail"; "id"].

(** The comparison [=] of a WHERE clause: never true on NULL. *)
Definition sql_eq (a b : sqlval) : bool :=
  match a, b with
  | SNull, _ | _, SNull => false
  | SText s, SText t => (s =? t)%string
  | SText _, _ | _, SText _ => false
  | SInt x, SInt y => x =? y
  | SInt x, SReal y => bool_decide (number_of_Z x = y)
  | SReal x, SInt y => bool_decide (x = number_of_Z y)
  | SReal x, SReal y => bool_decide (x = y)
  end.

Definition lower_ascii (c : ascii) : ascii :=
  let n := N_of_ascii c in
  if ((65 <=? n) && (n <=? 90))%N then ascii_of_N (n + 32) else c.

Fixpoint lower (s : string) : string :=
  match s with
  | String c s' => String (lower_ascii c) (lower s')
  | EmptyString => ""
  end.

(** LOWER(x): folds the 26 letters A to Z of a text. *)
Definition sql_lower (v : sqlval) : sqlval :=
  match v with
  | SText s => SText (lower s)
  | _ => v
  end.

Definition mag_lt (a b : number) : bool :=
  match a, b with
  | Infinity _, _ => false
  | _, Infinity _ => true
  | _, Zero _ => false
  | Zero _, _ => true
  | Finite _ d1 n1, Finite _ d2 n2 => (n1 <? n2) || ((n1 =? n2) && String.ltb d1 d2)
  | _, _ => false
  end.

Definition is_neg (x : number) : bool :=
  match x with
  | Infinity n | Finite n _ _ => n
  | _ => false
  end.

Definition number_lt (a b : number) : bool :=
  if is_neg a then (if is_neg b then mag_lt b a else true)
  else (if is_neg b then false else mag_lt a b).

Definition to_number (v : sqlval) : number :=
  match v with
  | SInt z => number_of_Z z
  | SReal x => x
  | _ => NaN
  end.

(** The order of ORDER BY: NULL first, then the numbers by value, then
    the texts byte by byte. *)
Definition sql_lt (a b : sqlval) : bool :=
  match a, b with
  | _, SNull => false
  | SNull, _ => true
  | SText s, SText t => String.ltb s t
  | SText _, _ => false
  | _, SText _ => true
  | SInt x, SInt y => x <? y
  | _, _ => number_lt (to_number a) (to_number b)
  end.

Fixpoint insert_desc (key : string) (r : row) (l : list row) : list row :=
  match l with
  | [] => [r]
  | x :: l' =>
      if sql_lt (col r key) (col x key) then x :: insert_desc key r l'
      else r :: x :: l'
  end.

(** ORDER BY [key] DESC; rows with equal keys keep their scan order. *)
Definition order_by_desc (key : string) (l : list row) : list row :=
  foldr (insert_desc key) [] l.

Fixpoint assign (fields : list string) (params : list sqlval) (r : row) : row :=
  match fields, params with
  | f :: fields', p :: params' => assign fields' params' (<[f := p]> r)
  | _, _ => r
  end.

(** WHERE [c] = ? *)
Definition where_column (c : string) (p : sqlval) (r : row) : bool :=
  sql_eq (col r c) p.

(** WHERE universityEmail = ? OR LOWER(fullName) = LOWER(?) *)
Definition where_email_or_name (p1 p2 : sqlval) (r : row) : bool :=
  sql_eq (col r "universityEmail") p1
  || sql_eq (sql_lower (col r "fullName")) (sql_lower p2).

Definition count_where (P : row -> bool) (l : list row) : Z :=
  Z.of_nat (length (filter (fun r => P r) l)).

(** The first constraint that the row [r] breaks within the rows [l]
    (which contain [r] itself once). *)
Definition violation (l : list row) (r : row) : option error :=
  match filter (fun c => col r c = SNull) not_null_columns with
  | c :: _ => Some (SQLITE_CONSTRAINT ("NOT NULL constraint failed: users." +:+ c))
  | [] =>
      match filter (fun c => 1 <? count_where (where_column c (col r c)) l)
                   unique_columns with
      | c :: _ => Some (SQLITE_CONSTRAINT ("UNIQUE constraint failed: users." +:+ c))
      | [] => None
      end
  end.

Definition first_violation (l changed : list row) : option error :=
  list_find (fun e : option error => is_Some e) (violation l <$> changed)
  ≫= snd.

Definition result : Type := error + (list row * option table).

Definition no_table : result := inl (SQLITE_ERROR "no such table: users").

(** One statement against the [users] table of the database file
    ([None] while the table does not exist): the rows it returns and the
    table afterwards.  A statement that fails leaves the table as it
    was. *)
Definition exec (st : statement) (db : option table) : result :=
  match st, db with
  | CREATE_TABLE_IF_NOT_EXISTS, None =>
      inr ([], Some {| columns := users_columns; rows := [] |})
  | CREATE_TABLE_IF_NOT_EXISTS, Some _ => inr ([], db)
  | _, None => no_table
  | ALTER_TABLE_ADD_COLUMN c d, Some t =>
      if decide (c ∈ columns t)
      then inl (SQLITE_ERROR ("duplicate column name: " +:+ c))
      else inr ([], Some {| columns := columns t ++ [c];
                            rows := (fun r => <[c := d]> r) <$> rows t |})
  | INSERT cols params, Some t =>
      match filter (fun c => c ∉ columns t) cols with
      | c :: _ => inl (SQLITE_ERROR ("table users has no column named " +:+ c))
      | [] =>
          let r := assign cols params
                     (list_to_map ((fun c => (c, SNull)) <$> columns t)) in
          let l := rows t ++ [r] in
          match violation l r with
          | Some e => inl e
          | None => inr ([], Some {| columns := columns t; rows := l |})
          end
      end
  | SELECT_BY_EMAIL_OR_NAME p1 p2, Some t =>
      inr (filter (fun r => where_email_or_name p1 p2 r) (rows t), db)
  | SELECT_BY_ID p, Some t =>
      inr (filter (fun r => where_column "id" p r) (rows t), db)
  | SELECT_BY_TOKEN p, Some t =>
      inr (filter (fun r => where_column "verificationToken" p r) (rows t), db)
  | UPDATE_BY_ID fields params, Some t =>
      match filter (fun c => c ∉ columns t) fields with
      | c :: _ => inl (SQLITE_ERROR ("no such column: " +:+ c))
      | [] =>
          let id := List.last params SNull in
          let hit (r : row) := where_column "id" id r in
          let l := (fun r => if hit r then assign fields params r else r) <$> rows t in
          let changed := assign fields params <$> filter (fun r => hit r) (rows t) in
          match first_violation l changed with
          | Some e => inl e
          | None => inr ([], Some {| columns := columns t; rows := l |})
          end
      end
  | SELECT_COUNT_BY_EMAIL p, Some t =>
      inr ([ {[ "count" := SInt (count_where (where_column "universityEmail" p)
                                             (rows t)) ]} ], db)
  | SELECT_ALL_ORDER_BY_CREATED_DESC, Some t =>
      inr (order_by_desc "createdAt" (rows t), db)
  | DELETE_ALL, Some t => inr ([], Some {| columns := columns t; rows := [] |})
  end.

End Sqlite.

(* ===================================================================== *)
(** ** The [Database] class *)
(* ===================================================================== *)

Module Db.
Import JS Sqlite.

Record CollegeData := {
  department : string;
  courses : list string;
  academicYear : string;
  semester : string;
  advisor : option string;
  gpa : option number
}.

Record User := {
  id : string;
  fullName : string;
  universityEmail : string;
  password : string;
  phoneNumber : option string;
  universityName : option string;
  universityId : option string;
  program : option string;
  yearOfStudy : option string;
  createdAt : Date;
  isEmailVerified : bool;
  verificationToken : option string;
  verificationTokenExpiry : option Date;
  collegeData : option CollegeData
}.

(** A [User] as the object a caller holds; an optional property that is
    absent reads as [undefined]. *)
Abbreviation object := (gmap string value).

Definition prop (o : object) (k : string) : value := default undefined (o !! k).

Definition optional {A} (k : string) (f : A -> value) (x : option A)
  : list (string * value) :=
  match x with Some a => [(k, f a)] | None => [] end.

Definition college_value (c : CollegeData) : value :=
  VObj ([("department", VStr (department c));
         ("courses", VArr (VStr <$> courses c));
         ("academicYear", VStr (academicYear c));
         ("semester", VStr (semester c))]
        ++ optional "advisor" VStr (advisor c)
        ++ optional "gpa" VNum (gpa c)).

Definition user_object (u : User) : object :=
  list_to_map
    ([("id", VStr (id u)); ("fullName", VStr (fullName u));
      ("universityEmail", VStr (universityEmail u));
      ("password", VStr (password u));
      ("createdAt", VDate (createdAt u));
      ("isEmailVerified", VBool (isEmailVerified u))]
     ++ optional "phoneNumber" VStr (phoneNumber u)
     ++ optional "universityName" VStr (universityName u)
     ++ optional "universityId" VStr (universityId u)
     ++ optional "program" VStr (program u)
     ++ optional "yearOfStudy" VStr (yearOfStudy u)
     ++ optional "verificationToken" VStr (verificationToken u)
     ++ optional "verificationTokenExpiry" VDate (verificationTokenExpiry u)
     ++ optional "collegeData" college_value (collegeData u)).

(** *** State and effects *)

(** How a call ends when it does not return a value: with an exception,
    or not at all.  [Unsettled] is no exception: it stands for an
    [await] that never resumes because the promise awaited is never
    settled.  Nothing after it is run and no handler sees it. *)
Inductive exn :=
| RangeError
| SyntaxError
| TypeError
| SqliteError (e : Sqlite.error)
| Error (msg : string)
| Unsettled.

(** The promise in [initPromise].  [Stalled] is a pending promise whose
    call of [_doInitialize] has stopped for good: it stays pending. *)
Inductive promise :=
| Pending
| Fulfilled
| Rejected (e : exn)
| Stalled.

(** What the object does to its surroundings, oldest first.  [Uncaught]
    is an exception thrown outside every handler of the class. *)
Inductive event :=
| DoInitialize
| EnsureDataDirectory
| ImportSqlite3
| OpenDatabase
| Uncaught (e : exn)
| Run (st : statement).

(** The fields of the object ([initialized], [initPromise]) together with
    what they stand on: the [users] table of the database file, whether
    the data directory and the driver module are available, whether the
    database file can be opened, the faults of the engine that do not
    depend on the data (a read-only file, a full disk), and the log of
    events. *)
Record Database := {
  initialized : bool;
  initPromise : option promise;
  file : option table;
  dataDirOk : bool;
  sqlite3Ok : bool;
  openOk : bool;
  fault : statement -> option Sqlite.error;
  trace : list event
}.

Definition set_initialized (b : bool) (s : Database) : Database :=
  {| initialized := b; initPromise := initPromise s; file := file s;
     dataDirOk := dataDirOk s; sqlite3Ok := sqlite3Ok s; openOk := openOk s;
     fault := fault s;
     trace := trace s |}.

Definition set_initPromise (p : option promise) (s : Database) : Database :=
  {| initialized := initialized s; initPromise := p; file := file s;
     dataDirOk := dataDirOk s; sqlite3Ok := sqlite3Ok s; openOk := openOk s;
     fault := fault s;
     trace := trace s |}.

Definition set_file (f : option table) (s : Database) : Database :=
  {| initialized := initialized s; initPromise := initPromise s; file := f;
     dataDirOk := dataDirOk s; sqlite3Ok := sqlite3Ok s; openOk := openOk s;
     fault := fault s;
     trace := trace s |}.

Definition log (e : event) (s : Database) : Database :=
  {| initialized := initialized s; initPromise := initPromise s; file := file s;
     dataDirOk := dataDirOk s; sqlite3Ok := sqlite3Ok s; openOk := openOk s;
     fault := fault s;
     trace := trace s ++ [e] |}.

(** A computation returns, throws or never resumes, and leaves a state
    behind in each case. *)
Definition M (A : Type) : Type := Database -> (exn + A) * Database.

Definition ret {A} (a : A) : M A := fun s => (inr a, s).

Definition throw {A} (e : exn) : M A := fun s => (inl e, s).

Definition bindM {A B} (m : M A) (k : A -> M B) : M B :=
  fun s => match m s with
           | (inr a, s') => k a s'
           | (inl e, s') => (inl e, s')
           end.

Definition try_catch {A} (m : M A) (handler : exn -> M A) : M A :=
  fun s => match m s with
           | (inl Unsettled, s') => (inl Unsettled, s')
           | (inl e, s') => handler e s'
           | r => r
           end.

Notation "x <- m ;; k" := (bindM m (fun x => k))
  (at level 100, m at next level, right associativity).
Notation "m ;; k" := (bindM m (fun _ => k))
  (at level 100, right associativity).

Definition modify (f : Database -> Database) : M unit := fun s => (inr tt, f s).

Definition lift {A} (r : exn + A) : M A := fun s => (r, s).

(** The driver: [run] discards the rows, [get] keeps the first one,
    [all] keeps them all. *)
Definition engine (st : statement) : M (list row) :=
  fun s =>
    let s := log (Run st) s in
    match fault s st with
    | Some e => (inl (SqliteError e), s)
    | None =>
        match exec st (file s) with
        | inl e => (inl (SqliteError e), s)
        | inr (rs, f) => (inr rs, set_file f s)
        end
    end.

Definition run (st : statement) : M unit := engine st ;; ret tt.
Definition get (st : statement) : M (option row) := rs <- engine st ;; ret (head rs).
Definition all (st : statement) : M (list row) := engine st.

(** *** Initialisation *)

Definition ensureDataDirectory : M unit :=
  modify (log EnsureDataDirectory) ;;
  fun s => if dataDirOk s then (inr tt, s) else (inl (Error "EACCES"), s).

Definition import_sqlite3 : M unit :=
  modify (log ImportSqlite3) ;;
  fun s => if sqlite3Ok s then (inr tt, s)
           else (inl (Error "Cannot find package 'sqlite3'"), s).

(** SQLITE_CANTOPEN. *)
Definition cantopen : exn := SqliteError (SQLITE_FAULT 14).

(** [this.db = new sqlite3.default.Database(DB_PATH, callback)]: the
    constructor returns at once, the file is opened in the background
    and the statements submitted meanwhile wait for it.  When the file
    cannot be opened the callback throws the error outside every handler
    and the statements that wait are never run: the [await] of the first
    of them, CREATE TABLE, never resumes. *)
Definition open_database : M unit :=
  modify (log OpenDatabase) ;;
  fun s => if openOk s then (inr tt, s)
           else (inl Unsettled, log (Uncaught cantopen) s).

Definition unavailable : string :=
  "SQLite3 package not installed or database initialization failed. Run: npm install sqlite3 @types/sqlite3".

Definition swallow (m : M unit) : M unit := try_catch m (fun _ => ret tt).

Definition _doInitialize : M unit :=
  try_catch
    (ensureDataDirectory ;;
     import_sqlite3 ;;
     open_database ;;
     run CREATE_TABLE_IF_NOT_EXISTS ;;
     swallow (run (ALTER_TABLE_ADD_COLUMN "isEmailVerified" (SInt 0))) ;;
     swallow (run (ALTER_TABLE_ADD_COLUMN "verificationToken" SNull)) ;;
     swallow (run (ALTER_TABLE_ADD_COLUMN "verificationTokenExpiry" SNull)) ;;
     swallow (run (ALTER_TABLE_ADD_COLUMN "collegeData" SNull)) ;;
     modify (set_initialized true))
    (fun _ => throw (Error unavailable)).

(** What a caller of [initializeDatabase] does next. *)
Inductive wait :=
| Return
| Await.

(** [initializeDatabase] up to its first suspension: return at once when
    initialised, else wait for the promise in [initPromise], calling
    [_doInitialize] for it first if there is none. *)
Definition enter (s : Database) : wait * Database :=
  if initialized s then (Return, s)
  else match initPromise s with
       | Some _ => (Await, s)
       | None => (Await, set_initPromise (Some Pending) (log DoInitialize s))
       end.

(** The call of [_doInitialize] in flight runs as far as it gets: to its
    end, which settles the promise, or to an [await] that never resumes,
    which leaves the promise pending for ever. *)
Definition settle (s : Database) : Database :=
  match initPromise s with
  | Some Pending =>
      match _doInitialize s with
      | (inr _, s') => set_initPromise (Some Fulfilled) s'
      | (inl Unsettled, s') => set_initPromise (Some Stalled) s'
      | (inl e, s') => set_initPromise (Some (Rejected e)) s'
      end
  | _ => s
  end.

(** What awaiting the promise in [initPromise] gives. *)
Definition outcome (s : Database) : exn + unit :=
  match initPromise s with
  | Some (Rejected e) => inl e
  | Some Stalled => inl Unsettled
  | _ => inr tt
  end.

(** [await this.initializeDatabase()] when the callers run one after the
    other: the wait lasts until the promise is settled, for ever if it is
    not. *)
Definition initializeDatabase : M unit :=
  fun s =>
    match enter s with
    | (Return, s') => (inr tt, s')
    | (Await, s') => let s'' := settle s' in (outcome s'', s'')
    end.

(** *** Methods *)

Definition insert_columns : list string :=
  ["id"; "fullName"; "universityEmail"; "password"; "phoneNumber";
   "universityName"; "universityId"; "program"; "yearOfStudy";
   "isEmailVerified"; "verificationToken"; "verificationTokenExpiry";
   "collegeData"; "createdAt"].

Definition opt_string (x : option string) : value :=
  match x with Some s => VStr s | None => undefined end.

(** [d.toISOString()], which throws on an invalid date. *)
Definition toISOString_ (d : Date) : M value :=
  match toISOString d with
  | Some t => ret (VStr t)
  | None => throw RangeError
  end.

(** [JSON.stringify(v)] as a value. *)
Definition JSON_stringify (v : value) : value :=
  match stringify v with Some t => VStr t | None => undefined end.

Definition addUser_body (user : User) : M unit :=
  expiry <- match verificationTokenExpiry user with
            | Some d => toISOString_ d
            | None => ret undefined
            end ;;
  college <- ret match collegeData user with
                 | Some c => JSON_stringify (college_value c)
                 | None => null
                 end ;;
  created <- toISOString_ (createdAt user) ;;
  run (INSERT insert_columns
         (bind <$> [VStr (id user); VStr (fullName user);
                    VStr (universityEmail user); VStr (password user);
                    opt_string (phoneNumber user);
                    opt_string (universityName user);
                    opt_string (universityId user);
                    opt_string (program user); opt_string (yearOfStudy user);
                    VBool (isEmailVerified user);
                    opt_string (verificationToken user);
                    expiry; college; created])).

Definition addUser (user : User) : M unit :=
  initializeDatabase ;; addUser_body user.

(** [JSON.parse(v)], which reads the string form of [v]. *)
Definition JSON_parse (v : value) : exn + value :=
  match parse (ToString v) with
  | Some x => inr x
  | None => inl SyntaxError
  end.

Definition rowToUser (r : row) : exn + object :=
  let o : object := unbind <$> r in
  match (if truthy (prop o "collegeData") then JSON_parse (prop o "collegeData")
         else inr undefined) with
  | inl e => inl e
  | inr college =>
      inr (<["collegeData" := college]>
           (<["verificationTokenExpiry" :=
                if truthy (prop o "verificationTokenExpiry")
                then VDate (Date_new (prop o "verificationTokenExpiry"))
                else undefined]>
           (<["isEmailVerified" := VBool (truthy (prop o "isEmailVerified"))]>
           (<["createdAt" := VDate (Date_new (prop o "createdAt"))]> o))))
  end.

(** [row ? this.rowToUser(row) : undefined]. *)
Definition decode (r : option row) : exn + option object :=
  match r with
  | Some r => match rowToUser r with
              | inl e => inl e
              | inr u => inr (Some u)
              end
  | None => inr None
  end.

Definition findUser_body (emailOrUsername : string) : M (option object) :=
  r <- get (SELECT_BY_EMAIL_OR_NAME (bind (VStr emailOrUsername))
                                    (bind (VStr emailOrUsername))) ;;
  lift (decode r).

Definition findUser (emailOrUsername : string) : M (option object) :=
  initializeDatabase ;; findUser_body emailOrUsername.

Definition findUserById_body (id : string) : M (option object) :=
  r <- get (SELECT_BY_ID (bind (VStr id))) ;;
  lift (decode r).

Definition findUserById (id : string) : M (option object) :=
  initializeDatabase ;; findUserById_body id.

Definition findUserByVerificationToken_body (token : string) : M (option object) :=
  r <- get (SELECT_BY_TOKEN (bind (VStr token))) ;;
  lift (decode r).

Definition findUserByVerificationToken (token : string) : M (option object) :=
  initializeDatabase ;; findUserByVerificationToken_body token.

Definition is_undefined (v : value) : bool :=
  match v with undefined => true | _ => false end.

(** The loop over [Object.entries(updates)]: the SET clause and its
    parameters, or the exception the loop throws. *)
Fixpoint collect (entries : list (string * value))
    (fields : list string) (values : list value)
  : exn + (list string * list value) :=
  match entries with
  | [] => inr (fields, values)
  | (key, v) :: rest =>
      if (key =? "collegeData")%string && truthy v then
        collect rest (fields ++ [key]) (values ++ [JSON_stringify v])
      else if (key =? "verificationTokenExpiry")%string && truthy v then
        match v with
        | VDate d =>
            match toISOString d with
            | Some t => collect rest (fields ++ [key]) (values ++ [VStr t])
            | None => inl RangeError
            end
        | _ => inl TypeError
        end
      else if negb (is_undefined v) then
        collect rest (fields ++ [key]) (values ++ [v])
      else collect rest fields values
  end.

Definition updateUser_body (id : string) (updates : list (string * value)) : M unit :=
  fv <- lift (collect updates [] []) ;;
  let '(fields, values) := fv in
  if (0 <? length fields)%nat
  then run (UPDATE_BY_ID fields (bind <$> (values ++ [VStr id])))
  else ret tt.

Definition updateUser (id : string) (updates : list (string * value)) : M unit :=
  initializeDatabase ;; updateUser_body id updates.

Definition positive (v : value) : bool :=
  match v with
  | VNum (Finite false _ _) | VNum (Infinity false) => true
  | _ => false
  end.

Definition emailExists_body (email : string) : M bool :=
  r <- get (SELECT_COUNT_BY_EMAIL (bind (VStr email))) ;;
  match r with
  | Some r => ret (positive (unbind (col r "count")))
  | None => throw TypeError
  end.

Definition emailExists (email : string) : M bool :=
  initializeDatabase ;; emailExists_body email.

Fixpoint mapM {A B} (f : A -> exn + B) (l : list A) : exn + list B :=
  match l with
  | [] => inr []
  | a :: l' =>
      match f a with
      | inl e => inl e
      | inr b => match mapM f l' with
                 | inl e => inl e
                 | inr bs => inr (b :: bs)
                 end
      end
  end.

Definition getAllUsers_body : M (list object) :=
  rs <- all SELECT_ALL_ORDER_BY_CREATED_DESC ;;
  lift (mapM rowToUser rs).

Definition getAllUsers : M (list object) :=
  initializeDatabase ;; getAllUsers_body.

Definition clearAllUsers_body : M unit :=
  run DELETE_ALL.

Definition clearAllUsers : M unit :=
  initializeDatabase ;; clearAllUsers_body.

(** A database file not yet created, seen from a new object. *)
Definition fresh : Database :=
  {| initialized := false; initPromise := None; file := None;
     dataDirOk := true; sqlite3Ok := true; openOk := true;
     fault := fun _ => None; trace := [] |}.

(** *** Callers that overlap

    A caller runs until its [await]; the others run meanwhile.  [Call]
    is a caller entering a method, up to the suspension inside
    [initializeDatabase]; [Settle] is the call of [_doInitialize] in
    flight running as far as it gets.  When it settles the promise, the
    callers suspended on it go on, in the order in which they arrived;
    when it leaves the promise pending for ever, they stay suspended, and
    so does every later caller. *)

Inductive operation :=
| AddUser (user : User)
| FindUser (emailOrUsername : string)
| FindUserById (id : string)
| FindUserByVerificationToken (token : string)
| UpdateUser (id : string) (updates : list (string * value))
| EmailExists (email : string)
| GetAllUsers
| ClearAllUsers.

(** The state a method leaves once initialisation is behind it. *)
Definition body (op : operation) (s : Database) : Database :=
  match op with
  | AddUser u => snd (addUser_body u s)
  | FindUser q => snd (findUser_body q s)
  | FindUserById i => snd (findUserById_body i s)
  | FindUserByVerificationToken t => snd (findUserByVerificationToken_body t s)
  | UpdateUser i us => snd (updateUser_body i us s)
  | EmailExists e => snd (emailExists_body e s)
  | GetAllUsers => snd (getAllUsers_body s)
  | ClearAllUsers => snd (clearAllUsers_body s)
  end.

Inductive step_event :=
| Call (op : operation)
| Settle.

(** The object, the callers suspended on [initPromise], and for every
    caller that got past [initializeDatabase] what its await gave. *)
Record system := {
  obj : Database;
  suspended : list operation;
  resumed : list (operation * (exn + unit))
}.

Definition resume (r : exn + unit) (sys : system) (op : operation) : system :=
  {| obj := match r with inr _ => body op (obj sys) | inl _ => obj sys end;
     suspended := suspended sys;
     resumed := resumed sys ++ [(op, r)] |}.

Definition step (sys : system) (e : step_event) : system :=
  match e with
  | Call op =>
      match enter (obj sys) with
      | (Return, s) =>
          resume (inr tt) {| obj := s; suspended := suspended sys;
                             resumed := resumed sys |} op
      | (Await, s) =>
          match initPromise s with
          | Some Pending | Some Stalled =>
              {| obj := s; suspended := suspended sys ++ [op];
                 resumed := resumed sys |}
          | _ =>
              resume (outcome s) {| obj := s; suspended := suspended sys;
                                    resumed := resumed sys |} op
          end
      end
  | Settle =>
      match initPromise (obj sys) with
      | Some Pending =>
          let s := settle (obj sys) in
          match initPromise s with
          | Some Stalled =>
              {| obj := s; suspended := suspended sys; resumed := resumed sys |}
          | _ =>
              foldl (resume (outcome s))
                    {| obj := s; suspended := []; resumed := resumed sys |}
                    (suspended sys)
          end
      | _ => sys
      end
  end.

Definition start (s : Database) : system :=
  {| obj := s; suspended := []; resumed := [] |}.

#[global] Instance error_eq_dec : EqDecision Sqlite.error.
Proof. solve_decision. Defined.

#[global] Instance statement_eq_dec : EqDecision statement.
Proof. solve_decision. Defined.

#[global] Instance exn_eq_dec : EqDecision exn.
Proof. solve_decision. Defined.

#[global] Instance event_eq_dec : EqDecision event.
Proof. solve_decision. Defined.

(** How often the event [e] occurs in a log. *)
Definition occurrences (e : event) (l : list event) : nat :=
  length (filter (fun x => x = e) l).

(** Every method under one type, to speak of "any operation". *)
Inductive answer :=
| Done
| Found (o : option object)
| Flag (b : bool)
| Users (l : list object).

Definition perform (op : operation) : M answer :=
  match op with
  | AddUser u => addUser u ;; ret Done
  | FindUser q => o <- findUser q ;; ret (Found o)
  | FindUserById i => o <- findUserById i ;; ret (Found o)
  | FindUserByVerificationToken t =>
      o <- findUserByVerificationToken t ;; ret (Found o)
  | UpdateUser i us => updateUser i us ;; ret Done
  | EmailExists e => b <- emailExists e ;; ret (Flag b)
  | GetAllUsers => l <- getAllUsers ;; ret (Users l)
  | ClearAllUsers => clearAllUsers ;; ret Done
  end.

(** The engine has no fault that is independent of the data. *)
Definition reliable (s : Database) : Prop := forall st, fault s st = None.

Definition stored_rows (s : Database) : list row :=
  match file s with Some t => rows t | None => [] end.

(** The state in which a method runs its statement. *)
Definition after_init (s : Database) : Database := snd (initializeDatabase s).

End Db.

(* ===================================================================== *)
(** ** The instance shared by the process *)
(* ===================================================================== *)

Module Singleton.
Import Db.

(** The objects of the class that the process has constructed, known by
    their addresses (their places in [heap]) and holding the two fields
    that the class declares, and the module variable [dbInstance], which
    is [null] or the address of one of them. *)
Record process := {
  heap : list (bool * option promise);
  dbInstance : option nat
}.

(** [new Database()]: a new object, not initialised and with no promise. *)
Definition new_Database (p : process) : nat * process :=
  (length (heap p),
   {| heap := heap p ++ [(false, None)]; dbInstance := dbInstance p |}).

Definition getDatabase (p : process) : nat * process :=
  match dbInstance p with
  | Some a => (a, p)
  | None =>
      let '(a, p') := new_Database p in
      (a, {| heap := heap p'; dbInstance := Some a |})
  end.

(** [n] calls of [getDatabase], one after the other: what they return,
    and the process afterwards. *)
Fixpoint calls (n : nat) (p : process) : list nat * process :=
  match n with
  | O => ([], p)
  | S n' =>
      let '(a, p1) := getDatabase p in
      let '(l, p2) := calls n' p1 in
      (a :: l, p2)
  end.

End Singleton.

(* ===================================================================== *)
(** ** Notions used in the statements *)
(* ===================================================================== *)

Import Digits JS Sqlite Db.

Definition same_env (s s' : Database) : Prop :=
  dataDirOk s' = dataDirOk s /\ sqlite3Ok s' = sqlite3Ok s /\ fault s' = fault s
  /\ openOk s' = openOk s.

Definition alter1 := ALTER_TABLE_ADD_COLUMN "isEmailVerified" (SInt 0).
Definition alter2 := ALTER_TABLE_ADD_COLUMN "verificationToken" SNull.
Definition alter3 := ALTER_TABLE_ADD_COLUMN "verificationTokenExpiry" SNull.
Definition alter4 := ALTER_TABLE_ADD_COLUMN "collegeData" SNull.

Definition migrated (s : Database) : Database :=
  let s := snd (engine CREATE_TABLE_IF_NOT_EXISTS
                 (log OpenDatabase
                    (log ImportSqlite3 (log EnsureDataDirectory s)))) in
  let s := snd (engine alter1 s) in
  let s := snd (engine alter2 s) in
  let s := snd (engine alter3 s) in
  snd (engine alter4 s).

Definition init_ok (s : Database) : bool :=
  dataDirOk s && sqlite3Ok s && openOk s
  && bool_decide (fault s CREATE_TABLE_IF_NOT_EXISTS = None).

(** The data directory and the driver are there and the database file
    cannot be opened. *)
Definition stalls (s : Database) : bool :=
  dataDirOk s && sqlite3Ok s && negb (openOk s).

Definition settled (s : Database) : bool :=
  match initPromise s with
  | Some Fulfilled | Some (Rejected _) => true
  | _ => false
  end.

Definition create := Run CREATE_TABLE_IF_NOT_EXISTS.

(** What holds of the object and its callers however they overlap. *)
Definition invariant (sys : system) : Prop :=
  let s := obj sys in
  occurrences DoInitialize (trace s)
    = (match initPromise s with None => 0 | Some _ => 1 end)%nat
  /\ (occurrences create (trace s) <= if settled s then 1 else 0)%nat
  /\ (initialized s = true <-> initPromise s = Some Fulfilled)
  /\ (suspended sys <> [] ->
      initPromise s = Some Pending \/ initPromise s = Some Stalled)
  /\ (forall op r, (op, r) ∈ resumed sys -> settled s = true /\ r = outcome s).



(** Two characters that are equal, or the two cases of one of the letters
    A to Z (65 to 90 in upper case, 32 more in lower case). *)
Definition same_letter (a b : ascii) : Prop :=
  let x := N_of_ascii a in
  let y := N_of_ascii b in
  (x = y \/ (65 <= x <= 90 /\ y = x + 32) \/ (65 <= y <= 90 /\ x = y + 32))%N.

(** Two texts that are equal up to the case of their letters. *)
Fixpoint same_up_to_case (a b : string) : Prop :=
  match a, b with
  | EmptyString, EmptyString => True
  | String x a', String y b' => same_letter x y /\ same_up_to_case a' b'
  | _, _ => False
  end.

(** The row [r] has the address [q] or, letter case apart, the name [q]. *)
Definition answers_to (r : row) (q : string) : Prop :=
  col r "universityEmail" = SText q
  \/ exists n, col r "fullName" = SText n /\ same_up_to_case n q.

(** The columns that [rowToUser] decodes; it copies the others. *)
Definition decoded_columns : list string :=
  ["collegeData"; "verificationTokenExpiry"; "isEmailVerified"; "createdAt"].

(** The table [t] with other expiry times. *)
Definition with_expiry (expiry : row -> sqlval) (t : table) : table :=
  {| columns := columns t;
     rows := (fun r => <["verificationTokenExpiry" := expiry r]> r) <$> rows t |}.

Definition steady (s : Database) : Prop :=
  initialized s = true \/ initPromise s = Some Fulfilled.

(** The row that [INSERT] builds. *)
Definition inserted (t : table) (params : list sqlval) : row :=
  assign insert_columns params (list_to_map ((fun c => (c, SNull)) <$> columns t)).

(** The parameters [addUser] binds; [None] when a date is invalid. *)
Definition stored_params (u : User) : option (list sqlval) :=
  expiry ← match verificationTokenExpiry u with
           | Some d => VStr <$> toISOString d
           | None => Some undefined
           end;
  created ← VStr <$> toISOString (createdAt u);
  Some (bind <$> [VStr (id u); VStr (fullName u); VStr (universityEmail u);
                  VStr (password u); opt_string (phoneNumber u);
                  opt_string (universityName u); opt_string (universityId u);
                  opt_string (program u); opt_string (yearOfStudy u);
                  VBool (isEmailVerified u); opt_string (verificationToken u);
                  expiry;
                  match collegeData u with
                  | Some c => JSON_stringify (college_value c)
                  | None => null
                  end;
                  created]).

(** The table after a successful INSERT. *)
Definition with_row (t : table) (ps : list sqlval) : table :=
  {| columns := columns t; rows := rows t ++ [inserted t ps] |}.

Definition valid_dates (u : User) : Prop :=
  valid_date (createdAt u)
  /\ forall d, verificationTokenExpiry u = Some d -> valid_date d.

(** The entries of a partial update that carry a value. *)
Definition applicable (updates : list (string * value)) : list (string * value) :=
  filter (fun kv => negb (is_undefined kv.2)) updates.

(** The columns that the migration adds. *)
Definition added_columns : list string :=
  ["isEmailVerified"; "verificationToken"; "verificationTokenExpiry"; "collegeData"].

(** The table [t'] has every row of [t] at its place, and every cell as it
    was, but for the cells of a column that was added. *)
Definition keeps_cells (t t' : table) : Prop :=
  length (rows t') = length (rows t)
  /\ (forall c, c ∈ columns t -> c ∈ columns t')
  /\ forall i r, rows t !! i = Some r ->
       exists r', rows t' !! i = Some r'
         /\ forall k, k ∈ columns t \/ k ∉ added_columns -> r' !! k = r !! k.

(** The rows after UPDATE ... WHERE id = [idv]. *)
Definition updated (fields : list string) (params : list sqlval) (idv : sqlval)
    (l : list row) : list row :=
  (fun r => if where_column "id" idv r then assign fields params r else r) <$> l.

(** The keys of a partial update are names of properties of the
    interface [User], as the type [Partial<User>] makes them. *)
Definition keys_of_User (updates : list (string * value)) : Prop :=
  forall k, k ∈ updates.*1 -> k ∈ users_columns.

(** The columns of the table are columns of the schema: the table was
    made by the class, in this version or an earlier one. *)
Definition table_of_class (t : table) : Prop :=
  forall c, c ∈ columns t -> c ∈ users_columns.

Fixpoint zrange (n : nat) (start : Z) : list Z :=
  match n with
  | O => []
  | S k => start :: zrange k (start + 1)
  end.

(** January and February belong to the civil year after the one the era
    counts them in. *)
Definition year_shift (m : Z) : Z := if m <=? 2 then 1 else 0.

Definition doe_ok (doe : Z) : bool :=
  let '(yoe, m, d) := civil_of_doe doe in
  (0 <=? yoe) && (yoe <=? 399) && (1 <=? m) && (m <=? 12) && (1 <=? d)
  && (d <=? DaysInMonth (yoe + year_shift m) m)
  && (doe_of_civil yoe m d =? doe).

(** A date as one number, [yyyymmdd]. *)
Definition date_key (ymd : Z * Z * Z) : Z :=
  let '(y, m, d) := ymd in y * 10000 + m * 100 + d.

Definition doe_key (doe : Z) : Z :=
  let '(yoe, m, d) := civil_of_doe doe in date_key (yoe + year_shift m, m, d).

(** The year of the era, and the day on which it starts. *)
Definition yoe_of (doe : Z) : Z :=
  (doe - doe / 1460 + doe / 36524 - doe / 146096) / 365.

Definition year_start (y : Z) : Z := 365 * y + y / 4 - y / 100.

(** Month and day of the month from the day of a year that starts in
    March. *)
Definition month_day (doy : Z) : Z * Z :=
  let mp := (5 * doy + 2) / 153 in
  (if mp <? 10 then mp + 3 else mp - 9, doy - (153 * mp + 2) / 5 + 1).

Definition doy_key (doy : Z) : Z :=
  let '(m, d) := month_day doy in year_shift m * 10000 + m * 100 + d.

Definition doy_ok (doy : Z) : bool :=
  let '(m, d) := month_day doy in
  (1 <=? m) && (m <=? 12) && (1 <=? d)
  && (d <=? DaysInMonth (if doy =? 365 then 0 else 1) m)
  && ((153 * (if 2 <? m then m - 3 else m + 9) + 2) / 5 + d - 1 =? doy)
  && (301 <=? doy_key doy) && (doy_key doy <=? 10229)
  && ((doy =? 365) || (doy_key doy <? doy_key (doy + 1)))
  && implb (doy =? 365) (m =? 2).

Definition all_digits (s : string) : bool := forallb is_digit (list_ascii_of_string s).

(** The string does not go on with a digit. *)
Definition no_digit_ahead (s : string) : Prop :=
  match s with
  | String c _ => is_digit c = false
  | EmptyString => True
  end.

(** The numbers that [JSON.stringify] writes as numerals which read back
    as themselves: the finite ones, but for the negative zero. *)
Definition json_number (x : number) : Prop :=
  match x with
  | Zero neg => neg = false
  | Finite _ _ _ => wf_number x
  | NaN | Infinity _ => False
  end.

(** The string does not go on as a numeral would. *)
Definition ends_numeral (s : string) : Prop :=
  match s with
  | String c _ =>
      is_digit c = false /\ c <> "."%char /\ c <> "e"%char /\ c <> "E"%char
  | EmptyString => True
  end.

(** The gpa of a [collegeData], when present, is a number that JSON can
    carry. *)
Definition valid_college (c : CollegeData) : Prop :=
  forall g, gpa c = Some g -> json_number g.

(** The text that [JSON.stringify] gives for a [collegeData]. *)
Definition college_text (c : CollegeData) : string :=
  "{" +:+
  join ","
    ([quote "department" +:+ ":" +:+ quote (department c);
      quote "courses" +:+ ":" +:+ ("[" +:+ join "," (quote <$> courses c) +:+ "]");
      quote "academicYear" +:+ ":" +:+ quote (academicYear c);
      quote "semester" +:+ ":" +:+ quote (semester c)]
     ++ match advisor c with
        | Some a => [quote "advisor" +:+ ":" +:+ quote a]
        | None => []
        end
     ++ match gpa c with
        | Some g => [quote "gpa" +:+ ":" +:+ Number_toString g]
        | None => []
        end)
  +:+ "}".

(** Members separated by commas, followed by [tail]. *)
Fixpoint members_text (ms : list string) (tail : string) : string :=
  match ms with
  | [] => tail
  | m :: ms' =>
      match ms' with
      | [] => m +:+ tail
      | _ :: _ => m +:+ String "," (members_text ms' tail)
      end
  end.

(** A user whose dates are valid and whose [collegeData], when present,
    holds a number that JSON can carry. *)
Definition valid_user (u : User) : Prop :=
  valid_dates u /\ forall c, collegeData u = Some c -> valid_college c.

(** The optional properties that are stored as plain text. *)
Definition text_fields : list string :=
  ["phoneNumber"; "universityName"; "universityId"; "program"; "yearOfStudy";
   "verificationToken"].

(** What a lookup gives for the property [k] of a stored user [u]: the
    value the caller passed, but [null] where an optional text property
    was absent. *)
Definition read_back (u : User) (k : string) : value :=
  let v := prop (user_object u) k in
  if bool_decide (k ∈ text_fields)
  then match v with undefined => null | _ => v end
  else v.

(** The property [k] of the record that a lookup returned. *)
Definition read (k : string) (r : exn + option object) : option value :=
  match r with
  | inr (Some o) => Some (prop o k)
  | _ => None
  end.

(** A user with [collegeData] and a token, and without a phone number. *)
Definition ann_college : CollegeData :=
  {| department := "CS"; courses := ["Logic"; "Types"]; academicYear := "2024";
     semester := "1"; advisor := None; gpa := Some (Finite false "385" 1) |}.

Definition ann : User :=
  {| id := "1"; fullName := "Ann Lee"; universityEmail := "ann@x.edu";
     password := "pw"; phoneNumber := None; universityName := Some "U";
     universityId := None; program := None; yearOfStudy := None;
     createdAt := DateAt 1700000000123; isEmailVerified := false;
     verificationToken := Some "tok";
     verificationTokenExpiry := Some (DateAt 1700000360000);
     collegeData := Some ann_college |}.

(** Comparison of tuples, first component first. *)
Fixpoint lex (l : list (Z * Z)) : comparison :=
  match l with
  | [] => Eq
  | (a, b) :: l' => match a ?= b with Eq => lex l' | c => c end
  end.

(** The numbers that [toISOString] writes, in the order it writes them. *)
Definition iso_fields (t : Z) : list Z :=
  let '(y, m, d) := civil_from_days (t / msPerDay) in
  let ms := t mod msPerDay in
  [y; m; d; ms / 3600000; ms / 60000 mod 60; ms / 1000 mod 60; ms mod 1000].

(** A date of the years 0000 to 9999, which [toISOString] writes with a
    year of four digits. *)
Definition plain_year (d : Date) : Prop :=
  match d with
  | InvalidDate => False
  | DateAt t => -62167219200000 <= t <= 253402300799999
  end.

(** The date of a day as one number. *)
Definition day_key (z : Z) : Z := date_key (civil_from_days z).

(** The rows come in strictly increasing order of the column [key]. *)
Fixpoint ascending (key : string) (l : list row) : Prop :=
  match l with
  | [] => True
  | r :: l' =>
      Forall (fun r' => sql_lt (col r key) (col r' key) = true) l'
      /\ ascending key l'
  end.

(** One date is strictly before the other. *)
Definition earlier (d1 d2 : Date) : Prop :=
  match d1, d2 with
  | DateAt t1, DateAt t2 => t1 < t2
  | _, _ => False
  end.

(** The record [o] is what a lookup returns for the stored user [u]. *)
Definition returned (u : User) (o : object) : Prop :=
  forall k, k ∈ users_columns -> prop o k = read_back u k.

(** The [id]s of the records that [getAllUsers] returned, in their order. *)
Definition ids (r : exn + list object) : option (list value) :=
  match r with
  | inr l => Some ((fun o => prop o "id") <$> l)
  | inl _ => None
  end.

(** The store after [ann] has been added to a new database. *)
Definition stored : Database := snd (addUser ann fresh).

(** A store that is initialised and holds one row. *)
Definition ready_row : row :=
  list_to_map
    [("id", SText "1"); ("fullName", SText "Ann Lee");
     ("universityEmail", SText "ann@x.edu"); ("password", SText "pw");
     ("phoneNumber", SNull); ("universityName", SText "U");
     ("universityId", SNull); ("program", SNull); ("yearOfStudy", SNull);
     ("isEmailVerified", SInt 0); ("verificationToken", SText "tok");
     ("verificationTokenExpiry", SText "2023-11-14T22:19:20.000Z");
     ("collegeData", SNull); ("createdAt", SText "2023-11-14T22:13:20.123Z")].

Definition ready_table : table :=
  {| columns := users_columns; rows := [ready_row] |}.

Definition ready : Database :=
  {| initialized := true; initPromise := Some Fulfilled;
     file := Some ready_table; dataDirOk := true; sqlite3Ok := true; openOk := true;
     fault := fun _ => None; trace := [] |}.

(** Two more users, added after [ann]. *)
Definition bob : User :=
  {| id := "2"; fullName := "Bob Ray"; universityEmail := "bob@x.edu";
     password := "pw"; phoneNumber := Some "555"; universityName := None;
     universityId := None; program := None; yearOfStudy := None;
     createdAt := DateAt 1700000000124; isEmailVerified := true;
     verificationToken := None; verificationTokenExpiry := None;
     collegeData := None |}.

Definition cyd : User :=
  {| id := "3"; fullName := "Cyd Fox"; universityEmail := "cyd@x.edu";
     password := "pw"; phoneNumber := None; universityName := None;
     universityId := None; program := None; yearOfStudy := None;
     createdAt := DateAt 1800000000000; isEmailVerified := false;
     verificationToken := None; verificationTokenExpiry := None;
     collegeData := None |}.

(** A user created at the time [t], with nothing optional. *)
Definition user_at (i : string) (t : Z) : User :=
  {| id := i; fullName := i; universityEmail := i; password := "pw";
     phoneNumber := None; universityName := None; universityId := None;
     program := None; yearOfStudy := None; createdAt := DateAt t;
     isEmailVerified := false; verificationToken := None;
     verificationTokenExpiry := None; collegeData := None |}.

(** A database whose engine refuses every ALTER TABLE. *)
Definition no_alter : Database :=
  {| initialized := false; initPromise := None; file := None;
     dataDirOk := true; sqlite3Ok := true; openOk := true;
     fault := fun st => match st with
                        | ALTER_TABLE_ADD_COLUMN _ _ => Some (SQLITE_FAULT 8)
                        | _ => None
                        end;
     trace := [] |}.

(** A machine on which the driver is not installed. *)
Definition no_driver : Database :=
  {| initialized := false; initPromise := None; file := None;
     dataDirOk := true; sqlite3Ok := false; openOk := true; fault := fun _ => None;
     trace := [] |}.


(** Someone else who signs up with the e-mail address of [ann]. *)
Definition bob_twin : User :=
  {| id := "2"; fullName := "Bob Ray"; universityEmail := "ann@x.edu";
     password := "pw"; phoneNumber := None; universityName := None;
     universityId := None; program := None; yearOfStudy := None;
     createdAt := DateAt 1700000000124; isEmailVerified := false;
     verificationToken := None; verificationTokenExpiry := None;
     collegeData := None |}.

(** A user created on the date [d], with nothing optional. *)
Definition user_at_date (i : string) (d : Date) : User :=
  {| id := i; fullName := i; universityEmail := i; password := "pw";
     phoneNumber := None; universityName := None; universityId := None;
     program := None; yearOfStudy := None; createdAt := d;
     isEmailVerified := false; verificationToken := None;
     verificationTokenExpiry := None; collegeData := None |}.

(** A database file written by an early version of the class, without
    the columns that were added later, seen from a new object. *)
Definition old_table : table :=
  {| columns := ["id"; "fullName"; "universityEmail"; "password"; "phoneNumber";
                 "universityName"; "universityId"; "program"; "yearOfStudy";
                 "createdAt"];
     rows := [list_to_map
                [("id", SText "1"); ("fullName", SText "Ann Lee");
                 ("universityEmail", SText "ann@x.edu"); ("password", SText "pw");
                 ("phoneNumber", SNull); ("universityName", SText "U");
                 ("universityId", SNull); ("program", SNull);
                 ("yearOfStudy", SNull);
                 ("createdAt", SText "2023-11-14T22:13:20.123Z")]] |}.

Definition old_store : Database :=
  {| initialized := false; initPromise := None; file := Some old_table;
     dataDirOk := true; sqlite3Ok := true; openOk := true; fault := fun _ => None;
     trace := [] |}.

(** The record of [ready_row] once the address is verified and the token
    cleared. *)
Definition verified_record : object :=
  match rowToUser (<["verificationToken" := SNull]>
                   (<["isEmailVerified" := SInt 1]> ready_row)) with
  | inr o => o
  | inl _ => ∅
  end.

(** A second row, created a day after [ready_row], and a store that
    holds both. *)
Definition later_row : row :=
  list_to_map
    [("id", SText "2"); ("fullName", SText "Bob Ray");
     ("universityEmail", SText "bob@x.edu"); ("password", SText "pw");
     ("phoneNumber", SNull); ("universityName", SNull);
     ("universityId", SNull); ("program", SNull); ("yearOfStudy", SNull);
     ("isEmailVerified", SInt 1); ("verificationToken", SNull);
     ("verificationTokenExpiry", SNull); ("collegeData", SNull);
     ("createdAt", SText "2023-11-15T22:13:20.123Z")].

Definition two_rows : Database :=
  {| initialized := true; initPromise := Some Fulfilled;
     file := Some {| columns := users_columns; rows := [ready_row; later_row] |};
     dataDirOk := true; sqlite3Ok := true; openOk := true; fault := fun _ => None; trace := [] |}.

(** The same old file on a full disk: the engine refuses to add a
    column. *)
Definition old_disk_full : Database :=
  {| initialized := false; initPromise := None; file := Some old_table;
     dataDirOk := true; sqlite3Ok := true; openOk := true;
     fault := fun st => match st with
                        | ALTER_TABLE_ADD_COLUMN _ _ => Some (SQLITE_FAULT 13)
                        | _ => None
                        end;
     trace := [] |}.

(** A SELECT leaves the table alone. *)
Definition is_select (st : statement) : bool :=
  match st with
  | SELECT_BY_EMAIL_OR_NAME _ _ | SELECT_BY_ID _ | SELECT_BY_TOKEN _
  | SELECT_COUNT_BY_EMAIL _ | SELECT_ALL_ORDER_BY_CREATED_DESC => true
  | _ => false
  end.

(** The parameter that the loop of [updateUser] pushes for an entry, or
    the exception that the entry makes it throw. *)
Definition encoded (kv : string * value) : exn + value :=
  if (kv.1 =? "collegeData")%string && truthy kv.2 then inr (JSON_stringify kv.2)
  else if (kv.1 =? "verificationTokenExpiry")%string && truthy kv.2 then
    match kv.2 with
    | VDate d =>
        match toISOString d with
        | Some t => inr (VStr t)
        | None => inl RangeError
        end
    | _ => inl TypeError
    end
  else inr kv.2.

(** The properties of [User] that are strings. *)
Definition string_fields : list string :=
  ["id"; "fullName"; "universityEmail"; "password"] ++ text_fields.

(** No row comes before one with a greater [key]. *)
Fixpoint descending (key : string) (l : list row) : Prop :=
  match l with
  | [] => True
  | r :: l' =>
      Forall (fun r' => sql_lt (col r key) (col r' key) = false) l'
      /\ descending key l'
  end.

(** The column [key] of the row holds a text. *)
Definition text_key (key : string) (r : row) : Prop :=
  exists x, col r key = SText x.

(** The createdAt cell of the row is the ISO text of a time of the years
    0000 to 9999. *)
Definition plain_createdAt (r : row) : Prop :=
  exists t, -62167219200000 <= t <= 253402300799999
            /\ col r "createdAt" = SText (iso_of_time t).

(** No two rows of the table hold the same text as [universityEmail]. *)
Definition unique_emails (f : option table) : Prop :=
  forall t i j ri rj x,
    f = Some t -> rows t !! i = Some ri -> rows t !! j = Some rj ->
    col ri "universityEmail" = SText x -> col rj "universityEmail" = SText x ->
    i = j.

(** The statements that the class issues: it adds no other column than
    the four of the migration. *)
Definition class_statement (st : statement) : Prop :=
  match st with
  | ALTER_TABLE_ADD_COLUMN c _ => c ∈ added_columns
  | _ => True
  end.

(** One operation after the other. *)
Definition perform_all (ops : list operation) (s : Database) : Database :=
  foldl (fun s op => snd (perform op s)) s ops.

(** [ann]'s address again, with a [createdAt] that is no date. *)
Definition ann_undated : User :=
  {| id := "9"; fullName := "Ann Lee"; universityEmail := "ann@x.edu";
     password := "pw"; phoneNumber := None; universityName := None;
     universityId := None; program := None; yearOfStudy := None;
     createdAt := InvalidDate; isEmailVerified := false;
     verificationToken := None; verificationTokenExpiry := None;
     collegeData := None |}.

(* ===================================================================== *)
(** ** Properties *)
(* ===================================================================== *)

(** *** Reading a field after an update *)

Lemma initialized_set_initialized b s : initialized (set_initialized b s) = b.
Proof. reflexivity. Qed.

Lemma initPromise_set_initialized b s : initPromise (set_initialized b s) = initPromise s.
Proof. reflexivity. Qed.

Lemma file_set_initialized b s : file (set_initialized b s) = file s.
Proof. reflexivity. Qed.

Lemma dataDirOk_set_initialized b s : dataDirOk (set_initialized b s) = dataDirOk s.
Proof. reflexivity. Qed.

Lemma sqlite3Ok_set_initialized b s : sqlite3Ok (set_initialized b s) = sqlite3Ok s.
Proof. reflexivity. Qed.

Lemma fault_set_initialized b s : fault (set_initialized b s) = fault s.
Proof. reflexivity. Qed.

Lemma trace_set_initialized b s : trace (set_initialized b s) = trace s.
Proof. reflexivity. Qed.

Lemma initialized_set_initPromise p s : initialized (set_initPromise p s) = initialized s.
Proof. reflexivity. Qed.

Lemma initPromise_set_initPromise p s : initPromise (set_initPromise p s) = p.
Proof. reflexivity. Qed.

Lemma file_set_initPromise p s : file (set_initPromise p s) = file s.
Proof. reflexivity. Qed.

Lemma dataDirOk_set_initPromise p s : dataDirOk (set_initPromise p s) = dataDirOk s.
Proof. reflexivity. Qed.

Lemma sqlite3Ok_set_initPromise p s : sqlite3Ok (set_initPromise p s) = sqlite3Ok s.
Proof. reflexivity. Qed.

Lemma fault_set_initPromise p s : fault (set_initPromise p s) = fault s.
Proof. reflexivity. Qed.

Lemma trace_set_initPromise p s : trace (set_initPromise p s) = trace s.
Proof. reflexivity. Qed.

Lemma initialized_set_file f s : initialized (set_file f s) = initialized s.
Proof. reflexivity. Qed.

Lemma initPromise_set_file f s : initPromise (set_file f s) = initPromise s.
Proof. reflexivity. Qed.

Lemma file_set_file f s : file (set_file f s) = f.
Proof. reflexivity. Qed.

Lemma dataDirOk_set_file f s : dataDirOk (set_file f s) = dataDirOk s.
Proof. reflexivity. Qed.

Lemma sqlite3Ok_set_file f s : sqlite3Ok (set_file f s) = sqlite3Ok s.
Proof. reflexivity. Qed.

Lemma fault_set_file f s : fault (set_file f s) = fault s.
Proof. reflexivity. Qed.

Lemma trace_set_file f s : trace (set_file f s) = trace s.
Proof. reflexivity. Qed.

Lemma initialized_log e s : initialized (log e s) = initialized s.
Proof. reflexivity. Qed.

Lemma initPromise_log e s : initPromise (log e s) = initPromise s.
Proof. reflexivity. Qed.

Lemma file_log e s : file (log e s) = file s.
Proof. reflexivity. Qed.

Lemma dataDirOk_log e s : dataDirOk (log e s) = dataDirOk s.
Proof. reflexivity. Qed.

Lemma sqlite3Ok_log e s : sqlite3Ok (log e s) = sqlite3Ok s.
Proof. reflexivity. Qed.

Lemma fault_log e s : fault (log e s) = fault s.
Proof. reflexivity. Qed.

Lemma trace_log e s : trace (log e s) = trace s ++ [e].
Proof. reflexivity. Qed.

Lemma openOk_set_initialized b s : openOk (set_initialized b s) = openOk s.
Proof. reflexivity. Qed.

Lemma openOk_set_initPromise p s : openOk (set_initPromise p s) = openOk s.
Proof. reflexivity. Qed.

Lemma openOk_set_file f s : openOk (set_file f s) = openOk s.
Proof. reflexivity. Qed.

Lemma openOk_log e s : openOk (log e s) = openOk s.
Proof. reflexivity. Qed.

Create Rewrite HintDb fields.
#[export] Hint Rewrite
  initialized_set_initialized initPromise_set_initialized file_set_initialized
  dataDirOk_set_initialized sqlite3Ok_set_initialized fault_set_initialized
  trace_set_initialized initialized_set_initPromise initPromise_set_initPromise
  file_set_initPromise dataDirOk_set_initPromise sqlite3Ok_set_initPromise
  fault_set_initPromise trace_set_initPromise initialized_set_file
  initPromise_set_file file_set_file dataDirOk_set_file sqlite3Ok_set_file
  fault_set_file trace_set_file initialized_log initPromise_log file_log
  dataDirOk_log sqlite3Ok_log fault_log trace_log openOk_set_initialized
  openOk_set_initPromise openOk_set_file openOk_log : fields.

Ltac unfold_monad :=
  unfold run, get, all, bindM, ret, throw, lift, modify, try_catch, swallow in *.

Lemma engine_spec st s :
  engine st s =
  match fault s st with
  | Some e => (inl (SqliteError e), log (Run st) s)
  | None =>
      match exec st (file s) with
      | inl e => (inl (SqliteError e), log (Run st) s)
      | inr (rs, f) => (inr rs, set_file f (log (Run st) s))
      end
  end.
Proof. reflexivity. Qed.

Lemma engine_frame st s :
  let s' := snd (engine st s) in
  initialized s' = initialized s /\ initPromise s' = initPromise s /\ same_env s s'
  /\ trace s' = trace s ++ [Run st].
Proof.
  rewrite engine_spec. unfold same_env.
  destruct (fault s st); [simpl; auto 10|].
  destruct (exec st (file s)) as [e|[rs f]]; simpl; auto 10.
Qed.

Lemma swallow_run st s : swallow (run st) s = (inr tt, snd (engine st s)).
Proof.
  unfold swallow, try_catch, run, bindM, ret. rewrite engine_spec.
  destruct (fault s st); [reflexivity|].
  destruct (exec st (file s)) as [e|[rs f]]; reflexivity.
Qed.

Lemma run_spec st s :
  run st s = (match fst (engine st s) with inl e => inl e | inr _ => inr tt end,
              snd (engine st s)).
Proof.
  unfold run, bindM, ret. destruct (engine st s) as [[e|rs] s']; reflexivity.
Qed.

Lemma run_state st s : snd (run st s) = snd (engine st s).
Proof. rewrite run_spec. reflexivity. Qed.

Lemma exec_create f : exists f', exec CREATE_TABLE_IF_NOT_EXISTS f = inr ([], f').
Proof. destruct f; simpl; eauto. Qed.

Lemma doInitialize_spec s :
  _doInitialize s =
  let s1 := log EnsureDataDirectory s in
  let s2 := log ImportSqlite3 s1 in
  let s3 := log OpenDatabase s2 in
  if dataDirOk s then
    if sqlite3Ok s then
      if openOk s then
        match fault s CREATE_TABLE_IF_NOT_EXISTS with
        | None => (inr tt, set_initialized true (migrated s))
        | Some _ => (inl (Error unavailable), log (Run CREATE_TABLE_IF_NOT_EXISTS) s3)
        end
      else (inl Unsettled, log (Uncaught cantopen) s3)
    else (inl (Error unavailable), s2)
  else (inl (Error unavailable), s1).
Proof.
  unfold _doInitialize, migrated, try_catch.
  unfold bindM at 1. unfold ensureDataDirectory, bindM at 1, modify. simpl.
  destruct (dataDirOk s) eqn:Hd; [|reflexivity].
  unfold bindM at 1. unfold import_sqlite3, bindM at 1, modify. simpl.
  destruct (sqlite3Ok s) eqn:Hi; [|reflexivity].
  unfold bindM at 1. unfold open_database, bindM at 1, modify. simpl.
  destruct (openOk s) eqn:Ho; [|reflexivity].
  unfold bindM at 1. rewrite run_spec.
  set (s3 := log OpenDatabase (log ImportSqlite3 (log EnsureDataDirectory s))).
  rewrite (engine_spec CREATE_TABLE_IF_NOT_EXISTS s3).
  change (fault s3) with (fault s). change (file s3) with (file s).
  destruct (fault s CREATE_TABLE_IF_NOT_EXISTS) eqn:Hc; [reflexivity|].
  destruct (exec_create (file s)) as [f' Hf]. rewrite Hf. cbn [fst snd].
  unfold bindM. rewrite !swallow_run.
  reflexivity.
Qed.

Lemma doInitialize_ok s :
  init_ok s = true ->
  _doInitialize s = (inr tt, set_initialized true (migrated s)).
Proof.
  unfold init_ok. rewrite !andb_true_iff, bool_decide_eq_true.
  intros [[[Hd Hi] Ho] Hc]. rewrite doInitialize_spec, Hd, Hi, Ho, Hc. reflexivity.
Qed.

Lemma doInitialize_fail s :
  init_ok s = false -> stalls s = false ->
  exists s', _doInitialize s = (inl (Error unavailable), s')
  /\ initialized s' = initialized s /\ initPromise s' = initPromise s
  /\ file s' = file s /\ same_env s s'
  /\ exists l, trace s' = trace s ++ l /\ occurrences DoInitialize l = 0%nat
               /\ (occurrences (Run CREATE_TABLE_IF_NOT_EXISTS) l <= 1)%nat.
Proof.
  unfold init_ok, stalls. intros H Hst. rewrite doInitialize_spec. cbv zeta.
  destruct (dataDirOk s) eqn:Hd.
  2:{ eexists. split; [reflexivity|]. unfold same_env. autorewrite with fields.
      do 3 (split; [reflexivity|]). split; [rewrite ?Hd, ?Hi; auto|].
      exists [EnsureDataDirectory]. split; [reflexivity|].
      split; [reflexivity|]. vm_compute. lia. }
  destruct (sqlite3Ok s) eqn:Hi.
  2:{ eexists. split; [reflexivity|]. unfold same_env. autorewrite with fields.
      do 3 (split; [reflexivity|]). split; [rewrite ?Hd, ?Hi; auto|].
      exists [EnsureDataDirectory; ImportSqlite3].
      split; [rewrite <- app_assoc; reflexivity|].
      split; [reflexivity|]. vm_compute. lia. }
  destruct (openOk s) eqn:Ho; [|discriminate].
  simpl in H. rewrite bool_decide_eq_false in H.
  destruct (fault s CREATE_TABLE_IF_NOT_EXISTS); [|congruence].
  eexists. split; [reflexivity|]. unfold same_env. autorewrite with fields.
  do 3 (split; [reflexivity|]). split; [rewrite ?Hd, ?Hi, ?Ho; auto|].
  exists [EnsureDataDirectory; ImportSqlite3; OpenDatabase;
          Run CREATE_TABLE_IF_NOT_EXISTS].
  split; [rewrite <- !app_assoc; reflexivity|].
  split; [reflexivity|]. vm_compute. lia.
Qed.

Lemma doInitialize_stall s :
  stalls s = true ->
  _doInitialize s =
  (inl Unsettled,
   log (Uncaught cantopen)
     (log OpenDatabase (log ImportSqlite3 (log EnsureDataDirectory s)))).
Proof.
  unfold stalls. rewrite !andb_true_iff, negb_true_iff.
  intros [[Hd Hi] Ho]. rewrite doInitialize_spec, Hd, Hi, Ho. reflexivity.
Qed.


Lemma get_spec st s :
  get st s = (match fst (engine st s) with inl e => inl e | inr rs => inr (head rs) end,
              snd (engine st s)).
Proof.
  unfold get, bindM, ret. destruct (engine st s) as [[e|rs] s']; reflexivity.
Qed.

(** The three lookups: one SELECT, the first row decoded. *)
Lemma lookup_spec st s :
  (r <- get st ;; lift (decode r)) s =
  (match fst (engine st s) with
   | inl e => inl e
   | inr rs => decode (head rs)
   end, snd (engine st s)).
Proof.
  unfold bindM at 1. rewrite get_spec.
  destruct (engine st s) as [[e|rs] s']; reflexivity.
Qed.

Ltac run_monad := cbv beta iota delta [bindM ret throw lift].

Lemma addUser_body_spec u s :
  addUser_body u s = (inl RangeError, s)
  \/ exists params, addUser_body u s = run (INSERT insert_columns params) s.
Proof.
  unfold addUser_body, toISOString_.
  destruct (verificationTokenExpiry u) as [d|];
    [destruct (toISOString d)|]; destruct (toISOString (createdAt u));
    run_monad; eauto.
Qed.

Lemma body_one_statement op s :
  body op s = s
  \/ exists st, body op s = snd (engine st s) /\ st <> CREATE_TABLE_IF_NOT_EXISTS.
Proof.
  destruct op as [u|q|i|t|i us|e| |]; unfold body.
  - destruct (addUser_body_spec u s) as [->|[params ->]]; [left; reflexivity|].
    right. eexists. split; [apply run_state|]. discriminate.
  - right. eexists. split; [|shelve]. 
    match goal with |- snd (?f _ s) = _ => unfold f end.
    rewrite lookup_spec. reflexivity. Unshelve. discriminate.
  - right. eexists. split; [|shelve]. 
    match goal with |- snd (?f _ s) = _ => unfold f end.
    rewrite lookup_spec. reflexivity. Unshelve. discriminate.
  - right. eexists. split; [|shelve]. 
    match goal with |- snd (?f _ s) = _ => unfold f end.
    rewrite lookup_spec. reflexivity. Unshelve. discriminate.
  - unfold updateUser_body.
    destruct (collect us [] []) as [e|[fields values]]; run_monad;
      [left; reflexivity|].
    destruct (0 <? length fields)%nat; [|left; reflexivity].
    right. eexists. split; [apply run_state|]. discriminate.
  - right. exists (SELECT_COUNT_BY_EMAIL (bind (VStr e))). split; [|discriminate].
    unfold emailExists_body. unfold bindM at 1. rewrite get_spec.
    destruct (engine _ s) as [[e'|rs] s']; [reflexivity|].
    cbn [fst snd]. destruct (head rs); reflexivity.
  - right. exists SELECT_ALL_ORDER_BY_CREATED_DESC. split; [|discriminate].
    unfold getAllUsers_body, all, bindM, lift.
    destruct (engine _ s) as [[e'|rs] s']; reflexivity.
  - right. eexists. split; [apply run_state|]. discriminate.
Qed.

Lemma occurrences_app e l1 l2 :
  occurrences e (l1 ++ l2) = (occurrences e l1 + occurrences e l2)%nat.
Proof. unfold occurrences. rewrite filter_app, length_app. reflexivity. Qed.

Lemma occurrences_snoc_ne e x l : x <> e -> occurrences e (l ++ [x]) = occurrences e l.
Proof.
  intros H. rewrite occurrences_app. unfold occurrences at 2.
  rewrite filter_cons_False by exact H. simpl. lia.
Qed.

Lemma migrated_frame s :
  initialized (migrated s) = initialized s
  /\ initPromise (migrated s) = initPromise s
  /\ same_env s (migrated s)
  /\ trace (migrated s) =
     trace s ++ [EnsureDataDirectory; ImportSqlite3; OpenDatabase;
                 Run CREATE_TABLE_IF_NOT_EXISTS;
                 Run alter1; Run alter2; Run alter3; Run alter4].
Proof.
  unfold migrated. cbv zeta.
  set (s0 := log OpenDatabase (log ImportSqlite3 (log EnsureDataDirectory s))).
  destruct (engine_frame CREATE_TABLE_IF_NOT_EXISTS s0)
    as (i1 & p1 & (d1 & q1 & f1 & o1) & t1).
  set (s1 := snd (engine CREATE_TABLE_IF_NOT_EXISTS s0)) in *.
  destruct (engine_frame alter1 s1) as (i2 & p2 & (d2 & q2 & f2 & o2) & t2).
  set (s2 := snd (engine alter1 s1)) in *.
  destruct (engine_frame alter2 s2) as (i3 & p3 & (d3 & q3 & f3 & o3) & t3).
  set (s3 := snd (engine alter2 s2)) in *.
  destruct (engine_frame alter3 s3) as (i4 & p4 & (d4 & q4 & f4 & o4) & t4).
  set (s4 := snd (engine alter3 s3)) in *.
  destruct (engine_frame alter4 s4) as (i5 & p5 & (d5 & q5 & f5 & o5) & t5).
  cbv zeta in *. unfold same_env.
  rewrite i5, i4, i3, i2, i1, p5, p4, p3, p2, p1, d5, d4, d3, d2, d1,
    q5, q4, q3, q2, q1, f5, f4, f3, f2, f1, o5, o4, o3, o2, o1, t5, t4, t3, t2, t1.
  subst s0. simpl. rewrite <- !app_assoc. simpl. auto 10.
Qed.

Lemma body_frame op s :
  initialized (body op s) = initialized s
  /\ initPromise (body op s) = initPromise s
  /\ same_env s (body op s)
  /\ occurrences DoInitialize (trace (body op s)) = occurrences DoInitialize (trace s)
  /\ occurrences (Run CREATE_TABLE_IF_NOT_EXISTS) (trace (body op s))
     = occurrences (Run CREATE_TABLE_IF_NOT_EXISTS) (trace s).
Proof.
  destruct (body_one_statement op s) as [->|(st & -> & Hst)].
  - unfold same_env. auto 10.
  - destruct (engine_frame st s) as (i & p & e & t). cbv zeta in *.
    rewrite i, p, t. repeat split; try apply e.
    + apply occurrences_snoc_ne. discriminate.
    + apply occurrences_snoc_ne. congruence.
Qed.

Lemma initializeDatabase_ready s :
  initialized s = true -> initializeDatabase s = (inr tt, s).
Proof. intros H. unfold initializeDatabase, enter. rewrite H. reflexivity. Qed.

Lemma settled_frame s s' : initPromise s' = initPromise s -> settled s' = settled s.
Proof. unfold settled. intros ->. reflexivity. Qed.

Lemma outcome_frame s s' : initPromise s' = initPromise s -> outcome s' = outcome s.
Proof. unfold outcome. intros ->. reflexivity. Qed.

Lemma invariant_resume sys op :
  invariant sys -> settled (obj sys) = true ->
  invariant (resume (outcome (obj sys)) sys op).
Proof.
  intros (Hd & Hc & Hi & Hs & Hr) Hset.
  assert (Hobj :
    let s' := obj (resume (outcome (obj sys)) sys op) in
    initialized s' = initialized (obj sys) /\ initPromise s' = initPromise (obj sys)
    /\ occurrences DoInitialize (trace s') = occurrences DoInitialize (trace (obj sys))
    /\ occurrences create (trace s') = occurrences create (trace (obj sys))).
  { unfold resume. cbn [obj]. destruct (outcome (obj sys)); [auto|].
    destruct (body_frame op (obj sys)) as (a & b & _ & c & d). auto. }
  cbv zeta in Hobj. destruct Hobj as (Ei & Ep & Ed & Ec).
  unfold invariant. cbv zeta.
  rewrite Ed, Ec, Ei, Ep, (settled_frame _ _ Ep), (outcome_frame _ _ Ep).
  split; [exact Hd|]. split; [exact Hc|]. split; [exact Hi|].
  split; [exact Hs|].
  intros op0 r Hin. cbn [resume resumed] in Hin. apply elem_of_app in Hin.
  destruct Hin as [Hin|Hin]; [apply (Hr _ _ Hin)|].
  apply list_elem_of_singleton in Hin. split; [exact Hset|congruence].
Qed.

Lemma invariant_resume_all l : forall sys,
  invariant sys -> settled (obj sys) = true ->
  let sys' := foldl (resume (outcome (obj sys))) sys l in
  invariant sys' /\ initPromise (obj sys') = initPromise (obj sys).
Proof.
  induction l as [|op l IH]; intros sys Hinv Hset; [split; [exact Hinv|reflexivity]|].
  cbn [foldl].
  assert (Ep : initPromise (obj (resume (outcome (obj sys)) sys op))
               = initPromise (obj sys)).
  { unfold resume. cbn [obj]. destruct (outcome (obj sys)); [reflexivity|].
    apply body_frame. }
  pose proof (invariant_resume sys op Hinv Hset) as Hinv'.
  specialize (IH (resume (outcome (obj sys)) sys op) Hinv').
  rewrite (settled_frame _ _ Ep), (outcome_frame _ _ Ep) in IH.
  specialize (IH Hset). cbv zeta in IH. destruct IH as [IH1 IH2].
  split; [exact IH1|]. rewrite IH2. exact Ep.
Qed.

Lemma same_env_set s s1 p b :
  same_env s s1 -> same_env s (set_initPromise p (set_initialized b s1)).
Proof. intros H. exact H. Qed.

Lemma same_env_log s p e : same_env s (set_initPromise p (log e s)).
Proof. unfold same_env. autorewrite with fields. auto. Qed.

Lemma settle_pending s :
  initPromise s = Some Pending ->
  settle s = set_initPromise
               (Some match fst (_doInitialize s) with
                     | inr _ => Fulfilled
                     | inl Unsettled => Stalled
                     | inl e => Rejected e
                     end) (snd (_doInitialize s)).
Proof.
  intros H. unfold settle. rewrite H.
  destruct (_doInitialize s) as [[[]|u] s']; reflexivity.
Qed.

Lemma settle_spec s :
  initPromise s = Some Pending -> initialized s = false ->
  let s' := settle s in
  (if init_ok s
   then initPromise s' = Some Fulfilled /\ initialized s' = true
   else (if stalls s
         then initPromise s' = Some Stalled
              /\ trace s' = trace s ++ [EnsureDataDirectory; ImportSqlite3;
                                        OpenDatabase; Uncaught cantopen]
         else initPromise s' = Some (Rejected (Error unavailable)))
        /\ initialized s' = false /\ file s' = file s)
  /\ same_env s s'
  /\ exists l, trace s' = trace s ++ l /\ occurrences DoInitialize l = 0%nat
               /\ (occurrences create l <= if settled s' then 1 else 0)%nat.
Proof.
  intros Hp Hi. cbv zeta. rewrite (settle_pending s Hp).
  destruct (init_ok s) eqn:Hok.
  - rewrite (doInitialize_ok s Hok). cbv beta iota delta [fst snd].
    destruct (migrated_frame s) as (_ & _ & He & Ht).
    unfold settled. autorewrite with fields.
    split; [split; reflexivity|]. split; [apply same_env_set, He|].
    exists [EnsureDataDirectory; ImportSqlite3; OpenDatabase;
            Run CREATE_TABLE_IF_NOT_EXISTS;
            Run alter1; Run alter2; Run alter3; Run alter4].
    split; [exact Ht|]. split; [reflexivity|]. vm_compute. lia.
  - destruct (stalls s) eqn:Hst.
    + rewrite (doInitialize_stall s Hst). cbv beta iota delta [fst snd].
      unfold settled, same_env. autorewrite with fields.
      rewrite <- !app_assoc. cbn [app].
      split; [auto|]. split; [auto|].
      eexists. split; [reflexivity|]. split; [reflexivity|]. vm_compute. lia.
    + destruct (doInitialize_fail s Hok Hst)
        as (s1 & Heq & H1 & H2 & H3 & H4 & l & Ht & Hl).
      rewrite Heq. cbv beta iota delta [fst snd]. unfold settled.
      autorewrite with fields.
      split; [split; [reflexivity|split; [congruence|exact H3]]|].
      split; [exact H4|]. exists l. split; [exact Ht|exact Hl].
Qed.

Lemma step_call sys op :
  step sys (Call op) =
  if initialized (obj sys) then resume (inr tt) sys op
  else match initPromise (obj sys) with
       | Some Pending | Some Stalled =>
           {| obj := obj sys; suspended := suspended sys ++ [op];
              resumed := resumed sys |}
       | Some _ => resume (outcome (obj sys)) sys op
       | None =>
           {| obj := set_initPromise (Some Pending) (log DoInitialize (obj sys));
              suspended := suspended sys ++ [op]; resumed := resumed sys |}
       end.
Proof.
  destruct sys as [s susp res]. unfold step, enter. cbn [obj suspended resumed].
  destruct (initialized s); [reflexivity|].
  destruct (initPromise s) as [[| |e|]|] eqn:E; cbv beta iota; rewrite ?E; reflexivity.
Qed.

Lemma step_settle sys :
  step sys Settle =
  match initPromise (obj sys) with
  | Some Pending =>
      match initPromise (settle (obj sys)) with
      | Some Stalled =>
          {| obj := settle (obj sys); suspended := suspended sys;
             resumed := resumed sys |}
      | _ =>
          foldl (resume (outcome (settle (obj sys))))
            {| obj := settle (obj sys); suspended := []; resumed := resumed sys |}
            (suspended sys)
      end
  | _ => sys
  end.
Proof. reflexivity. Qed.

Lemma no_resumed_before_settled sys :
  invariant sys -> settled (obj sys) = false -> resumed sys = [].
Proof.
  intros (_ & _ & _ & _ & Hr) Hset.
  destruct (resumed sys) as [|[op r] l]; [reflexivity|].
  destruct (Hr op r) as [H _]; [left|]. congruence.
Qed.

Lemma invariant_step sys e : invariant sys -> invariant (step sys e).
Proof.
  intros Hinv. pose proof Hinv as (Hd & Hc & Hi & Hs & Hr). cbv zeta in *.
  destruct e as [op|].
  - rewrite step_call. destruct (initialized (obj sys)) eqn:Ei.
    + assert (Hf : initPromise (obj sys) = Some Fulfilled) by (apply Hi; reflexivity).
      assert (Ho : outcome (obj sys) = inr tt) by (unfold outcome; rewrite Hf; reflexivity).
      rewrite <- Ho. apply invariant_resume; [exact Hinv|].
      unfold settled. rewrite Hf. reflexivity.
    + destruct (initPromise (obj sys)) as [[| |err|]|] eqn:Ep.
      * unfold invariant. cbn [obj suspended resumed]. rewrite Ep, Ei.
        split; [exact Hd|]. split; [exact Hc|]. split; [exact Hi|].
        split; [auto|exact Hr].
      * exfalso. assert (false = true) by (apply Hi; reflexivity). discriminate.
      * apply invariant_resume; [exact Hinv|]. unfold settled. rewrite Ep. reflexivity.
      * unfold invariant. cbn [obj suspended resumed]. rewrite Ep, Ei.
        split; [exact Hd|]. split; [exact Hc|]. split; [exact Hi|].
        split; [auto|exact Hr].
      * assert (Hres : resumed sys = []).
        { apply no_resumed_before_settled; [exact Hinv|]. unfold settled.
          rewrite Ep. reflexivity. }
        unfold invariant, settled. cbn [obj suspended resumed].
        autorewrite with fields. rewrite occurrences_app, Hd, Hres.
        unfold create. rewrite occurrences_snoc_ne by discriminate.
        unfold settled in Hc. rewrite Ep in Hc.
        split; [reflexivity|]. split; [exact Hc|]. rewrite ?Ei.
        split; [split; discriminate|]. split; [auto|].
        intros ? ? Hin. inversion Hin.
  - rewrite step_settle.
    destruct (initPromise (obj sys)) as [[| |err|]|] eqn:Ep; try exact Hinv.
    assert (Ei : initialized (obj sys) = false).
    { destruct (initialized (obj sys)) eqn:E; [|reflexivity].
      assert (Some Pending = Some Fulfilled) by (apply Hi; reflexivity). discriminate. }
    assert (Hres : resumed sys = []).
    { apply no_resumed_before_settled; [exact Hinv|]. unfold settled.
      rewrite Ep. reflexivity. }
    rewrite Hres.
    destruct (settle_spec (obj sys) Ep Ei) as (Hk & _ & l & Ht & Hl1 & Hl2).
    cbv zeta in *.
    set (s' := settle (obj sys)) in *.
    unfold settled in Hc. rewrite Ep in Hc.
    assert (Hbase : invariant {| obj := s'; suspended := []; resumed := [] |}).
    { unfold invariant. cbn [obj suspended resumed].
      rewrite Ht, !occurrences_app, Hl1, Hd.
      split; [destruct (init_ok (obj sys)); [destruct Hk as [-> _]; reflexivity|];
              destruct (stalls (obj sys)); [destruct Hk as ([-> _] & _)
                                           |destruct Hk as (-> & _)]; reflexivity|].
      split; [lia|].
      split; [destruct (init_ok (obj sys)); [destruct Hk as [-> ->]; tauto|];
              destruct (stalls (obj sys)); [destruct Hk as ([-> _] & -> & _)
                                           |destruct Hk as (-> & -> & _)];
              split; congruence|].
      split; [congruence|]. intros ? ? Hin. inversion Hin. }
    destruct (initPromise s') as [[| |err|]|] eqn:Ep';
      try (apply (invariant_resume_all (suspended sys)
                    {| obj := s'; suspended := []; resumed := [] |});
           [exact Hbase|unfold settled; cbn [obj]; rewrite Ep'; try reflexivity]).
    + exfalso. destruct (init_ok (obj sys)); [destruct Hk as [? _]; congruence|].
      destruct (stalls (obj sys)); [destruct Hk as ([? _] & _)|destruct Hk as (? & _)];
        congruence.
    + destruct Hbase as (B1 & B2 & B3 & _ & B5).
      unfold invariant. cbn [obj suspended resumed] in *. rewrite Ep' in *.
      split; [exact B1|]. split; [exact B2|]. split; [exact B3|].
      split; [auto|exact B5].
    + exfalso. destruct (init_ok (obj sys)); [destruct Hk as [? _]; congruence|].
      destruct (stalls (obj sys)); [destruct Hk as ([? _] & _)|destruct Hk as (? & _)];
        congruence.
Qed.

Lemma invariant_start s0 :
  initialized s0 = false -> initPromise s0 = None -> trace s0 = [] ->
  invariant (start s0).
Proof.
  intros Hi Hp Ht. unfold invariant, start, settled. cbn. rewrite Hi, Hp, Ht.
  split; [reflexivity|]. split; [vm_compute; lia|].
  split; [split; discriminate|]. split; [congruence|].
  intros ? ? Hin. inversion Hin.
Qed.

Lemma invariant_run events : forall sys,
  invariant sys -> invariant (foldl step sys events).
Proof.
  induction events as [|e events IH]; intros sys H; [exact H|].
  cbn [foldl]. apply IH, invariant_step, H.
Qed.

Lemma method_spec {A} (m : M A) s :
  (initializeDatabase ;; m) s =
  match initializeDatabase s with
  | (inr _, s') => m s'
  | (inl e, s') => (inl e, s')
  end.
Proof. reflexivity. Qed.

Lemma perform_generic {A} (m : M A) (f : A -> answer) s :
  snd ((x <- (initializeDatabase ;; m) ;; ret (f x)) s) =
  match initializeDatabase s with
  | (inr _, s') => snd (m s')
  | (inl e, s') => s'
  end
  /\ forall e, fst (initializeDatabase s) = inl e ->
               fst ((x <- (initializeDatabase ;; m) ;; ret (f x)) s) = inl e.
Proof.
  unfold bindM, ret. destruct (initializeDatabase s) as [[e|[]] s']; cbn [fst snd].
  - split; [reflexivity|]. intros ? [= ->]. reflexivity.
  - destruct (m s') as [[e|a] s'']; split; try reflexivity; discriminate.
Qed.

Lemma perform_spec op s :
  snd (perform op s) =
  match initializeDatabase s with
  | (inr _, s') => body op s'
  | (inl e, s') => s'
  end
  /\ forall e, fst (initializeDatabase s) = inl e -> fst (perform op s) = inl e.
Proof.
  destruct op as [u|q|i|t|i us|e| |]; unfold perform, body.
  - apply (perform_generic (addUser_body u) (fun _ => Done)).
  - apply (perform_generic (findUser_body q) Found).
  - apply (perform_generic (findUserById_body i) Found).
  - apply (perform_generic (findUserByVerificationToken_body t) Found).
  - apply (perform_generic (updateUser_body i us) (fun _ => Done)).
  - apply (perform_generic (emailExists_body e) Flag).
  - apply (perform_generic getAllUsers_body Users).
  - apply (perform_generic clearAllUsers_body (fun _ => Done)).
Qed.

(** C5: initialisation is memoised.  However calls and the end of the
    initialisation interleave on a new object, [_doInitialize] is entered
    at most once and CREATE TABLE runs at most once; all callers that
    waited for the initialisation observe the same outcome; and once the
    object is initialised, [initializeDatabase] returns at once and no
    operation initialises or creates the table again. *)
Theorem initialization_is_memoized (s0 : Database) (events : list step_event) :
  initialized s0 = false -> initPromise s0 = None -> trace s0 = [] ->
  let sys := foldl step (start s0) events in
  (occurrences DoInitialize (trace (obj sys)) <= 1)%nat
  /\ (occurrences (Run CREATE_TABLE_IF_NOT_EXISTS) (trace (obj sys)) <= 1)%nat
  /\ (forall op1 r1 op2 r2,
        (op1, r1) ∈ resumed sys -> (op2, r2) ∈ resumed sys -> r1 = r2)
  /\ (initialized (obj sys) = true ->
      initializeDatabase (obj sys) = (inr tt, obj sys)
      /\ forall op,
           occurrences DoInitialize (trace (snd (perform op (obj sys))))
             = occurrences DoInitialize (trace (obj sys))
           /\ occurrences (Run CREATE_TABLE_IF_NOT_EXISTS)
                (trace (snd (perform op (obj sys))))
              = occurrences (Run CREATE_TABLE_IF_NOT_EXISTS) (trace (obj sys))).
Proof.
  intros Hi Hp Ht sys.
  assert (Hinv : invariant sys)
    by (apply invariant_run, invariant_start; assumption).
  destruct Hinv as (Hd & Hc & _ & _ & Hr).
  split; [rewrite Hd; destruct (initPromise (obj sys)); lia|].
  split; [fold create; destruct (settled (obj sys)); lia|].
  split.
  - intros op1 r1 op2 r2 H1 H2.
    destruct (Hr _ _ H1) as [_ ->]. destruct (Hr _ _ H2) as [_ ->]. reflexivity.
  - intros Hready. split; [apply initializeDatabase_ready, Hready|].
    intros op. destruct (perform_spec op (obj sys)) as [-> _].
    rewrite (initializeDatabase_ready _ Hready).
    destruct (body_frame op (obj sys)) as (_ & _ & _ & H1 & H2). auto.
Qed.

Lemma initializeDatabase_first s :
  initialized s = false -> initPromise s = None ->
  let s' := snd (initializeDatabase s) in
  if init_ok s
  then fst (initializeDatabase s) = inr tt /\ initialized s' = true
  else (if stalls s
        then fst (initializeDatabase s) = inl Unsettled
             /\ initPromise s' = Some Stalled
             /\ trace s' = trace s ++ [DoInitialize; EnsureDataDirectory;
                                       ImportSqlite3; OpenDatabase;
                                       Uncaught cantopen]
        else fst (initializeDatabase s) = inl (Error unavailable)
             /\ initPromise s' = Some (Rejected (Error unavailable)))
       /\ initialized s' = false /\ file s' = file s.
Proof.
  intros Hi Hp. unfold initializeDatabase, enter. rewrite Hi, Hp. cbn [fst snd].
  set (s1 := set_initPromise (Some Pending) (log DoInitialize s)).
  destruct (settle_spec s1 eq_refl Hi) as (Hk & _).
  change (init_ok s1) with (init_ok s) in Hk.
  change (stalls s1) with (stalls s) in Hk. cbv zeta in Hk.
  unfold outcome.
  destruct (init_ok s).
  - destruct Hk as [-> ->]. auto.
  - destruct (stalls s).
    + destruct Hk as ([-> Ht] & -> & ->). rewrite Ht. subst s1.
      autorewrite with fields. rewrite <- app_assoc. auto.
    + destruct Hk as (-> & -> & ->). auto.
Qed.

Lemma initializeDatabase_rejected s e :
  initialized s = false -> initPromise s = Some (Rejected e) ->
  initializeDatabase s = (inl e, s).
Proof.
  intros Hi Hp. unfold initializeDatabase, enter. rewrite Hi, Hp.
  cbv beta iota. unfold settle. rewrite Hp. unfold outcome. rewrite Hp. reflexivity.
Qed.











Lemma engine_reliable st s :
  reliable s ->
  engine st s =
  match exec st (file s) with
  | inl e => (inl (SqliteError e), log (Run st) s)
  | inr (rs, f) => (inr rs, set_file f (log (Run st) s))
  end.
Proof. intros H. rewrite engine_spec, (H st). reflexivity. Qed.

Lemma initializeDatabase_env s : same_env s (after_init s).
Proof.
  unfold after_init, initializeDatabase, enter.
  destruct (initialized s) eqn:Hi; [unfold same_env; auto|].
  destruct (initPromise s) as [[| |e|]|] eqn:Hp; cbn [fst snd].
  - apply (settle_spec s Hp Hi).
  - unfold settle. rewrite Hp. unfold same_env; auto.
  - unfold settle. rewrite Hp. unfold same_env; auto.
  - unfold settle. rewrite Hp. unfold same_env; auto.
  - set (s1 := set_initPromise (Some Pending) (log DoInitialize s)).
    destruct (settle_spec s1 eq_refl Hi) as (_ & He & _). exact He.
Qed.

Lemma reliable_frame s s' : same_env s s' -> reliable s -> reliable s'.
Proof. intros (_ & _ & Hf & _) H st. rewrite Hf. apply H. Qed.

Lemma after_init_reliable s : reliable s -> reliable (after_init s).
Proof. apply reliable_frame, initializeDatabase_env. Qed.

Lemma method_ok {A} (m : M A) s :
  fst (initializeDatabase s) = inr tt ->
  (initializeDatabase ;; m) s = m (after_init s).
Proof.
  intros H. rewrite method_spec. unfold after_init.
  destruct (initializeDatabase s) as [[e|[]] s']; [discriminate|reflexivity].
Qed.

(** A SELECT that filters the rows by [P]. *)
Lemma select_spec st (P : row -> bool) s t :
  reliable s -> file s = Some t ->
  (forall db t', db = Some t' -> exec st db = inr (filter (fun r => P r) (rows t'), db)) ->
  engine st s = (inr (filter (fun r => P r) (rows t)), set_file (Some t) (log (Run st) s)).
Proof.
  intros Hr Hf Hex. rewrite (engine_reliable _ _ Hr), (Hex _ _ Hf), Hf. reflexivity.
Qed.

Lemma head_filter_None {A} (P : A -> bool) (l : list A) :
  (forall x, x ∈ l -> P x = false) -> head (filter (fun x => P x) l) = None.
Proof.
  induction l as [|a l IH]; intros H; [reflexivity|].
  rewrite filter_cons. destruct (decide (P a)) as [Ha|Ha].
  - rewrite (H a) in Ha by left. destruct Ha.
  - apply IH. intros x Hx. apply H. right. exact Hx.
Qed.

Lemma head_filter_first {A} (P : A -> bool) (l : list A) i x :
  l !! i = Some x -> P x = true ->
  (forall j y, (j < i)%nat -> l !! j = Some y -> P y = false) ->
  head (filter (fun x => P x) l) = Some x.
Proof.
  revert i. induction l as [|a l IH]; intros i Hi Hx Hlt; [discriminate|].
  rewrite filter_cons. destruct i as [|i].
  - injection Hi as ->. rewrite decide_True by (rewrite Hx; exact I). reflexivity.
  - rewrite decide_False.
    + apply (IH i); [exact Hi|exact Hx|].
      intros j y Hj Hy. apply (Hlt (S j) y); [lia|exact Hy].
    + rewrite (Hlt 0%nat a); [intros []|lia|reflexivity].
Qed.

Lemma head_filter_elem {A} (P : A -> bool) (l : list A) x :
  head (filter (fun x => P x) l) = Some x -> x ∈ l /\ P x = true.
Proof.
  intros H. assert (Hin : x ∈ filter (fun x => P x) l).
  { destruct (filter _ l); [discriminate|]. injection H as ->. left. }
  apply list_elem_of_filter in Hin. destruct Hin as [HP Hin].
  split; [exact Hin|]. destruct (P x); [reflexivity|destruct HP].
Qed.

(** Properties that [rowToUser] copies from the row. *)
Lemma rowToUser_copies r o k :
  rowToUser r = inr o ->
  k <> "collegeData" -> k <> "verificationTokenExpiry" ->
  k <> "isEmailVerified" -> k <> "createdAt" ->
  o !! k = unbind <$> (r !! k).
Proof.
  unfold rowToUser. intros H H1 H2 H3 H4.
  destruct (if truthy _ then _ else _) as [e|c]; [discriminate|].
  injection H as <-.
  rewrite !lookup_insert_ne by congruence. apply lookup_fmap.
Qed.

Lemma col_text r k x : col r k = SText x -> r !! k = Some (SText x).
Proof. unfold col. destruct (r !! k); simpl; congruence. Qed.

Lemma sql_eq_text v x : sql_eq v (SText x) = true -> v = SText x.
Proof.
  destruct v; simpl; try discriminate.
  intros H. apply String.eqb_eq in H. congruence.
Qed.

Lemma findUser_spec q s t :
  fst (initializeDatabase s) = inr tt -> reliable s -> file (after_init s) = Some t ->
  fst (findUser q s)
  = decode (head (filter (fun r => where_email_or_name (SText q) (SText q) r) (rows t))).
Proof.
  intros Hi Hr Hf. unfold findUser. rewrite (method_ok _ _ Hi).
  unfold findUser_body. rewrite lookup_spec.
  rewrite (select_spec _ (where_email_or_name (SText q) (SText q)) _ t
             (after_init_reliable _ Hr) Hf); [reflexivity|].
  intros db t' ->. reflexivity.
Qed.

Lemma find_by_column_spec st c p s t :
  (forall db t', db = Some t' ->
     exec st db = inr (filter (fun r => where_column c p r) (rows t'), db)) ->
  reliable s -> file s = Some t ->
  fst ((r <- get st ;; lift (decode r)) s)
  = decode (head (filter (fun r => where_column c p r) (rows t))).
Proof.
  intros Hex Hr Hf. rewrite lookup_spec.
  rewrite (select_spec _ (where_column c p) _ t Hr Hf Hex). reflexivity.
Qed.

Lemma findUserByVerificationToken_spec tok s t :
  fst (initializeDatabase s) = inr tt -> reliable s -> file (after_init s) = Some t ->
  fst (findUserByVerificationToken tok s)
  = decode (head (filter (fun r => where_column "verificationToken" (SText tok) r)
                         (rows t))).
Proof.
  intros Hi Hr Hf. unfold findUserByVerificationToken. rewrite (method_ok _ _ Hi).
  apply find_by_column_spec; [|apply after_init_reliable, Hr|exact Hf].
  intros db t' ->. reflexivity.
Qed.

Lemma findUserById_spec i s t :
  fst (initializeDatabase s) = inr tt -> reliable s -> file (after_init s) = Some t ->
  fst (findUserById i s)
  = decode (head (filter (fun r => where_column "id" (SText i) r) (rows t))).
Proof.
  intros Hi Hr Hf. unfold findUserById. rewrite (method_ok _ _ Hi).
  apply find_by_column_spec; [|apply after_init_reliable, Hr|exact Hf].
  intros db t' ->. reflexivity.
Qed.

Lemma decode_Some l o :
  decode (head l) = inr (Some o) -> exists r, head l = Some r /\ rowToUser r = inr o.
Proof.
  destruct (head l) as [r|]; cbn [decode]; [|discriminate].
  destruct (rowToUser r) as [e|u] eqn:E; [discriminate|]. intros [= ->].
  exists r. split; [reflexivity|exact E].
Qed.

Lemma prop_copied r o k x :
  rowToUser r = inr o ->
  k <> "collegeData" -> k <> "verificationTokenExpiry" ->
  k <> "isEmailVerified" -> k <> "createdAt" ->
  col r k = SText x -> prop o k = VStr x.
Proof.
  intros H H1 H2 H3 H4 Hc. unfold prop.
  rewrite (rowToUser_copies r o k H H1 H2 H3 H4), (col_text _ _ _ Hc). reflexivity.
Qed.

Lemma sql_lower_text v x : sql_eq (sql_lower v) (SText x) = true ->
  exists n, v = SText n /\ lower n = x.
Proof.
  destruct v; simpl; try discriminate.
  intros H. apply String.eqb_eq in H. eauto.
Qed.

Lemma N_of_lower_ascii c :
  N_of_ascii (lower_ascii c)
  = (if (65 <=? N_of_ascii c) && (N_of_ascii c <=? 90)
     then N_of_ascii c + 32 else N_of_ascii c)%N.
Proof.
  unfold lower_ascii. cbv zeta.
  destruct ((65 <=? N_of_ascii c) && (N_of_ascii c <=? 90))%N eqn:E; [|reflexivity].
  apply andb_true_iff in E. destruct E as [E1 E2].
  apply N.leb_le in E1. apply N.leb_le in E2.
  apply N_ascii_embedding. lia.
Qed.

Lemma N_of_ascii_inj a b : N_of_ascii a = N_of_ascii b -> a = b.
Proof.
  intros H. rewrite <- (ascii_N_embedding a), <- (ascii_N_embedding b), H.
  reflexivity.
Qed.

Lemma lower_ascii_same a b : lower_ascii a = lower_ascii b <-> same_letter a b.
Proof.
  unfold same_letter. cbv zeta. split.
  - intros H. apply (f_equal N_of_ascii) in H. rewrite !N_of_lower_ascii in H.
    destruct (65 <=? N_of_ascii a)%N eqn:A1; destruct (N_of_ascii a <=? 90)%N eqn:A2;
      destruct (65 <=? N_of_ascii b)%N eqn:B1; destruct (N_of_ascii b <=? 90)%N eqn:B2;
      cbn [andb] in H;
      rewrite ?N.leb_le, ?N.leb_gt in *; lia.
  - intros H. apply N_of_ascii_inj. rewrite !N_of_lower_ascii.
    destruct (65 <=? N_of_ascii a)%N eqn:A1; destruct (N_of_ascii a <=? 90)%N eqn:A2;
      destruct (65 <=? N_of_ascii b)%N eqn:B1; destruct (N_of_ascii b <=? 90)%N eqn:B2;
      cbn [andb];
      rewrite ?N.leb_le, ?N.leb_gt in *; lia.
Qed.

Lemma lower_same a : forall b, lower a = lower b <-> same_up_to_case a b.
Proof.
  induction a as [|x a IH]; intros [|y b]; cbn [lower same_up_to_case];
    try (split; [discriminate|intros []]); [tauto|].
  rewrite <- IH, <- lower_ascii_same. split.
  - intros [= H1 H2]. auto.
  - intros [-> ->]. reflexivity.
Qed.

Lemma answers_to_spec r q :
  where_email_or_name (SText q) (SText q) r = true <-> answers_to r q.
Proof.
  unfold where_email_or_name, answers_to. rewrite orb_true_iff. split.
  - intros [H|H].
    + left. apply sql_eq_text, H.
    + right. cbn [sql_lower] in H. apply sql_lower_text in H.
      destruct H as (n & Hn & Hl). exists n. split; [exact Hn|apply lower_same, Hl].
  - intros [H|(n & Hn & Hl)].
    + left. rewrite H. cbn [sql_eq]. apply String.eqb_refl.
    + right. rewrite Hn. cbn [sql_lower sql_eq]. apply String.eqb_eq, lower_same, Hl.
Qed.

Lemma answers_to_not r q :
  ~ answers_to r q -> where_email_or_name (SText q) (SText q) r = false.
Proof.
  intros H. destruct (where_email_or_name _ _ r) eqn:E; [|reflexivity].
  apply answers_to_spec in E. contradiction.
Qed.

Lemma where_text_spec c x r : where_column c (SText x) r = true <-> col r c = SText x.
Proof.
  unfold where_column. split; [apply sql_eq_text|].
  intros ->. cbn [sql_eq]. apply String.eqb_refl.
Qed.

Lemma where_text_not c x r : col r c <> SText x -> where_column c (SText x) r = false.
Proof.
  intros H. destruct (where_column c (SText x) r) eqn:E; [|reflexivity].
  apply where_text_spec in E. contradiction.
Qed.

(** A row without college data is decoded to a record, which has the
    texts of the row in the columns that are copied. *)
Lemma rowToUser_plain r :
  truthy (unbind (col r "collegeData")) = false ->
  exists o, rowToUser r = inr o
    /\ forall k x, k ∉ decoded_columns -> col r k = SText x -> prop o k = VStr x.
Proof.
  intros H. unfold rowToUser.
  assert (Hc : truthy (prop (unbind <$> r) "collegeData")
               = truthy (unbind (col r "collegeData"))).
  { unfold prop, col. rewrite lookup_fmap. destruct (r !! "collegeData"); reflexivity. }
  rewrite Hc, H. eexists. split; [reflexivity|].
  intros k x Hk Hx. unfold prop, decoded_columns in *.
  rewrite !lookup_insert_ne by (intros <-; apply Hk; repeat constructor).
  rewrite lookup_fmap, (col_text _ _ _ Hx). reflexivity.
Qed.

Lemma decode_row r :
  (forall o, rowToUser r = inr o -> decode (Some r) = inr (Some o))
  /\ (forall e, rowToUser r = inl e -> decode (Some r) = inl e).
Proof. cbn [decode]. split; intros ? ->; reflexivity. Qed.


Lemma head_filter_fmap {A} (P : A -> bool) (f : A -> A) (l : list A) :
  (forall x, P (f x) = P x) ->
  head (filter (fun x => P x) (f <$> l)) = f <$> head (filter (fun x => P x) l).
Proof.
  intros He. induction l as [|r l IH]; [reflexivity|].
  rewrite fmap_cons, !filter_cons, He.
  destruct (decide (P r)); [reflexivity|exact IH].
Qed.

Lemma rowToUser_expiry r v :
  match rowToUser r, rowToUser (<["verificationTokenExpiry" := v]> r) with
  | inl e, inl e' => e = e'
  | inr o, inr o' => forall k, k <> "verificationTokenExpiry" -> prop o' k = prop o k
  | _, _ => False
  end.
Proof.
  unfold rowToUser.
  assert (Hp : forall k, k <> "verificationTokenExpiry" ->
            prop (unbind <$> <["verificationTokenExpiry" := v]> r) k
            = prop (unbind <$> r) k).
  { intros k Hk. unfold prop. rewrite !lookup_fmap, lookup_insert_ne by congruence.
    reflexivity. }
  rewrite !(Hp "collegeData"), !(Hp "isEmailVerified"), !(Hp "createdAt")
    by discriminate.
  destruct (if truthy _ then _ else _) as [e|c]; [reflexivity|].
  intros k Hk. unfold prop.
  destruct (decide (k = "collegeData")) as [->|H1];
    [rewrite !lookup_insert_eq; reflexivity|].
  rewrite !(lookup_insert_ne _ "collegeData") by congruence.
  rewrite !(lookup_insert_ne _ "verificationTokenExpiry") by congruence.
  destruct (decide (k = "isEmailVerified")) as [->|H2];
    [rewrite !lookup_insert_eq; reflexivity|].
  rewrite !(lookup_insert_ne _ "isEmailVerified") by congruence.
  destruct (decide (k = "createdAt")) as [->|H3];
    [rewrite !lookup_insert_eq; reflexivity|].
  rewrite !(lookup_insert_ne _ "createdAt") by congruence.
  apply (Hp k Hk).
Qed.

(** C8: [findUserByVerificationToken tok] returns nothing, and no error,
    when no row has the token [tok].  Else it takes the first row whose
    token is [tok] and returns that row as [rowToUser] makes it a record
    (or the error of [rowToUser]); when the row has no college data that
    is a record with the token [tok] and the texts of the row.  A record
    that is returned has the token [tok].  The expiry times play no
    part: with other expiry times in the table the method finds nothing
    where it found nothing, fails where it failed, and returns the same
    record but for the expiry. *)
Theorem findUserByVerificationToken_exact (s : Database) (t : table) (tok : string) :
  fst (initializeDatabase s) = inr tt -> reliable s -> file (after_init s) = Some t ->
  ((forall r, r ∈ rows t -> col r "verificationToken" <> SText tok) ->
     fst (findUserByVerificationToken tok s) = inr None)
  /\ (forall i r, rows t !! i = Some r -> col r "verificationToken" = SText tok ->
        (forall j r', (j < i)%nat -> rows t !! j = Some r' ->
                      col r' "verificationToken" <> SText tok) ->
        (forall o, rowToUser r = inr o ->
           fst (findUserByVerificationToken tok s) = inr (Some o))
        /\ (forall e, rowToUser r = inl e ->
              fst (findUserByVerificationToken tok s) = inl e)
        /\ (truthy (unbind (col r "collegeData")) = false ->
            exists o, fst (findUserByVerificationToken tok s) = inr (Some o)
              /\ prop o "verificationToken" = VStr tok
              /\ forall k x, k ∉ decoded_columns -> col r k = SText x ->
                             prop o k = VStr x))
  /\ (forall o, fst (findUserByVerificationToken tok s) = inr (Some o) ->
        prop o "verificationToken" = VStr tok)
  /\ (forall s' expiry,
        fst (initializeDatabase s') = inr tt -> reliable s' ->
        file (after_init s') = Some (with_expiry expiry t) ->
        (fst (findUserByVerificationToken tok s) = inr None ->
         fst (findUserByVerificationToken tok s') = inr None)
        /\ (forall e, fst (findUserByVerificationToken tok s) = inl e ->
              fst (findUserByVerificationToken tok s') = inl e)
        /\ (forall o, fst (findUserByVerificationToken tok s) = inr (Some o) ->
              exists o', fst (findUserByVerificationToken tok s') = inr (Some o')
                /\ forall k, k <> "verificationTokenExpiry" ->
                             prop o' k = prop o k)).
Proof.
  intros Hi Hr Hf.
  rewrite (findUserByVerificationToken_spec tok s t Hi Hr Hf).
  set (matches := where_column "verificationToken" (SText tok)).
  split; [|split; [|split]].
  - intros Hnone. rewrite (head_filter_None matches); [reflexivity|].
    intros r Hin. apply where_text_not, Hnone, Hin.
  - intros i r Hl Hc Hfirst.
    rewrite (head_filter_first matches _ i r Hl);
      [|apply where_text_spec, Hc
       |intros j r' Hj Hl'; apply where_text_not, (Hfirst j r' Hj Hl')].
    split; [apply decode_row|]. split; [apply decode_row|].
    intros Hcd. destruct (rowToUser_plain r Hcd) as (o & Ho & Hk).
    exists o. split; [apply decode_row, Ho|]. split; [|exact Hk].
    apply Hk; [unfold decoded_columns; rewrite !elem_of_cons, elem_of_nil; intuition discriminate|exact Hc].
  - intros o Ho. apply decode_Some in Ho. destruct Ho as (r & Hh & Hrow).
    apply head_filter_elem in Hh. destruct Hh as [_ Hh].
    apply where_text_spec in Hh.
    apply (prop_copied r); [exact Hrow|discriminate..|exact Hh].
  - intros s' expiry Hi' Hr' Hf'.
    rewrite (findUserByVerificationToken_spec tok s' _ Hi' Hr' Hf').
    fold matches. unfold with_expiry. cbn [rows].
    rewrite (head_filter_fmap matches).
    2:{ intros r. unfold matches, where_column, col.
        rewrite lookup_insert_ne by discriminate. reflexivity. }
    destruct (head (filter (fun r => matches r) (rows t))) as [r|];
      [|cbn [decode fmap option_fmap option_map];
        split; [reflexivity|]; split; intros; discriminate].
    cbn [fmap option_fmap option_map decode].
    pose proof (rowToUser_expiry r (expiry r)) as He.
    destruct (rowToUser r) as [e|o];
      destruct (rowToUser (<["verificationTokenExpiry" := expiry r]> r)) as [e'|o'];
      try contradiction.
    + subst e'. split; [discriminate|]. split; [auto|discriminate].
    + split; [discriminate|]. split; [discriminate|].
      intros o0 [= <-]. exists o'. split; [reflexivity|exact He].
Qed.

(** *** Assignments and INSERT *)

Lemma assign_notin fields : forall params (r : row) k,
  k ∉ fields -> assign fields params r !! k = r !! k.
Proof.
  induction fields as [|f fields IH]; intros params r k Hk; [reflexivity|].
  destruct params as [|p params]; [reflexivity|]. cbn [assign].
  rewrite IH by (intros H; apply Hk; right; exact H).
  apply lookup_insert_ne. intros ->. apply Hk. left.
Qed.

Lemma assign_lookup fields : forall params (r : row) i k p,
  NoDup fields -> fields !! i = Some k -> params !! i = Some p ->
  assign fields params r !! k = Some p.
Proof.
  induction fields as [|f fields IH]; intros params r i k p Hnd Hk Hp; [discriminate|].
  destruct params as [|p0 params]; [destruct i; discriminate|].
  apply NoDup_cons in Hnd. destruct Hnd as [Hf Hnd]. cbn [assign].
  destruct i as [|i].
  - injection Hk as ->. injection Hp as ->.
    rewrite assign_notin by exact Hf. apply lookup_insert_eq.
  - apply (IH params _ i); assumption.
Qed.

Lemma insert_columns_NoDup : NoDup insert_columns.
Proof. apply (bool_decide_unpack _). vm_compute. exact I. Qed.

Lemma initializeDatabase_cases s :
  initializeDatabase s =
  if initialized s then (inr tt, s)
  else match initPromise s with
       | Some Pending => (outcome (settle s), settle s)
       | Some _ => (outcome s, s)
       | None =>
           let s1 := set_initPromise (Some Pending) (log DoInitialize s) in
           (outcome (settle s1), settle s1)
       end.
Proof.
  unfold initializeDatabase, enter. destruct (initialized s); [reflexivity|].
  destruct (initPromise s) as [[| |e|]|] eqn:E; cbv beta iota zeta;
    try reflexivity; unfold settle; rewrite E; reflexivity.
Qed.

Lemma steady_init s : steady s -> initializeDatabase s = (inr tt, s).
Proof.
  intros [H|H]; [apply initializeDatabase_ready, H|].
  rewrite initializeDatabase_cases. destruct (initialized s); [reflexivity|].
  rewrite H. unfold outcome. rewrite H. reflexivity.
Qed.

Lemma init_steady s : fst (initializeDatabase s) = inr tt -> steady (after_init s).
Proof.
  unfold after_init. rewrite initializeDatabase_cases.
  destruct (initialized s) eqn:Hi; [intros _; left; exact Hi|].
  destruct (initPromise s) as [[| |e|]|] eqn:Hp; cbv zeta; cbn [fst snd].
  - destruct (settle_spec s Hp Hi) as (Hk & _). cbv zeta in Hk. unfold outcome.
    destruct (init_ok s); [destruct Hk as [Hk _]; intros _; right; exact Hk|].
    destruct (stalls s); [destruct Hk as ([-> _] & _)|destruct Hk as (-> & _)];
      discriminate.
  - intros _. right. exact Hp.
  - unfold outcome. rewrite Hp. discriminate.
  - unfold outcome. rewrite Hp. discriminate.
  - set (s1 := set_initPromise (Some Pending) (log DoInitialize s)).
    destruct (settle_spec s1 eq_refl Hi) as (Hk & _). cbv zeta in Hk. unfold outcome.
    destruct (init_ok s1); [destruct Hk as [Hk _]; intros _; right; exact Hk|].
    destruct (stalls s1); [destruct Hk as ([-> _] & _)|destruct Hk as (-> & _)];
      discriminate.
Qed.

Lemma steady_frame s s' :
  initialized s' = initialized s -> initPromise s' = initPromise s ->
  steady s -> steady s'.
Proof. unfold steady. intros -> ->. auto. Qed.

Lemma engine_steady st s : steady s -> steady (snd (engine st s)).
Proof.
  destruct (engine_frame st s) as (Hi & Hp & _). apply steady_frame; assumption.
Qed.

Lemma exec_insert t params :
  exec (INSERT insert_columns params) (Some t) =
  match filter (fun c => c ∉ columns t) insert_columns with
  | c :: _ => inl (SQLITE_ERROR ("table users has no column named " +:+ c))
  | [] =>
      match violation (rows t ++ [inserted t params]) (inserted t params) with
      | Some e => inl e
      | None => inr ([], Some {| columns := columns t;
                                 rows := rows t ++ [inserted t params] |})
      end
  end.
Proof. reflexivity. Qed.

Lemma violation_constraint l r e :
  violation l r = Some e -> exists msg, e = SQLITE_CONSTRAINT msg.
Proof.
  unfold violation. destruct (filter _ not_null_columns); [|intros [= <-]; eauto].
  destruct (filter _ unique_columns); [discriminate|intros [= <-]; eauto].
Qed.

Lemma violation_None l r :
  violation l r = None ->
  (forall c, c ∈ not_null_columns -> col r c <> SNull)
  /\ (forall c, c ∈ unique_columns -> count_where (where_column c (col r c)) l <= 1).
Proof.
  unfold violation.
  destruct (filter _ not_null_columns) as [|c0 l0] eqn:E1; [|discriminate].
  destruct (filter _ unique_columns) as [|c1 l1] eqn:E2; [|discriminate].
  intros _. split; intros c Hc.
  - intros Hn. assert (Hin : c ∈ filter (fun c => col r c = SNull) not_null_columns)
      by (apply list_elem_of_filter; split; assumption).
    rewrite E1 in Hin. inversion Hin.
  - destruct (Z.leb_spec (count_where (where_column c (col r c)) l) 1) as [H|H];
      [exact H|].
    assert (Hin : c ∈ filter
              (fun c => 1 <? count_where (where_column c (col r c)) l) unique_columns).
    { apply list_elem_of_filter. split; [|exact Hc].
      apply Is_true_true, Z.ltb_lt, H. }
    rewrite E2 in Hin. inversion Hin.
Qed.

Lemma count_where_app P l1 l2 :
  count_where P (l1 ++ l2) = count_where P l1 + count_where P l2.
Proof. unfold count_where. rewrite filter_app, length_app. lia. Qed.

Lemma count_where_nonneg P l : 0 <= count_where P l.
Proof. unfold count_where. lia. Qed.

Lemma count_where_one P r : P r = true -> count_where P [r] = 1.
Proof.
  intros H. unfold count_where. rewrite filter_cons, decide_True by (rewrite H; exact I).
  reflexivity.
Qed.

Lemma count_where_elem P l r : r ∈ l -> P r = true -> 1 <= count_where P l.
Proof.
  intros Hin HP. apply list_elem_of_split in Hin. destruct Hin as (l1 & l2 & ->).
  change (r :: l2) with ([r] ++ l2). rewrite !count_where_app, (count_where_one P r HP).
  pose proof (count_where_nonneg P l1). pose proof (count_where_nonneg P l2). lia.
Qed.

Lemma count_where_zero P l : count_where P l = 0 -> forall r, r ∈ l -> P r = false.
Proof.
  intros H r Hin. destruct (P r) eqn:E; [|reflexivity].
  pose proof (count_where_elem P l r Hin E). lia.
Qed.

Lemma addUser_body_params u s :
  addUser_body u s =
  match stored_params u with
  | Some ps => run (INSERT insert_columns ps) s
  | None => (inl RangeError, s)
  end.
Proof.
  unfold addUser_body, stored_params, toISOString_.
  destruct (verificationTokenExpiry u) as [d|];
    [destruct (toISOString d)|]; destruct (toISOString (createdAt u));
    reflexivity.
Qed.

Lemma run_insert_ok ps s s1 :
  reliable s -> run (INSERT insert_columns ps) s = (inr tt, s1) ->
  exists t, file s = Some t
    /\ filter (fun c => c ∉ columns t) insert_columns = []
    /\ violation (rows t ++ [inserted t ps]) (inserted t ps) = None
    /\ s1 = set_file (Some (with_row t ps)) (log (Run (INSERT insert_columns ps)) s).
Proof.
  intros Hr. rewrite run_spec, (engine_reliable _ _ Hr).
  destruct (file s) as [t|] eqn:Hf; [|discriminate].
  rewrite exec_insert.
  destruct (filter _ insert_columns) as [|c l] eqn:Hc; [|discriminate].
  destruct (violation _ _) as [e|] eqn:Hv; [discriminate|].
  cbn [fst snd]. intros [= <-]. exists t.
  split; [reflexivity|]. split; [exact Hc|]. split; [exact Hv|reflexivity].
Qed.

Lemma addUser_ok u s s1 :
  reliable s -> addUser u s = (inr tt, s1) ->
  fst (initializeDatabase s) = inr tt
  /\ exists t ps, stored_params u = Some ps
    /\ file (after_init s) = Some t
    /\ filter (fun c => c ∉ columns t) insert_columns = []
    /\ violation (rows t ++ [inserted t ps]) (inserted t ps) = None
    /\ s1 = set_file (Some (with_row t ps))
              (log (Run (INSERT insert_columns ps)) (after_init s)).
Proof.
  intros Hr. unfold addUser. rewrite method_spec.
  destruct (initializeDatabase s) as [[e|[]] s0] eqn:Hinit; [discriminate|].
  rewrite addUser_body_params.
  destruct (stored_params u) as [ps|]; [|discriminate].
  intros Hrun. split; [reflexivity|].
  assert (Hr0 : reliable s0).
  { pose proof (after_init_reliable s Hr) as H. unfold after_init in H.
    rewrite Hinit in H. exact H. }
  destruct (run_insert_ok ps s0 s1 Hr0 Hrun) as (t & Hf & Hc & Hv & ->).
  unfold after_init. rewrite Hinit. exists t, ps. cbn [snd].
  split; [reflexivity|]. split; [exact Hf|]. split; [exact Hc|].
  split; [exact Hv|reflexivity].
Qed.

(** After a successful [addUser] the object is initialised for good. *)
Lemma addUser_steady u s s1 :
  reliable s -> addUser u s = (inr tt, s1) -> steady s1 /\ reliable s1.
Proof.
  intros Hr H. destruct (addUser_ok u s s1 Hr H) as (Hi & t & ps & _ & _ & _ & _ & ->).
  split.
  - apply (steady_frame (after_init s)); [reflexivity..|apply init_steady, Hi].
  - apply (reliable_frame (after_init s)); [unfold same_env; auto|].
    apply after_init_reliable, Hr.
Qed.

Lemma inserted_lookup t ps i k p :
  insert_columns !! i = Some k -> ps !! i = Some p -> inserted t ps !! k = Some p.
Proof. apply assign_lookup, insert_columns_NoDup. Qed.

Lemma inserted_col t ps i k p :
  insert_columns !! i = Some k -> ps !! i = Some p -> col (inserted t ps) k = p.
Proof. intros H1 H2. unfold col. rewrite (inserted_lookup t ps i k p H1 H2). reflexivity. Qed.

Lemma stored_params_shape u ps :
  stored_params u = Some ps ->
  exists e c t,
    ps = [SText (id u); SText (fullName u); SText (universityEmail u);
          SText (password u); bind (opt_string (phoneNumber u));
          bind (opt_string (universityName u)); bind (opt_string (universityId u));
          bind (opt_string (program u)); bind (opt_string (yearOfStudy u));
          SInt (if isEmailVerified u then 1 else 0);
          bind (opt_string (verificationToken u)); e; c; SText t].
Proof.
  unfold stored_params.
  destruct (verificationTokenExpiry u) as [[|te]|]; destruct (createdAt u) as [|tc];
    cbn; try discriminate; intros [= <-]; eauto.
Qed.

Lemma stored_params_email u ps :
  stored_params u = Some ps -> ps !! 2%nat = Some (SText (universityEmail u)).
Proof. intros H. destruct (stored_params_shape u ps H) as (e & c & t & ->). reflexivity. Qed.

Lemma stored_params_id u ps :
  stored_params u = Some ps -> ps !! 0%nat = Some (SText (id u)).
Proof. intros H. destruct (stored_params_shape u ps H) as (e & c & t & ->). reflexivity. Qed.

(** *** Counting rows *)

Lemma ascii_of_digit_nonzero d : 1 <= d <= 9 -> ascii_of_digit d <> "0"%char.
Proof.
  intros H. assert (Hd : d = 1 \/ d = 2 \/ d = 3 \/ d = 4 \/ d = 5 \/ d = 6
                         \/ d = 7 \/ d = 8 \/ d = 9) by lia.
  destruct Hd as [->|[->|[->|[->|[->|[->|[->|[->| ->]]]]]]]]; discriminate.
Qed.

Lemma append_head c s s' : (String c s) +:+ s' = String c (s +:+ s').
Proof. reflexivity. Qed.

Lemma digits_fuel_head f : forall n,
  1 <= n < 2 ^ Z.of_nat f ->
  exists c rest, digits_fuel f n = String c rest /\ c <> "0"%char.
Proof.
  induction f as [|f IH]; intros n Hn; [simpl in Hn; lia|].
  cbn [digits_fuel]. destruct (Z.ltb_spec n 10) as [Hlt|Hge].
  - eexists _, _. split; [reflexivity|]. apply ascii_of_digit_nonzero. lia.
  - destruct (IH (n / 10)) as (c & rest & -> & Hc).
    { rewrite Nat2Z.inj_succ, Z.pow_succ_r in Hn by lia.
      split; [apply Z.div_le_lower_bound; lia|].
      apply Z.div_lt_upper_bound; lia. }
    rewrite append_head. eauto.
Qed.

Lemma decimal_head n :
  1 <= n -> exists c rest, decimal n = String c rest /\ c <> "0"%char.
Proof.
  intros Hn. apply digits_fuel_head. split; [exact Hn|].
  rewrite Nat2Z.inj_succ, Z2Nat.id by apply Z.log2_nonneg.
  apply Z.log2_spec. lia.
Qed.

Lemma number_of_Z_positive n :
  1 <= n -> exists ds e, number_of_Z n = JS.Finite false ds e.
Proof.
  intros Hn. unfold number_of_Z. rewrite Z.abs_eq by lia.
  destruct (decimal_head n Hn) as (c & rest & -> & Hc).
  unfold normalize.
  assert (Hl : strip_leading (String c rest) = (O, String c rest)).
  { cbn [strip_leading]. destruct c as [[] [] [] [] [] [] [] []]; try reflexivity.
    contradiction. }
  rewrite Hl. cbn [strip_trailing].
  assert (He : Ascii.eqb c "0" = false) by (apply Ascii.eqb_neq, Hc).
  rewrite He. cbn [andb]. cbn [String.eqb].
  destruct (Z.ltb_spec n 0); [lia|]. eauto.
Qed.

Lemma positive_count n : 0 <= n -> positive (VNum (number_of_Z n)) = (0 <? n).
Proof.
  intros Hn. destruct (Z.ltb_spec 0 n) as [H|H].
  - destruct (number_of_Z_positive n) as (ds & ex & ->); [lia|reflexivity].
  - assert (n = 0) as -> by lia. reflexivity.
Qed.

Lemma emailExists_spec e s t :
  fst (initializeDatabase s) = inr tt -> reliable s -> file (after_init s) = Some t ->
  fst (emailExists e s)
  = inr (0 <? count_where (where_column "universityEmail" (SText e)) (rows t)).
Proof.
  intros Hi Hr Hf. unfold emailExists. rewrite (method_ok _ _ Hi).
  unfold emailExists_body. unfold bindM at 1. rewrite get_spec.
  rewrite (engine_reliable _ _ (after_init_reliable _ Hr)), Hf.
  cbn [exec bind fst snd head].
  unfold ret, col. rewrite lookup_singleton_eq. cbn [default unbind fst from_option].
  unfold Datatypes.id. cbn [unbind].
  rewrite positive_count by apply count_where_nonneg. reflexivity.
Qed.

Lemma stored_params_valid u : valid_dates u -> exists ps, stored_params u = Some ps.
Proof.
  intros [Hc He]. unfold stored_params.
  destruct (createdAt u) as [|tc]; [destruct Hc|].
  destruct (verificationTokenExpiry u) as [[|te]|]; [destruct (He _ eq_refl)|..];
    cbn; eauto.
Qed.

Lemma where_column_refl c x r : col r c = SText x -> where_column c (SText x) r = true.
Proof. unfold where_column. intros ->. simpl. apply String.eqb_refl. Qed.

(** *** Partial updates *)

Lemma truthy_defined v : truthy v = true -> is_undefined v = false.
Proof. destruct v; simpl; congruence. Qed.

Lemma collect_fields us : forall f v f' v',
  collect us f v = inr (f', v') -> f' = f ++ (applicable us).*1.
Proof.
  induction us as [|[k x] us IH]; intros f v f' v' H.
  - injection H as <- _. symmetry. apply app_nil_r.
  - cbn [collect] in H. unfold applicable. rewrite filter_cons. cbn [snd].
    destruct ((k =? "collegeData")%string && truthy x) eqn:E1.
    all: try (apply andb_true_iff in E1; destruct E1 as [_ E1];
              rewrite (truthy_defined _ E1); rewrite decide_True by exact I;
              apply IH in H; rewrite H, <- app_assoc; reflexivity).
    all: destruct ((k =? "verificationTokenExpiry")%string && truthy x) eqn:E2.
    all: try (apply andb_true_iff in E2; destruct E2 as [_ E2];
              rewrite (truthy_defined _ E2); rewrite decide_True by exact I;
              destruct x; try discriminate;
              match goal with
              | H : match toISOString ?d with _ => _ end = _ |- _ =>
                  destruct (toISOString d); [|discriminate]
              end;
              apply IH in H; rewrite H, <- app_assoc; reflexivity).
    all: destruct (is_undefined x) eqn:E3; cbn [negb] in *.
    all: try (rewrite decide_False by (intros []); apply IH in H; exact H).
    all: rewrite decide_True by exact I; apply IH in H;
         rewrite H, <- app_assoc; reflexivity.
Qed.

Lemma collect_applicable us : forall f v,
  collect us f v = collect (applicable us) f v.
Proof.
  induction us as [|[k x] us IH]; intros f v; [reflexivity|].
  unfold applicable. rewrite filter_cons. cbn [snd].
  destruct (is_undefined x) eqn:E.
  - rewrite decide_False by (intros []). fold (applicable us).
    destruct x; try discriminate. cbn [collect truthy is_undefined negb].
    rewrite !andb_false_r. apply IH.
  - rewrite decide_True by exact I. fold (applicable us).
    cbn [collect]. rewrite E. cbn [negb].
    destruct (_ && truthy x); [apply IH|].
    destruct (_ && truthy x); [|apply IH].
    destruct x; try reflexivity. destruct (toISOString d); [apply IH|reflexivity].
Qed.

(** C4: [updateUser] behaves as if the entries that are [undefined] were
    not in the update: the columns it sets are the keys of the other
    entries, and when no entry is left it runs no statement, so that on
    an initialised store nothing changes at all. *)
Theorem updateUser_skips_undefined (id : string) (updates : list (string * value))
    (s : Database) :
  updateUser id updates s = updateUser id (applicable updates) s
  /\ (forall fields values,
        collect updates [] [] = inr (fields, values) ->
        fields = (applicable updates).*1)
  /\ (applicable updates = [] ->
      updateUser id updates s = initializeDatabase s
      /\ (initialized s = true -> updateUser id updates s = (inr tt, s))).
Proof.
  split; [|split].
  - unfold updateUser, updateUser_body. rewrite collect_applicable. reflexivity.
  - intros fields values H. apply (collect_fields _ _ _ _ _ H).
  - intros Hnone.
    assert (H : updateUser id updates s = initializeDatabase s).
    { unfold updateUser. rewrite method_spec.
      destruct (initializeDatabase s) as [[e|[]] s']; [reflexivity|].
      unfold updateUser_body. rewrite collect_applicable, Hnone. reflexivity. }
    split; [exact H|]. intros Hi. rewrite H. apply initializeDatabase_ready, Hi.
Qed.

(** *** What a statement leaves alone *)

Lemma keeps_cells_refl t : keeps_cells t t.
Proof. split; [reflexivity|]. split; [auto|]. intros i r H. exists r. auto. Qed.

Lemma keeps_cells_trans t1 t2 t3 :
  keeps_cells t1 t2 -> keeps_cells t2 t3 -> keeps_cells t1 t3.
Proof.
  intros (L1 & C1 & R1) (L2 & C2 & R2). split; [congruence|]. split; [auto|].
  intros i r H. destruct (R1 i r H) as (r2 & H2 & K2).
  destruct (R2 i r2 H2) as (r3 & H3 & K3). exists r3. split; [exact H3|].
  intros k Hk. rewrite K3; [apply K2, Hk|].
  destruct Hk as [Hk|Hk]; [left; apply C1, Hk|right; exact Hk].
Qed.

Lemma engine_file st s :
  file (snd (engine st s)) = file s
  \/ exists rs f, fault s st = None /\ exec st (file s) = inr (rs, f)
                  /\ file (snd (engine st s)) = f.
Proof.
  rewrite engine_spec. destruct (fault s st); [left; reflexivity|].
  destruct (exec st (file s)) as [e|[rs f]]; [left; reflexivity|].
  right. exists rs, f. auto.
Qed.

Lemma engine_create_keeps s t :
  file s = Some t -> file (snd (engine CREATE_TABLE_IF_NOT_EXISTS s)) = Some t.
Proof.
  intros Hf. destruct (engine_file CREATE_TABLE_IF_NOT_EXISTS s) as [->|(rs & f & _ & He & ->)];
    [exact Hf|]. rewrite Hf in He. cbn in He. congruence.
Qed.

Lemma engine_alter_keeps c d s t :
  c ∈ added_columns -> file s = Some t ->
  exists t', file (snd (engine (ALTER_TABLE_ADD_COLUMN c d) s)) = Some t'
             /\ keeps_cells t t'.
Proof.
  intros Hc Hf.
  destruct (engine_file (ALTER_TABLE_ADD_COLUMN c d) s) as [->|(rs & f & _ & He & ->)].
  - exists t. split; [exact Hf|apply keeps_cells_refl].
  - rewrite Hf in He. cbn [exec] in He.
    destruct (decide (c ∈ columns t)) as [Hin|Hnot]; [discriminate|].
    injection He as _ <-. eexists. split; [reflexivity|].
    split; [cbn [rows]; apply length_fmap|].
    split; [intros k Hk; cbn [columns]; apply elem_of_app; left; exact Hk|].
    intros i r Hr. exists (<[c := d]> r). split.
    + cbn [rows]. rewrite list_lookup_fmap, Hr. reflexivity.
    + intros k Hk. apply lookup_insert_ne. intros ->.
      destruct Hk as [Hk|Hk]; [exact (Hnot Hk)|exact (Hk Hc)].
Qed.

Lemma migrated_keeps s t :
  file s = Some t -> exists t', file (migrated s) = Some t' /\ keeps_cells t t'.
Proof.
  intros Hf. unfold migrated. cbv zeta.
  set (s0 := log OpenDatabase (log ImportSqlite3 (log EnsureDataDirectory s))).
  assert (H0 : file s0 = Some t) by exact Hf.
  pose proof (engine_create_keeps s0 t H0) as H1.
  set (s1 := snd (engine CREATE_TABLE_IF_NOT_EXISTS s0)) in *.
  destruct (engine_alter_keeps "isEmailVerified" (SInt 0) s1 t ltac:(set_solver) H1) as (t2 & H2 & K2).
  fold alter1 in H2. set (s2 := snd (engine alter1 s1)) in *.
  destruct (engine_alter_keeps "verificationToken" SNull s2 t2 ltac:(set_solver) H2) as (t3 & H3 & K3).
  fold alter2 in H3. set (s3 := snd (engine alter2 s2)) in *.
  destruct (engine_alter_keeps "verificationTokenExpiry" SNull s3 t3 ltac:(set_solver) H3) as (t4 & H4 & K4).
  fold alter3 in H4. set (s4 := snd (engine alter3 s3)) in *.
  destruct (engine_alter_keeps "collegeData" SNull s4 t4 ltac:(set_solver) H4) as (t5 & H5 & K5).
  fold alter4 in H5.
  exists t5. split; [exact H5|].
  apply (keeps_cells_trans _ t2); [exact K2|].
  apply (keeps_cells_trans _ t3); [exact K3|].
  apply (keeps_cells_trans _ t4); [exact K4|exact K5].
Qed.

Lemma settle_keeps s t :
  file s = Some t -> exists t', file (settle s) = Some t' /\ keeps_cells t t'.
Proof.
  intros Hf. unfold settle.
  destruct (initPromise s) as [[| |e|]|]; try (exists t; split; [exact Hf|apply keeps_cells_refl]).
  destruct (init_ok s) eqn:Hok.
  - rewrite (doInitialize_ok s Hok). autorewrite with fields.
    apply migrated_keeps, Hf.
  - destruct (stalls s) eqn:Hst.
    + rewrite (doInitialize_stall s Hst). autorewrite with fields.
      exists t. split; [exact Hf|apply keeps_cells_refl].
    + destruct (doInitialize_fail s Hok Hst) as (s' & -> & _ & _ & Hfile & _).
      autorewrite with fields. rewrite Hfile.
      exists t. split; [exact Hf|apply keeps_cells_refl].
Qed.

Lemma after_init_keeps s t :
  file s = Some t -> exists t', file (after_init s) = Some t' /\ keeps_cells t t'.
Proof.
  intros Hf. unfold after_init. rewrite initializeDatabase_cases.
  destruct (initialized s); [exists t; split; [exact Hf|apply keeps_cells_refl]|].
  destruct (initPromise s) as [[| |e|]|]; cbv zeta; cbn [snd];
    try (exists t; split; [exact Hf|apply keeps_cells_refl]).
  - apply settle_keeps, Hf.
  - apply settle_keeps. autorewrite with fields. exact Hf.
Qed.

Lemma exec_update fields params t :
  (exists e, exec (UPDATE_BY_ID fields params) (Some t) = inl e)
  \/ exec (UPDATE_BY_ID fields params) (Some t)
     = inr ([], Some {| columns := columns t;
                        rows := updated fields params (List.last params SNull) (rows t) |}).
Proof.
  cbn [exec]. destruct (filter _ fields); [|left; eauto].
  destruct (first_violation _ _); [left; eauto|right; reflexivity].
Qed.

Lemma last_bound_id (values : list value) i :
  List.last (bind <$> (values ++ [VStr i])) SNull = SText i.
Proof. rewrite fmap_app. apply List.last_last. Qed.

(** What [updateUser] does to the table once initialisation is behind it:
    nothing, or the UPDATE of the applicable fields. *)
Lemma updateUser_body_file i us s t :
  file s = Some t ->
  file (snd (updateUser_body i us s)) = Some t
  \/ exists params,
       file (snd (updateUser_body i us s))
       = Some {| columns := columns t;
                 rows := updated (applicable us).*1 params (SText i) (rows t) |}.
Proof.
  intros Hf. unfold updateUser_body.
  destruct (collect us [] []) as [e|[fields values]] eqn:Hc; run_monad;
    [left; exact Hf|].
  apply collect_fields in Hc. cbn [app] in Hc. subst fields.
  destruct (0 <? length (applicable us).*1)%nat; [|left; exact Hf].
  rewrite run_state.
  destruct (engine_file (UPDATE_BY_ID (applicable us).*1 (bind <$> (values ++ [VStr i]))) s)
    as [->|(rs & f & _ & He & ->)]; [left; exact Hf|].
  rewrite Hf in He.
  destruct (exec_update (applicable us).*1 (bind <$> (values ++ [VStr i])) t)
    as [(e & Hx)|Hx]; rewrite Hx in He; [discriminate|].
  injection He as _ <-. right. eexists. rewrite last_bound_id. reflexivity.
Qed.

Lemma applicable_keys us k :
  (forall v, (k, v) ∈ us -> v = undefined) -> k ∉ (applicable us).*1.
Proof.
  intros H Hin. apply list_elem_of_fmap in Hin. destruct Hin as ([k' v] & -> & Hin).
  apply list_elem_of_filter in Hin. destruct Hin as [Hv Hin]. cbn [fst snd] in *.
  rewrite (H v Hin) in Hv. exact Hv.
Qed.

Lemma where_column_text c x r : where_column c (SText x) r = true <-> col r c = SText x.
Proof. split; [apply sql_eq_text|apply where_column_refl]. Qed.

(** C3: [updateUser uid updates], for an update whose keys are
    properties of [User] and a table made by the class, changes only
    what the update names.  Every row keeps its place; in every row a
    column that the update does not name, or names only with
    [undefined], keeps its value; and a row whose [id] is not [uid]
    keeps every value. *)
Theorem updateUser_changes_only_named_fields
    (s : Database) (t : table) (uid : string) (updates : list (string * value))
    (i : nat) (r : row) :
  keys_of_User updates -> table_of_class t ->
  file s = Some t -> rows t !! i = Some r ->
  exists t' r',
    file (snd (updateUser uid updates s)) = Some t'
    /\ length (rows t') = length (rows t)
    /\ rows t' !! i = Some r'
    /\ (forall k, k ∈ columns t ->
          (forall v, (k, v) ∈ updates -> v = undefined) -> r' !! k = r !! k)
    /\ (col r "id" <> SText uid -> forall k, k ∈ columns t -> r' !! k = r !! k)
    /\ (initialized s = true -> col r "id" <> SText uid -> r' = r).
Proof.
  intros _ _ Hf Hr.
  assert (Hstate : snd (updateUser uid updates s) = after_init s
                   \/ snd (updateUser uid updates s)
                      = snd (updateUser_body uid updates (after_init s))).
  { unfold updateUser, after_init. rewrite method_spec.
    destruct (initializeDatabase s) as [[e|[]] s0]; [left|right]; reflexivity. }
  destruct (after_init_keeps s t Hf) as (t0 & Hf0 & (L0 & C0 & K0)).
  destruct (K0 i r Hr) as (r0 & Hr0 & Hk0).
  assert (Hready : initialized s = true -> t0 = t /\ r0 = r).
  { intros Hi. unfold after_init in Hf0. rewrite (initializeDatabase_ready s Hi) in Hf0.
    cbn [snd] in Hf0. rewrite Hf in Hf0. injection Hf0 as <-.
    split; [reflexivity|]. congruence. }
  assert (Hid : col r0 "id" = col r "id").
  { unfold col. rewrite Hk0; [reflexivity|]. right. unfold added_columns.
    rewrite !elem_of_cons, elem_of_nil. intros [H|[H|[H|[H|[]]]]]; discriminate. }
  destruct Hstate as [ -> | -> ].
  { exists t0, r0. split; [exact Hf0|]. split; [exact L0|]. split; [exact Hr0|].
    split; [intros k Hk _; apply Hk0; left; exact Hk|].
    split; [intros _ k Hk; apply Hk0; left; exact Hk|].
    intros Hi _. apply (Hready Hi). }
  destruct (updateUser_body_file uid updates (after_init s) t0 Hf0) as [ -> | (params & ->) ].
  { exists t0, r0. split; [reflexivity|]. split; [exact L0|]. split; [exact Hr0|].
    split; [intros k Hk _; apply Hk0; left; exact Hk|].
    split; [intros _ k Hk; apply Hk0; left; exact Hk|].
    intros Hi _. apply (Hready Hi). }
  set (f := fun r : row =>
              if where_column "id" (SText uid) r
              then assign (applicable updates).*1 params r else r).
  exists {| columns := columns t0;
            rows := updated (applicable updates).*1 params (SText uid) (rows t0) |},
         (f r0).
  split; [reflexivity|]. cbn [rows]. unfold updated. fold f.
  split; [rewrite length_fmap; exact L0|].
  split; [rewrite list_lookup_fmap, Hr0; reflexivity|].
  assert (Hother : col r "id" <> SText uid -> f r0 = r0).
  { intros Hne. unfold f.
    destruct (where_column "id" (SText uid) r0) eqn:E; [|reflexivity].
    apply where_column_text in E. rewrite Hid in E. contradiction. }
  split; [|split].
  - intros k Hk Hundef. rewrite <- (Hk0 k) by (left; exact Hk). unfold f.
    destruct (where_column "id" (SText uid) r0); [|reflexivity].
    apply assign_notin, applicable_keys, Hundef.
  - intros Hne k Hk. rewrite (Hother Hne). apply Hk0. left. exact Hk.
  - intros Hi Hne. rewrite (Hother Hne). apply (Hready Hi).
Qed.

(** *** Decimal fields *)

Lemma digit_cases d : 0 <= d <= 9 ->
  d = 0 \/ d = 1 \/ d = 2 \/ d = 3 \/ d = 4 \/ d = 5 \/ d = 6 \/ d = 7 \/ d = 8 \/ d = 9.
Proof. lia. Qed.

Ltac each_digit H :=
  destruct (digit_cases _ H) as [->|[->|[->|[->|[->|[->|[->|[->|[->| ->]]]]]]]]].

Lemma digit_of_ascii_of_digit d :
  0 <= d <= 9 -> digit_of_ascii (ascii_of_digit d) = Some d.
Proof. intros H. each_digit H; reflexivity. Qed.

Lemma append_assoc (a b c : string) : (a +:+ b) +:+ c = a +:+ (b +:+ c).
Proof.
  induction a as [|x a IH]; [reflexivity|]. rewrite !append_head, IH. reflexivity.
Qed.

Lemma append_nil_r (a : string) : a +:+ "" = a.
Proof.
  induction a as [|x a IH]; [reflexivity|]. rewrite append_head, IH. reflexivity.
Qed.

Lemma pad_S w n rest :
  pad (S w) n +:+ rest = pad w (n / 10) +:+ String (ascii_of_digit (n mod 10)) rest.
Proof. cbn [pad]. rewrite append_assoc. reflexivity. Qed.

(** Reading [w + 1] digits is reading [w] digits and one more. *)
Lemma read_digits_snoc w : forall acc s,
  read_digits (S w) acc s =
  match read_digits w acc s with
  | Some (a, String c r) =>
      match digit_of_ascii c with Some d => Some (a * 10 + d, r) | None => None end
  | _ => None
  end.
Proof.
  induction w as [|w IH]; intros acc s.
  - cbn. destruct s as [|c r]; reflexivity.
  - change (read_digits (S (S w)) acc s) with
      (match s with
       | String c s' => match digit_of_ascii c with
                        | Some d => read_digits (S w) (acc * 10 + d) s'
                        | None => None
                        end
       | EmptyString => None
       end).
    destruct s as [|c s']; [reflexivity|].
    cbn [read_digits]. destruct (digit_of_ascii c) as [d|]; [|reflexivity].
    apply IH.
Qed.

Lemma read_digits_pad w : forall n acc rest,
  0 <= n < 10 ^ Z.of_nat w ->
  read_digits w acc (pad w n +:+ rest) = Some (acc * 10 ^ Z.of_nat w + n, rest).
Proof.
  induction w as [|w IH]; intros n acc rest Hn.
  - cbn. f_equal. f_equal. simpl in Hn. lia.
  - rewrite Nat2Z.inj_succ, Z.pow_succ_r in * by lia.
    assert (Hq : 0 <= n / 10 < 10 ^ Z.of_nat w).
    { split; [apply Z.div_pos; lia|apply Z.div_lt_upper_bound; lia]. }
    assert (Hd : 0 <= n mod 10 <= 9) by (pose proof (Z.mod_pos_bound n 10); lia).
    rewrite read_digits_snoc, pad_S, (IH _ _ _ Hq), (digit_of_ascii_of_digit _ Hd).
    f_equal. f_equal. pose proof (Z.div_mod n 10). lia.
Qed.

Lemma expect_head c s : expect c (String c s) = Some s.
Proof. unfold expect. rewrite Ascii.eqb_refl. reflexivity. Qed.

(** *** The calendar, one era at a time *)

Lemma zrange_In n : forall start z,
  start <= z < start + Z.of_nat n -> In z (zrange n start).
Proof.
  induction n as [|n IH]; intros start z Hz; [lia|].
  cbn [zrange]. destruct (Z.eq_dec z start) as [->|Hne]; [left; reflexivity|].
  right. apply IH. lia.
Qed.

Lemma civil_of_doe_eq doe :
  civil_of_doe doe
  = let '(m, d) := month_day (doe - year_start (yoe_of doe)) in (yoe_of doe, m, d).
Proof. reflexivity. Qed.

Lemma yoe_of_bounds doe :
  0 <= doe < 146097 ->
  0 <= yoe_of doe <= 399
  /\ year_start (yoe_of doe) <= doe
     < year_start (yoe_of doe + 1) + (if yoe_of doe =? 399 then 1 else 0).
Proof.
  intros H. unfold yoe_of, year_start.
  destruct (_ =? 399) eqn:E; [apply Z.eqb_eq in E|apply Z.eqb_neq in E];
    Z.div_mod_to_equations; lia.
Qed.

Lemma year_ok : forallb doy_ok (zrange 366 0) = true.
Proof. vm_compute. reflexivity. Qed.

Lemma doy_ok_all doy : 0 <= doy <= 365 -> doy_ok doy = true.
Proof.
  intros H. apply (proj1 (forallb_forall _ _) year_ok). apply zrange_In. lia.
Qed.

(** The day of the year, and the leap day. *)
Lemma doy_bounds doe :
  0 <= doe < 146097 ->
  let doy := doe - year_start (yoe_of doe) in
  0 <= doy <= 365 /\ (doy = 365 -> isLeapYear (yoe_of doe + 1) = true).
Proof.
  intros H doy. subst doy. destruct (yoe_of_bounds doe H) as [Hy Hb].
  set (y := yoe_of doe) in *. unfold year_start in *.
  destruct (y =? 399) eqn:E; [apply Z.eqb_eq in E|apply Z.eqb_neq in E].
  - split; [Z.div_mod_to_equations; lia|]. intros _. rewrite E. reflexivity.
  - split; [Z.div_mod_to_equations; lia|]. intros H365. unfold isLeapYear.
    assert (H4 : (y + 1) mod 4 = 0) by (Z.div_mod_to_equations; lia).
    assert (H100 : (y + 1) mod 100 <> 0) by (Z.div_mod_to_equations; lia).
    rewrite H4. apply Z.eqb_neq in H100. rewrite H100. reflexivity.
Qed.

Lemma DaysInMonth_common y m : DaysInMonth 1 m <= DaysInMonth y m.
Proof.
  unfold DaysInMonth. destruct (m =? 2); [|lia].
  change (isLeapYear 1) with false. destruct (isLeapYear y); cbv iota; lia.
Qed.

Lemma doe_ok_all doe : 0 <= doe < 146097 -> doe_ok doe = true.
Proof.
  intros H. destruct (yoe_of_bounds doe H) as [Hy _].
  destruct (doy_bounds doe H) as [Hd Hleap].
  pose proof (doy_ok_all _ Hd) as Hok.
  unfold doe_ok. rewrite civil_of_doe_eq.
  set (y := yoe_of doe) in *. set (doy := doe - year_start y) in *.
  unfold doy_ok in Hok. destruct (month_day doy) as [m d].
  rewrite !andb_true_iff in Hok.
  destruct Hok as ((((((((H1 & H2) & H3) & H4) & H5) & _) & _) & _) & H9).
  apply Z.leb_le in H1, H2, H3, H4. apply Z.eqb_eq in H5.
  rewrite !andb_true_iff. repeat apply conj; try (apply Z.leb_le; lia).
  - apply Z.leb_le. destruct (doy =? 365) eqn:E.
    + apply Z.eqb_eq in E. cbn [implb] in H9. apply Z.eqb_eq in H9. subst m.
      unfold year_shift. cbn [Z.leb Z.compare Pos.compare Pos.compare_cont].
      unfold DaysInMonth in *. cbn [Z.eqb Pos.eqb] in *.
      rewrite (Hleap E). exact H4.
    + pose proof (DaysInMonth_common (y + year_shift m) m). lia.
  - apply Z.eqb_eq. unfold doe_of_civil. fold (year_start y).
    unfold year_start in *. lia.
Qed.

Lemma doe_key_eq doe :
  doe_key doe = yoe_of doe * 10000 + doy_key (doe - year_start (yoe_of doe)).
Proof.
  unfold doe_key, doy_key, date_key. rewrite civil_of_doe_eq.
  destruct (month_day _) as [m d]. lia.
Qed.

Lemma doe_step_ok_all doe : 0 <= doe < 146096 -> doe_key doe < doe_key (doe + 1).
Proof.
  intros H.
  assert (H0 : 0 <= doe < 146097) by lia.
  assert (H1 : 0 <= doe + 1 < 146097) by lia.
  destruct (yoe_of_bounds _ H0) as [Hy Hb]. destruct (yoe_of_bounds _ H1) as [Hy' Hb'].
  destruct (doy_bounds _ H0) as [Hd _]. destruct (doy_bounds _ H1) as [Hd' _].
  pose proof (doy_ok_all _ Hd) as Hok. pose proof (doy_ok_all _ Hd') as Hok'.
  rewrite !doe_key_eq.
  set (y := yoe_of doe) in *. set (y' := yoe_of (doe + 1)) in *.
  set (doy := doe - year_start y) in *. set (doy' := doe + 1 - year_start y') in *.
  unfold doy_ok in Hok, Hok'.
  destruct (month_day doy) as [m d] eqn:Em.
  destruct (month_day doy') as [m' d'] eqn:Em'.
  rewrite !andb_true_iff in Hok, Hok'.
  destruct Hok as (((_ & Hhi) & Hstep) & _).
  destruct Hok' as ((((_ & Hlo') & _) & _) & _).
  apply Z.leb_le in Hhi, Hlo'.
  assert (Hcases : y' = y /\ doy' = doy + 1 /\ doy <> 365 \/ y + 1 <= y').
  { subst doy doy'. unfold year_start in *.
    destruct (y =? 399) eqn:E; [apply Z.eqb_eq in E|apply Z.eqb_neq in E];
      destruct (y' =? 399) eqn:E'; [apply Z.eqb_eq in E'|apply Z.eqb_neq in E'
                                   |apply Z.eqb_eq in E'|apply Z.eqb_neq in E'];
      Z.div_mod_to_equations; lia. }
  destruct Hcases as [(Ey & Ed & Hne)|Hnext]; [|lia].
  rewrite Ey. apply Z.eqb_neq in Hne. rewrite Hne in Hstep. cbn [orb] in Hstep.
  apply Z.ltb_lt in Hstep. rewrite Ed. lia.
Qed.

Lemma isLeapYear_era a e : isLeapYear (a + e * 400) = isLeapYear a.
Proof.
  unfold isLeapYear.
  assert (H4 : (a + e * 400) mod 4 = a mod 4) by (Z.div_mod_to_equations; lia).
  assert (H100 : (a + e * 400) mod 100 = a mod 100) by (Z.div_mod_to_equations; lia).
  assert (H400 : (a + e * 400) mod 400 = a mod 400) by (Z.div_mod_to_equations; lia).
  rewrite H4, H100, H400. reflexivity.
Qed.

(** What [civil_from_days] returns: a month, a day of that month, and the
    date that [days_from_civil] maps back to the day. *)
Lemma civil_from_days_spec z :
  let '(y, m, d) := civil_from_days z in
  1 <= m <= 12 /\ 1 <= d <= DaysInMonth y m /\ days_from_civil y m d = z.
Proof.
  unfold civil_from_days. cbv zeta.
  set (z' := z + 719468).
  assert (Hdoe : 0 <= z' mod 146097 < 146097) by (apply Z.mod_pos_bound; lia).
  pose proof (doe_ok_all _ Hdoe) as Hok. unfold doe_ok in Hok.
  destruct (civil_of_doe (z' mod 146097)) as [[yoe m] d].
  rewrite !andb_true_iff in Hok.
  destruct Hok as ((((((H1 & H2) & H3) & H4) & H5) & H6) & H7).
  apply Z.leb_le in H1, H2, H3, H4, H5, H6. apply Z.eqb_eq in H7.
  fold (year_shift m).
  replace (yoe + z' / 146097 * 400 + year_shift m)
    with (yoe + year_shift m + z' / 146097 * 400) by lia.
  split; [lia|]. split.
  - unfold DaysInMonth in *. rewrite isLeapYear_era. lia.
  - unfold days_from_civil. fold (year_shift m).
    replace (yoe + year_shift m + z' / 146097 * 400 - year_shift m)
      with (yoe + z' / 146097 * 400) by lia.
    assert (Hq : (yoe + z' / 146097 * 400) / 400 = z' / 146097)
      by (Z.div_mod_to_equations; lia).
    assert (Hr : (yoe + z' / 146097 * 400) mod 400 = yoe)
      by (Z.div_mod_to_equations; lia).
    rewrite Hq, Hr, H7. pose proof (Z.div_mod z' 146097). unfold z' in *. lia.
Qed.

(** *** [toISOString] and back *)

Lemma civil_from_days_year z :
  -100000000 <= z <= 100000000 ->
  let '(y, m, d) := civil_from_days z in -999999 <= y <= 999999.
Proof.
  intros Hz. unfold civil_from_days. cbv zeta.
  set (z' := z + 719468).
  assert (Hdoe : 0 <= z' mod 146097 < 146097) by (apply Z.mod_pos_bound; lia).
  pose proof (doe_ok_all _ Hdoe) as Hok. unfold doe_ok in Hok.
  destruct (civil_of_doe (z' mod 146097)) as [[yoe m] d].
  rewrite !andb_true_iff in Hok.
  destruct Hok as ((((((H1 & H2) & _) & _) & _) & _) & _).
  apply Z.leb_le in H1, H2.
  assert (-1000 <= z' / 146097 <= 1000) by (unfold z'; Z.div_mod_to_equations; lia).
  destruct (m <=? 2); lia.
Qed.

Lemma append_char c s : String c "" +:+ s = String c s.
Proof. reflexivity. Qed.

Lemma pad_head w : forall n rest,
  pad (S w) n +:+ rest
  = String (ascii_of_digit ((n / 10 ^ Z.of_nat w) mod 10)) (pad w n +:+ rest).
Proof.
  induction w as [|w IH]; intros n rest.
  - cbn [pad]. rewrite Z.div_1_r. reflexivity.
  - rewrite pad_S, IH, (pad_S w n rest).
    rewrite Nat2Z.inj_succ, Z.pow_succ_r by lia.
    rewrite Z.div_div by lia. reflexivity.
Qed.

Lemma read_year_digit c s :
  is_digit c = true -> read_year (String c s) = read_digits 4 0 (String c s).
Proof.
  destruct c as [[] [] [] [] [] [] [] []]; try discriminate; reflexivity.
Qed.

Lemma is_digit_ascii_of_digit d : 0 <= d <= 9 -> is_digit (ascii_of_digit d) = true.
Proof. intros H. each_digit H; reflexivity. Qed.

Lemma read_year_string y rest :
  -999999 <= y <= 999999 -> read_year (year_string y +:+ rest) = Some (y, rest).
Proof.
  intros Hy. unfold year_string.
  destruct (Z.leb_spec 0 y) as [H0|H0]; cbn [andb].
  - destruct (Z.leb_spec y 9999) as [H1|H1].
    + assert (Hp : read_digits 4 0 (pad 4 y +:+ rest) = Some (y, rest)).
      { rewrite read_digits_pad by (cbn; lia). f_equal. }
      rewrite <- Hp. rewrite pad_head. apply read_year_digit, is_digit_ascii_of_digit.
      pose proof (Z.mod_pos_bound (y / 10 ^ Z.of_nat 3) 10). lia.
    + destruct (Z.ltb_spec y 0); [lia|]. rewrite append_assoc, append_char.
      cbn [read_year]. rewrite Z.abs_eq by lia.
      rewrite read_digits_pad by (cbn; lia). f_equal.
  - destruct (Z.ltb_spec y 0); [|lia]. rewrite append_assoc, append_char.
    cbn [read_year]. rewrite Z.abs_neq by lia.
    rewrite read_digits_pad by (cbn; lia).
    replace (0 * 10 ^ Z.of_nat 6 + - y) with (- y) by lia.
    destruct (Z.eqb_spec (- y) 0); [lia|]. f_equal. f_equal. lia.
Qed.

Lemma read_field w n rest :
  0 <= n < 10 ^ Z.of_nat w -> read_digits w 0 (pad w n +:+ rest) = Some (n, rest).
Proof. intros H. rewrite read_digits_pad by exact H. reflexivity. Qed.

(** A valid time value survives [toISOString] followed by [Date.parse]. *)
Lemma Date_parse_iso t :
  - maxTime <= t <= maxTime -> Date_parse (iso_of_time t) = DateAt t.
Proof.
  unfold maxTime. intros Ht. unfold iso_of_time, Date_parse.
  assert (Hday : -100000000 <= t / msPerDay <= 100000000)
    by (unfold msPerDay; Z.div_mod_to_equations; lia).
  pose proof (civil_from_days_spec (t / msPerDay)) as Hspec.
  pose proof (civil_from_days_year (t / msPerDay) Hday) as Hyear.
  destruct (civil_from_days (t / msPerDay)) as [[y m] d].
  destruct Hspec as (Hm & Hd & Hback).
  assert (Hd31 : DaysInMonth y m <= 31).
  { unfold DaysInMonth. repeat match goal with |- context [if ?b then _ else _] =>
      destruct b end; lia. }
  set (ms := t mod msPerDay).
  assert (Hms : 0 <= ms < 86400000) by (apply Z.mod_pos_bound; unfold msPerDay; lia).
  rewrite ?append_assoc, !append_char.
  rewrite (read_year_string y _ Hyear). cbn [mbind option_bind].
  rewrite expect_head. cbn [mbind option_bind].
  rewrite (read_field 2 m) by (cbn; lia). cbn [mbind option_bind].
  rewrite expect_head. cbn [mbind option_bind].
  rewrite (read_field 2 d) by (cbn; lia). cbn [mbind option_bind].
  rewrite expect_head. cbn [mbind option_bind].
  rewrite (read_field 2 (ms / 3600000)) by (cbn; Z.div_mod_to_equations; lia).
  cbn [mbind option_bind].
  rewrite expect_head. cbn [mbind option_bind].
  rewrite (read_field 2 (ms / 60000 mod 60)) by (cbn; Z.div_mod_to_equations; lia).
  cbn [mbind option_bind].
  rewrite expect_head. cbn [mbind option_bind].
  rewrite (read_field 2 (ms / 1000 mod 60)) by (cbn; Z.div_mod_to_equations; lia).
  cbn [mbind option_bind].
  rewrite expect_head. cbn [mbind option_bind].
  rewrite (read_field 3 (ms mod 1000)) by (cbn; Z.div_mod_to_equations; lia).
  cbn [mbind option_bind].
  rewrite expect_head. cbn [mbind option_bind].
  cbn [Z.mul Z.add Z.pow Z.of_nat Pos.of_succ_nat Pos.succ Z.pow_pos Pos.iter Pos.mul].
  change (("" =? "")%string) with true. cbn [andb].
  repeat match goal with
  | |- context [?a <=? ?b] =>
      let H := fresh in
      destruct (Z.leb_spec a b) as [H|H];
      [|exfalso; clear - H Hm Hd Hd31 Hms; Z.div_mod_to_equations; lia]
  end.
  destruct (Z.leb_spec d (DaysInMonth y m)); [|lia].
  cbn [andb default from_option]. rewrite Hback.
  replace (t / msPerDay * msPerDay + ms / 3600000 * 3600000
           + ms / 60000 mod 60 * 60000 + ms / 1000 mod 60 * 1000 + ms mod 1000)
    with t.
  - unfold TimeClip, maxTime.
    rewrite (proj2 (Z.leb_le (Z.opp 8640000000000000) t)) by lia.
    rewrite (proj2 (Z.leb_le t 8640000000000000)) by lia. reflexivity.
  - pose proof (Z.div_mod t msPerDay). unfold ms, msPerDay in *.
    Z.div_mod_to_equations. lia.
Qed.

(** *** JSON: string literals *)

Lemma parse_chars_quote_char c rest :
  parse_chars (quote_char c +:+ rest)
  = match parse_chars rest with
    | Some (t, r) => Some (String c t, r)
    | None => None
    end.
Proof.
  destruct c as [[] [] [] [] [] [] [] []];
    (reflexivity
     || (cbv [quote_char N_of_ascii N_of_digits Z.of_N Z.eqb Z.ltb Z.compare
              Pos.compare Pos.compare_cont N.add N.mul Pos.add Pos.mul Pos.succ];
         rewrite append_char;
         cbn [parse_chars Ascii.eqb Bool.eqb andb];
         destruct (parse_chars rest) as [[t r]|]; reflexivity)).
Qed.

Lemma parse_chars_quote s : forall rest,
  parse_chars (quote_chars s +:+ String dquote rest) = Some (s, rest).
Proof.
  induction s as [|c s IH]; intros rest.
  - cbn [quote_chars]. change ("" +:+ String dquote rest) with (String dquote rest).
    reflexivity.
  - cbn [quote_chars]. rewrite append_assoc, parse_chars_quote_char, IH. reflexivity.
Qed.

(** A string literal, followed by anything, reads back as the string. *)
Lemma parse_chars_literal s rest :
  exists body, quote s +:+ rest = String dquote body
               /\ parse_chars body = Some (s, rest).
Proof.
  exists (quote_chars s +:+ String dquote rest). split.
  - unfold quote. rewrite append_head, append_assoc, append_char. reflexivity.
  - apply parse_chars_quote.
Qed.

(** *** JSON: numerals *)

Lemma all_digits_cons c s : all_digits (String c s) = is_digit c && all_digits s.
Proof. reflexivity. Qed.

Lemma all_digits_app a b : all_digits (a +:+ b) = all_digits a && all_digits b.
Proof.
  induction a as [|c a IH]; [reflexivity|].
  rewrite append_head, !all_digits_cons, IH, andb_assoc. reflexivity.
Qed.

Lemma span_digits_app ds rest :
  all_digits ds = true -> no_digit_ahead rest -> span_digits (ds +:+ rest) = (ds, rest).
Proof.
  intros Hd Hr. induction ds as [|c ds IH].
  - change ("" +:+ rest) with rest. destruct rest as [|c r]; [reflexivity|].
    cbn [span_digits]. cbn in Hr. rewrite Hr. reflexivity.
  - rewrite all_digits_cons in Hd. apply andb_true_iff in Hd. destruct Hd as [Hc Hd].
    rewrite append_head. cbn [span_digits]. rewrite Hc, (IH Hd). reflexivity.
Qed.

Lemma zeros_digits k : all_digits (zeros k) = true.
Proof. induction k as [|k IH]; [reflexivity|]. cbn [zeros]. rewrite all_digits_cons, IH. reflexivity. Qed.

Lemma length_append (a b : string) :
  String.length (a +:+ b) = (String.length a + String.length b)%nat.
Proof.
  induction a as [|c a IH]; [reflexivity|]. rewrite append_head. cbn [String.length].
  rewrite IH. reflexivity.
Qed.

Lemma length_zeros k : String.length (zeros k) = k.
Proof. induction k as [|k IH]; [reflexivity|]. cbn. rewrite IH. reflexivity. Qed.

Lemma strip_trailing_zeros k : strip_trailing (zeros k) = "".
Proof.
  induction k as [|k IH]; [reflexivity|]. cbn [zeros strip_trailing].
  rewrite IH. reflexivity.
Qed.

Lemma strip_trailing_app a k :
  strip_trailing (a +:+ zeros k) = strip_trailing a.
Proof.
  induction a as [|c a IH].
  - change ("" +:+ zeros k) with (zeros k). apply strip_trailing_zeros.
  - rewrite append_head. cbn [strip_trailing]. rewrite IH. reflexivity.
Qed.

Lemma strip_leading_zeros k ds :
  strip_leading (zeros k +:+ ds)
  = let '(z, r) := strip_leading ds in ((k + z)%nat, r).
Proof.
  induction k as [|k IH].
  - change (zeros 0 +:+ ds) with ds. destruct (strip_leading ds). reflexivity.
  - cbn [zeros]. rewrite append_head. cbn [strip_leading]. rewrite IH.
    destruct (strip_leading ds). reflexivity.
Qed.

(** The digits of a well-formed number begin with a non-zero digit. *)
Lemma strip_leading_head ds :
  ds <> "" -> strip_leading ds = (O, ds) ->
  exists c r, ds = String c r /\ c <> "0"%char.
Proof.
  intros Hne H. destruct ds as [|c r]; [contradiction|].
  exists c, r. split; [reflexivity|]. intros ->. cbn [strip_leading] in H.
  destruct (strip_leading r). discriminate.
Qed.

Lemma strip_leading_nonzero c r : c <> "0"%char -> strip_leading (String c r) = (O, String c r).
Proof.
  intros H. cbn [strip_leading].
  destruct c as [[] [] [] [] [] [] [] []]; try reflexivity. contradiction.
Qed.

Lemma substring_0_cons n c s :
  substring 0 (S n) (String c s) = String c (substring 0 n s).
Proof. reflexivity. Qed.

Lemma substring_S_cons n m c s : substring (S n) m (String c s) = substring n m s.
Proof. reflexivity. Qed.

Lemma substring_split s : forall n,
  (n <= String.length s)%nat ->
  substring 0 n s +:+ substring n (String.length s - n) s = s
  /\ String.length (substring 0 n s) = n.
Proof.
  induction s as [|c s IH]; intros n Hn.
  - cbn in Hn. assert (n = O) as -> by lia. split; reflexivity.
  - destruct n as [|n].
    + cbn [substring String.length Nat.sub]. change ("" +:+ ?x) with x.
      split; [|reflexivity]. f_equal.
      destruct (IH O ltac:(lia)) as [H _]. rewrite Nat.sub_0_r in H.
      destruct s; [reflexivity|]. exact H.
    + cbn [String.length] in *. rewrite substring_0_cons, substring_S_cons.
      change (S (String.length s) - S n)%nat with (String.length s - n)%nat.
      destruct (IH n ltac:(lia)) as [H1 H2]. rewrite append_head, H1.
      cbn [String.length]. rewrite H2. split; reflexivity.
Qed.

Lemma value_of_snoc s : forall acc d,
  all_digits s = true -> 0 <= d <= 9 ->
  value_of acc (s +:+ String (ascii_of_digit d) "") = value_of acc s * 10 + d.
Proof.
  induction s as [|c s IH]; intros acc d Hs Hd.
  - change ("" +:+ ?x) with x. cbn [value_of].
    rewrite (digit_of_ascii_of_digit d Hd). reflexivity.
  - rewrite all_digits_cons in Hs. apply andb_true_iff in Hs. destruct Hs as [Hc Hs].
    rewrite append_head. cbn [value_of]. unfold is_digit in Hc.
    destruct (digit_of_ascii c); [|discriminate]. apply IH; assumption.
Qed.

Lemma digits_fuel_spec f : forall n,
  0 <= n < 2 ^ Z.of_nat f ->
  all_digits (digits_fuel f n) = true /\ value_of 0 (digits_fuel f n) = n.
Proof.
  induction f as [|f IH]; intros n Hn.
  { simpl in Hn. assert (n = 0) as -> by lia. split; reflexivity. }
  cbn [digits_fuel]. destruct (Z.ltb_spec n 10) as [Hlt|Hge].
  - assert (Hd : 0 <= n <= 9) by lia. split.
    + rewrite all_digits_cons, (is_digit_ascii_of_digit n Hd). reflexivity.
    + cbn [value_of]. rewrite (digit_of_ascii_of_digit n Hd). reflexivity.
  - assert (Hq : 0 <= n / 10 < 2 ^ Z.of_nat f).
    { rewrite Nat2Z.inj_succ, Z.pow_succ_r in Hn by lia.
      split; [apply Z.div_pos; lia|apply Z.div_lt_upper_bound; lia]. }
    assert (Hd : 0 <= n mod 10 <= 9) by (pose proof (Z.mod_pos_bound n 10); lia).
    destruct (IH _ Hq) as [Ha Hv]. split.
    + rewrite all_digits_app, Ha, all_digits_cons, (is_digit_ascii_of_digit _ Hd).
      reflexivity.
    + rewrite (value_of_snoc _ _ _ Ha Hd), Hv. pose proof (Z.div_mod n 10). lia.
Qed.

Lemma decimal_spec n :
  0 <= n -> all_digits (decimal n) = true /\ value_of 0 (decimal n) = n
            /\ decimal n <> "".
Proof.
  intros Hn. unfold decimal.
  assert (Hb : 0 <= n < 2 ^ Z.of_nat (S (Z.to_nat (Z.log2 n)))).
  { split; [exact Hn|]. rewrite Nat2Z.inj_succ, Z2Nat.id by apply Z.log2_nonneg.
    destruct (Z.eq_dec n 0) as [->|Hne]; [reflexivity|]. apply Z.log2_spec. lia. }
  destruct (digits_fuel_spec _ _ Hb) as [Ha Hv]. split; [exact Ha|]. split; [exact Hv|].
  cbn [digits_fuel]. destruct (n <? 10); [discriminate|].
  intros H. apply (f_equal String.length) in H. rewrite length_append in H.
  cbn [String.length] in H. lia.
Qed.

Lemma ends_numeral_no_digit s : ends_numeral s -> no_digit_ahead s.
Proof. destruct s as [|c r]; [auto|]. intros (H & _). exact H. Qed.

Lemma parse_fraction_none s : ends_numeral s -> parse_fraction s = Some ("", s).
Proof.
  destruct s as [|c r]; [reflexivity|]. intros (_ & H & _).
  destruct c as [[] [] [] [] [] [] [] []]; try reflexivity. contradiction.
Qed.

Lemma string_nonempty_eqb s : s <> "" -> (s =? "")%string = false.
Proof. intros H. apply String.eqb_neq, H. Qed.

Lemma parse_fraction_some fp rest :
  all_digits fp = true -> fp <> "" -> no_digit_ahead rest ->
  parse_fraction (String "." (fp +:+ rest)) = Some (fp, rest).
Proof.
  intros Hd Hne Hr. cbn [parse_fraction].
  rewrite (span_digits_app fp rest Hd Hr), (string_nonempty_eqb fp Hne). reflexivity.
Qed.

Lemma parse_exponent_none s : ends_numeral s -> parse_exponent s = Some (0, s).
Proof.
  destruct s as [|c r]; [reflexivity|]. intros (_ & _ & He & HE).
  cbn [parse_exponent].
  rewrite (proj2 (Ascii.eqb_neq c "e") He), (proj2 (Ascii.eqb_neq c "E") HE).
  reflexivity.
Qed.

Lemma parse_exponent_some e rest :
  no_digit_ahead rest ->
  parse_exponent (String "e" (((if e <? 0 then "-" else "+") +:+ decimal (Z.abs e))
                              +:+ rest))
  = Some (e, rest).
Proof.
  intros Hr. destruct (decimal_spec (Z.abs e) (Z.abs_nonneg e)) as (Hd & Hv & Hne).
  cbn [parse_exponent Ascii.eqb Bool.eqb orb]. rewrite append_assoc.
  destruct (Z.ltb_spec e 0); rewrite append_char;
    rewrite (span_digits_app _ rest Hd Hr), (string_nonempty_eqb _ Hne), Hv;
    f_equal; f_equal; lia.
Qed.

Lemma no_leading_zero c r :
  c <> "0"%char ->
  match String c r with String "0" (String _ _) => true | _ => false end = false.
Proof.
  intros H. destruct c as [[] [] [] [] [] [] [] []]; try reflexivity.
  contradiction.
Qed.

Lemma parse_unsigned_spec neg ip fp e s2 s3 rest :
  all_digits ip = true ->
  (ip = "0" \/ exists c r, ip = String c r /\ c <> "0"%char) ->
  no_digit_ahead s2 ->
  parse_fraction s2 = Some (fp, s3) -> parse_exponent s3 = Some (e, rest) ->
  parse_unsigned neg (ip +:+ s2)
  = Some (normalize neg (ip +:+ fp) (Z.of_nat (String.length ip) + e), rest).
Proof.
  intros Hd Hip Hs2 Hf He. unfold parse_unsigned.
  rewrite (span_digits_app ip s2 Hd Hs2).
  assert (Hne : (ip =? "")%string = false).
  { destruct Hip as [->|(c & r & -> & _)]; reflexivity. }
  assert (Hz : match ip with String "0" (String _ _) => true | _ => false end = false).
  { destruct Hip as [->|(c & r & -> & Hc)]; [reflexivity|apply no_leading_zero, Hc]. }
  rewrite Hne, Hz, Hf. cbn [mbind option_bind]. rewrite He. reflexivity.
Qed.

Lemma parse_number_digit c s :
  is_digit c = true -> parse_number (String c s) = parse_unsigned false (String c s).
Proof.
  destruct c as [[] [] [] [] [] [] [] []]; try discriminate; reflexivity.
Qed.

Lemma all_digits_head c r : all_digits (String c r) = true -> is_digit c = true.
Proof. rewrite all_digits_cons. intros H. apply andb_true_iff in H. apply H. Qed.

(** A signed numeral whose first digit is known. *)
Lemma parse_number_signed (neg : bool) c body rest :
  is_digit c = true ->
  parse_number (((if neg then "-" else "") +:+ String c body) +:+ rest)
  = parse_unsigned neg (String c body +:+ rest).
Proof.
  intros Hc. destruct neg.
  - rewrite append_char, append_head. reflexivity.
  - change ("" +:+ String c body) with (String c body). rewrite append_head.
    apply parse_number_digit, Hc.
Qed.

Lemma normalize_wf neg ds n :
  wf_number (Finite neg ds n) -> normalize neg ds n = Finite neg ds n.
Proof.
  intros (Hne & Hl & Ht & _). unfold normalize. rewrite Hl, Ht.
  rewrite (string_nonempty_eqb ds Hne). f_equal. lia.
Qed.

Lemma normalize_padded neg ds a b m :
  wf_number (Finite neg ds (m - Z.of_nat a)) ->
  normalize neg (zeros a +:+ ds +:+ zeros b) m = Finite neg ds (m - Z.of_nat a).
Proof.
  intros (Hne & Hl & Ht & _). unfold normalize.
  destruct (strip_leading_head ds Hne Hl) as (c & r & -> & Hc).
  rewrite strip_leading_zeros, append_head, (strip_leading_nonzero c _ Hc).
  rewrite <- append_head, strip_trailing_app, Ht. rewrite Nat.add_0_r.
  reflexivity.
Qed.

Lemma wf_number_exponent neg ds n m :
  wf_number (Finite neg ds n) -> wf_number (Finite neg ds m).
Proof. intros H. exact H. Qed.

(** [JSON.parse] reads a numeral that [Number::toString] wrote as the
    number it was written from. *)
Lemma parse_number_toString x rest :
  json_number x -> ends_numeral rest ->
  parse_number (Number_toString x +:+ rest) = Some (x, rest).
Proof.
  intros Hx Hrest. pose proof (ends_numeral_no_digit rest Hrest) as Hnd.
  destruct x as [|neg|neg|neg ds n]; try contradiction.
  { cbn in Hx. subst neg. cbn [Number_toString]. rewrite append_char.
    rewrite (parse_number_digit "0" rest eq_refl).
    change (String "0" rest) with ("0" +:+ rest).
    rewrite (parse_unsigned_spec false "0" "" 0 rest rest rest eq_refl);
      [reflexivity|left; reflexivity|exact Hnd|
       apply parse_fraction_none, Hrest|apply parse_exponent_none, Hrest]. }
  cbn [json_number] in Hx. pose proof Hx as (Hne & Hl & Ht & Hd).
  fold (all_digits ds) in Hd.
  destruct (strip_leading_head ds Hne Hl) as (c & r & Hds & Hc).
  assert (Hcd : is_digit c = true) by (apply (all_digits_head c r); rewrite <- Hds; exact Hd).
  cbn [Number_toString]. set (k := Z.of_nat (String.length ds)).
  destruct ((k <=? n) && (n <=? 21)) eqn:Ea.
  { (* digits followed by zeros *)
    apply andb_true_iff in Ea. destruct Ea as [Hk _]. apply Z.leb_le in Hk.
    set (j := Z.to_nat (n - k)).
    rewrite Hds at 1. rewrite (append_head c r (zeros j)).
    rewrite parse_number_signed by exact Hcd.
    rewrite <- (append_head c r (zeros j)), <- Hds.
    rewrite (parse_unsigned_spec neg (ds +:+ zeros j) "" 0 rest rest rest).
    - rewrite append_nil_r. f_equal. f_equal.
      change (ds +:+ zeros j) with (zeros 0 +:+ ds +:+ zeros j).
      rewrite normalize_padded by exact Hx. f_equal.
      change (zeros 0 +:+ ds +:+ zeros j) with (ds +:+ zeros j).
      rewrite length_append, length_zeros. unfold j, k in *. lia.
    - rewrite all_digits_app, zeros_digits, Hd. reflexivity.
    - right. exists c, (r +:+ zeros j). split; [rewrite Hds; apply append_head|exact Hc].
    - exact Hnd.
    - apply parse_fraction_none, Hrest.
    - apply parse_exponent_none, Hrest. }
  destruct ((0 <? n) && (n <=? 21)) eqn:Eb.
  { (* a point inside the digits *)
    assert (H0 : 0 < n < k).
    { apply andb_true_iff in Eb. destruct Eb as [H0 H21].
      apply Z.ltb_lt in H0. apply Z.leb_le in H21.
      apply andb_false_iff in Ea. destruct Ea as [Ea|Ea]; apply Z.leb_gt in Ea; lia. }
    destruct (substring_split ds (Z.to_nat n)) as [Hsplit Hlen]; [unfold k in H0; lia|].
    replace (Z.to_nat (k - n)) with (String.length ds - Z.to_nat n)%nat
      by (unfold k; lia).
    set (pre := substring 0 (Z.to_nat n) ds) in *.
    set (post := substring (Z.to_nat n) (String.length ds - Z.to_nat n) ds) in *.
    assert (Hdd : all_digits pre = true /\ all_digits post = true).
    { rewrite <- Hsplit, all_digits_app in Hd. apply andb_true_iff in Hd. exact Hd. }
    destruct Hdd as [Hpre Hpost].
    assert (Hpost_ne : post <> "").
    { intros E. apply (f_equal String.length) in Hsplit.
      rewrite length_append, Hlen, E in Hsplit. cbn in Hsplit. unfold k in H0. lia. }
    destruct pre as [|c' pre'] eqn:Epre; [cbn in Hlen; lia|].
    assert (c' = c) as ->.
    { rewrite Hds, append_head in Hsplit. congruence. }
    rewrite append_char. rewrite (append_head c pre').
    rewrite parse_number_signed by exact Hcd.
    rewrite <- (append_head c pre'), append_assoc, append_head.
    change (parse_unsigned neg (String c pre' +:+ String "." (post +:+ rest))
            = Some (Finite neg ds n, rest)).
    rewrite (parse_unsigned_spec neg (String c pre') post 0
               (String "." (post +:+ rest)) rest rest).
    - rewrite Hsplit, Hlen. f_equal. f_equal.
      rewrite Z.add_0_r, Z2Nat.id by lia. apply normalize_wf, Hx.
    - exact Hpre.
    - right. exists c, pre'. split; [reflexivity|exact Hc].
    - reflexivity.
    - apply parse_fraction_some; assumption.
    - apply parse_exponent_none, Hrest. }
  destruct ((-6 <? n) && (n <=? 0)) eqn:Ec.
  { (* zeros after the point *)
    apply andb_true_iff in Ec. destruct Ec as [_ Hn0]. apply Z.leb_le in Hn0.
    set (j := Z.to_nat (- n)).
    change ("0." +:+ zeros j +:+ ds) with (String "0" (String "." (zeros j +:+ ds))).
    rewrite parse_number_signed by reflexivity.
    rewrite append_head, append_head.
    change (String "0" (String "." ((zeros j +:+ ds) +:+ rest)))
      with ("0" +:+ String "." ((zeros j +:+ ds) +:+ rest)).
    rewrite (parse_unsigned_spec neg "0" (zeros j +:+ ds) 0
               (String "." ((zeros j +:+ ds) +:+ rest)) rest rest).
    - f_equal. f_equal.
      change ("0" +:+ zeros j +:+ ds) with (zeros (S j) +:+ ds).
      rewrite <- (append_nil_r ds) at 1. change "" with (zeros 0).
      rewrite normalize_padded by exact Hx. f_equal. unfold j. cbn [String.length zeros]. lia.
    - reflexivity.
    - left. reflexivity.
    - reflexivity.
    - apply parse_fraction_some; [|intros E|exact Hnd].
      + rewrite all_digits_app, zeros_digits, Hd. reflexivity.
      + apply (f_equal String.length) in E. rewrite length_append in E.
        destruct ds; [contradiction|]. cbn [String.length] in E. lia.
    - apply parse_exponent_none, Hrest. }
  (* exponent notation *)
  cbv zeta.
  set (ex := (if n - 1 <? 0 then "-" else "+") +:+ decimal (Z.abs (n - 1))).
  subst ds. destruct r as [|c2 r2].
  - change (String c "e" +:+ ex) with (String c (String "e" ex)).
    rewrite parse_number_signed by exact Hcd.
    change (parse_unsigned neg (String c "" +:+ String "e" (ex +:+ rest))
            = Some (Finite neg (String c "") n, rest)).
    rewrite (parse_unsigned_spec neg (String c "") "" (n - 1)
               (String "e" (ex +:+ rest)) (String "e" (ex +:+ rest)) rest).
    + f_equal. f_equal. rewrite append_nil_r.
      replace (Z.of_nat (String.length (String c "")) + (n - 1)) with n
        by (cbn [String.length]; lia).
      apply normalize_wf, Hx.
    + exact Hd.
    + right. exists c, "". split; [reflexivity|exact Hc].
    + reflexivity.
    + reflexivity.
    + apply parse_exponent_some, Hnd.
  - change (String c "." +:+ String c2 r2 +:+ "e" +:+ ex)
      with (String c (String "." (String c2 r2 +:+ String "e" ex))).
    rewrite parse_number_signed by exact Hcd.
    rewrite append_head, append_head, append_assoc.
    change (parse_unsigned neg
              (String c "" +:+ String "." (String c2 r2 +:+ String "e" (ex +:+ rest)))
            = Some (Finite neg (String c (String c2 r2)) n, rest)).
    rewrite (parse_unsigned_spec neg (String c "") (String c2 r2) (n - 1)
               (String "." (String c2 r2 +:+ String "e" (ex +:+ rest)))
               (String "e" (ex +:+ rest)) rest).
    + f_equal. f_equal. rewrite append_char.
      replace (Z.of_nat (String.length (String c "")) + (n - 1)) with n
        by (cbn [String.length]; lia).
      apply normalize_wf, Hx.
    + rewrite all_digits_cons, Hcd. reflexivity.
    + right. exists c, "". split; [reflexivity|exact Hc].
    + reflexivity.
    + apply parse_fraction_some; [|discriminate|reflexivity].
      rewrite all_digits_cons in Hd. apply andb_true_iff in Hd. apply Hd.
    + apply parse_exponent_some, Hnd.
Qed.

(** *** JSON: values *)

Lemma skip_ws_head c s : is_ws c = false -> skip_ws (String c s) = String c s.
Proof. intros H. cbn [skip_ws]. rewrite H. reflexivity. Qed.

Lemma parse_value_string f s rest :
  (0 < f)%nat -> parse_value f (quote s +:+ rest) = Some (VStr s, rest).
Proof.
  intros Hf. destruct f as [|f]; [lia|].
  destruct (parse_chars_literal s rest) as (body & -> & Hb).
  cbn [parse_value]. rewrite (skip_ws_head dquote body eq_refl).
  unfold dquote at 1. cbv iota beta. rewrite Ascii.eqb_refl, Hb. reflexivity.
Qed.

Lemma parse_value_numeral_head f c r :
  is_digit c = true \/ c = "-"%char ->
  parse_value (S f) (String c r)
  = match parse_number (String c r) with
    | Some (x, r') => Some (VNum x, r')
    | None => None
    end.
Proof.
  intros H.
  destruct c as [[] [] [] [] [] [] [] []];
    try (exfalso; destruct H as [H|H]; discriminate H);
    cbn [parse_value skip_ws is_ws N_of_ascii N_of_digits Z.of_N]; reflexivity.
Qed.

Lemma Number_toString_head x :
  json_number x ->
  exists c body, Number_toString x = String c body
                 /\ (is_digit c = true \/ c = "-"%char).
Proof.
  destruct x as [|neg|neg|neg ds n]; try contradiction.
  { intros _. exists "0"%char, "". split; [reflexivity|left; reflexivity]. }
  intros (Hne & Hl & _ & Hd). fold (all_digits ds) in Hd.
  destruct (strip_leading_head ds Hne Hl) as (c & r & -> & Hc).
  pose proof (all_digits_head c r Hd) as Hcd.
  cbn [Number_toString]. destruct neg.
  { rewrite append_char. eexists _, _. split; [reflexivity|right; reflexivity]. }
  change ("" +:+ ?x) with x.
  destruct ((Z.of_nat (String.length (String c r)) <=? n) && (n <=? 21));
    [rewrite append_head; eauto|].
  destruct ((0 <? n) && (n <=? 21)) eqn:Eb.
  { apply andb_true_iff in Eb. destruct Eb as [H0 _]. apply Z.ltb_lt in H0.
    destruct (Z.to_nat n) as [|m] eqn:Em; [lia|].
    rewrite substring_0_cons, append_head. eauto. }
  destruct ((-6 <? n) && (n <=? 0));
    [exists "0"%char; eexists; split; [reflexivity|left; reflexivity]|].
  cbv zeta. destruct r; rewrite append_head; eauto.
Qed.

Lemma parse_value_number f x rest :
  (0 < f)%nat -> json_number x -> ends_numeral rest ->
  parse_value f (Number_toString x +:+ rest) = Some (VNum x, rest).
Proof.
  intros Hf Hx Hr. destruct f as [|f]; [lia|]. pose proof (parse_number_toString x rest Hx Hr) as Hp.
  destruct (Number_toString_head x Hx) as (c & body & E & Hc).
  rewrite E in *. rewrite append_head in *.
  rewrite (parse_value_numeral_head f c _ Hc), Hp. reflexivity.
Qed.

Lemma join_cons sep a b l : join sep (a :: b :: l) = a +:+ sep +:+ join sep (b :: l).
Proof. reflexivity. Qed.

Lemma join_one sep a : join sep [a] = a.
Proof. reflexivity. Qed.

(** The elements of an array of strings, up to the closing bracket. *)
Lemma parse_elements_strings cs : forall c1 acc f rest,
  (S (length cs) < f)%nat ->
  parse_elements f acc (join "," (quote <$> (c1 :: cs)) +:+ String "]" rest)
  = Some (VArr (acc ++ (VStr <$> (c1 :: cs))), rest).
Proof.
  induction cs as [|c2 cs IH]; intros c1 acc f rest Hf.
  - destruct f as [|f]; [cbn in Hf; lia|].
    cbn [fmap list_fmap]. rewrite join_one. cbn [parse_elements].
    rewrite parse_value_string by (cbn in Hf; lia). cbn [mbind option_bind].
    rewrite (skip_ws_head "]" rest eq_refl). reflexivity.
  - destruct f as [|f]; [cbn in Hf; lia|].
    rewrite (fmap_cons quote c1), (fmap_cons quote c2).
    rewrite join_cons, !append_assoc, append_char. cbn [parse_elements].
    rewrite parse_value_string by (cbn in Hf; lia). cbn [mbind option_bind].
    rewrite (skip_ws_head "," _ eq_refl). cbv iota beta.
    rewrite <- (fmap_cons quote c2).
    rewrite IH by (cbn [length] in Hf; lia).
    rewrite <- app_assoc. reflexivity.
Qed.

Lemma stringify_strings cs :
  stringify (VArr (VStr <$> cs)) = Some ("[" +:+ join "," (quote <$> cs) +:+ "]").
Proof.
  cbn [stringify]. do 4 f_equal.
  induction cs as [|c cs IH]; [reflexivity|].
  cbn [fmap list_fmap] in *. cbn [stringify default from_option].
  unfold Datatypes.id. f_equal. exact IH.
Qed.

Lemma parse_value_strings f cs rest :
  (S (S (length cs)) < f)%nat ->
  parse_value f (("[" +:+ join "," (quote <$> cs) +:+ "]") +:+ rest)
  = Some (VArr (VStr <$> cs), rest).
Proof.
  intros Hf. destruct f as [|f]; [lia|].
  rewrite append_char, append_head, append_assoc, append_char.
  cbn [parse_value]. rewrite (skip_ws_head "[" _ eq_refl). cbv iota beta.
  destruct cs as [|c1 cs].
  - change (join "," (quote <$> []) +:+ String "]" rest) with (String "]" rest).
    rewrite (skip_ws_head "]" rest eq_refl). reflexivity.
  - assert (Hq : exists body, join "," (quote <$> (c1 :: cs)) +:+ String "]" rest
                              = String dquote body).
    { destruct cs as [|c2 cs].
      - cbn [fmap list_fmap]. rewrite join_one.
        destruct (parse_chars_literal c1 (String "]" rest)) as (b & -> & _). eauto.
      - rewrite (fmap_cons quote c1), (fmap_cons quote c2).
        rewrite join_cons, append_assoc.
        destruct (parse_chars_literal c1
                    (("," +:+ join "," (quote c2 :: (quote <$> cs)))
                     +:+ String "]" rest)) as (b & -> & _). eauto. }
    destruct Hq as (body & Hq).
    assert (Hs : skip_ws (join "," (quote <$> (c1 :: cs)) +:+ String "]" rest)
                 = join "," (quote <$> (c1 :: cs)) +:+ String "]" rest).
    { rewrite Hq. apply skip_ws_head. reflexivity. }
    rewrite Hs. rewrite Hq at 1. unfold dquote at 1. cbv iota beta.
    change (String "034" body) with (String dquote body).
    rewrite <- Hq. rewrite parse_elements_strings by (cbn [length] in Hf; lia).
    reflexivity.
Qed.

(** *** JSON: the object of [collegeData] *)

Lemma parse_members_step f acc k tv v c rest :
  (0 < f)%nat -> is_ws c = false ->
  parse_value (pred f) (tv +:+ String c rest) = Some (v, String c rest) ->
  parse_members f acc ((quote k +:+ ":" +:+ tv) +:+ String c rest)
  = match c with
    | ","%char => parse_members (pred f) (obj_set k v acc) rest
    | "}"%char => Some (VObj (obj_set k v acc), rest)
    | _ => None
    end.
Proof.
  intros Hf Hc Hv. destruct f as [|f]; [lia|]. cbn [pred] in *.
  rewrite !append_assoc, append_char.
  destruct (parse_chars_literal k (String ":" (tv +:+ String c rest)))
    as (body & -> & Hb).
  cbn [parse_members]. rewrite (skip_ws_head dquote body eq_refl).
  rewrite Ascii.eqb_refl, Hb. cbn [mbind option_bind].
  rewrite (skip_ws_head ":" _ eq_refl). cbv iota beta. rewrite Hv.
  cbn [mbind option_bind]. rewrite (skip_ws_head c rest Hc).
  destruct c as [[] [] [] [] [] [] [] []]; reflexivity.
Qed.

Lemma length_join_quotes cs :
  (length cs <= String.length (join "," (quote <$> cs)))%nat.
Proof.
  induction cs as [|c1 cs IH]; [cbn; lia|].
  destruct cs as [|c2 cs].
  - cbn [fmap list_fmap]. rewrite join_one. unfold quote. cbn [String.length length]. lia.
  - rewrite (fmap_cons quote c1). rewrite (fmap_cons quote c2) in *.
    rewrite join_cons, !length_append. unfold quote at 1.
    cbn [String.length length] in *. lia.
Qed.

Lemma stringify_number g : json_number g -> stringify (VNum g) = Some (Number_toString g).
Proof. destruct g; try contradiction; reflexivity. Qed.

Lemma stringify_college c :
  valid_college c -> stringify (college_value c) = Some (college_text c).
Proof.
  intros Hv. unfold college_value, college_text.
  pose proof (stringify_strings (courses c)) as Harr.
  set (arr := VArr (VStr <$> courses c)) in *.
  destruct (advisor c) as [a|]; destruct (gpa c) as [g|] eqn:Eg;
    try pose proof (Hv g Eg) as Hg;
    cbn [optional app]; cbn [stringify]; rewrite Harr; try reflexivity;
    destruct g; try (exfalso; exact Hg); reflexivity.
Qed.

Lemma join_members ms tail : join "," ms +:+ tail = members_text ms tail.
Proof.
  induction ms as [|m ms IH]; [reflexivity|].
  destruct ms as [|m' ms]; [reflexivity|].
  rewrite join_cons, !append_assoc, append_char, IH. reflexivity.
Qed.

Lemma ends_numeral_brace rest : ends_numeral (String "}" rest).
Proof. repeat split; discriminate. Qed.

(** The members of a [collegeData] after the opening brace, read with
    enough fuel. *)
Lemma parse_college_members c f rest :
  valid_college c -> (length (courses c) + 10 <= f)%nat ->
  parse_members f []
    (join ","
       ([quote "department" +:+ ":" +:+ quote (department c);
         quote "courses" +:+ ":" +:+ ("[" +:+ join "," (quote <$> courses c) +:+ "]");
         quote "academicYear" +:+ ":" +:+ quote (academicYear c);
         quote "semester" +:+ ":" +:+ quote (semester c)]
        ++ match advisor c with
           | Some a => [quote "advisor" +:+ ":" +:+ quote a]
           | None => []
           end
        ++ match gpa c with
           | Some g => [quote "gpa" +:+ ":" +:+ Number_toString g]
           | None => []
           end)
     +:+ String "}" rest)
  = Some (college_value c, rest).
Proof.
  intros Hv Hf. unfold college_value. rewrite join_members.
  assert (Hstr : forall n s r, (n < f)%nat ->
                   parse_value (f - n) (quote s +:+ r) = Some (VStr s, r)).
  { intros. apply parse_value_string. lia. }
  assert (Harr : forall r, parse_value (f - 2)
                   (("[" +:+ join "," (quote <$> courses c) +:+ "]") +:+ r)
                 = Some (VArr (VStr <$> courses c), r)).
  { intros. apply parse_value_strings. lia. }
  assert (Hstep : forall n acc k tv v ch r,
            (n < f)%nat -> is_ws ch = false ->
            parse_value (f - S n) (tv +:+ String ch r) = Some (v, String ch r) ->
            parse_members (f - n) acc ((quote k +:+ ":" +:+ tv) +:+ String ch r)
            = match ch with
              | ","%char => parse_members (f - S n) (obj_set k v acc) r
              | "}"%char => Some (VObj (obj_set k v acc), r)
              | _ => None
              end).
  { intros n acc k tv v ch r Hn Hws Hval.
    replace (f - S n)%nat with (pred (f - n)) in * by lia.
    apply parse_members_step; [lia|exact Hws|exact Hval]. }
  assert (Hfour : forall tail,
            parse_members f []
              (members_text
                 [quote "department" +:+ ":" +:+ quote (department c);
                  quote "courses" +:+ ":" +:+
                    ("[" +:+ join "," (quote <$> courses c) +:+ "]");
                  quote "academicYear" +:+ ":" +:+ quote (academicYear c);
                  quote "semester" +:+ ":" +:+ quote (semester c)]
                 (String "," tail))
            = parse_members (f - 4)
                [("department", VStr (department c));
                 ("courses", VArr (VStr <$> courses c));
                 ("academicYear", VStr (academicYear c));
                 ("semester", VStr (semester c))] tail).
  { intros tail. replace f with (f - 0)%nat at 1 by lia. cbn [members_text].
    rewrite (Hstep 0%nat _ "department" (quote (department c))
               (VStr (department c)))
      by (first [lia|reflexivity|apply Hstr; lia]).
    cbv iota beta.
    rewrite (Hstep 1%nat _ "courses"
               ("[" +:+ join "," (quote <$> courses c) +:+ "]")
               (VArr (VStr <$> courses c)))
      by (first [lia|reflexivity|apply Harr]).
    cbv iota beta.
    rewrite (Hstep 2%nat _ "academicYear" (quote (academicYear c))
               (VStr (academicYear c)))
      by (first [lia|reflexivity|apply Hstr; lia]).
    cbv iota beta.
    rewrite (Hstep 3%nat _ "semester" (quote (semester c)) (VStr (semester c)))
      by (first [lia|reflexivity|apply Hstr; lia]).
    reflexivity. }
  assert (Hfour_end : forall tail,
            parse_members f []
              (members_text
                 [quote "department" +:+ ":" +:+ quote (department c);
                  quote "courses" +:+ ":" +:+
                    ("[" +:+ join "," (quote <$> courses c) +:+ "]");
                  quote "academicYear" +:+ ":" +:+ quote (academicYear c);
                  quote "semester" +:+ ":" +:+ quote (semester c)]
                 (String "}" tail))
            = Some (VObj [("department", VStr (department c));
                          ("courses", VArr (VStr <$> courses c));
                          ("academicYear", VStr (academicYear c));
                          ("semester", VStr (semester c))], tail)).
  { intros tail. replace f with (f - 0)%nat at 1 by lia. cbn [members_text].
    rewrite (Hstep 0%nat _ "department" (quote (department c))
               (VStr (department c)))
      by (first [lia|reflexivity|apply Hstr; lia]).
    cbv iota beta.
    rewrite (Hstep 1%nat _ "courses"
               ("[" +:+ join "," (quote <$> courses c) +:+ "]")
               (VArr (VStr <$> courses c)))
      by (first [lia|reflexivity|apply Harr]).
    cbv iota beta.
    rewrite (Hstep 2%nat _ "academicYear" (quote (academicYear c))
               (VStr (academicYear c)))
      by (first [lia|reflexivity|apply Hstr; lia]).
    cbv iota beta.
    rewrite (Hstep 3%nat _ "semester" (quote (semester c)) (VStr (semester c)))
      by (first [lia|reflexivity|apply Hstr; lia]).
    reflexivity. }
  destruct (advisor c) as [a|]; destruct (gpa c) as [g|] eqn:Eg;
    try pose proof (Hv g Eg) as Hg; cbn [app optional].
  - change (members_text _ (String "}" rest))
      with (members_text
              [quote "department" +:+ ":" +:+ quote (department c);
               quote "courses" +:+ ":" +:+
                 ("[" +:+ join "," (quote <$> courses c) +:+ "]");
               quote "academicYear" +:+ ":" +:+ quote (academicYear c);
               quote "semester" +:+ ":" +:+ quote (semester c)]
              (String ","
                 ((quote "advisor" +:+ ":" +:+ quote a) +:+
                  String "," ((quote "gpa" +:+ ":" +:+ Number_toString g)
                              +:+ String "}" rest)))).
    rewrite Hfour.
    rewrite (Hstep 4%nat _ "advisor" (quote a) (VStr a))
      by (first [lia|reflexivity|apply Hstr; lia]).
    cbv iota beta.
    rewrite (Hstep 5%nat _ "gpa" (Number_toString g) (VNum g))
      by (first [lia|reflexivity
                |apply parse_value_number; [lia|exact Hg|apply ends_numeral_brace]]).
    reflexivity.
  - change (members_text _ (String "}" rest))
      with (members_text
              [quote "department" +:+ ":" +:+ quote (department c);
               quote "courses" +:+ ":" +:+
                 ("[" +:+ join "," (quote <$> courses c) +:+ "]");
               quote "academicYear" +:+ ":" +:+ quote (academicYear c);
               quote "semester" +:+ ":" +:+ quote (semester c)]
              (String "," ((quote "advisor" +:+ ":" +:+ quote a)
                           +:+ String "}" rest))).
    rewrite Hfour.
    rewrite (Hstep 4%nat _ "advisor" (quote a) (VStr a))
      by (first [lia|reflexivity|apply Hstr; lia]).
    reflexivity.
  - change (members_text _ (String "}" rest))
      with (members_text
              [quote "department" +:+ ":" +:+ quote (department c);
               quote "courses" +:+ ":" +:+
                 ("[" +:+ join "," (quote <$> courses c) +:+ "]");
               quote "academicYear" +:+ ":" +:+ quote (academicYear c);
               quote "semester" +:+ ":" +:+ quote (semester c)]
              (String "," ((quote "gpa" +:+ ":" +:+ Number_toString g)
                           +:+ String "}" rest))).
    rewrite Hfour.
    rewrite (Hstep 4%nat _ "gpa" (Number_toString g) (VNum g))
      by (first [lia|reflexivity
                |apply parse_value_number; [lia|exact Hg|apply ends_numeral_brace]]).
    reflexivity.
  - apply Hfour_end.
Qed.

(** [JSON.parse] gives back the [collegeData] that [JSON.stringify] wrote. *)
Lemma parse_stringify_college c :
  valid_college c -> parse (college_text c) = Some (college_value c).
Proof.
  intros Hv. unfold parse.
  assert (Hlen : (length (courses c) + 10 <= String.length (college_text c))%nat).
  { unfold college_text. pose proof (length_join_quotes (courses c)).
    rewrite append_char. cbn [String.length]. rewrite length_append.
    destruct (advisor c), (gpa c); cbn [app];
      rewrite !join_cons, ?join_one, !length_append; cbn [String.length]; lia. }
  set (F := String.length (college_text c)) in *.
  unfold college_text. rewrite append_char. cbn [parse_value].
  rewrite (skip_ws_head "{" _ eq_refl). cbv iota beta.
  assert (Hq : exists body,
             join ","
               ([quote "department" +:+ ":" +:+ quote (department c);
                 quote "courses" +:+ ":" +:+
                   ("[" +:+ join "," (quote <$> courses c) +:+ "]");
                 quote "academicYear" +:+ ":" +:+ quote (academicYear c);
                 quote "semester" +:+ ":" +:+ quote (semester c)]
                ++ match advisor c with
                   | Some a => [quote "advisor" +:+ ":" +:+ quote a]
                   | None => []
                   end
                ++ match gpa c with
                   | Some g => [quote "gpa" +:+ ":" +:+ Number_toString g]
                   | None => []
                   end) +:+ "}" = String dquote body).
  { rewrite join_members. cbn [app members_text]. rewrite append_assoc.
    destruct (parse_chars_literal "department"
                (":" +:+ quote (department c))) as (b & _ & _).
    unfold quote at 1. rewrite !append_head. eexists. reflexivity. }
  destruct Hq as (body & Hq).
  pose proof (parse_college_members c F "" Hv Hlen) as Hm.
  rewrite Hq in *. rewrite (skip_ws_head dquote body eq_refl).
  unfold dquote at 1. cbv iota beta. change (String "034" body) with (String dquote body).
  rewrite Hm. reflexivity.
Qed.

Lemma lookup_optional_ne {A} k (f : A -> value) x (l : list (string * value)) k' :
  k <> k' ->
  (list_to_map (optional k f x ++ l) : object) !! k' = (list_to_map l : object) !! k'.
Proof.
  intros H. destruct x; cbn [optional app]; [|reflexivity].
  rewrite list_to_map_cons, lookup_insert_ne by exact H. reflexivity.
Qed.

Lemma lookup_optional_eq {A} k (f : A -> value) x (l : list (string * value)) :
  (list_to_map (optional k f x ++ l) : object) !! k
  = match x with Some a => Some (f a) | None => (list_to_map l : object) !! k end.
Proof.
  destruct x; cbn [optional app]; [|reflexivity].
  rewrite list_to_map_cons, lookup_insert_eq. reflexivity.
Qed.

Lemma lookup_optional_last {A} k (f : A -> value) x k' :
  (list_to_map (optional k f x) : object) !! k'
  = if decide (k = k') then f <$> x else None.
Proof.
  destruct x; cbn [optional]; destruct (decide (k = k')) as [->|E]; try reflexivity.
  - rewrite list_to_map_cons, lookup_insert_eq. reflexivity.
  - rewrite list_to_map_cons, lookup_insert_ne by exact E. reflexivity.
Qed.

Ltac lookup_object :=
  repeat match goal with
         | |- context [list_to_map (_ :: _)] => rewrite list_to_map_cons
         | |- context [<[?k := _]> _ !! ?k] => rewrite lookup_insert_eq
         | |- context [<[_ := _]> _ !! _] =>
             rewrite lookup_insert_ne by discriminate
         | |- context [list_to_map (optional ?k _ _ ++ _) !! ?k] =>
             rewrite lookup_optional_eq
         | |- context [list_to_map (optional _ _ _ ++ _) !! _] =>
             rewrite lookup_optional_ne by discriminate
         | |- context [list_to_map (optional _ _ _) !! _] =>
             rewrite lookup_optional_last
         end.

(** The properties of the caller's object, one by one. *)
Lemma user_object_props u :
  prop (user_object u) "id" = VStr (id u)
  /\ prop (user_object u) "fullName" = VStr (fullName u)
  /\ prop (user_object u) "universityEmail" = VStr (universityEmail u)
  /\ prop (user_object u) "password" = VStr (password u)
  /\ prop (user_object u) "phoneNumber" = opt_string (phoneNumber u)
  /\ prop (user_object u) "universityName" = opt_string (universityName u)
  /\ prop (user_object u) "universityId" = opt_string (universityId u)
  /\ prop (user_object u) "program" = opt_string (program u)
  /\ prop (user_object u) "yearOfStudy" = opt_string (yearOfStudy u)
  /\ prop (user_object u) "isEmailVerified" = VBool (isEmailVerified u)
  /\ prop (user_object u) "verificationToken" = opt_string (verificationToken u)
  /\ prop (user_object u) "verificationTokenExpiry"
     = match verificationTokenExpiry u with Some d => VDate d | None => undefined end
  /\ prop (user_object u) "collegeData"
     = match collegeData u with Some c => college_value c | None => undefined end
  /\ prop (user_object u) "createdAt" = VDate (createdAt u).
Proof.
  unfold prop, user_object. cbn [app].
  repeat apply conj; lookup_object;
    repeat match goal with
           | |- context [match ?x with Some _ => _ | None => _ end] => destruct x
           end; lookup_object; reflexivity.
Qed.

Lemma college_text_truthy c : truthy (VStr (college_text c)) = true.
Proof. unfold college_text. rewrite append_char. reflexivity. Qed.

Lemma iso_of_time_truthy t : truthy (VStr (iso_of_time t)) = true.
Proof.
  unfold iso_of_time. destruct (civil_from_days (t / msPerDay)) as [[y m] d].
  unfold year_string.
  destruct ((0 <=? y) && (y <=? 9999)).
  - rewrite (pad_S 3), append_char. reflexivity.
  - destruct (y <? 0); rewrite append_char; reflexivity.
Qed.

(** The parameters of a valid user, spelled out. *)
Lemma stored_params_valid_user u :
  valid_user u ->
  exists tc, createdAt u = DateAt tc /\ - maxTime <= tc <= maxTime
  /\ stored_params u
     = Some [SText (id u); SText (fullName u); SText (universityEmail u);
             SText (password u); bind (opt_string (phoneNumber u));
             bind (opt_string (universityName u));
             bind (opt_string (universityId u));
             bind (opt_string (program u)); bind (opt_string (yearOfStudy u));
             SInt (if isEmailVerified u then 1 else 0);
             bind (opt_string (verificationToken u));
             match verificationTokenExpiry u with
             | Some d => match toISOString d with
                         | Some x => SText x
                         | None => SNull
                         end
             | None => SNull
             end;
             match collegeData u with
             | Some c => SText (college_text c)
             | None => SNull
             end;
             SText (iso_of_time tc)].
Proof.
  intros [[Hc He] Hv]. unfold stored_params.
  destruct (createdAt u) as [|tc]; [destruct Hc|]. exists tc.
  split; [reflexivity|]. split; [exact Hc|].
  assert (Hcol : bind match collegeData u with
                      | Some c => JSON_stringify (college_value c)
                      | None => null
                      end
                 = match collegeData u with
                   | Some c => SText (college_text c)
                   | None => SNull
                   end).
  { destruct (collegeData u) as [c|]; [|reflexivity].
    unfold JSON_stringify. rewrite (stringify_college c (Hv c eq_refl)). reflexivity. }
  destruct (verificationTokenExpiry u) as [[|te]|]; [destruct (He _ eq_refl)|..];
    cbn [toISOString fmap option_fmap option_map mbind option_bind list_fmap bind];
    rewrite Hcol; reflexivity.
Qed.

Lemma inserted_unbound (t : table) ps k p i :
  insert_columns !! i = Some k -> ps !! i = Some p ->
  (unbind <$> inserted t ps : object) !! k = Some (unbind p).
Proof.
  intros H1 H2. rewrite lookup_fmap, (inserted_lookup t ps i k p H1 H2). reflexivity.
Qed.

Lemma bind_opt_string x :
  unbind (bind (opt_string x)) = match x with Some a => VStr a | None => null end.
Proof. destruct x; reflexivity. Qed.

(** The row that [addUser] inserts for a valid user reads back as the
    user, with [null] for the absent text properties. *)
Lemma rowToUser_inserted u t ps :
  valid_user u -> stored_params u = Some ps ->
  exists o, rowToUser (inserted t ps) = inr o
    /\ forall k, k ∈ users_columns -> prop o k = read_back u k.
Proof.
  intros Hv Hps.
  destruct (stored_params_valid_user u Hv) as (tc & Hcreated & Htc & Hshape).
  rewrite Hps in Hshape. injection Hshape as ->.
  destruct Hv as [[_ He] Hc].
  match goal with |- context [inserted t ?l] => set (ps := l) end.
  pose proof (fun i k p H1 H2 => inserted_unbound t ps k p i H1 H2) as Hrow.
  pose proof (Hrow 0%nat _ _ eq_refl eq_refl) as H0.
  pose proof (Hrow 1%nat _ _ eq_refl eq_refl) as H1.
  pose proof (Hrow 2%nat _ _ eq_refl eq_refl) as H2.
  pose proof (Hrow 3%nat _ _ eq_refl eq_refl) as H3.
  pose proof (Hrow 4%nat _ _ eq_refl eq_refl) as H4.
  pose proof (Hrow 5%nat _ _ eq_refl eq_refl) as H5.
  pose proof (Hrow 6%nat _ _ eq_refl eq_refl) as H6.
  pose proof (Hrow 7%nat _ _ eq_refl eq_refl) as H7.
  pose proof (Hrow 8%nat _ _ eq_refl eq_refl) as H8.
  pose proof (Hrow 9%nat _ _ eq_refl eq_refl) as H9.
  pose proof (Hrow 10%nat _ _ eq_refl eq_refl) as H10.
  pose proof (Hrow 11%nat _ _ eq_refl eq_refl) as H11.
  pose proof (Hrow 12%nat _ _ eq_refl eq_refl) as H12.
  pose proof (Hrow 13%nat _ _ eq_refl eq_refl) as H13.
  clear Hrow. rewrite bind_opt_string in H4, H5, H6, H7, H8, H10.
  set (o := (unbind <$> inserted t ps : object)) in *.
  assert (Hcollege :
            (if truthy (prop o "collegeData") then JSON_parse (prop o "collegeData")
             else inr undefined)
            = inr match collegeData u with
                  | Some c => college_value c
                  | None => undefined
                  end).
  { unfold prop. rewrite H12. cbn [default from_option Datatypes.id].
    destruct (collegeData u) as [c|]; [|reflexivity].
    cbn [unbind]. rewrite college_text_truthy. unfold JSON_parse. cbn [ToString].
    rewrite (parse_stringify_college c (Hc c eq_refl)). reflexivity. }
  assert (Hexpiry :
            (if truthy (prop o "verificationTokenExpiry")
             then VDate (Date_new (prop o "verificationTokenExpiry"))
             else undefined)
            = match verificationTokenExpiry u with
              | Some d => VDate d
              | None => undefined
              end).
  { unfold prop. rewrite H11. cbn [default from_option Datatypes.id].
    destruct (verificationTokenExpiry u) as [d|]; [|reflexivity].
    pose proof (He d eq_refl) as Hd. destruct d as [|te]; [destruct Hd|].
    cbn [toISOString unbind]. rewrite iso_of_time_truthy. cbn [Date_new].
    rewrite (Date_parse_iso te Hd). reflexivity. }
  assert (Hflag : truthy (prop o "isEmailVerified") = isEmailVerified u).
  { unfold prop. rewrite H9. destruct (isEmailVerified u); reflexivity. }
  assert (Hdate : Date_new (prop o "createdAt") = createdAt u).
  { unfold prop. rewrite H13, Hcreated. cbn [default from_option Datatypes.id unbind Date_new].
    apply Date_parse_iso, Htc. }
  unfold rowToUser. fold o. rewrite Hcollege, Hexpiry, Hflag, Hdate.
  eexists. split; [reflexivity|].
  destruct (user_object_props u)
    as (P0 & P1 & P2 & P3 & P4 & P5 & P6 & P7 & P8 & P9 & P10 & P11 & P12 & P13).
  intros k Hk. unfold users_columns in Hk.
  repeat (apply elem_of_cons in Hk; destruct Hk as [->|Hk]);
    [..|inversion Hk];
    unfold read_back;
    match goal with
    | |- context [bool_decide (?k ∈ text_fields)] =>
        let b := eval vm_compute in (bool_decide (k ∈ text_fields)) in
        change (bool_decide (k ∈ text_fields)) with b
    end;
    cbv iota;
    rewrite ?P0, ?P1, ?P2, ?P3, ?P4, ?P5, ?P6, ?P7, ?P8, ?P9, ?P10, ?P11, ?P12, ?P13;
    unfold prop at 1;
    rewrite ?lookup_insert_eq;
    repeat (rewrite lookup_insert_ne by discriminate; rewrite ?lookup_insert_eq);
    rewrite ?H0, ?H1, ?H2, ?H3, ?H4, ?H5, ?H6, ?H7, ?H8, ?H10;
    try reflexivity.
  all: match goal with
       | |- context [opt_string ?x] => destruct x; reflexivity
       end.
Qed.

Lemma filter_none {A} (P : A -> bool) (l : list A) :
  (forall x, x ∈ l -> P x = false) -> filter (fun x => P x) l = [].
Proof.
  induction l as [|a l IH]; intros H; [reflexivity|].
  rewrite filter_cons, decide_False.
  - apply IH. intros x Hx. apply H. right. exact Hx.
  - rewrite (H a) by left. intros [].
Qed.

(** A row that passes the constraints is the only one with its [id]. *)
Lemma inserted_id_fresh l r x :
  violation (l ++ [r]) r = None -> col r "id" = SText x ->
  forall r', r' ∈ l -> where_column "id" (SText x) r' = false.
Proof.
  intros Hviol Hid. apply violation_None in Hviol. destruct Hviol as [_ Huniq].
  assert (Hin : "id" ∈ unique_columns) by (right; left).
  specialize (Huniq "id" Hin). rewrite Hid, count_where_app in Huniq.
  rewrite (count_where_one _ _ (where_column_refl _ _ _ Hid)) in Huniq.
  apply count_where_zero.
  pose proof (count_where_nonneg (where_column "id" (SText x)) l). lia.
Qed.

(** What [addUser] leaves behind: the table it found plus one row. *)
Lemma addUser_stores u s s1 :
  reliable s -> addUser u s = (inr tt, s1) ->
  exists t ps,
    stored_params u = Some ps
    /\ file s1 = Some (with_row t ps)
    /\ (forall r', r' ∈ rows t -> where_column "id" (SText (id u)) r' = false)
    /\ col (inserted t ps) "id" = SText (id u)
    /\ fst (initializeDatabase s1) = inr tt /\ after_init s1 = s1 /\ reliable s1.
Proof.
  intros Hr Hadd.
  destruct (addUser_steady u s s1 Hr Hadd) as [Hst Hr1].
  destruct (addUser_ok u s s1 Hr Hadd) as (_ & t & ps & Hps & _ & _ & Hviol & Hs1).
  assert (Hid : col (inserted t ps) "id" = SText (id u)).
  { apply (inserted_col t ps 0%nat); [reflexivity|apply stored_params_id, Hps]. }
  exists t, ps. split; [exact Hps|]. split; [rewrite Hs1; reflexivity|].
  split; [exact (inserted_id_fresh _ _ _ Hviol Hid)|]. split; [exact Hid|].
  split; [rewrite (steady_init _ Hst); reflexivity|].
  split; [unfold after_init; rewrite (steady_init _ Hst); reflexivity|exact Hr1].
Qed.

Lemma findUserById_inserted u s s1 t ps :
  file s1 = Some (with_row t ps) ->
  (forall r', r' ∈ rows t -> where_column "id" (SText (id u)) r' = false) ->
  col (inserted t ps) "id" = SText (id u) ->
  fst (initializeDatabase s1) = inr tt -> after_init s1 = s1 -> reliable s1 ->
  s = s1 ->
  fst (findUserById (id u) s) = decode (Some (inserted t ps)).
Proof.
  intros Hf Hfresh Hid Hi Ha Hr ->.
  rewrite (findUserById_spec (id u) s1 (with_row t ps) Hi Hr)
    by (rewrite Ha; exact Hf).
  cbn [with_row rows]. rewrite filter_app, (filter_none _ _ Hfresh).
  rewrite filter_cons, decide_True
    by (rewrite (where_column_refl _ _ _ Hid); exact I).
  reflexivity.
Qed.

(** C1 (as amended): after [addUser u] has succeeded for a valid user,
    [findUserById (id u)] returns a record that agrees with [u] on every
    property the caller gave, the dates and [collegeData] included; an
    optional text property that the caller left out reads [null]. *)
Theorem addUser_findUserById_round_trip (u : User) (s s1 : Database) :
  reliable s -> valid_user u -> addUser u s = (inr tt, s1) ->
  exists o,
    fst (findUserById (id u) s1) = inr (Some o)
    /\ (forall k, k ∈ users_columns ->
          k ∉ text_fields \/ prop (user_object u) k <> undefined ->
          prop o k = prop (user_object u) k)
    /\ (forall k, k ∈ text_fields -> prop (user_object u) k = undefined ->
          prop o k = null).
Proof.
  intros Hr Hv Hadd.
  destruct (addUser_stores u s s1 Hr Hadd)
    as (t & ps & Hps & Hf & Hfresh & Hid & Hi & Ha & Hr1).
  destruct (rowToUser_inserted u t ps Hv Hps) as (o & Ho & Hprops).
  exists o. split.
  - rewrite (findUserById_inserted u s1 s1 t ps Hf Hfresh Hid Hi Ha Hr1 eq_refl).
    cbn [decode]. rewrite Ho. reflexivity.
  - split.
    + intros k Hk Hcase. rewrite (Hprops k Hk). unfold read_back.
      destruct (bool_decide_reflect (k ∈ text_fields)) as [Hin|Hout];
        [|reflexivity].
      destruct Hcase as [Hout|Hdef]; [destruct (Hout Hin)|].
      destruct (prop (user_object u) k); congruence.
    + intros k Hk Hundef.
      assert (Hcol : k ∈ users_columns).
      { unfold text_fields in Hk.
        repeat (apply elem_of_cons in Hk; destruct Hk as [->|Hk]);
          [..|inversion Hk]; apply (bool_decide_unpack _); vm_compute; exact I. }
      rewrite (Hprops k Hcol). unfold read_back.
      rewrite bool_decide_eq_true_2 by exact Hk. rewrite Hundef. reflexivity.
Qed.

Lemma ann_valid : valid_user ann.
Proof.
  split; [split|].
  - cbn. unfold maxTime. lia.
  - intros d [= <-]. cbn. unfold maxTime. lia.
  - intros c [= <-] g [= <-]. vm_compute. split; [discriminate|]. repeat split.
Defined.

Lemma fresh_reliable : reliable fresh.
Proof. intros st. reflexivity. Defined.

Lemma addUser_findUserById_round_trip_witness :
  exists o,
    fst (findUserById (id ann) (snd (addUser ann fresh))) = inr (Some o)
    /\ (forall k, k ∈ users_columns ->
          k ∉ text_fields \/ prop (user_object ann) k <> undefined ->
          prop o k = prop (user_object ann) k)
    /\ (forall k, k ∈ text_fields -> prop (user_object ann) k = undefined ->
          prop o k = null).
Proof.
  apply (addUser_findUserById_round_trip ann fresh (snd (addUser ann fresh))).
  - intros st. reflexivity.
  - split; [split|].
    + cbn. unfold maxTime. lia.
    + intros d [= <-]. cbn. unfold maxTime. lia.
    + intros c [= <-] g [= <-]. vm_compute. split; [discriminate|]. repeat split.
  - vm_compute. reflexivity.
Defined.

(** C1 as the specification words it does not hold: a valid user without
    a phone number is stored, and [findUserById] gives the record back
    with [phoneNumber] equal to [null], where the caller's record has no
    such property. *)
Lemma addUser_findUserById_not_equal :
  valid_user ann
  /\ fst (addUser ann fresh) = inr tt
  /\ read "phoneNumber" (fst (findUserById (id ann) (snd (addUser ann fresh))))
     = Some null
  /\ prop (user_object ann) "phoneNumber" = undefined.
Proof.
  split; [exact ann_valid|]. split; [vm_compute; reflexivity|].
  split; vm_compute; reflexivity.
Qed.

Lemma getAllUsers_spec s t :
  fst (initializeDatabase s) = inr tt -> reliable s -> file (after_init s) = Some t ->
  fst (getAllUsers s) = mapM rowToUser (order_by_desc "createdAt" (rows t)).
Proof.
  intros Hi Hr Hf. unfold getAllUsers. rewrite (method_ok _ _ Hi).
  unfold getAllUsers_body, all, bindM, lift.
  rewrite (engine_reliable _ _ (after_init_reliable _ Hr)), Hf. reflexivity.
Qed.

Lemma insert_desc_elem key r l x : x ∈ insert_desc key r l <-> x = r \/ x ∈ l.
Proof.
  induction l as [|a l IH]; cbn [insert_desc].
  - rewrite list_elem_of_singleton. split; [auto|intros [H|H]; [exact H|inversion H]].
  - destruct (sql_lt _ _).
    + rewrite !elem_of_cons, IH. tauto.
    + rewrite !elem_of_cons. tauto.
Qed.

(** ORDER BY returns the rows of the table, each of them. *)
Lemma order_by_desc_elem key l x : x ∈ order_by_desc key l <-> x ∈ l.
Proof.
  unfold order_by_desc. induction l as [|a l IH]; cbn [foldr]; [reflexivity|].
  rewrite insert_desc_elem, IH, elem_of_cons. reflexivity.
Qed.

Lemma mapM_elem {A B} (f : A -> exn + B) l l' :
  mapM f l = inr l' ->
  (forall b, b ∈ l' -> exists a, a ∈ l /\ f a = inr b)
  /\ (forall a, a ∈ l -> exists b, b ∈ l' /\ f a = inr b).
Proof.
  revert l'. induction l as [|a l IH]; intros l'; cbn [mapM].
  - intros [= <-]. split; intros x Hx; inversion Hx.
  - destruct (f a) as [e|b] eqn:Ea; [discriminate|].
    destruct (mapM f l) as [e|bs]; [discriminate|]. intros [= <-].
    destruct (IH bs eq_refl) as [IH1 IH2]. split.
    + intros b' Hb'. apply elem_of_cons in Hb'. destruct Hb' as [->|Hb'].
      * exists a. split; [left|exact Ea].
      * destruct (IH1 b' Hb') as (a' & Ha' & Hf). exists a'. split; [right|]; assumption.
    + intros a' Ha'. apply elem_of_cons in Ha'. destruct Ha' as [->|Ha'].
      * exists b. split; [left|exact Ea].
      * destruct (IH2 a' Ha') as (b' & Hb' & Hf). exists b'. split; [right|]; assumption.
Qed.

(** The [id] of a decoded record is the [id] of its row. *)
Lemma rowToUser_id r o x :
  rowToUser r = inr o -> prop o "id" = VStr x <-> col r "id" = SText x.
Proof.
  intros H. unfold prop, col.
  rewrite (rowToUser_copies r o "id" H) by discriminate.
  destruct (r !! "id") as [[| | |]|]; cbn; split; congruence.
Qed.

(** The only row with the [id] of the inserted one is the inserted one. *)
Lemma row_of_id t ps x r' :
  (forall r, r ∈ rows t -> where_column "id" (SText x) r = false) ->
  r' ∈ rows (with_row t ps) -> col r' "id" = SText x -> r' = inserted t ps.
Proof.
  intros Hfresh Hin Hid. cbn [with_row rows] in Hin.
  apply elem_of_app in Hin. destruct Hin as [Hin|Hin].
  - pose proof (Hfresh r' Hin) as Hne.
    rewrite (where_column_refl _ _ _ Hid) in Hne. discriminate.
  - apply list_elem_of_singleton in Hin. exact Hin.
Qed.

Lemma opt_string_undefined x : opt_string x = undefined -> x = None.
Proof. destruct x; [discriminate|reflexivity]. Qed.

(** An absent text property is bound as NULL. *)
Lemma inserted_absent u t ps k :
  stored_params u = Some ps -> k ∈ text_fields ->
  prop (user_object u) k = undefined -> inserted t ps !! k = Some SNull.
Proof.
  intros Hps Hk Hundef.
  destruct (stored_params_shape u ps Hps) as (e & c & x & ->).
  destruct (user_object_props u)
    as (_ & _ & _ & _ & P4 & P5 & P6 & P7 & P8 & _ & P10 & _).
  unfold text_fields in Hk.
  repeat (apply elem_of_cons in Hk; destruct Hk as [->|Hk]); [..|inversion Hk].
  - rewrite P4 in Hundef. apply opt_string_undefined in Hundef.
    apply (inserted_lookup t _ 4%nat); [reflexivity|]. rewrite Hundef. reflexivity.
  - rewrite P5 in Hundef. apply opt_string_undefined in Hundef.
    apply (inserted_lookup t _ 5%nat); [reflexivity|]. rewrite Hundef. reflexivity.
  - rewrite P6 in Hundef. apply opt_string_undefined in Hundef.
    apply (inserted_lookup t _ 6%nat); [reflexivity|]. rewrite Hundef. reflexivity.
  - rewrite P7 in Hundef. apply opt_string_undefined in Hundef.
    apply (inserted_lookup t _ 7%nat); [reflexivity|]. rewrite Hundef. reflexivity.
  - rewrite P8 in Hundef. apply opt_string_undefined in Hundef.
    apply (inserted_lookup t _ 8%nat); [reflexivity|]. rewrite Hundef. reflexivity.
  - rewrite P10 in Hundef. apply opt_string_undefined in Hundef.
    apply (inserted_lookup t _ 10%nat); [reflexivity|]. rewrite Hundef. reflexivity.
Qed.

Lemma text_field_copied k :
  k ∈ text_fields ->
  k <> "collegeData" /\ k <> "verificationTokenExpiry"
  /\ k <> "isEmailVerified" /\ k <> "createdAt".
Proof.
  intros Hk. unfold text_fields in Hk.
  repeat (apply elem_of_cons in Hk; destruct Hk as [->|Hk]); [..|inversion Hk];
    repeat split; discriminate.
Qed.

(** *** The order of date-time strings *)

Lemma compare_digit a b :
  0 <= a <= 9 -> 0 <= b <= 9 ->
  Ascii.compare (ascii_of_digit a) (ascii_of_digit b) = (a ?= b).
Proof. intros Ha Hb. each_digit Ha; each_digit Hb; reflexivity. Qed.

Lemma compare_head c r1 r2 :
  String.compare (String c r1) (String c r2) = String.compare r1 r2.
Proof.
  cbn [String.compare].
  assert (H : Ascii.compare c c = Eq).
  { unfold Ascii.compare. apply N.compare_refl. }
  rewrite H. reflexivity.
Qed.

Lemma compare_pad w : forall x y r1 r2,
  String.compare (pad w x +:+ r1) (pad w y +:+ r2)
  = match x mod 10 ^ Z.of_nat w ?= y mod 10 ^ Z.of_nat w with
    | Eq => String.compare r1 r2
    | c => c
    end.
Proof.
  induction w as [|w IH]; intros x y r1 r2.
  - cbn [pad Z.of_nat]. rewrite !Z.pow_0_r, !Z.mod_1_r. reflexivity.
  - rewrite !pad_head. cbn [String.compare].
    set (P := 10 ^ Z.of_nat w) in *.
    assert (HP : 0 < P) by (apply Z.pow_pos_nonneg; lia).
    assert (HS : 10 ^ Z.of_nat (S w) = P * 10).
    { rewrite Nat2Z.inj_succ, Z.pow_succ_r by lia. fold P. lia. }
    rewrite HS, !(Z.rem_mul_r _ P 10) by lia.
    pose proof (Z.mod_pos_bound (x / P) 10 eq_refl) as Ha.
    pose proof (Z.mod_pos_bound (y / P) 10 eq_refl) as Hb.
    pose proof (Z.mod_pos_bound x P HP) as Hx.
    pose proof (Z.mod_pos_bound y P HP) as Hy.
    rewrite compare_digit by lia. rewrite IH.
    set (a := (x / P) mod 10) in *. set (b := (y / P) mod 10) in *.
    set (xm := x mod P) in *. set (ym := y mod P) in *.
    clearbody a b xm ym.
    destruct (Z.compare_spec a b) as [E|E|E].
    + subst b.
      destruct (Z.compare_spec xm ym) as [E'|E'|E'];
        destruct (Z.compare_spec (xm + P * a) (ym + P * a)); try reflexivity; lia.
    + destruct (Z.compare_spec (xm + P * a) (ym + P * b)); try reflexivity; nia.
    + destruct (Z.compare_spec (xm + P * a) (ym + P * b)); try reflexivity; nia.
Qed.

Lemma compare_field w x y r1 r2 :
  0 <= x < 10 ^ Z.of_nat w -> 0 <= y < 10 ^ Z.of_nat w ->
  String.compare (pad w x +:+ r1) (pad w y +:+ r2)
  = match x ?= y with Eq => String.compare r1 r2 | c => c end.
Proof.
  intros Hx Hy. rewrite compare_pad, !Z.mod_small by assumption. reflexivity.
Qed.

Lemma day_key_eq z :
  day_key z
  = (z + 719468) / 146097 * 4000000 + doe_key ((z + 719468) mod 146097).
Proof.
  unfold day_key, civil_from_days, doe_key. cbv zeta.
  destruct (civil_of_doe _) as [[yoe m] d]. unfold date_key, year_shift. lia.
Qed.

Lemma day_key_step z : day_key z < day_key (z + 1).
Proof.
  rewrite !day_key_eq. replace (z + 1 + 719468) with (z + 719468 + 1) by lia.
  set (z' := z + 719468).
  pose proof (Z.mod_pos_bound z' 146097 eq_refl) as Hdoe.
  destruct (Z.eq_dec (z' mod 146097) 146096) as [E|E].
  - assert (Hq : (z' + 1) / 146097 = z' / 146097 + 1)
      by (Z.div_mod_to_equations; lia).
    assert (Hr : (z' + 1) mod 146097 = 0) by (Z.div_mod_to_equations; lia).
    rewrite Hq, Hr, E.
    change (doe_key 146096) with 4000229. change (doe_key 0) with 301. lia.
  - assert (Hq : (z' + 1) / 146097 = z' / 146097)
      by (Z.div_mod_to_equations; lia).
    assert (Hr : (z' + 1) mod 146097 = z' mod 146097 + 1)
      by (Z.div_mod_to_equations; lia).
    rewrite Hq, Hr.
    pose proof (doe_step_ok_all (z' mod 146097)). lia.
Qed.

(** Later days have later dates. *)
Lemma day_key_mono a b : a < b -> day_key a < day_key b.
Proof.
  intros H.
  assert (Hn : forall n : nat, day_key a < day_key (a + 1 + Z.of_nat n)).
  { induction n as [|n IH].
    - replace (a + 1 + Z.of_nat 0) with (a + 1) by lia. apply day_key_step.
    - replace (a + 1 + Z.of_nat (S n)) with (a + 1 + Z.of_nat n + 1) by lia.
      pose proof (day_key_step (a + 1 + Z.of_nat n)). lia. }
  specialize (Hn (Z.to_nat (b - a - 1))).
  replace (a + 1 + Z.of_nat (Z.to_nat (b - a - 1))) with b in Hn by lia. exact Hn.
Qed.

Lemma DaysInMonth_max y m : DaysInMonth y m <= 31.
Proof.
  unfold DaysInMonth. destruct (m =? 2); [destruct (isLeapYear y); lia|].
  destruct (_ || _); lia.
Qed.

(** The fields of a date of the years 0000 to 9999. *)
Lemma iso_fields_bounds t :
  -62167219200000 <= t <= 253402300799999 ->
  exists y m d h mi sec ms,
    civil_from_days (t / msPerDay) = (y, m, d)
    /\ iso_fields t = [y; m; d; h; mi; sec; ms]
    /\ 0 <= y <= 9999 /\ 1 <= m <= 12 /\ 1 <= d <= 31
    /\ 0 <= h <= 23 /\ 0 <= mi <= 59 /\ 0 <= sec <= 59 /\ 0 <= ms <= 999
    /\ day_key (t / msPerDay) = y * 10000 + m * 100 + d
    /\ t mod msPerDay = h * 3600000 + mi * 60000 + sec * 1000 + ms.
Proof.
  intros Ht. unfold iso_fields.
  assert (Hz : -719528 <= t / msPerDay <= 2932896)
    by (unfold msPerDay; Z.div_mod_to_equations; lia).
  set (z := t / msPerDay) in *.
  assert (Hlo : 101 <= day_key z).
  { destruct (Z.eq_dec z (-719528)) as [->|Hne]; [vm_compute; discriminate|].
    pose proof (day_key_mono (-719528) z). change (day_key (-719528)) with 101 in *.
    lia. }
  assert (Hhi : day_key z <= 99991231).
  { destruct (Z.eq_dec z 2932896) as [->|Hne]; [vm_compute; discriminate|].
    pose proof (day_key_mono z 2932896).
    change (day_key 2932896) with 99991231 in *. lia. }
  pose proof (civil_from_days_spec z) as Hspec. unfold day_key in *.
  destruct (civil_from_days z) as [[y m] d]. cbn [date_key] in *.
  destruct Hspec as (Hm & Hd & _). pose proof (DaysInMonth_max y m).
  pose proof (Z.mod_pos_bound t msPerDay eq_refl) as Hms.
  set (r := t mod msPerDay) in *. unfold msPerDay in Hms.
  exists y, m, d, (r / 3600000), (r / 60000 mod 60), (r / 1000 mod 60), (r mod 1000).
  split; [reflexivity|]. split; [reflexivity|].
  repeat apply conj; try lia; Z.div_mod_to_equations; lia.
Qed.

Lemma iso_of_time_fields t y m d h mi sec ms :
  civil_from_days (t / msPerDay) = (y, m, d) ->
  iso_fields t = [y; m; d; h; mi; sec; ms] ->
  0 <= y <= 9999 ->
  iso_of_time t
  = pad 4 y +:+ String "-" (pad 2 m +:+ String "-" (pad 2 d +:+
      String "T" (pad 2 h +:+ String ":" (pad 2 mi +:+ String ":" (pad 2 sec +:+
      String "." (pad 3 ms +:+ "Z")))))).
Proof.
  unfold iso_of_time, iso_fields. intros -> [= <- <- <- <-] Hy.
  unfold year_string.
  destruct (Z.leb_spec 0 y); [|lia]. destruct (Z.leb_spec y 9999); [|lia].
  reflexivity.
Qed.

(** The strings of [toISOString] compare as the numbers they hold. *)
Lemma iso_compare ta tb :
  -62167219200000 <= ta <= 253402300799999 ->
  -62167219200000 <= tb <= 253402300799999 ->
  String.compare (iso_of_time ta) (iso_of_time tb)
  = lex (zip (iso_fields ta) (iso_fields tb)).
Proof.
  intros Ha Hb.
  destruct (iso_fields_bounds ta Ha)
    as (y1 & m1 & d1 & h1 & i1 & s1 & x1 & Ec1 & Ef1 & ? & ? & ? & ? & ? & ? & ? & _).
  destruct (iso_fields_bounds tb Hb)
    as (y2 & m2 & d2 & h2 & i2 & s2 & x2 & Ec2 & Ef2 & ? & ? & ? & ? & ? & ? & ? & _).
  rewrite (iso_of_time_fields ta _ _ _ _ _ _ _ Ec1 Ef1) by assumption.
  rewrite (iso_of_time_fields tb _ _ _ _ _ _ _ Ec2 Ef2) by assumption.
  rewrite Ef1, Ef2. cbn [zip zip_with lex].
  rewrite (compare_field 4) by (change (10 ^ Z.of_nat 4) with 10000; lia).
  rewrite compare_head.
  rewrite (compare_field 2) by (change (10 ^ Z.of_nat 2) with 100; lia).
  rewrite compare_head.
  rewrite (compare_field 2) by (change (10 ^ Z.of_nat 2) with 100; lia).
  rewrite compare_head.
  rewrite (compare_field 2) by (change (10 ^ Z.of_nat 2) with 100; lia).
  rewrite compare_head.
  rewrite (compare_field 2) by (change (10 ^ Z.of_nat 2) with 100; lia).
  rewrite compare_head.
  rewrite (compare_field 2) by (change (10 ^ Z.of_nat 2) with 100; lia).
  rewrite compare_head.
  rewrite (compare_field 3) by (change (10 ^ Z.of_nat 3) with 1000; lia).
  reflexivity.
Qed.

(** Within the years 0000 to 9999 a later time has a greater string. *)
Lemma iso_of_time_lt ta tb :
  -62167219200000 <= ta -> tb <= 253402300799999 -> ta < tb ->
  String.ltb (iso_of_time ta) (iso_of_time tb) = true.
Proof.
  intros Hlo Hhi Hlt. unfold String.ltb. rewrite iso_compare by lia.
  destruct (iso_fields_bounds ta)
    as (y1 & m1 & d1 & h1 & i1 & s1 & x1 & _ & Ef1 & ? & ? & ? & ? & ? & ? & ?
        & Hk1 & Hr1); [lia|].
  destruct (iso_fields_bounds tb)
    as (y2 & m2 & d2 & h2 & i2 & s2 & x2 & _ & Ef2 & ? & ? & ? & ? & ? & ? & ?
        & Hk2 & Hr2); [lia|].
  rewrite Ef1, Ef2. cbn [zip zip_with lex].
  assert (Hday : ta / msPerDay <= tb / msPerDay)
    by (apply Z.div_le_mono; [reflexivity|lia]).
  assert (Hcase : y1 * 10000 + m1 * 100 + d1 < y2 * 10000 + m2 * 100 + d2
                  \/ (y1 = y2 /\ m1 = m2 /\ d1 = d2
                      /\ h1 * 3600000 + i1 * 60000 + s1 * 1000 + x1
                         < h2 * 3600000 + i2 * 60000 + s2 * 1000 + x2)).
  { destruct (Z.eq_dec (ta / msPerDay) (tb / msPerDay)) as [E|E].
    - right. rewrite E in Hk1.
      pose proof (Z.div_mod ta msPerDay). pose proof (Z.div_mod tb msPerDay).
      unfold msPerDay in *. lia.
    - left. pose proof (day_key_mono (ta / msPerDay) (tb / msPerDay)). lia. }
  destruct (Z.compare_spec y1 y2); [subst|reflexivity|lia].
  destruct (Z.compare_spec m1 m2); [subst|reflexivity|lia].
  destruct (Z.compare_spec d1 d2); [subst|reflexivity|lia].
  destruct (Z.compare_spec h1 h2); [subst|reflexivity|lia].
  destruct (Z.compare_spec i1 i2); [subst|reflexivity|lia].
  destruct (Z.compare_spec s1 s2); [subst|reflexivity|lia].
  destruct (Z.compare_spec x1 x2); [lia|reflexivity|lia].
Qed.

Lemma insert_desc_last key r l :
  Forall (fun r' => sql_lt (col r key) (col r' key) = true) l ->
  insert_desc key r l = l ++ [r].
Proof.
  induction 1 as [|x l Hx _ IH]; [reflexivity|].
  cbn [insert_desc]. rewrite Hx, IH. reflexivity.
Qed.

(** ORDER BY ... DESC reverses rows that are stored in increasing order. *)
Lemma order_by_desc_ascending key l :
  ascending key l -> order_by_desc key l = reverse l.
Proof.
  unfold order_by_desc. induction l as [|r l IH]; [reflexivity|].
  intros [Hr Hl]. cbn [foldr]. rewrite (IH Hl), reverse_cons.
  apply insert_desc_last. apply Forall_reverse. exact Hr.
Qed.

Lemma addUser_rows u s s1 :
  reliable s -> addUser u s = (inr tt, s1) ->
  exists t ps,
    stored_params u = Some ps
    /\ file (after_init s) = Some t
    /\ file s1 = Some (with_row t ps)
    /\ fst (initializeDatabase s1) = inr tt /\ after_init s1 = s1 /\ reliable s1.
Proof.
  intros Hr Hadd.
  destruct (addUser_steady u s s1 Hr Hadd) as [Hst Hr1].
  destruct (addUser_ok u s s1 Hr Hadd) as (_ & t & ps & Hps & Hf & _ & _ & Hs1).
  exists t, ps. split; [exact Hps|]. split; [exact Hf|].
  split; [rewrite Hs1; reflexivity|].
  split; [rewrite (steady_init _ Hst); reflexivity|].
  split; [unfold after_init; rewrite (steady_init _ Hst); reflexivity|exact Hr1].
Qed.

(** The [createdAt] column of the row of a user. *)
Lemma inserted_createdAt u t ps tc :
  stored_params u = Some ps -> createdAt u = DateAt tc ->
  col (inserted t ps) "createdAt" = SText (iso_of_time tc).
Proof.
  intros Hps Hc. apply (inserted_col t ps 13%nat); [reflexivity|].
  unfold stored_params in Hps. rewrite Hc in Hps.
  destruct (match verificationTokenExpiry u with
            | Some d => VStr <$> toISOString d
            | None => Some undefined
            end) as [e|]; [|discriminate].
  cbn in Hps. injection Hps as <-. reflexivity.
Qed.

Lemma plain_year_earlier u v t1 ps1 t2 ps2 :
  plain_year (createdAt u) -> plain_year (createdAt v) ->
  earlier (createdAt u) (createdAt v) ->
  stored_params u = Some ps1 -> stored_params v = Some ps2 ->
  sql_lt (col (inserted t1 ps1) "createdAt") (col (inserted t2 ps2) "createdAt")
  = true.
Proof.
  intros Hu Hv He H1 H2.
  destruct (createdAt u) as [|tu] eqn:Eu; [destruct Hu|].
  destruct (createdAt v) as [|tv] eqn:Ev; [destruct Hv|].
  rewrite (inserted_createdAt u t1 ps1 tu H1 Eu).
  rewrite (inserted_createdAt v t2 ps2 tv H2 Ev).
  cbn [sql_lt plain_year earlier] in *. apply iso_of_time_lt; lia.
Qed.

(** *** Sample data *)

Lemma updateUser_changes_only_named_fields_witness :
  exists t' r',
    file (snd (updateUser "1" [("isEmailVerified", VBool true)] ready)) = Some t'
    /\ length (rows t') = length (rows ready_table)
    /\ rows t' !! 0%nat = Some r'
    /\ (forall k, k ∈ columns ready_table ->
          (forall v, (k, v) ∈ [("isEmailVerified", VBool true)] -> v = undefined) ->
          r' !! k = ready_row !! k)
    /\ (col ready_row "id" <> SText "1" ->
        forall k, k ∈ columns ready_table -> r' !! k = ready_row !! k)
    /\ (initialized ready = true -> col ready_row "id" <> SText "1" ->
        r' = ready_row).
Proof.
  apply (updateUser_changes_only_named_fields ready ready_table "1"
           [("isEmailVerified", VBool true)] 0%nat ready_row).
  - intros k Hk. apply list_elem_of_singleton in Hk. subst k.
    apply (bool_decide_unpack _). vm_compute. exact I.
  - intros c Hc. exact Hc.
  - reflexivity.
  - reflexivity.
Defined.

Lemma initialization_is_memoized_witness :
  let sys := foldl step (start fresh)
               [Call (FindUser "ann@x.edu"); Call GetAllUsers; Settle;
                Call (EmailExists "ann@x.edu")] in
  (occurrences DoInitialize (trace (obj sys)) <= 1)%nat
  /\ (occurrences (Run CREATE_TABLE_IF_NOT_EXISTS) (trace (obj sys)) <= 1)%nat.
Proof.
  pose proof (initialization_is_memoized fresh
                [Call (FindUser "ann@x.edu"); Call GetAllUsers; Settle;
                 Call (EmailExists "ann@x.edu")] eq_refl eq_refl eq_refl) as H.
  cbv zeta in *. destruct H as (H1 & H2 & _). split; [exact H1|exact H2].
Defined.




Lemma findUserByVerificationToken_exact_witness :
  (exists o, fst (findUserByVerificationToken "tok" ready) = inr (Some o)
             /\ prop o "verificationToken" = VStr "tok"
             /\ prop o "id" = VStr "1")
  /\ fst (findUserByVerificationToken "TOK" ready) = inr None.
Proof.
  assert (Hid : "id" ∉ decoded_columns)
    by (apply (bool_decide_unpack _); vm_compute; exact I).
  split.
  - destruct (findUserByVerificationToken_exact ready ready_table "tok" eq_refl
                (fun st => eq_refl) eq_refl) as (_ & H & _).
    destruct (H 0%nat ready_row eq_refl eq_refl) as (_ & _ & H3).
    + intros j r' Hj. lia.
    + destruct (H3 eq_refl) as (o & Ho & Ht & Hk). exists o.
      split; [exact Ho|]. split; [exact Ht|]. apply Hk; [assumption|reflexivity].
  - apply (findUserByVerificationToken_exact ready ready_table "TOK" eq_refl
             (fun st => eq_refl) eq_refl).
    intros r Hin. apply list_elem_of_singleton in Hin. subst r. discriminate.
Defined.

(** C9 as the specification words it does not hold: three users are
    added with strictly increasing [createdAt], the first in the last
    millisecond of the year 9999; [getAllUsers] returns the first one
    first, for the years from 10000 on are written with a sign, which
    sorts before every digit. *)
Lemma getAllUsers_not_most_recent_first :
  let a := user_at "A" 253402300799999 in
  let b := user_at "B" 253402300800000 in
  let c := user_at "C" 253402300800001 in
  let s1 := snd (addUser a fresh) in
  let s2 := snd (addUser b s1) in
  let s3 := snd (addUser c s2) in
  valid_date (createdAt a) /\ valid_date (createdAt b) /\ valid_date (createdAt c)
  /\ earlier (createdAt a) (createdAt b) /\ earlier (createdAt b) (createdAt c)
  /\ fst (addUser a fresh) = inr tt /\ fst (addUser b s1) = inr tt
  /\ fst (addUser c s2) = inr tt
  /\ ids (fst (getAllUsers s3)) = Some [VStr "A"; VStr "C"; VStr "B"].
Proof.
  cbv zeta. repeat apply conj; try (cbn; unfold maxTime; lia);
    vm_compute; reflexivity.
Qed.

(** *** More on [addUser] *)

Lemma filter_nil_all {A} (P : A -> Prop) `{forall x, Decision (P x)} (l : list A) :
  (forall x, x ∈ l -> ~ P x) -> filter P l = [].
Proof.
  induction l as [|a l IH]; intros Hl; [reflexivity|].
  rewrite filter_cons, decide_False by (apply Hl; left).
  apply IH. intros x Hx. apply Hl. right. exact Hx.
Qed.

Lemma count_where_none P l : (forall r, r ∈ l -> P r = false) -> count_where P l = 0.
Proof. intros H. unfold count_where. rewrite (filter_none P l H). reflexivity. Qed.

(** A new row whose key [c] holds a text clashes on [c] exactly when an
    older row holds the same text. *)
Lemma unique_count c x l r :
  col r c = SText x ->
  count_where (where_column c (col r c)) (l ++ [r]) <= 1
  <-> forall r', r' ∈ l -> col r' c <> SText x.
Proof.
  intros Hc. rewrite Hc, count_where_app.
  rewrite (count_where_one _ _ (where_column_refl _ _ _ Hc)). split.
  - intros Hle r' Hin Heq.
    pose proof (count_where_elem _ _ _ Hin (where_column_refl _ _ _ Heq)). lia.
  - intros Hne. rewrite count_where_none; [lia|].
    intros r' Hin. destruct (where_column c (SText x) r') eqn:E; [|reflexivity].
    apply where_column_text in E. destruct (Hne r' Hin E).
Qed.

(** The constraints on a new row that has texts in the four constrained
    columns: it must not repeat an [id] or a [universityEmail]. *)
Lemma violation_new_row l r i n e p :
  col r "id" = SText i -> col r "fullName" = SText n ->
  col r "universityEmail" = SText e -> col r "password" = SText p ->
  violation (l ++ [r]) r = None
  <-> forall r', r' ∈ l ->
        col r' "id" <> SText i /\ col r' "universityEmail" <> SText e.
Proof.
  intros Hi Hn He Hp. split.
  - intros Hv. apply violation_None in Hv. destruct Hv as [_ Hu].
    pose proof (Hu "id" ltac:(right; left)) as H1.
    pose proof (Hu "universityEmail" ltac:(left)) as H2.
    pose proof (proj1 (unique_count "id" i l r Hi) H1) as H1'.
    pose proof (proj1 (unique_count "universityEmail" e l r He) H2) as H2'.
    intros r' Hin. split; [apply H1'|apply H2']; exact Hin.
  - intros Hne. unfold violation, not_null_columns, unique_columns.
    rewrite !filter_cons, filter_nil.
    rewrite Hn, He, Hp. rewrite !decide_False by discriminate.
    assert (H1 : count_where (where_column "id" (col r "id")) (l ++ [r]) <= 1)
      by (apply (proj2 (unique_count "id" i l r Hi)); intros r' Hin;
          apply (Hne r' Hin)).
    assert (H2 : count_where (where_column "universityEmail"
                                (col r "universityEmail")) (l ++ [r]) <= 1)
      by (apply (proj2 (unique_count "universityEmail" e l r He));
          intros r' Hin; apply (Hne r' Hin)).
    rewrite He in H2. rewrite Hi in H1. rewrite ?Hi, ?He.
    rewrite !decide_False; [reflexivity|..]; intros Hlt;
      apply Is_true_true, Z.ltb_lt in Hlt; lia.
Qed.

Lemma stored_params_None u :
  stored_params u = None
  <-> createdAt u = InvalidDate \/ verificationTokenExpiry u = Some InvalidDate.
Proof.
  unfold stored_params.
  destruct (verificationTokenExpiry u) as [[|te]|]; destruct (createdAt u) as [|tc];
    cbn; split; try discriminate; auto; intros [H|H]; discriminate.
Qed.

(** The parameters that [addUser] binds, spelled out. *)
Lemma stored_params_encoded u ps :
  stored_params u = Some ps ->
  exists tc, createdAt u = DateAt tc
    /\ ps = [SText (id u); SText (fullName u); SText (universityEmail u);
             SText (password u); bind (opt_string (phoneNumber u));
             bind (opt_string (universityName u));
             bind (opt_string (universityId u));
             bind (opt_string (program u)); bind (opt_string (yearOfStudy u));
             SInt (if isEmailVerified u then 1 else 0);
             bind (opt_string (verificationToken u));
             match verificationTokenExpiry u with
             | Some (DateAt te) => SText (iso_of_time te)
             | _ => SNull
             end;
             match collegeData u with
             | Some c => bind (JSON_stringify (college_value c))
             | None => SNull
             end;
             SText (iso_of_time tc)].
Proof.
  unfold stored_params.
  destruct (createdAt u) as [|tc];
    destruct (verificationTokenExpiry u) as [[|te]|]; cbn; try discriminate;
    intros [= <-]; exists tc; (split; [reflexivity|]);
    destruct (collegeData u); reflexivity.
Qed.

(** The row that [addUser] stores: it comes after the rows that were
    there, which stay as they were; the flag is stored as 0 or 1, the
    dates as the text of [toISOString], [collegeData] as the text of
    [JSON.stringify], and what is absent as NULL. *)
Theorem addUser_appends_encoded_row (u : User) (s s1 : Database) :
  reliable s -> addUser u s = (inr tt, s1) ->
  exists t r tc,
    file (after_init s) = Some t
    /\ file s1 = Some {| columns := columns t; rows := rows t ++ [r] |}
    /\ col r "id" = SText (id u)
    /\ col r "universityEmail" = SText (universityEmail u)
    /\ col r "isEmailVerified" = SInt (if isEmailVerified u then 1 else 0)
    /\ createdAt u = DateAt tc /\ col r "createdAt" = SText (iso_of_time tc)
    /\ col r "verificationTokenExpiry"
       = match verificationTokenExpiry u with
         | Some (DateAt te) => SText (iso_of_time te)
         | _ => SNull
         end
    /\ col r "collegeData"
       = match collegeData u with
         | Some c => bind (JSON_stringify (college_value c))
         | None => SNull
         end.
Proof.
  intros Hr Hadd.
  destruct (addUser_ok u s s1 Hr Hadd) as (_ & t & ps & Hps & Hf & _ & _ & Hs1).
  destruct (stored_params_encoded u ps Hps) as (tc & Hc & Hshape).
  exists t, (inserted t ps), tc. rewrite Hshape in *.
  split; [exact Hf|]. split; [rewrite Hs1; reflexivity|].
  split; [apply (inserted_col t _ 0%nat); reflexivity|].
  split; [apply (inserted_col t _ 2%nat); reflexivity|].
  split; [apply (inserted_col t _ 9%nat); reflexivity|].
  split; [exact Hc|].
  split; [apply (inserted_col t _ 13%nat); reflexivity|].
  split; [apply (inserted_col t _ 11%nat); reflexivity|].
  apply (inserted_col t _ 12%nat); reflexivity.
Qed.

Lemma addUser_appends_encoded_row_witness :
  exists t r tc,
    file (after_init fresh) = Some t
    /\ file (snd (addUser ann fresh))
       = Some {| columns := columns t; rows := rows t ++ [r] |}
    /\ col r "id" = SText (id ann)
    /\ col r "universityEmail" = SText (universityEmail ann)
    /\ col r "isEmailVerified" = SInt (if isEmailVerified ann then 1 else 0)
    /\ createdAt ann = DateAt tc /\ col r "createdAt" = SText (iso_of_time tc)
    /\ col r "verificationTokenExpiry"
       = match verificationTokenExpiry ann with
         | Some (DateAt te) => SText (iso_of_time te)
         | _ => SNull
         end
    /\ col r "collegeData"
       = match collegeData ann with
         | Some c => bind (JSON_stringify (college_value c))
         | None => SNull
         end.
Proof.
  apply (addUser_appends_encoded_row ann fresh (snd (addUser ann fresh))).
  - intros st. reflexivity.
  - vm_compute. reflexivity.
Defined.

(** On an initialised store with the columns of the schema, [addUser]
    succeeds exactly when the dates of the user are valid and no stored
    row has the user's [id] or [universityEmail]; when it fails, it fails
    with a RangeError or with a constraint error of the engine. *)
Theorem addUser_succeeds_iff (u : User) (s : Database) (t : table) :
  steady s -> reliable s -> file s = Some t ->
  (forall c, c ∈ insert_columns -> c ∈ columns t) ->
  (fst (addUser u s) = inr tt
   <-> (createdAt u <> InvalidDate /\ verificationTokenExpiry u <> Some InvalidDate)
       /\ forall r, r ∈ rows t ->
            col r "id" <> SText (id u)
            /\ col r "universityEmail" <> SText (universityEmail u))
  /\ (forall e, fst (addUser u s) = inl e ->
        e = RangeError \/ exists msg, e = SqliteError (SQLITE_CONSTRAINT msg)).
Proof.
  intros Hst Hr Hf Hcols.
  unfold addUser. rewrite method_spec, (steady_init _ Hst), addUser_body_params.
  destruct (stored_params u) as [ps|] eqn:Hps.
  - assert (Hdates : createdAt u <> InvalidDate
                     /\ verificationTokenExpiry u <> Some InvalidDate).
    { split; intros H; assert (Hn : stored_params u = None)
        by (apply stored_params_None; auto); congruence. }
    rewrite run_spec, (engine_reliable _ _ Hr), Hf, exec_insert.
    rewrite (filter_nil_all (fun c => c ∉ columns t))
      by (intros c Hc Hn; exact (Hn (Hcols c Hc))).
    destruct (stored_params_shape u ps Hps) as (ex & cx & tx & Hshape).
    assert (Hi : col (inserted t ps) "id" = SText (id u))
      by (apply (inserted_col t ps 0%nat); rewrite ?Hshape; reflexivity).
    assert (Hn : col (inserted t ps) "fullName" = SText (fullName u))
      by (apply (inserted_col t ps 1%nat); rewrite ?Hshape; reflexivity).
    assert (He : col (inserted t ps) "universityEmail" = SText (universityEmail u))
      by (apply (inserted_col t ps 2%nat); rewrite ?Hshape; reflexivity).
    assert (Hp : col (inserted t ps) "password" = SText (password u))
      by (apply (inserted_col t ps 3%nat); rewrite ?Hshape; reflexivity).
    pose proof (violation_new_row (rows t) _ _ _ _ _ Hi Hn He Hp) as Hviol.
    destruct (violation (rows t ++ [inserted t ps]) (inserted t ps)) as [e|] eqn:Ev;
      cbn [fst].
    + split.
      * split; [discriminate|]. intros [_ Hne].
        apply Hviol in Hne. discriminate.
      * intros e' [= <-]. right.
        destruct (violation_constraint _ _ _ Ev) as (msg & ->). eauto.
    + split; [|discriminate]. split; [|reflexivity].
      intros _. split; [exact Hdates|]. apply Hviol. reflexivity.
  - cbn [fst]. split.
    + split; [discriminate|]. intros [[H1 H2] _].
      apply stored_params_None in Hps. destruct Hps; contradiction.
    + intros e [= <-]. left. reflexivity.
Qed.

Lemma addUser_succeeds_iff_witness :
  (fst (addUser bob ready) = inr tt
   <-> (createdAt bob <> InvalidDate
        /\ verificationTokenExpiry bob <> Some InvalidDate)
       /\ forall r, r ∈ rows ready_table ->
            col r "id" <> SText (id bob)
            /\ col r "universityEmail" <> SText (universityEmail bob))
  /\ (forall e, fst (addUser bob ready) = inl e ->
        e = RangeError \/ exists msg, e = SqliteError (SQLITE_CONSTRAINT msg)).
Proof.
  apply (addUser_succeeds_iff bob ready ready_table).
  - left. reflexivity.
  - intros st. reflexivity.
  - reflexivity.
  - intros c Hc. exact Hc.
Defined.

(** A user with an invalid [createdAt] or [verificationTokenExpiry] is
    refused with a RangeError once the store is initialised, before any
    statement is issued: the object and the table are as the
    initialisation left them. *)
Theorem addUser_invalid_date_throws (u : User) (s : Database) :
  fst (initializeDatabase s) = inr tt ->
  createdAt u = InvalidDate \/ verificationTokenExpiry u = Some InvalidDate ->
  addUser u s = (inl RangeError, after_init s).
Proof.
  intros Hi Hd. unfold addUser. rewrite (method_ok _ _ Hi), addUser_body_params.
  apply stored_params_None in Hd. rewrite Hd. reflexivity.
Qed.

Lemma addUser_invalid_date_throws_witness :
  addUser (user_at_date "9" InvalidDate) ready = (inl RangeError, after_init ready).
Proof.
  apply (addUser_invalid_date_throws (user_at_date "9" InvalidDate) ready).
  - reflexivity.
  - left. reflexivity.
Defined.

(** *** Reading and clearing *)

Lemma exec_select st db rs f :
  is_select st = true -> exec st db = inr (rs, f) -> f = db.
Proof.
  destruct st; try discriminate; intros _; destruct db as [t|]; cbn;
    try discriminate; intros [= _ <-]; reflexivity.
Qed.

Lemma engine_select_file st s :
  is_select st = true -> file (snd (engine st s)) = file s.
Proof.
  intros Hsel. destruct (engine_file st s) as [H|(rs & f & _ & Hex & H)]; [exact H|].
  rewrite H. apply (exec_select st _ rs f Hsel Hex).
Qed.

Lemma method_file {A} (m : M A) s :
  (forall s0, file (snd (m s0)) = file s0) ->
  file (snd ((initializeDatabase ;; m) s)) = file (after_init s).
Proof.
  intros Hm. rewrite method_spec. unfold after_init.
  destruct (initializeDatabase s) as [[e|[]] s0]; [reflexivity|apply Hm].
Qed.

Lemma lookup_file st s :
  is_select st = true -> file (snd ((r <- get st ;; lift (decode r)) s)) = file s.
Proof. intros H. rewrite lookup_spec. apply engine_select_file, H. Qed.

(** The five reading methods never change the table: whatever they
    return or throw, the table is as the initialisation left it. *)
Theorem lookups_leave_table (s : Database) (q : string) :
  file (snd (findUser q s)) = file (after_init s)
  /\ file (snd (findUserById q s)) = file (after_init s)
  /\ file (snd (findUserByVerificationToken q s)) = file (after_init s)
  /\ file (snd (emailExists q s)) = file (after_init s)
  /\ file (snd (getAllUsers s)) = file (after_init s).
Proof.
  repeat apply conj; apply method_file; intros s0.
  - apply lookup_file. reflexivity.
  - apply lookup_file. reflexivity.
  - apply lookup_file. reflexivity.
  - unfold emailExists_body, bindM. rewrite get_spec.
    pose proof (engine_select_file (SELECT_COUNT_BY_EMAIL (bind (VStr q))) s0 eq_refl)
      as H.
    destruct (engine _ s0) as [[e|rs] s']; cbn [fst snd] in *; [exact H|].
    destruct (head rs); exact H.
  - unfold getAllUsers_body, all, bindM, lift.
    pose proof (engine_select_file SELECT_ALL_ORDER_BY_CREATED_DESC s0 eq_refl) as H.
    destruct (engine _ s0) as [[e|rs] s']; exact H.
Qed.

(** [emailExists] answers [true] exactly when some row holds the address. *)
Theorem emailExists_iff (e : string) (s : Database) (t : table) :
  fst (initializeDatabase s) = inr tt -> reliable s -> file (after_init s) = Some t ->
  exists b, fst (emailExists e s) = inr b
    /\ (b = true <-> exists r, r ∈ rows t /\ col r "universityEmail" = SText e).
Proof.
  intros Hi Hr Hf. rewrite (emailExists_spec e s t Hi Hr Hf).
  eexists. split; [reflexivity|]. rewrite Z.ltb_lt. split.
  - intros Hpos.
    destruct (filter (fun r => where_column "universityEmail" (SText e) r) (rows t))
      as [|r l] eqn:E.
    + unfold count_where in Hpos. rewrite E in Hpos. cbn in Hpos. lia.
    + assert (Hin : r ∈ filter (fun r => where_column "universityEmail" (SText e) r)
                          (rows t)) by (rewrite E; left).
      apply list_elem_of_filter in Hin. destruct Hin as [Hm Hin].
      exists r. split; [exact Hin|]. apply where_column_text.
      destruct (where_column _ _ r); [reflexivity|destruct Hm].
  - intros (r & Hin & Hc).
    pose proof (count_where_elem _ _ _ Hin (where_column_refl _ _ _ Hc)). lia.
Qed.

Lemma emailExists_iff_witness :
  exists b, fst (emailExists "ann@x.edu" ready) = inr b
    /\ (b = true
        <-> exists r, r ∈ rows ready_table /\ col r "universityEmail" = SText "ann@x.edu").
Proof.
  apply (emailExists_iff "ann@x.edu" ready ready_table).
  - reflexivity.
  - intros st. reflexivity.
  - reflexivity.
Defined.

(** [findUserById i] returns nothing, and no error, when no row has the
    [id] [i]; and a record that it returns has the [id] [i]. *)
Theorem findUserById_exact (i : string) (s : Database) (t : table) :
  fst (initializeDatabase s) = inr tt -> reliable s -> file (after_init s) = Some t ->
  ((forall r, r ∈ rows t -> col r "id" <> SText i) ->
     fst (findUserById i s) = inr None)
  /\ (forall o, fst (findUserById i s) = inr (Some o) -> prop o "id" = VStr i).
Proof.
  intros Hi Hr Hf. rewrite (findUserById_spec i s t Hi Hr Hf). split.
  - intros Hne. rewrite (head_filter_None (where_column "id" (SText i)));
      [reflexivity|].
    intros r Hin. destruct (where_column "id" (SText i) r) eqn:E; [|reflexivity].
    apply where_column_text in E. destruct (Hne r Hin E).
  - intros o Ho. apply decode_Some in Ho. destruct Ho as (r & Hh & Hrow).
    apply head_filter_elem in Hh. destruct Hh as [_ Hm].
    apply where_column_text in Hm. apply (rowToUser_id r o i Hrow). exact Hm.
Qed.

Lemma findUserById_exact_witness : fst (findUserById "7" ready) = inr None.
Proof.
  apply (findUserById_exact "7" ready ready_table eq_refl (fun st => eq_refl) eq_refl).
  intros r Hin. apply list_elem_of_singleton in Hin. subst r. discriminate.
Defined.

(** What a method that runs one statement leaves when it succeeds. *)
Lemma run_method_ok st s s1 :
  reliable s -> (initializeDatabase ;; run st) s = (inr tt, s1) ->
  exists rs f,
    exec st (file (after_init s)) = inr (rs, f)
    /\ file s1 = f
    /\ fst (initializeDatabase s1) = inr tt /\ after_init s1 = s1 /\ reliable s1.
Proof.
  intros Hr. rewrite method_spec.
  destruct (initializeDatabase s) as [[e|[]] s0] eqn:Hinit; [discriminate|].
  assert (Hi : fst (initializeDatabase s) = inr tt) by (rewrite Hinit; reflexivity).
  assert (Ha : after_init s = s0) by (unfold after_init; rewrite Hinit; reflexivity).
  pose proof (after_init_reliable s Hr) as Hr0. rewrite Ha in Hr0.
  pose proof (init_steady s Hi) as Hst. rewrite Ha in Hst.
  rewrite run_spec, (engine_reliable _ _ Hr0), Ha.
  destruct (exec st (file s0)) as [e|[rs f]]; [discriminate|].
  cbn [fst snd]. intros [= <-]. exists rs, f.
  split; [reflexivity|]. split; [reflexivity|].
  assert (Hst1 : steady (set_file f (log (Run st) s0)))
    by (apply (steady_frame s0); [reflexivity..|exact Hst]).
  split; [rewrite (steady_init _ Hst1); reflexivity|].
  split; [unfold after_init; rewrite (steady_init _ Hst1); reflexivity|].
  intros st'. apply Hr0.
Qed.

(** After [clearAllUsers] the table has its columns and no row:
    [getAllUsers] returns the empty list, [emailExists] answers [false],
    and the three lookups find nothing. *)
Theorem clearAllUsers_empties (s s1 : Database) :
  reliable s -> clearAllUsers s = (inr tt, s1) ->
  (exists t, file (after_init s) = Some t
             /\ file s1 = Some {| columns := columns t; rows := [] |})
  /\ fst (getAllUsers s1) = inr []
  /\ (forall e, fst (emailExists e s1) = inr false)
  /\ (forall q, fst (findUser q s1) = inr None)
  /\ (forall i, fst (findUserById i s1) = inr None)
  /\ (forall tok, fst (findUserByVerificationToken tok s1) = inr None).
Proof.
  intros Hr Hclear. unfold clearAllUsers, clearAllUsers_body in Hclear.
  destruct (run_method_ok DELETE_ALL s s1 Hr Hclear)
    as (rs & f & Hex & Hf & Hi & Ha & Hr1).
  destruct (file (after_init s)) as [t|] eqn:Hft; [|discriminate].
  cbn [exec] in Hex. injection Hex as _ <-.
  set (t' := {| columns := columns t; rows := [] |}) in *.
  assert (Hf' : file (after_init s1) = Some t') by (rewrite Ha; exact Hf).
  split; [exists t; split; [reflexivity|exact Hf]|].
  split; [rewrite (getAllUsers_spec s1 t' Hi Hr1 Hf'); reflexivity|].
  split; [intros e; rewrite (emailExists_spec e s1 t' Hi Hr1 Hf'); reflexivity|].
  split; [intros q; rewrite (findUser_spec q s1 t' Hi Hr1 Hf'); reflexivity|].
  split; [intros i; rewrite (findUserById_spec i s1 t' Hi Hr1 Hf'); reflexivity|].
  intros tok. rewrite (findUserByVerificationToken_spec tok s1 t' Hi Hr1 Hf').
  reflexivity.
Qed.

Lemma clearAllUsers_empties_witness :
  fst (getAllUsers (snd (clearAllUsers ready))) = inr [].
Proof.
  apply (clearAllUsers_empties ready (snd (clearAllUsers ready))
           (fun st => eq_refl) eq_refl).
Defined.

(** *** More on the initialisation *)

(** The first call on a new object, when directory, driver and CREATE
    TABLE are fine. *)
Lemma after_first_init s :
  initialized s = false -> initPromise s = None -> init_ok s = true ->
  after_init s
  = set_initPromise (Some Fulfilled)
      (set_initialized true
         (migrated (set_initPromise (Some Pending) (log DoInitialize s)))).
Proof.
  intros Hi Hp Hok. unfold after_init. rewrite initializeDatabase_cases, Hi, Hp.
  cbv zeta. cbn [snd].
  set (s1 := set_initPromise (Some Pending) (log DoInitialize s)).
  rewrite (settle_pending s1 eq_refl).
  assert (Hok1 : init_ok s1 = true) by exact Hok.
  rewrite (doInitialize_ok s1 Hok1). reflexivity.
Qed.

(** An ALTER TABLE for a column that the table has changes nothing. *)
Lemma engine_alter_present c d s t :
  file s = Some t -> c ∈ columns t ->
  file (snd (engine (ALTER_TABLE_ADD_COLUMN c d) s)) = Some t.
Proof.
  intros Hf Hc.
  destruct (engine_file (ALTER_TABLE_ADD_COLUMN c d) s)
    as [->|(rs & f & _ & He & _)]; [exact Hf|].
  rewrite Hf in He. cbn [exec] in He.
  rewrite decide_True in He by exact Hc. discriminate.
Qed.

Lemma added_in_schema c : c ∈ added_columns -> c ∈ users_columns.
Proof.
  unfold added_columns. rewrite !elem_of_cons, elem_of_nil.
  intros [->|[->|[->|[->|[]]]]]; apply (bool_decide_unpack _); vm_compute; exact I.
Qed.

(** When there is no table yet, the first initialisation leaves a table
    with the fourteen columns of the schema and no row; the four ALTER
    TABLE find their columns in place. *)
Theorem first_initialization_creates_table (s : Database) :
  initialized s = false -> initPromise s = None -> init_ok s = true ->
  file s = None ->
  file (after_init s) = Some {| columns := users_columns; rows := [] |}.
Proof.
  intros Hi Hp Hok Hf. rewrite (after_first_init s Hi Hp Hok).
  autorewrite with fields. unfold migrated. cbv zeta.
  set (s0 := log OpenDatabase
               (log ImportSqlite3
                  (log EnsureDataDirectory
                     (set_initPromise (Some Pending) (log DoInitialize s))))).
  set (t := {| columns := users_columns; rows := [] |}).
  assert (H1 : file (snd (engine CREATE_TABLE_IF_NOT_EXISTS s0)) = Some t).
  { rewrite engine_spec.
    assert (Hfault : fault s0 CREATE_TABLE_IF_NOT_EXISTS = None).
    { unfold init_ok in Hok. rewrite !andb_true_iff, bool_decide_eq_true in Hok.
      exact (proj2 Hok). }
    rewrite Hfault. assert (Hf0 : file s0 = None) by exact Hf.
    rewrite Hf0. reflexivity. }
  set (s1 := snd (engine CREATE_TABLE_IF_NOT_EXISTS s0)) in *.
  assert (Hin : forall c, c ∈ added_columns -> c ∈ columns t)
    by exact added_in_schema.
  pose proof (engine_alter_present "isEmailVerified" (SInt 0) s1 t H1
                (Hin "isEmailVerified" ltac:(unfold added_columns; repeat constructor))) as H2.
  fold alter1 in H2. set (s2 := snd (engine alter1 s1)) in *.
  pose proof (engine_alter_present "verificationToken" SNull s2 t H2
                (Hin "verificationToken" ltac:(unfold added_columns; repeat constructor))) as H3.
  fold alter2 in H3. set (s3 := snd (engine alter2 s2)) in *.
  pose proof (engine_alter_present "verificationTokenExpiry" SNull s3 t H3
                (Hin "verificationTokenExpiry" ltac:(unfold added_columns; repeat constructor))) as H4.
  fold alter3 in H4. set (s4 := snd (engine alter3 s3)) in *.
  exact (engine_alter_present "collegeData" SNull s4 t H4
           (Hin "collegeData" ltac:(unfold added_columns; repeat constructor))).
Qed.

Lemma first_initialization_creates_table_witness :
  file (after_init no_alter) = Some {| columns := users_columns; rows := [] |}.
Proof.
  apply (first_initialization_creates_table no_alter); reflexivity.
Defined.

(** An ALTER TABLE on a sound engine leaves the column in the table, new
    or old, and no column goes away. *)
Lemma engine_alter_adds c d s t :
  reliable s -> file s = Some t ->
  exists t', file (snd (engine (ALTER_TABLE_ADD_COLUMN c d) s)) = Some t'
    /\ c ∈ columns t' /\ forall k, k ∈ columns t -> k ∈ columns t'.
Proof.
  intros Hr Hf. rewrite (engine_reliable _ _ Hr), Hf. cbn [exec].
  destruct (decide (c ∈ columns t)) as [Hin|Hnot].
  - exists t. cbn [snd]. autorewrite with fields. auto.
  - eexists. cbn [snd]. autorewrite with fields. split; [reflexivity|].
    cbn [columns]. split; [apply elem_of_app; right; left|].
    intros k Hk. apply elem_of_app. left. exact Hk.
Qed.

Lemma engine_keeps_reliable st s : reliable s -> reliable (snd (engine st s)).
Proof.
  destruct (engine_frame st s) as (_ & _ & He & _). apply reliable_frame, He.
Qed.

Lemma migrated_columns s t :
  reliable s -> file s = Some t ->
  exists t', file (migrated s) = Some t'
    /\ forall c, c ∈ added_columns -> c ∈ columns t'.
Proof.
  intros Hr Hf. unfold migrated. cbv zeta.
  set (s0 := log OpenDatabase (log ImportSqlite3 (log EnsureDataDirectory s))).
  assert (Hr0 : reliable s0) by exact Hr.
  assert (Hf0 : file s0 = Some t) by exact Hf.
  pose proof (engine_create_keeps s0 t Hf0) as H1.
  pose proof (engine_keeps_reliable CREATE_TABLE_IF_NOT_EXISTS s0 Hr0) as R1.
  set (s1 := snd (engine CREATE_TABLE_IF_NOT_EXISTS s0)) in *.
  destruct (engine_alter_adds "isEmailVerified" (SInt 0) s1 t R1 H1)
    as (t2 & H2 & C2 & K2).
  pose proof (engine_keeps_reliable (ALTER_TABLE_ADD_COLUMN "isEmailVerified" (SInt 0))
                s1 R1) as R2.
  fold alter1 in H2, R2. set (s2 := snd (engine alter1 s1)) in *.
  destruct (engine_alter_adds "verificationToken" SNull s2 t2 R2 H2)
    as (t3 & H3 & C3 & K3).
  pose proof (engine_keeps_reliable (ALTER_TABLE_ADD_COLUMN "verificationToken" SNull)
                s2 R2) as R3.
  fold alter2 in H3, R3. set (s3 := snd (engine alter2 s2)) in *.
  destruct (engine_alter_adds "verificationTokenExpiry" SNull s3 t3 R3 H3)
    as (t4 & H4 & C4 & K4).
  pose proof (engine_keeps_reliable
                (ALTER_TABLE_ADD_COLUMN "verificationTokenExpiry" SNull) s3 R3) as R4.
  fold alter3 in H4, R4. set (s4 := snd (engine alter3 s3)) in *.
  destruct (engine_alter_adds "collegeData" SNull s4 t4 R4 H4)
    as (t5 & H5 & C5 & K5).
  fold alter4 in H5. exists t5. split; [exact H5|].
  intros c Hc. unfold added_columns in Hc.
  rewrite !elem_of_cons, elem_of_nil in Hc.
  destruct Hc as [->|[->|[->|[->|[]]]]].
  - exact (K5 _ (K4 _ (K3 _ C2))).
  - exact (K5 _ (K4 _ C3)).
  - exact (K5 _ C4).
  - exact C5.
Qed.

(** A table that was there before is migrated, on a sound engine: every
    row stays at its place with the cells it had, and afterwards the
    table has the four columns that the class added over time. *)
Theorem initialization_migrates (s : Database) (t : table) :
  initialized s = false -> initPromise s = None -> init_ok s = true ->
  reliable s -> file s = Some t ->
  exists t',
    file (after_init s) = Some t'
    /\ keeps_cells t t'
    /\ forall c, c ∈ added_columns -> c ∈ columns t'.
Proof.
  intros Hi Hp Hok Hr Hf.
  destruct (after_init_keeps s t Hf) as (t' & Hf' & Hk).
  exists t'. split; [exact Hf'|]. split; [exact Hk|].
  set (s1 := set_initPromise (Some Pending) (log DoInitialize s)).
  assert (Hr1 : reliable s1) by exact Hr.
  assert (Hf1 : file s1 = Some t) by exact Hf.
  destruct (migrated_columns s1 t Hr1 Hf1) as (t'' & Hm & Hcols).
  assert (Hfile : file (after_init s) = file (migrated s1)).
  { rewrite (after_first_init s Hi Hp Hok). autorewrite with fields. reflexivity. }
  rewrite Hfile, Hm in Hf'. injection Hf' as <-. exact Hcols.
Qed.

Lemma initialization_migrates_witness :
  exists t',
    file (after_init old_store) = Some t'
    /\ keeps_cells old_table t'
    /\ forall c, c ∈ added_columns -> c ∈ columns t'.
Proof.
  apply (initialization_migrates old_store old_table); try reflexivity.
  intros st. reflexivity.
Defined.

(** A rejected initialisation is final: the object never tries again.
    Whatever has become of the directory, the driver and the file, every
    operation is rejected with the error of the first attempt, and does
    nothing. *)
Theorem rejected_initialization_is_final (s : Database) (e : exn) (op : operation) :
  initialized s = false -> initPromise s = Some (Rejected e) ->
  perform op s = (inl e, s).
Proof.
  intros Hi Hp. pose proof (initializeDatabase_rejected s e Hi Hp) as Hinit.
  destruct (perform_spec op s) as [Hs He]. rewrite Hinit in Hs, He.
  cbn [fst snd] in *. specialize (He e eq_refl).
  destruct (perform op s) as [r s']. cbn [fst snd] in *. subst. reflexivity.
Qed.

Lemma rejected_initialization_is_final_witness :
  perform GetAllUsers (snd (perform GetAllUsers no_driver))
  = (inl (Error unavailable), snd (perform GetAllUsers no_driver)).
Proof.
  apply (rejected_initialization_is_final (snd (perform GetAllUsers no_driver))
           (Error unavailable) GetAllUsers); reflexivity.
Defined.

(** *** More on [updateUser] *)

Lemma collect_spec us : forall f v,
  collect us f v
  = match mapM encoded (applicable us) with
    | inl e => inl e
    | inr vs => inr (f ++ (applicable us).*1, v ++ vs)
    end.
Proof.
  induction us as [|[k x] us IH]; intros f v.
  - cbn. rewrite !app_nil_r. reflexivity.
  - unfold applicable. rewrite filter_cons. cbn [snd]. fold (applicable us).
    destruct (is_undefined x) eqn:E.
    + rewrite decide_False by (intros []).
      destruct x; try discriminate. cbn [collect truthy is_undefined negb].
      rewrite !andb_false_r. apply IH.
    + rewrite decide_True by exact I. cbn [collect mapM fmap list_fmap].
      unfold encoded at 1. cbn [fst snd]. rewrite E. cbn [negb].
      destruct ((k =? "collegeData")%string && truthy x).
      { rewrite IH. destruct (mapM encoded (applicable us)); [reflexivity|].
        rewrite <- !app_assoc. reflexivity. }
      destruct ((k =? "verificationTokenExpiry")%string && truthy x).
      { destruct x; try reflexivity. destruct (toISOString d); [|reflexivity].
        rewrite IH. destruct (mapM encoded (applicable us)); [reflexivity|].
        rewrite <- !app_assoc. reflexivity. }
      rewrite IH. destruct (mapM encoded (applicable us)); [reflexivity|].
      rewrite <- !app_assoc. reflexivity.
Qed.

Lemma mapM_inl {A B} (f : A -> exn + B) l e :
  mapM f l = inl e -> exists a, a ∈ l /\ f a = inl e.
Proof.
  induction l as [|a l IH]; cbn [mapM]; [discriminate|].
  destruct (f a) as [e'|b] eqn:Ea.
  - intros [= <-]. exists a. split; [left|exact Ea].
  - destruct (mapM f l) as [e'|bs]; [|discriminate]. intros [= <-].
    destruct (IH eq_refl) as (a' & Hin & Hf). exists a'. split; [right|]; assumption.
Qed.

Lemma mapM_fails {A B} (f : A -> exn + B) l a e :
  a ∈ l -> f a = inl e -> exists e', mapM f l = inl e'.
Proof.
  induction l as [|x l IH]; intros Hin Hf; [inversion Hin|].
  cbn [mapM]. apply elem_of_cons in Hin. destruct Hin as [<-|Hin].
  - rewrite Hf. eauto.
  - destruct (f x); [eauto|]. destruct (IH Hin Hf) as (e' & ->). eauto.
Qed.

Lemma mapM_lookup {A B} (f : A -> exn + B) l l' i a :
  mapM f l = inr l' -> l !! i = Some a -> exists b, l' !! i = Some b /\ f a = inr b.
Proof.
  revert l' i. induction l as [|x l IH]; intros l' i; cbn [mapM]; [discriminate|].
  destruct (f x) as [e|b] eqn:Ex; [discriminate|].
  destruct (mapM f l) as [e|bs]; [discriminate|]. intros [= <-] Hi.
  destruct i as [|i].
  - injection Hi as <-. exists b. split; [reflexivity|exact Ex].
  - apply (IH bs i eq_refl Hi).
Qed.

Lemma mapM_length {A B} (f : A -> exn + B) l l' :
  mapM f l = inr l' -> length l' = length l.
Proof.
  revert l'. induction l as [|x l IH]; intros l'; cbn [mapM].
  - intros [= <-]. reflexivity.
  - destruct (f x); [discriminate|]. destruct (mapM f l) as [e|bs]; [discriminate|].
    intros [= <-]. cbn [length]. rewrite (IH bs eq_refl). reflexivity.
Qed.

(** [updateUser] on an initialised store. *)
Lemma updateUser_steady uid us s :
  steady s ->
  updateUser uid us s
  = match mapM encoded (applicable us) with
    | inl e => (inl e, s)
    | inr vs =>
        if (0 <? length (applicable us).*1)%nat
        then run (UPDATE_BY_ID (applicable us).*1 (bind <$> (vs ++ [VStr uid]))) s
        else (inr tt, s)
    end.
Proof.
  intros Hst. unfold updateUser. rewrite method_spec, (steady_init _ Hst).
  unfold updateUser_body, bindM, lift. rewrite collect_spec.
  destruct (mapM encoded (applicable us)); [reflexivity|]. cbn [app].
  destruct (0 <? length (applicable us).*1)%nat; reflexivity.
Qed.

Lemma encoded_fails k x e :
  encoded (k, x) = inl e ->
  k = "verificationTokenExpiry" /\ truthy x = true
  /\ ((forall d, x <> VDate d) /\ e = TypeError
      \/ x = VDate InvalidDate /\ e = RangeError).
Proof.
  unfold encoded. cbn [fst snd].
  destruct ((k =? "collegeData")%string && truthy x); [discriminate|].
  destruct ((k =? "verificationTokenExpiry")%string && truthy x) eqn:E; [|discriminate].
  apply andb_true_iff in E. destruct E as [E1 E2]. apply String.eqb_eq in E1.
  intros H. split; [exact E1|]. split; [exact E2|].
  destruct x; try (injection H as <-; left; split; [discriminate|reflexivity]).
  destruct d as [|t]; cbn [toISOString] in H; [|discriminate].
  injection H as <-. right. split; reflexivity.
Qed.

Lemma NoDup_keys_value {A} (l : list (string * A)) k v1 v2 :
  NoDup l.*1 -> (k, v1) ∈ l -> (k, v2) ∈ l -> v1 = v2.
Proof.
  induction l as [|[k0 v0] l IH]; intros Hnd H1 H2; [inversion H1|].
  rewrite fmap_cons in Hnd. cbn [fst] in Hnd. apply NoDup_cons in Hnd.
  destruct Hnd as [Hnotin Hnd].
  assert (Hkey : forall v, (k0, v) ∈ l -> False).
  { intros v Hv. apply Hnotin. apply list_elem_of_fmap. exists (k0, v). auto. }
  apply elem_of_cons in H1. apply elem_of_cons in H2.
  destruct H1 as [E1|H1]; destruct H2 as [E2|H2].
  - congruence.
  - injection E1 as -> _. destruct (Hkey _ H2).
  - injection E2 as -> _. destruct (Hkey _ H1).
  - apply IH; assumption.
Qed.

(** An entry for [verificationTokenExpiry] that is set and is not a valid
    date makes [updateUser] throw before it issues a statement: a
    TypeError when the value is no date (it has no [toISOString]), a
    RangeError when it is the invalid date.  The keys of the update are
    distinct, as those of [Object.entries] are. *)
Theorem updateUser_rejects_bad_expiry
    (uid : string) (us : list (string * value)) (s : Database) (v : value) :
  steady s -> NoDup us.*1 ->
  ("verificationTokenExpiry", v) ∈ us -> truthy v = true ->
  ((forall d, v <> VDate d) -> updateUser uid us s = (inl TypeError, s))
  /\ (v = VDate InvalidDate -> updateUser uid us s = (inl RangeError, s)).
Proof.
  intros Hst Hnd Hin Ht. rewrite (updateUser_steady uid us s Hst).
  assert (Happ : ("verificationTokenExpiry", v) ∈ applicable us).
  { apply list_elem_of_filter. split; [|exact Hin]. cbn [snd].
    rewrite (truthy_defined v Ht). exact I. }
  assert (Hone : forall e0, encoded ("verificationTokenExpiry", v) = inl e0 ->
            mapM encoded (applicable us) = inl e0).
  { intros e0 Henc.
    destruct (mapM_fails encoded _ _ _ Happ Henc) as (e & He). rewrite He.
    destruct (mapM_inl encoded _ _ He) as ([k x] & Hkx & Hx).
    destruct (encoded_fails k x e Hx) as (-> & _ & _).
    apply list_elem_of_filter in Hkx. destruct Hkx as [_ Hkx].
    rewrite (NoDup_keys_value us _ x v Hnd Hkx Hin) in Hx. congruence. }
  split.
  - intros Hno. rewrite (Hone TypeError); [reflexivity|].
    unfold encoded. cbn [fst snd]. rewrite Ht.
    change (("verificationTokenExpiry" =? "collegeData")%string) with false.
    change (("verificationTokenExpiry" =? "verificationTokenExpiry")%string) with true.
    cbn [andb]. destruct v; try reflexivity. destruct (Hno d eq_refl).
  - intros ->. rewrite (Hone RangeError); reflexivity.
Qed.

Lemma updateUser_rejects_bad_expiry_witness :
  updateUser "1" [("verificationToken", VStr "t2");
                  ("verificationTokenExpiry", VStr "tomorrow")] ready
  = (inl TypeError, ready)
  /\ updateUser "1" [("verificationTokenExpiry", VDate InvalidDate)] ready
     = (inl RangeError, ready).
Proof.
  split.
  - apply (updateUser_rejects_bad_expiry "1" _ ready (VStr "tomorrow")).
    + left. reflexivity.
    + apply (bool_decide_unpack _). vm_compute. exact I.
    + right. left.
    + reflexivity.
    + intros d. discriminate.
  - apply (updateUser_rejects_bad_expiry "1" _ ready (VDate InvalidDate)).
    + left. reflexivity.
    + apply (bool_decide_unpack _). vm_compute. exact I.
    + left.
    + reflexivity.
    + reflexivity.
Defined.

Lemma updated_no_hit fields params idv l :
  (forall r, r ∈ l -> where_column "id" idv r = false) ->
  updated fields params idv l = l.
Proof.
  intros H. unfold updated. rewrite <- (list_fmap_id l) at 2.
  apply list_fmap_ext. intros i r Hr.
  rewrite (H r) by (apply list_elem_of_lookup; eauto). reflexivity.
Qed.

Lemma updated_nil params idv l : updated [] params idv l = l.
Proof.
  unfold updated. rewrite <- (list_fmap_id l) at 2.
  apply list_fmap_ext. intros i r _. destruct (where_column "id" idv r); reflexivity.
Qed.

Lemma first_violation_nil l : first_violation l [] = None.
Proof. reflexivity. Qed.

(** An update for an [id] that no row has, with keys that are
    properties of [User], changes nothing and is not an error: when the
    entries can be encoded and name columns of the table, [updateUser]
    reports success. *)
Theorem updateUser_unknown_id
    (uid : string) (us : list (string * value)) (s : Database) (t : table) :
  keys_of_User us ->
  steady s -> reliable s -> file s = Some t ->
  (forall r, r ∈ rows t -> col r "id" <> SText uid) ->
  file (snd (updateUser uid us s)) = Some t
  /\ (forall vs, mapM encoded (applicable us) = inr vs ->
        (forall k, k ∈ (applicable us).*1 -> k ∈ columns t) ->
        fst (updateUser uid us s) = inr tt).
Proof.
  intros _ Hst Hr Hf Hnone.
  assert (Hmiss : forall r, r ∈ rows t -> where_column "id" (SText uid) r = false).
  { intros r Hin. destruct (where_column "id" (SText uid) r) eqn:E; [|reflexivity].
    apply where_column_text in E. destruct (Hnone r Hin E). }
  split.
  - unfold updateUser. rewrite method_spec, (steady_init _ Hst).
    destruct (updateUser_body_file uid us s t Hf) as [H|(params & H)]; [exact H|].
    rewrite H, (updated_no_hit _ _ _ _ Hmiss). destruct t; reflexivity.
  - intros vs Hvs Hcols. rewrite (updateUser_steady uid us s Hst), Hvs.
    destruct (0 <? length (applicable us).*1)%nat; [|reflexivity].
    rewrite run_spec, (engine_reliable _ _ Hr), Hf. cbn [exec].
    rewrite (filter_nil_all (fun c => c ∉ columns t))
      by (intros c Hc Hn; exact (Hn (Hcols c Hc))).
    rewrite last_bound_id, (filter_none _ _ Hmiss). reflexivity.
Qed.

Lemma updateUser_unknown_id_witness :
  file (snd (updateUser "7" [("fullName", VStr "Nobody")] ready)) = Some ready_table
  /\ (forall vs, mapM encoded (applicable [("fullName", VStr "Nobody")]) = inr vs ->
        (forall k, k ∈ (applicable [("fullName", VStr "Nobody")]).*1 ->
                   k ∈ columns ready_table) ->
        fst (updateUser "7" [("fullName", VStr "Nobody")] ready) = inr tt).
Proof.
  apply (updateUser_unknown_id "7" [("fullName", VStr "Nobody")] ready ready_table).
  - intros k Hk. apply list_elem_of_singleton in Hk. subst k.
    apply (bool_decide_unpack _). vm_compute. exact I.
  - left. reflexivity.
  - intros st. reflexivity.
  - reflexivity.
  - intros r Hin. apply list_elem_of_singleton in Hin. subst r. discriminate.
Defined.

(** What a successful [updateUser] leaves on an initialised store. *)
Lemma updateUser_ok uid us s t :
  steady s -> reliable s -> file s = Some t ->
  fst (updateUser uid us s) = inr tt ->
  exists vs s',
    mapM encoded (applicable us) = inr vs
    /\ snd (updateUser uid us s) = s'
    /\ file s'
       = Some {| columns := columns t;
                 rows := updated (applicable us).*1 (bind <$> (vs ++ [VStr uid]))
                           (SText uid) (rows t) |}
    /\ steady s' /\ reliable s'.
Proof.
  intros Hst Hr Hf. rewrite (updateUser_steady uid us s Hst).
  destruct (mapM encoded (applicable us)) as [e|vs] eqn:Hvs; [discriminate|].
  destruct (applicable us).*1 as [|k ks] eqn:Hk.
  - cbn [length Nat.ltb Nat.leb fst snd]. intros _. exists vs, s.
    split; [reflexivity|]. split; [reflexivity|].
    rewrite updated_nil, Hf. split; [destruct t; reflexivity|]. split; assumption.
  - cbn [length Nat.ltb Nat.leb]. rewrite run_spec, (engine_reliable _ _ Hr), Hf.
    destruct (exec_update (k :: ks) (bind <$> (vs ++ [VStr uid])) t)
      as [(e & Hx)|Hx]; rewrite Hx; [discriminate|].
    cbn [fst snd]. intros _. eexists vs, _. split; [reflexivity|].
    split; [reflexivity|]. autorewrite with fields.
    rewrite last_bound_id. split; [reflexivity|]. split.
    + apply (steady_frame s); [reflexivity..|exact Hst].
    + intros st. apply Hr.
Qed.

(** What [rowToUser] makes of the four columns that it decodes. *)
Lemma rowToUser_decoded r o :
  rowToUser r = inr o ->
  let raw k := prop (unbind <$> r : object) k in
  prop o "isEmailVerified" = VBool (truthy (raw "isEmailVerified"))
  /\ prop o "createdAt" = VDate (Date_new (raw "createdAt"))
  /\ prop o "verificationTokenExpiry"
     = (if truthy (raw "verificationTokenExpiry")
        then VDate (Date_new (raw "verificationTokenExpiry")) else undefined)
  /\ (if truthy (raw "collegeData") then JSON_parse (raw "collegeData")
      else inr undefined) = inr (prop o "collegeData").
Proof.
  unfold rowToUser. cbv zeta. set (o0 := (unbind <$> r : object)).
  generalize (prop o0 "isEmailVerified") (prop o0 "createdAt")
    (prop o0 "verificationTokenExpiry") (prop o0 "collegeData").
  intros a1 a2 a3 a4 H.
  destruct (if truthy a4 then JSON_parse a4 else inr undefined) as [e|c];
    [discriminate|].
  injection H as <-. unfold prop.
  rewrite !lookup_insert_eq.
  rewrite !(lookup_insert_ne _ "collegeData") by discriminate.
  rewrite !lookup_insert_eq.
  rewrite !(lookup_insert_ne _ "verificationTokenExpiry") by discriminate.
  rewrite !lookup_insert_eq.
  rewrite !(lookup_insert_ne _ "isEmailVerified") by discriminate.
  rewrite !lookup_insert_eq. auto.
Qed.

Lemma raw_stored (r : row) k p : r !! k = Some p -> prop (unbind <$> r : object) k = unbind p.
Proof. intros H. unfold prop. rewrite lookup_fmap, H. reflexivity. Qed.

Lemma applicable_NoDup us : NoDup us.*1 -> NoDup (applicable us).*1.
Proof.
  intros H. apply (sublist_NoDup _ us.*1); [exact H|].
  apply fmap_sublist, sublist_filter.
Qed.

(** The row that [findUserById] finds after an update holds, for every
    entry of the update, the parameter bound for it. *)
Lemma updated_row_cell uid us s t o k v :
  steady s -> reliable s -> file s = Some t ->
  NoDup us.*1 ->
  fst (updateUser uid us s) = inr tt ->
  fst (findUserById uid (snd (updateUser uid us s))) = inr (Some o) ->
  (k, v) ∈ us -> is_undefined v = false ->
  exists (r' : row) x,
    rowToUser r' = inr o /\ r' !! k = Some (bind x) /\ encoded (k, v) = inr x.
Proof.
  intros Hst Hr Hf Hnd Hok Hfind Hin Hdef.
  destruct (updateUser_ok uid us s t Hst Hr Hf Hok)
    as (vs & s' & Hvs & Hs' & Hf' & Hst' & Hr').
  rewrite Hs' in Hfind.
  assert (Hi' : fst (initializeDatabase s') = inr tt)
    by (rewrite (steady_init _ Hst'); reflexivity).
  assert (Ha' : after_init s' = s')
    by (unfold after_init; rewrite (steady_init _ Hst'); reflexivity).
  rewrite <- Ha' in Hf'.
  rewrite (findUserById_spec uid s' _ Hi' Hr' Hf') in Hfind.
  apply decode_Some in Hfind. destruct Hfind as (r' & Hhead & Hrow).
  apply head_filter_elem in Hhead. destruct Hhead as [Hin' Hhit].
  cbn [rows] in Hin'. unfold updated in Hin'.
  apply list_elem_of_fmap in Hin'. destruct Hin' as (r & Heq & _).
  assert (Hr'' : r' = assign (applicable us).*1 (bind <$> (vs ++ [VStr uid])) r).
  { rewrite Heq. destruct (where_column "id" (SText uid) r) eqn:E; [reflexivity|].
    rewrite Heq, E in Hhit. discriminate. }
  assert (Happ : (k, v) ∈ applicable us).
  { apply list_elem_of_filter. split; [|exact Hin]. cbn [snd]. rewrite Hdef. exact I. }
  apply list_elem_of_lookup in Happ. destruct Happ as (i & Hi).
  destruct (mapM_lookup encoded _ _ i _ Hvs Hi) as (x & Hx & Henc).
  exists r', x. split; [exact Hrow|]. split; [|exact Henc].
  rewrite Hr''. apply (assign_lookup _ _ r i).
  - apply applicable_NoDup, Hnd.
  - rewrite list_lookup_fmap, Hi. reflexivity.
  - rewrite list_lookup_fmap, lookup_app_l, Hx; [reflexivity|].
    apply lookup_lt_Some in Hx. exact Hx.
Qed.

Lemma encoded_plain k v :
  k <> "collegeData" -> k <> "verificationTokenExpiry" -> encoded (k, v) = inr v.
Proof.
  intros K1 K2. unfold encoded. cbn [fst snd].
  rewrite (proj2 (String.eqb_neq _ _) K1), (proj2 (String.eqb_neq _ _) K2).
  reflexivity.
Qed.

Lemma encoded_flag b : encoded ("isEmailVerified", VBool b) = inr (VBool b).
Proof. reflexivity. Qed.

Lemma encoded_college c :
  encoded ("collegeData", college_value c) = inr (JSON_stringify (college_value c)).
Proof. reflexivity. Qed.

Lemma encoded_expiry te :
  encoded ("verificationTokenExpiry", VDate (DateAt te)) = inr (VStr (iso_of_time te)).
Proof. reflexivity. Qed.

Lemma decoded_flag b : truthy (unbind (bind (VBool b))) = b.
Proof. destruct b; reflexivity. Qed.

Lemma decoded_college c :
  valid_college c ->
  (if truthy (unbind (bind (JSON_stringify (college_value c))))
   then JSON_parse (unbind (bind (JSON_stringify (college_value c))))
   else inr undefined)
  = inr (college_value c).
Proof.
  intros Hc. unfold JSON_stringify. rewrite (stringify_college c Hc).
  cbn [bind unbind]. rewrite college_text_truthy. unfold JSON_parse.
  cbn [ToString]. rewrite (parse_stringify_college c Hc). reflexivity.
Qed.

Lemma decoded_expiry te :
  - maxTime <= te <= maxTime ->
  (if truthy (unbind (bind (VStr (iso_of_time te))))
   then VDate (Date_new (unbind (bind (VStr (iso_of_time te)))))
   else undefined)
  = VDate (DateAt te).
Proof.
  intros Hd. cbn [bind unbind]. rewrite iso_of_time_truthy. cbn [Date_new].
  rewrite (Date_parse_iso te Hd). reflexivity.
Qed.

(** [updateUser] followed by [findUserById]: the record that comes back
    for the [id] carries what the update said, for values of the types
    that the interface [User] gives the properties.  A string property
    reads as the string that was passed, or as [null] when [null] was
    passed; [isEmailVerified] reads as the boolean; [collegeData] and
    [verificationTokenExpiry] come back through their text as the
    structure and the date that went in. *)
Theorem updateUser_then_findUserById
    (uid : string) (us : list (string * value)) (s : Database) (t : table)
    (o : object) :
  steady s -> reliable s -> file s = Some t ->
  NoDup us.*1 ->
  fst (updateUser uid us s) = inr tt ->
  fst (findUserById uid (snd (updateUser uid us s))) = inr (Some o) ->
  forall k v, (k, v) ∈ us -> is_undefined v = false ->
    (k ∈ string_fields ->
       (forall x, v = VStr x -> prop o k = VStr x)
       /\ (v = null -> prop o k = null))
    /\ (k = "isEmailVerified" -> forall b, v = VBool b -> prop o k = VBool b)
    /\ (k = "collegeData" -> forall c, v = college_value c -> valid_college c ->
        prop o k = college_value c)
    /\ (k = "verificationTokenExpiry" -> forall d, v = VDate d -> valid_date d ->
        prop o k = VDate d).
Proof.
  intros Hst Hr Hf Hnd Hok Hfind k v Hin Hdef.
  destruct (updated_row_cell uid us s t o k v Hst Hr Hf Hnd Hok Hfind Hin Hdef)
    as (r' & x & Hrow & Hcell & Henc).
  pose proof (raw_stored _ _ _ Hcell) as Hraw.
  destruct (rowToUser_decoded _ o Hrow) as (Dflag & _ & Dexp & Dcol).
  split; [|split; [|split]].
  - intros Hk.
    assert (K : k <> "collegeData" /\ k <> "verificationTokenExpiry"
                /\ k <> "isEmailVerified" /\ k <> "createdAt").
    { unfold string_fields, text_fields in Hk. cbn [app] in Hk.
      repeat (apply elem_of_cons in Hk; destruct Hk as [->|Hk]); [..|inversion Hk];
        repeat split; discriminate. }
    destruct K as (K1 & K2 & K3 & K4).
    rewrite (encoded_plain k v K1 K2) in Henc. injection Henc as <-.
    unfold prop. rewrite (rowToUser_copies _ o k Hrow K1 K2 K3 K4), Hcell.
    split; [intros x ->|intros ->]; reflexivity.
  - intros -> b ->. rewrite encoded_flag in Henc. injection Henc as <-.
    rewrite Dflag, Hraw, decoded_flag. reflexivity.
  - intros -> c -> Hc. rewrite encoded_college in Henc. injection Henc as <-.
    rewrite Hraw, (decoded_college c Hc) in Dcol.
    injection Dcol as <-. reflexivity.
  - intros -> d -> Hd. destruct d as [|te]; [destruct Hd|].
    rewrite encoded_expiry in Henc. injection Henc as <-.
    rewrite Dexp, Hraw. apply decoded_expiry, Hd.
Qed.

Lemma updateUser_then_findUserById_witness :
  prop verified_record "isEmailVerified" = VBool true
  /\ prop verified_record "verificationToken" = null.
Proof.
  assert (Hnd : NoDup [("isEmailVerified", VBool true); ("verificationToken", null)].*1)
    by (apply (bool_decide_unpack _); vm_compute; exact I).
  assert (Hk : "verificationToken" ∈ string_fields)
    by (apply (bool_decide_unpack _); vm_compute; exact I).
  pose proof (updateUser_then_findUserById "1"
                [("isEmailVerified", VBool true); ("verificationToken", null)]
                ready ready_table verified_record
                (or_introl eq_refl) (fun st => eq_refl) eq_refl Hnd eq_refl eq_refl)
    as H.
  split.
  - refine (proj1 (proj2 (H "isEmailVerified" (VBool true) _ eq_refl))
              eq_refl true eq_refl).
    left.
  - refine (proj2 (proj1 (H "verificationToken" null _ eq_refl) Hk) eq_refl).
    right. left.
Defined.

(** *** Decoding rows *)

Lemma truthy_raw (r : row) k :
  truthy (prop (unbind <$> r : object) k) = truthy (unbind (col r k)).
Proof. unfold prop, col. rewrite lookup_fmap. destruct (r !! k); reflexivity. Qed.

Lemma rowToUser_throws r e :
  rowToUser r = inl e ->
  e = SyntaxError /\ truthy (unbind (col r "collegeData")) = true.
Proof.
  intros H. unfold rowToUser in H. cbv zeta in H. rewrite truthy_raw in H.
  destruct (truthy (unbind (col r "collegeData"))); [|discriminate].
  unfold JSON_parse in H. destruct (parse _); [discriminate|].
  injection H as <-. auto.
Qed.

(** The contract of [rowToUser].  It throws only a SyntaxError, and only
    for a [collegeData] that is set; a [collegeData] that is NULL or
    empty reads [undefined].  In the record it returns, [isEmailVerified]
    is a boolean and [createdAt] a date whatever the row holds, and
    [verificationTokenExpiry] is a date or, when the column is NULL or
    empty, [undefined]. *)
Theorem rowToUser_contract (r : row) :
  (forall e, rowToUser r = inl e ->
     e = SyntaxError /\ truthy (unbind (col r "collegeData")) = true)
  /\ (truthy (unbind (col r "collegeData")) = false ->
      exists o, rowToUser r = inr o /\ prop o "collegeData" = undefined)
  /\ (forall o, rowToUser r = inr o ->
        (exists b, prop o "isEmailVerified" = VBool b)
        /\ (exists d, prop o "createdAt" = VDate d)
        /\ (prop o "verificationTokenExpiry" = undefined
            \/ exists d, prop o "verificationTokenExpiry" = VDate d)
        /\ (truthy (unbind (col r "verificationTokenExpiry")) = false ->
            prop o "verificationTokenExpiry" = undefined)).
Proof.
  split; [|split].
  - intros e H. exact (rowToUser_throws r e H).
  - intros Hfalse.
    destruct (rowToUser r) as [e|o] eqn:E.
    + unfold rowToUser in E. cbv zeta in E. rewrite truthy_raw, Hfalse in E.
      discriminate.
    + exists o. split; [reflexivity|].
      destruct (rowToUser_decoded r o E) as (_ & _ & _ & D). cbv zeta in D.
      rewrite truthy_raw, Hfalse in D. injection D as <-. reflexivity.
  - intros o E. destruct (rowToUser_decoded r o E) as (D1 & D2 & D3 & _).
    cbv zeta in *. rewrite truthy_raw in D3.
    split; [eauto|]. split; [eauto|]. split.
    + rewrite D3. destruct (truthy (unbind (col r "verificationTokenExpiry")));
        [right; eexists; reflexivity|left; reflexivity].
    + intros Hfalse. rewrite D3, Hfalse. reflexivity.
Qed.

(** *** More on [getAllUsers] *)

Lemma insert_desc_length key r l : length (insert_desc key r l) = S (length l).
Proof.
  induction l as [|x l IH]; [reflexivity|]. cbn [insert_desc].
  destruct (sql_lt _ _); cbn [length]; [rewrite IH|]; reflexivity.
Qed.

Lemma order_by_desc_length key l : length (order_by_desc key l) = length l.
Proof.
  unfold order_by_desc. induction l as [|r l IH]; [reflexivity|].
  cbn [foldr length]. rewrite insert_desc_length, IH. reflexivity.
Qed.

Lemma mapM_all {A B} (f : A -> exn + B) l :
  (forall a, a ∈ l -> exists b, f a = inr b) -> exists l', mapM f l = inr l'.
Proof.
  induction l as [|a l IH]; intros H; [exists []; reflexivity|].
  cbn [mapM]. destruct (H a ltac:(left)) as (b & ->).
  destruct IH as (bs & ->); [intros x Hx; apply H; right; exact Hx|]. eauto.
Qed.

(** [getAllUsers] returns one record for every row of the table, and
    nothing else; it returns at all exactly when every row can be
    decoded: one row whose [collegeData] is not JSON makes the whole call
    throw a SyntaxError. *)
Theorem getAllUsers_every_row (s : Database) (t : table) :
  fst (initializeDatabase s) = inr tt -> reliable s -> file (after_init s) = Some t ->
  (forall l, fst (getAllUsers s) = inr l ->
     length l = length (rows t)
     /\ (forall r, r ∈ rows t -> exists o, o ∈ l /\ rowToUser r = inr o)
     /\ (forall o, o ∈ l -> exists r, r ∈ rows t /\ rowToUser r = inr o))
  /\ (forall r e, r ∈ rows t -> rowToUser r = inl e ->
        fst (getAllUsers s) = inl SyntaxError)
  /\ ((forall r, r ∈ rows t -> exists o, rowToUser r = inr o) ->
      exists l, fst (getAllUsers s) = inr l).
Proof.
  intros Hi Hr Hf. rewrite (getAllUsers_spec s t Hi Hr Hf). split; [|split].
  - intros l Hl. destruct (mapM_elem _ _ _ Hl) as [Hback Hforth].
    split; [rewrite (mapM_length _ _ _ Hl); apply order_by_desc_length|]. split.
    + intros r Hin. apply Hforth, order_by_desc_elem, Hin.
    + intros o Ho. destruct (Hback o Ho) as (r & Hin & Hdec).
      exists r. split; [apply order_by_desc_elem in Hin; exact Hin|exact Hdec].
  - intros r e Hin He.
    assert (Hin' : r ∈ order_by_desc "createdAt" (rows t))
      by (apply order_by_desc_elem, Hin).
    destruct (mapM_fails rowToUser _ _ _ Hin' He) as (e' & He').
    rewrite He'. destruct (mapM_inl rowToUser _ _ He') as (r' & _ & Hr').
    destruct (rowToUser_throws r' e' Hr') as [-> _]. reflexivity.
  - intros Hall. apply mapM_all. intros r Hin. apply Hall.
    apply order_by_desc_elem in Hin. exact Hin.
Qed.

Lemma getAllUsers_every_row_witness :
  exists l, fst (getAllUsers two_rows) = inr l.
Proof.
  refine (proj2 (proj2 (getAllUsers_every_row two_rows
            {| columns := users_columns; rows := [ready_row; later_row] |}
            eq_refl (fun st => eq_refl) eq_refl)) _).
  intros r Hin. apply elem_of_cons in Hin. destruct Hin as [->|Hin].
  - eexists. reflexivity.
  - apply list_elem_of_singleton in Hin. subst r. eexists. reflexivity.
Defined.

(** When the rows are stored in strictly increasing order of [createdAt],
    as the engine compares the stored values, [getAllUsers] returns their
    records in the reverse of the stored order. *)
Theorem getAllUsers_reverses_ascending (s : Database) (t : table) :
  fst (initializeDatabase s) = inr tt -> reliable s -> file (after_init s) = Some t ->
  ascending "createdAt" (rows t) ->
  fst (getAllUsers s) = mapM rowToUser (reverse (rows t)).
Proof.
  intros Hi Hr Hf Hasc. rewrite (getAllUsers_spec s t Hi Hr Hf).
  rewrite (order_by_desc_ascending _ _ Hasc). reflexivity.
Qed.

Lemma getAllUsers_reverses_ascending_witness :
  fst (getAllUsers two_rows) = mapM rowToUser (reverse [ready_row; later_row]).
Proof.
  apply (getAllUsers_reverses_ascending two_rows
           {| columns := users_columns; rows := [ready_row; later_row] |}
           eq_refl (fun st => eq_refl) eq_refl).
  cbn [ascending rows]. repeat apply conj; try exact I; repeat constructor.
Defined.

(** *** Failures *)

Lemma run_failure_file st s e :
  fst (run st s) = inl e -> file (snd (run st s)) = file s.
Proof.
  rewrite run_spec. cbn [fst snd].
  destruct (engine_file st s) as [H|(rs & f & Hfault & Hex & _)]; [intros _; exact H|].
  rewrite engine_spec, Hfault, Hex. discriminate.
Qed.

Lemma method_failure {A} (m : M A) s e :
  (forall s0 e0, fst (m s0) = inl e0 -> file (snd (m s0)) = file s0) ->
  fst ((initializeDatabase ;; m) s) = inl e ->
  file (snd ((initializeDatabase ;; m) s)) = file (after_init s).
Proof.
  intros Hm. rewrite method_spec. unfold after_init.
  destruct (initializeDatabase s) as [[e0|[]] s0]; [reflexivity|]. apply Hm.
Qed.

(** A method that writes and throws has written nothing: after a failed
    [addUser], [updateUser] or [clearAllUsers] the table is as the
    initialisation left it. *)
Theorem failed_write_keeps_table
    (s : Database) (u : User) (uid : string) (us : list (string * value)) (e : exn) :
  (fst (addUser u s) = inl e -> file (snd (addUser u s)) = file (after_init s))
  /\ (fst (updateUser uid us s) = inl e ->
      file (snd (updateUser uid us s)) = file (after_init s))
  /\ (fst (clearAllUsers s) = inl e ->
      file (snd (clearAllUsers s)) = file (after_init s)).
Proof.
  split; [|split]; apply method_failure; intros s0 e0.
  - rewrite addUser_body_params. destruct (stored_params u); [|reflexivity].
    apply run_failure_file.
  - unfold updateUser_body, bindM, lift.
    destruct (collect us [] []) as [e1|[fields values]]; [reflexivity|].
    destruct (0 <? length fields)%nat; [apply run_failure_file|discriminate].
  - apply run_failure_file.
Qed.

(** An ALTER TABLE for another column does not bring the column [c]. *)
Lemma engine_alter_other c' d s t c :
  file s = Some t -> c ∉ columns t -> c' <> c ->
  exists t', file (snd (engine (ALTER_TABLE_ADD_COLUMN c' d) s)) = Some t'
             /\ c ∉ columns t'.
Proof.
  intros Hf Hc Hne.
  destruct (engine_file (ALTER_TABLE_ADD_COLUMN c' d) s)
    as [->|(rs & f & _ & He & ->)]; [exists t; auto|].
  rewrite Hf in He. cbn [exec] in He.
  destruct (decide (c' ∈ columns t)); [discriminate|]. injection He as _ <-.
  eexists. split; [reflexivity|]. cbn [columns].
  rewrite elem_of_app, list_elem_of_singleton. intros [H|H]; [exact (Hc H)|].
  exact (Hne (eq_sym H)).
Qed.

Lemma engine_fault st s e :
  fault s st = Some e -> file (snd (engine st s)) = file s.
Proof. intros H. rewrite engine_spec, H. reflexivity. Qed.

Lemma engine_same_fault st s : fault (snd (engine st s)) = fault s.
Proof. destruct (engine_frame st s) as (_ & _ & (_ & _ & H & _) & _). exact H. Qed.

Lemma migrated_misses s t e :
  file s = Some t -> "collegeData" ∉ columns t ->
  fault s (ALTER_TABLE_ADD_COLUMN "collegeData" SNull) = Some e ->
  exists t', file (migrated s) = Some t' /\ "collegeData" ∉ columns t'.
Proof.
  intros Hf Hc Hfault. unfold migrated. cbv zeta.
  set (s0 := log OpenDatabase (log ImportSqlite3 (log EnsureDataDirectory s))).
  assert (Hf0 : file s0 = Some t) by exact Hf.
  assert (F0 : fault s0 = fault s) by reflexivity.
  pose proof (engine_create_keeps s0 t Hf0) as H1.
  pose proof (engine_same_fault CREATE_TABLE_IF_NOT_EXISTS s0) as F1.
  set (s1 := snd (engine CREATE_TABLE_IF_NOT_EXISTS s0)) in *.
  destruct (engine_alter_other "isEmailVerified" (SInt 0) s1 t _ H1 Hc
              ltac:(discriminate)) as (t2 & H2 & C2).
  pose proof (engine_same_fault (ALTER_TABLE_ADD_COLUMN "isEmailVerified" (SInt 0)) s1)
    as F2.
  fold alter1 in H2, F2. set (s2 := snd (engine alter1 s1)) in *.
  destruct (engine_alter_other "verificationToken" SNull s2 t2 _ H2 C2
              ltac:(discriminate)) as (t3 & H3 & C3).
  pose proof (engine_same_fault (ALTER_TABLE_ADD_COLUMN "verificationToken" SNull) s2)
    as F3.
  fold alter2 in H3, F3. set (s3 := snd (engine alter2 s2)) in *.
  destruct (engine_alter_other "verificationTokenExpiry" SNull s3 t3 _ H3 C3
              ltac:(discriminate)) as (t4 & H4 & C4).
  pose proof (engine_same_fault
                (ALTER_TABLE_ADD_COLUMN "verificationTokenExpiry" SNull) s3) as F4.
  fold alter3 in H4, F4. set (s4 := snd (engine alter3 s3)) in *.
  exists t4. split; [|exact C4].
  rewrite (engine_fault alter4 s4 e); [exact H4|].
  rewrite F4, F3, F2, F1, F0. exact Hfault.
Qed.

(** The price of ignoring every failure of ALTER TABLE.  When a table of
    an old version lacks the column [collegeData] and the ALTER TABLE
    that should add it fails for a reason of its own, the initialisation
    still reports success, and from then on no [addUser] can succeed. *)
Theorem swallowed_failure_breaks_addUser (s : Database) (t : table) (e : Sqlite.error) :
  initialized s = false -> initPromise s = None -> init_ok s = true ->
  file s = Some t -> "collegeData" ∉ columns t ->
  fault s (ALTER_TABLE_ADD_COLUMN "collegeData" SNull) = Some e ->
  fst (initializeDatabase s) = inr tt
  /\ forall u, exists e', fst (addUser u s) = inl e'.
Proof.
  intros Hi Hp Hok Hf Hc Hfault.
  pose proof (initializeDatabase_first s Hi Hp) as Hfirst. cbv zeta in Hfirst.
  rewrite Hok in Hfirst. destruct Hfirst as [Hinit _].
  split; [exact Hinit|]. intros u.
  unfold addUser. rewrite (method_ok _ _ Hinit), addUser_body_params.
  destruct (stored_params u) as [ps|]; [|eexists; reflexivity].
  set (s1 := set_initPromise (Some Pending) (log DoInitialize s)).
  assert (Hf1 : file s1 = Some t) by exact Hf.
  assert (Hfault1 : fault s1 (ALTER_TABLE_ADD_COLUMN "collegeData" SNull) = Some e)
    by exact Hfault.
  destruct (migrated_misses s1 t e Hf1 Hc Hfault1) as (t' & Hm & Hmiss).
  assert (Hfile : file (after_init s) = Some t').
  { rewrite (after_first_init s Hi Hp Hok). autorewrite with fields. exact Hm. }
  rewrite run_spec, engine_spec. cbn [fst].
  destruct (fault (after_init s) (INSERT insert_columns ps));
    [eexists; reflexivity|].
  rewrite Hfile, exec_insert.
  destruct (filter (fun c => c ∉ columns t') insert_columns) as [|c l] eqn:E;
    [|eexists; reflexivity].
  exfalso. apply (filter_nil_not_elem_of _ _ "collegeData" E Hmiss).
  apply (bool_decide_unpack _). vm_compute. exact I.
Qed.

Lemma swallowed_failure_breaks_addUser_witness :
  fst (initializeDatabase old_disk_full) = inr tt
  /\ forall u, exists e', fst (addUser u old_disk_full) = inl e'.
Proof.
  apply (swallowed_failure_breaks_addUser old_disk_full old_table (SQLITE_FAULT 13));
    try reflexivity.
  intros Hin. apply (bool_decide_pack _) in Hin. vm_compute in Hin. exact Hin.
Defined.

(** *** The shared instance *)

Lemma calls_set n : forall p a,
  Singleton.dbInstance p = Some a ->
  Singleton.calls n p = (replicate n a, p).
Proof.
  induction n as [|n IH]; intros p a Hp; [reflexivity|].
  cbn [Singleton.calls]. unfold Singleton.getDatabase. rewrite Hp.
  rewrite (IH p a Hp). reflexivity.
Qed.

(** However often [getDatabase] is called in a process that has no
    instance yet, every call returns the same object, the class is
    constructed once, and the object starts out not initialised. *)
Theorem getDatabase_singleton (n : nat) (p : Singleton.process) :
  Singleton.dbInstance p = None ->
  Singleton.calls (S n) p
  = (replicate (S n) (length (Singleton.heap p)),
     {| Singleton.heap := Singleton.heap p ++ [(false, None)];
        Singleton.dbInstance := Some (length (Singleton.heap p)) |}).
Proof.
  intros Hp. cbn [Singleton.calls]. unfold Singleton.getDatabase. rewrite Hp.
  cbn [Singleton.new_Database Singleton.heap].
  rewrite (calls_set n
             {| Singleton.heap := Singleton.heap p ++ [(false, None)];
                Singleton.dbInstance := Some (length (Singleton.heap p)) |}
             (length (Singleton.heap p)) eq_refl).
  reflexivity.
Qed.

Lemma getDatabase_singleton_witness :
  Singleton.calls 3 {| Singleton.heap := []; Singleton.dbInstance := None |}
  = ([0; 0; 0]%nat,
     {| Singleton.heap := [(false, None)]; Singleton.dbInstance := Some 0%nat |}).
Proof.
  apply (getDatabase_singleton 2
           {| Singleton.heap := []; Singleton.dbInstance := None |}).
  reflexivity.
Defined.

(** *** Updates, twice and after *)

Lemma assign_col_other fields params (r : row) k :
  k ∉ fields -> col (assign fields params r) k = col r k.
Proof. intros H. unfold col. rewrite (assign_notin fields params r k H). reflexivity. Qed.

(** Assigning the same parameters a second time changes nothing. *)
Lemma assign_twice fields : forall params (r : row),
  NoDup fields -> (length fields <= length params)%nat ->
  assign fields params (assign fields params r) = assign fields params r.
Proof.
  intros params r Hnd Hlen. apply map_eq. intros k.
  destruct (decide (k ∈ fields)) as [Hin|Hout].
  - apply list_elem_of_lookup in Hin. destruct Hin as (i & Hi).
    assert (Hp : is_Some (params !! i)).
    { apply lookup_lt_is_Some. apply lookup_lt_Some in Hi. lia. }
    destruct Hp as (p & Hp).
    rewrite !(assign_lookup fields params _ i k p Hnd Hi Hp). reflexivity.
  - rewrite !(assign_notin fields params _ k Hout). reflexivity.
Qed.

Lemma updated_hit fields params idv (r : row) :
  "id" ∉ fields ->
  where_column "id" idv
    (if where_column "id" idv r then assign fields params r else r)
  = where_column "id" idv r.
Proof.
  intros Hid. destruct (where_column "id" idv r) eqn:E; [|exact E].
  unfold where_column in *. rewrite (assign_col_other fields params r "id" Hid).
  exact E.
Qed.

Lemma updated_twice fields params idv l :
  NoDup fields -> (length fields <= length params)%nat -> "id" ∉ fields ->
  updated fields params idv (updated fields params idv l)
  = updated fields params idv l.
Proof.
  intros Hnd Hlen Hid. unfold updated. rewrite <- list_fmap_compose.
  apply list_fmap_ext. intros i r _. cbn.
  rewrite (updated_hit fields params idv r Hid).
  destruct (where_column "id" idv r); [|reflexivity].
  apply assign_twice; assumption.
Qed.

Lemma filter_updated fields params idv l :
  "id" ∉ fields ->
  filter (fun r => where_column "id" idv r) (updated fields params idv l)
  = assign fields params <$> filter (fun r => where_column "id" idv r) l.
Proof.
  intros Hid. unfold updated. induction l as [|r l IH]; [reflexivity|].
  rewrite fmap_cons, !filter_cons, (updated_hit fields params idv r Hid).
  destruct (where_column "id" idv r) eqn:E.
  - rewrite !decide_True by exact I. rewrite fmap_cons, IH. reflexivity.
  - rewrite !decide_False by (intros []). exact IH.
Qed.

(** An update is idempotent.  When [updateUser] has succeeded on an
    initialised store with an update that does not set [id], the same
    call once more succeeds again and leaves the table as it is. *)
Theorem updateUser_idempotent
    (uid : string) (us : list (string * value)) (s : Database) (t : table) :
  steady s -> reliable s -> file s = Some t ->
  NoDup us.*1 -> "id" ∉ (applicable us).*1 ->
  fst (updateUser uid us s) = inr tt ->
  let s1 := snd (updateUser uid us s) in
  fst (updateUser uid us s1) = inr tt
  /\ file (snd (updateUser uid us s1)) = file s1.
Proof.
  intros Hst Hr Hf Hnd Hid Hok s1.
  destruct (updateUser_ok uid us s t Hst Hr Hf Hok)
    as (vs & s' & Hvs & Hs' & Hf' & Hst' & Hr').
  subst s1. rewrite Hs'. clear Hs'.
  set (keys := (applicable us).*1) in *.
  set (params := bind <$> (vs ++ [VStr uid])) in *.
  assert (Hlen : (length keys <= length params)%nat).
  { unfold keys, params. rewrite !length_fmap, length_app.
    rewrite (mapM_length _ _ _ Hvs). lia. }
  assert (Hnd' : NoDup keys) by (apply applicable_NoDup, Hnd).
  rewrite (updateUser_steady uid us s' Hst'), Hvs. fold keys params.
  destruct (0 <? length keys)%nat eqn:Hpos; [|split; reflexivity].
  rewrite run_spec, (engine_reliable _ _ Hr'), Hf'.
  assert (Hex1 : exec (UPDATE_BY_ID keys params) (Some t)
                 = inr ([], Some {| columns := columns t;
                                    rows := updated keys params (SText uid) (rows t) |})).
  { rewrite (updateUser_steady uid us s Hst), Hvs in Hok. fold keys params in Hok.
    rewrite Hpos, run_spec, (engine_reliable _ _ Hr), Hf in Hok.
    destruct (exec_update keys params t) as [(e & Hx)|Hx];
      [rewrite Hx in Hok; discriminate|].
    rewrite Hx. unfold params. rewrite last_bound_id. reflexivity. }
  assert (Hlast : List.last params SNull = SText uid)
    by (unfold params; apply last_bound_id).
  cbn [exec] in Hex1. rewrite Hlast in Hex1. fold (updated keys params (SText uid) (rows t)) in Hex1.
  cbn [exec columns rows]. rewrite Hlast.
  fold (updated keys params (SText uid) (updated keys params (SText uid) (rows t))).
  destruct (filter (fun c => c ∉ columns t) keys) as [|c l] eqn:Hcols; [|discriminate].
  rewrite (updated_twice keys params (SText uid) (rows t) Hnd' Hlen Hid).
  rewrite (filter_updated keys params (SText uid) (rows t) Hid).
  rewrite <- list_fmap_compose.
  assert (Hsame : (assign keys params ∘ assign keys params
                     <$> filter (fun r => where_column "id" (SText uid) r) (rows t))
                  = assign keys params
                      <$> filter (fun r => where_column "id" (SText uid) r) (rows t)).
  { apply list_fmap_ext. intros i r _. cbn. apply assign_twice; assumption. }
  rewrite Hsame.
  destruct (first_violation _ _); [discriminate|].
  cbn [fst snd]. autorewrite with fields. split; reflexivity.
Qed.

Lemma updateUser_idempotent_witness :
  let us := [("isEmailVerified", VBool true); ("verificationToken", null)] in
  let s1 := snd (updateUser "1" us ready) in
  fst (updateUser "1" us s1) = inr tt
  /\ file (snd (updateUser "1" us s1)) = file s1.
Proof.
  cbv zeta.
  apply (updateUser_idempotent "1"
           [("isEmailVerified", VBool true); ("verificationToken", null)]
           ready ready_table).
  - left. reflexivity.
  - intros st. reflexivity.
  - reflexivity.
  - apply (bool_decide_unpack _). vm_compute. exact I.
  - intros Hin. apply (bool_decide_pack _) in Hin. vm_compute in Hin. exact Hin.
  - reflexivity.
Defined.

(** The cell that an update assigns for one of its entries. *)
Lemma assigned_cell us vs uid (r : row) k v :
  NoDup us.*1 -> mapM encoded (applicable us) = inr vs ->
  (k, v) ∈ us -> is_undefined v = false ->
  exists x, encoded (k, v) = inr x
    /\ assign (applicable us).*1 (bind <$> (vs ++ [VStr uid])) r !! k = Some (bind x).
Proof.
  intros Hnd Hvs Hin Hdef.
  assert (Happ : (k, v) ∈ applicable us).
  { apply list_elem_of_filter. split; [|exact Hin]. cbn [snd]. rewrite Hdef. exact I. }
  apply list_elem_of_lookup in Happ. destruct Happ as (i & Hi).
  destruct (mapM_lookup encoded _ _ i _ Hvs Hi) as (x & Hx & Henc).
  exists x. split; [exact Henc|]. apply (assign_lookup _ _ r i).
  - apply applicable_NoDup, Hnd.
  - rewrite list_lookup_fmap, Hi. reflexivity.
  - rewrite list_lookup_fmap, lookup_app_l, Hx; [reflexivity|].
    apply lookup_lt_Some in Hx. exact Hx.
Qed.

(** A cleared token is spent.  After a successful update of the user
    [uid] that sets [verificationToken] to [null], no token finds that
    user any more: whatever [findUserByVerificationToken] returns is
    another user's record, and a token that only rows of [uid] held now
    finds nothing. *)
Theorem cleared_token_is_spent
    (uid : string) (us : list (string * value)) (s : Database) (t : table) :
  steady s -> reliable s -> file s = Some t ->
  NoDup us.*1 -> ("verificationToken", null) ∈ us ->
  fst (updateUser uid us s) = inr tt ->
  (forall tok o,
     fst (findUserByVerificationToken tok (snd (updateUser uid us s)))
     = inr (Some o) ->
     prop o "id" <> VStr uid)
  /\ (forall tok,
        (forall r, r ∈ rows t -> col r "verificationToken" = SText tok ->
                   col r "id" = SText uid) ->
        fst (findUserByVerificationToken tok (snd (updateUser uid us s)))
        = inr None).
Proof.
  intros Hst Hr Hf Hnd Hin Hok.
  destruct (updateUser_ok uid us s t Hst Hr Hf Hok)
    as (vs & s' & Hvs & Hs' & Hf' & Hst' & Hr').
  rewrite Hs'.
  assert (Hi' : fst (initializeDatabase s') = inr tt)
    by (rewrite (steady_init _ Hst'); reflexivity).
  assert (Ha' : after_init s' = s')
    by (unfold after_init; rewrite (steady_init _ Hst'); reflexivity).
  rewrite <- Ha' in Hf'.
  assert (Hcleared : forall r, where_column "id" (SText uid) r = true ->
            col (assign (applicable us).*1 (bind <$> (vs ++ [VStr uid])) r)
                "verificationToken" = SNull).
  { intros r _.
    destruct (assigned_cell us vs uid r "verificationToken" null Hnd Hvs Hin eq_refl)
      as (x & Henc & Hcell).
    rewrite encoded_plain in Henc by discriminate. injection Henc as <-.
    unfold col. rewrite Hcell. reflexivity. }
  split.
  - intros tok o Hfind.
    rewrite (findUserByVerificationToken_spec tok s' _ Hi' Hr' Hf') in Hfind.
    apply decode_Some in Hfind. destruct Hfind as (r' & Hhead & Hrow).
    apply head_filter_elem in Hhead. destruct Hhead as [Hin' Hhit].
    apply where_column_text in Hhit.
    cbn [rows] in Hin'. unfold updated in Hin'.
    apply list_elem_of_fmap in Hin'. destruct Hin' as (r & Heq & _).
    destruct (where_column "id" (SText uid) r) eqn:E.
    + exfalso. rewrite Heq, (Hcleared r E) in Hhit. discriminate.
    + subst r'. intros Hid. apply (rowToUser_id r o uid Hrow) in Hid.
      apply where_column_refl in Hid. congruence.
  - intros tok Honly.
    rewrite (findUserByVerificationToken_spec tok s' _ Hi' Hr' Hf').
    rewrite head_filter_None; [reflexivity|].
    intros r' Hin'. cbn [rows] in Hin'. unfold updated in Hin'.
    apply list_elem_of_fmap in Hin'. destruct Hin' as (r & Heq & Hr0).
    destruct (where_column "verificationToken" (SText tok) r') eqn:Hhit;
      [exfalso|reflexivity].
    apply where_column_text in Hhit.
    destruct (where_column "id" (SText uid) r) eqn:E.
    + rewrite Heq, (Hcleared r E) in Hhit. discriminate.
    + subst r'. apply (Honly r Hr0) in Hhit.
      rewrite (where_column_refl _ _ _ Hhit) in E. discriminate.
Qed.

(** The token "tok" of the user "1" is cleared and finds nothing. *)
Lemma cleared_token_is_spent_witness :
  col ready_row "verificationToken" = SText "tok"
  /\ fst (findUserByVerificationToken "tok"
            (snd (updateUser "1" [("isEmailVerified", VBool true);
                                  ("verificationToken", null)] ready)))
     = inr None.
Proof.
  split; [reflexivity|].
  apply (cleared_token_is_spent "1"
           [("isEmailVerified", VBool true); ("verificationToken", null)]
           ready ready_table).
  - left. reflexivity.
  - intros st. reflexivity.
  - reflexivity.
  - apply (bool_decide_unpack _). vm_compute. exact I.
  - right. left.
  - reflexivity.
  - intros r Hin _. apply list_elem_of_singleton in Hin. subst r. reflexivity.
Defined.

(** *** The order of [getAllUsers] *)

Lemma compare_ge_trans a : forall b c,
  String.compare a b <> Lt -> String.compare b c <> Lt -> String.compare a c <> Lt.
Proof.
  induction a as [|x a IH]; intros [|y b] [|z c]; cbn [String.compare];
    try congruence.
  unfold Ascii.compare.
  destruct (N.compare_spec (N_of_ascii x) (N_of_ascii y)) as [E1|E1|E1];
    destruct (N.compare_spec (N_of_ascii y) (N_of_ascii z)) as [E2|E2|E2];
    destruct (N.compare_spec (N_of_ascii x) (N_of_ascii z)) as [E3|E3|E3];
    try congruence; try lia.
  apply IH.
Qed.

Lemma ltb_false a b : String.ltb a b = false <-> String.compare a b <> Lt.
Proof. unfold String.ltb. destruct (String.compare a b); split; congruence. Qed.

Lemma ltb_asym a b : String.ltb a b = true -> String.ltb b a = false.
Proof.
  unfold String.ltb. rewrite (String.compare_antisym b a).
  destruct (String.compare a b); cbn; congruence.
Qed.

Lemma ltb_ge_trans a b c :
  String.ltb a b = false -> String.ltb b c = false -> String.ltb a c = false.
Proof. rewrite !ltb_false. apply compare_ge_trans. Qed.

Lemma insert_desc_perm key r l : insert_desc key r l ≡ₚ r :: l.
Proof.
  induction l as [|x l IH]; [reflexivity|]. cbn [insert_desc].
  destruct (sql_lt _ _); [|reflexivity].
  rewrite IH. apply Permutation_swap.
Qed.

(** ORDER BY returns the rows of the table, each as often as it is
    stored. *)
Lemma order_by_desc_perm key l : order_by_desc key l ≡ₚ l.
Proof.
  unfold order_by_desc. induction l as [|r l IH]; [reflexivity|].
  cbn [foldr]. rewrite insert_desc_perm, IH. reflexivity.
Qed.

Lemma sql_lt_texts key a b :
  text_key key a -> text_key key b ->
  exists x y, col a key = SText x /\ col b key = SText y
    /\ sql_lt (col a key) (col b key) = String.ltb x y.
Proof.
  intros (x & Hx) (y & Hy). exists x, y. rewrite Hx, Hy. auto.
Qed.

Lemma insert_desc_descending key r l :
  text_key key r -> Forall (text_key key) l ->
  descending key l -> descending key (insert_desc key r l).
Proof.
  intros Hr. induction l as [|x l IH]; intros Hl Hd.
  - cbn. auto.
  - apply Forall_cons in Hl. destruct Hl as [Hx Hl].
    destruct Hd as [Hxl Hd]. cbn [insert_desc].
    destruct (sql_lt (col r key) (col x key)) eqn:E.
    + cbn [descending]. split; [|apply IH; assumption].
      apply Forall_forall. intros y Hy. apply insert_desc_elem in Hy.
      destruct Hy as [->|Hy].
      * destruct (sql_lt_texts key r x Hr Hx) as (a & b & Ha & Hb & _).
        rewrite Ha, Hb in *. cbn [sql_lt] in *. apply ltb_asym, E.
      * rewrite Forall_forall in Hxl. apply Hxl, Hy.
    + cbn [descending]. split; [|split; assumption].
      apply Forall_cons. split; [exact E|].
      apply Forall_forall. intros y Hy.
      rewrite Forall_forall in Hxl. pose proof (Hxl y Hy) as Hxy.
      rewrite Forall_forall in Hl. pose proof (Hl y Hy) as Hty.
      destruct Hr as (a & Ha). destruct Hx as (b & Hb). destruct Hty as (c & Hc).
      rewrite Ha, Hb, Hc in *. cbn [sql_lt] in *.
      apply (ltb_ge_trans a b c); assumption.
Qed.

Lemma order_by_desc_descending key l :
  Forall (text_key key) l -> descending key (order_by_desc key l).
Proof.
  unfold order_by_desc. induction l as [|r l IH]; intros Hl; [exact I|].
  apply Forall_cons in Hl. destruct Hl as [Hr Hl]. cbn [foldr].
  apply insert_desc_descending; [exact Hr| |apply IH, Hl].
  apply Forall_forall. intros x Hx. apply order_by_desc_elem in Hx.
  rewrite Forall_forall in Hl. apply Hl, Hx.
Qed.

Lemma descending_lookup key l : forall i j a b,
  descending key l -> (i < j)%nat -> l !! i = Some a -> l !! j = Some b ->
  sql_lt (col a key) (col b key) = false.
Proof.
  induction l as [|r l IH]; intros i j a b Hd Hij Hi Hj; [discriminate|].
  destruct Hd as [Hr Hd]. destruct j as [|j]; [lia|]. cbn in Hj.
  destruct i as [|i].
  - injection Hi as <-. rewrite Forall_forall in Hr. apply Hr.
    apply list_elem_of_lookup. eauto.
  - cbn in Hi. apply (IH i j); [exact Hd|lia|exact Hi|exact Hj].
Qed.

(** The date that [rowToUser] reads from the ISO text of a time of the
    years 0000 to 9999. *)
Lemma rowToUser_createdAt r o t :
  rowToUser r = inr o -> -62167219200000 <= t <= 253402300799999 ->
  col r "createdAt" = SText (iso_of_time t) ->
  prop o "createdAt" = VDate (DateAt t).
Proof.
  intros Ho Ht Hc. destruct (rowToUser_decoded r o Ho) as (_ & Hd & _).
  rewrite Hd, (raw_stored r _ _ (col_text _ _ _ Hc)). cbn [unbind Date_new].
  rewrite Date_parse_iso; [reflexivity|]. unfold maxTime. lia.
Qed.

Lemma iso_of_time_ge ta tb :
  -62167219200000 <= ta <= 253402300799999 ->
  -62167219200000 <= tb <= 253402300799999 ->
  String.ltb (iso_of_time ta) (iso_of_time tb) = false -> tb <= ta.
Proof.
  intros Ha Hb Hlt. destruct (Z.le_gt_cases tb ta) as [H|H]; [exact H|].
  rewrite iso_of_time_lt in Hlt by lia. discriminate.
Qed.

Lemma mapM_index {A B} (f : A -> exn + B) l l' i b :
  mapM f l = inr l' -> l' !! i = Some b -> exists a, l !! i = Some a /\ f a = inr b.
Proof.
  intros Hm Hb. pose proof (mapM_length f l l' Hm) as Hlen.
  destruct (lookup_lt_is_Some_2 l i) as (a & Ha).
  { rewrite <- Hlen. apply lookup_lt_Some in Hb. exact Hb. }
  destruct (mapM_lookup f l l' i a Hm Ha) as (b' & Hb' & Hf).
  exists a. split; [exact Ha|]. congruence.
Qed.

(** C9 (as amended).  [getAllUsers] reads every stored row once, in the
    order of ORDER BY createdAt DESC, and returns the rows as [rowToUser]
    makes them records (or the error of the first row that it cannot
    read; it returns when no row has college data).  When the createdAt
    cells are texts, as [addUser] stores them, no row comes before one
    with a greater text.  When they are ISO texts of times in the years
    0000 to 9999, no record comes before one with a later [createdAt].
    And three valid users whose [createdAt] lie in those years and
    strictly increase, added one after the other to a table without
    rows, are returned the last one first. *)
Theorem getAllUsers_most_recent_first :
  (forall (s : Database) (t : table),
     fst (initializeDatabase s) = inr tt -> reliable s ->
     file (after_init s) = Some t ->
     exists l,
       l ≡ₚ rows t
       /\ fst (getAllUsers s) = mapM rowToUser l
       /\ ((forall r, r ∈ rows t -> truthy (unbind (col r "collegeData")) = false) ->
           exists recs, fst (getAllUsers s) = inr recs
                        /\ length recs = length (rows t))
       /\ ((forall r, r ∈ rows t -> exists x, col r "createdAt" = SText x) ->
           forall i j a b xa xb,
             (i < j)%nat -> l !! i = Some a -> l !! j = Some b ->
             col a "createdAt" = SText xa -> col b "createdAt" = SText xb ->
             String.ltb xa xb = false)
       /\ ((forall r, r ∈ rows t -> plain_createdAt r) ->
           forall recs i j oi oj,
             fst (getAllUsers s) = inr recs ->
             (i < j)%nat -> recs !! i = Some oi -> recs !! j = Some oj ->
             exists ti tj,
               prop oi "createdAt" = VDate (DateAt ti)
               /\ prop oj "createdAt" = VDate (DateAt tj) /\ tj <= ti))
  /\ (forall (a b c : User) (s s1 s2 s3 : Database),
        reliable s -> stored_rows (after_init s) = [] ->
        valid_user a -> valid_user b -> valid_user c ->
        plain_year (createdAt a) -> plain_year (createdAt b) ->
        plain_year (createdAt c) ->
        earlier (createdAt a) (createdAt b) -> earlier (createdAt b) (createdAt c) ->
        addUser a s = (inr tt, s1) -> addUser b s1 = (inr tt, s2) ->
        addUser c s2 = (inr tt, s3) ->
        exists oa ob oc,
          fst (getAllUsers s3) = inr [oc; ob; oa]
          /\ returned a oa /\ returned b ob /\ returned c oc).
Proof.
  split.
  - intros s t Hi Hr Hf.
    exists (order_by_desc "createdAt" (rows t)).
    split; [apply order_by_desc_perm|].
    split; [apply (getAllUsers_spec s t Hi Hr Hf)|].
    rewrite (getAllUsers_spec s t Hi Hr Hf).
    split; [|split].
    + intros Hplain.
      destruct (mapM_all rowToUser (order_by_desc "createdAt" (rows t)))
        as (recs & Hrecs).
      { intros r Hin. apply order_by_desc_elem in Hin.
        destruct (rowToUser_plain r (Hplain r Hin)) as (o & Ho & _). eauto. }
      exists recs. split; [exact Hrecs|].
      rewrite (mapM_length _ _ _ Hrecs). apply order_by_desc_length.
    + intros Htext i j a b xa xb Hij Ha Hb Hxa Hxb.
      assert (Hd : descending "createdAt" (order_by_desc "createdAt" (rows t))).
      { apply order_by_desc_descending, Forall_forall. exact Htext. }
      pose proof (descending_lookup _ _ i j a b Hd Hij Ha Hb) as Hlt.
      rewrite Hxa, Hxb in Hlt. exact Hlt.
    + intros Hplain recs i j oi oj Hrecs Hij Hoi Hoj.
      destruct (mapM_index _ _ _ i oi Hrecs Hoi) as (a & Ha & Hda).
      destruct (mapM_index _ _ _ j oj Hrecs Hoj) as (b & Hb & Hdb).
      assert (Hina : a ∈ rows t).
      { apply (order_by_desc_elem "createdAt"), list_elem_of_lookup. eauto. }
      assert (Hinb : b ∈ rows t).
      { apply (order_by_desc_elem "createdAt"), list_elem_of_lookup. eauto. }
      destruct (Hplain a Hina) as (ti & Hti & Hca).
      destruct (Hplain b Hinb) as (tj & Htj & Hcb).
      exists ti, tj.
      split; [apply (rowToUser_createdAt a); assumption|].
      split; [apply (rowToUser_createdAt b); assumption|].
      assert (Hd : descending "createdAt" (order_by_desc "createdAt" (rows t))).
      { apply order_by_desc_descending, Forall_forall.
        intros r Hin. destruct (Hplain r Hin) as (x & _ & Hx). eexists. exact Hx. }
      pose proof (descending_lookup _ _ i j a b Hd Hij Ha Hb) as Hlt.
      rewrite Hca, Hcb in Hlt. cbn [sql_lt] in Hlt.
      apply iso_of_time_ge; assumption.
  - intros a b c s s1 s2 s3 Hr Hempty Va Vb Vc Pa Pb Pc Eab Ebc Ha Hb Hc.
    destruct (addUser_rows a s s1 Hr Ha) as (t0 & pa & Hpa & Hf0 & Hf1 & _ & Ha1 & Hr1).
    destruct (addUser_rows b s1 s2 Hr1 Hb) as (t1 & pb & Hpb & Hf1' & Hf2 & _ & Ha2 & Hr2).
    destruct (addUser_rows c s2 s3 Hr2 Hc) as (t2 & pc & Hpc & Hf2' & Hf3 & Hi3 & Ha3 & Hr3).
    rewrite Ha1, Hf1 in Hf1'. injection Hf1' as <-.
    rewrite Ha2, Hf2 in Hf2'. injection Hf2' as <-.
    unfold stored_rows in Hempty. rewrite Hf0 in Hempty.
    set (ra := inserted t0 pa) in *.
    set (rb := inserted (with_row t0 pa) pb) in *.
    set (rc := inserted (with_row (with_row t0 pa) pb) pc) in *.
    assert (Hrows : rows (with_row (with_row (with_row t0 pa) pb) pc) = [ra; rb; rc]).
    { cbn [with_row rows]. rewrite Hempty. reflexivity. }
    assert (Eac : earlier (createdAt a) (createdAt c)).
    { unfold earlier in *. destruct (createdAt a), (createdAt b), (createdAt c);
        try contradiction; lia. }
    assert (Hasc : ascending "createdAt" [ra; rb; rc]).
    { cbn [ascending]. repeat apply conj; try exact I; repeat constructor.
      - apply (plain_year_earlier a b); assumption.
      - apply (plain_year_earlier a c); assumption.
      - apply (plain_year_earlier b c); assumption. }
    destruct (rowToUser_inserted a t0 pa Va Hpa) as (oa & Hoa & Hra).
    destruct (rowToUser_inserted b (with_row t0 pa) pb Vb Hpb) as (ob & Hob & Hrb).
    destruct (rowToUser_inserted c (with_row (with_row t0 pa) pb) pc Vc Hpc)
      as (oc & Hoc & Hrc).
    exists oa, ob, oc. split; [|split; [exact Hra|split; [exact Hrb|exact Hrc]]].
    rewrite (getAllUsers_spec s3 _ Hi3 Hr3) by (rewrite Ha3; exact Hf3).
    rewrite Hrows, (order_by_desc_ascending _ _ Hasc).
    change (reverse [ra; rb; rc]) with [rc; rb; ra].
    cbn [mapM]. subst ra rb rc. rewrite Hoc, Hob, Hoa. reflexivity.
Qed.

Lemma getAllUsers_most_recent_first_witness :
  let s1 := snd (addUser ann fresh) in
  let s2 := snd (addUser bob s1) in
  let s3 := snd (addUser cyd s2) in
  exists oa ob oc,
    fst (getAllUsers s3) = inr [oc; ob; oa]
    /\ returned ann oa /\ returned bob ob /\ returned cyd oc.
Proof.
  cbv zeta.
  apply (proj2 getAllUsers_most_recent_first ann bob cyd fresh
           (snd (addUser ann fresh))
           (snd (addUser bob (snd (addUser ann fresh))))
           (snd (addUser cyd (snd (addUser bob (snd (addUser ann fresh))))))).
  - intros st. reflexivity.
  - vm_compute. reflexivity.
  - exact ann_valid.
  - split; [split|]; [cbn; unfold maxTime; lia|intros d; discriminate
                     |intros c; discriminate].
  - split; [split|]; [cbn; unfold maxTime; lia|intros d; discriminate
                     |intros c; discriminate].
  - cbn. lia.
  - cbn. lia.
  - cbn. lia.
  - cbn. lia.
  - cbn. lia.
  - vm_compute. reflexivity.
  - vm_compute. reflexivity.
  - vm_compute. reflexivity.
Defined.

(** *** The address is unique *)

Lemma count_where_two P (l : list row) : forall i j a b,
  i <> j -> l !! i = Some a -> l !! j = Some b -> P a = true -> P b = true ->
  2 <= count_where P l.
Proof.
  induction l as [|x l IH]; intros i j a b Hij Ha Hb Pa Pb; [discriminate|].
  change (x :: l) with ([x] ++ l). rewrite count_where_app.
  pose proof (count_where_nonneg P [x]) as Hx.
  destruct i as [|i]; destruct j as [|j]; [congruence|..]; cbn in Ha, Hb.
  - injection Ha as ->. rewrite (count_where_one P a Pa).
    assert (Hin : b ∈ l) by (apply list_elem_of_lookup; eauto).
    pose proof (count_where_elem P l b Hin Pb). lia.
  - injection Hb as ->. rewrite (count_where_one P b Pb).
    assert (Hin : a ∈ l) by (apply list_elem_of_lookup; eauto).
    pose proof (count_where_elem P l a Hin Pa). lia.
  - assert (Hne : i <> j) by congruence.
    pose proof (IH i j a b Hne Ha Hb Pa Pb). lia.
Qed.

Lemma first_violation_None l changed :
  first_violation l changed = None ->
  forall r, r ∈ changed -> violation l r = None.
Proof.
  unfold first_violation. intros H r Hr.
  destruct (list_find _ _) as [[i e]|] eqn:E.
  - apply list_find_Some in E. destruct E as (_ & He & _).
    cbn in H. subst e. destruct He as [e He]. discriminate.
  - apply list_find_None in E. rewrite Forall_forall in E.
    destruct (violation l r) as [e|] eqn:V; [|reflexivity].
    exfalso. apply (E (Some e)); [|eauto].
    apply list_elem_of_fmap. exists r. auto.
Qed.

Lemma email_is_unique_column : "universityEmail" ∈ unique_columns.
Proof. left. Qed.

(** A row that passed the constraints has an address that no other row
    of the list has. *)
Lemma violation_unique l r i j ri rj x :
  violation l r = None -> l !! i = Some ri -> l !! j = Some rj ->
  col r "universityEmail" = SText x ->
  col ri "universityEmail" = SText x -> col rj "universityEmail" = SText x ->
  i = j.
Proof.
  intros Hv Hi Hj Hr Hri Hrj.
  destruct (decide (i = j)) as [E|E]; [exact E|exfalso].
  apply violation_None in Hv. destruct Hv as [_ Hu].
  pose proof (Hu _ email_is_unique_column) as Hle. rewrite Hr in Hle.
  pose proof (count_where_two (where_column "universityEmail" (SText x)) l i j ri rj E
                Hi Hj (where_column_refl _ _ _ Hri) (where_column_refl _ _ _ Hrj)).
  lia.
Qed.

Lemma exec_unique st f rs f' :
  class_statement st -> exec st f = inr (rs, f') ->
  unique_emails f -> unique_emails f'.
Proof.
  intros Hst He Hu.
  destruct st as [|c d|cols params|p1 p2|p|p|fields params|p| |];
    destruct f as [t|]; cbn [exec] in He; try discriminate;
    try (injection He as _ <-; exact Hu).
  - injection He as _ <-. intros t i j ri rj x [= <-] Hi. discriminate.
  - destruct (decide (c ∈ columns t)); [discriminate|]. injection He as _ <-.
    assert (Hc : c <> "universityEmail").
    { intros ->. cbn in Hst. unfold added_columns in Hst.
      rewrite !elem_of_cons, elem_of_nil in Hst.
      destruct Hst as [H|[H|[H|[H|[]]]]]; discriminate. }
    intros t' i j ri rj x [= <-] Hi Hj Hri Hrj. cbn [rows] in Hi, Hj.
    rewrite list_lookup_fmap in Hi, Hj.
    destruct (rows t !! i) as [ri0|] eqn:Ei; [|discriminate].
    destruct (rows t !! j) as [rj0|] eqn:Ej; [|discriminate].
    injection Hi as <-. injection Hj as <-.
    unfold col in Hri, Hrj. rewrite lookup_insert_ne in Hri, Hrj by exact Hc.
    apply (Hu t i j ri0 rj0 x eq_refl Ei Ej Hri Hrj).
  - destruct (filter _ cols); [|discriminate].
    set (r := assign cols params _) in He.
    destruct (violation (rows t ++ [r]) r) as [e|] eqn:Hv; [discriminate|].
    injection He as _ <-.
    intros t' i j ri rj x [= <-] Hi Hj Hri Hrj. cbn [rows] in Hi, Hj.
    destruct (decide (i < length (rows t))%nat) as [Li|Li];
      destruct (decide (j < length (rows t))%nat) as [Lj|Lj].
    + rewrite lookup_app_l in Hi, Hj by assumption.
      apply (Hu t i j ri rj x eq_refl Hi Hj Hri Hrj).
    + apply (violation_unique _ r i j ri rj x Hv Hi Hj); try assumption.
      rewrite lookup_app_r in Hj by lia.
      destruct (j - length (rows t))%nat; [|discriminate].
      injection Hj as <-. exact Hrj.
    + apply (violation_unique _ r i j ri rj x Hv Hi Hj); try assumption.
      rewrite lookup_app_r in Hi by lia.
      destruct (i - length (rows t))%nat; [|discriminate].
      injection Hi as <-. exact Hri.
    + apply (violation_unique _ r i j ri rj x Hv Hi Hj); try assumption.
      rewrite lookup_app_r in Hi by lia.
      destruct (i - length (rows t))%nat; [|discriminate].
      injection Hi as <-. exact Hri.
  - destruct (filter _ fields); [|discriminate]. cbv zeta in He.
    set (hit := where_column "id" (List.last params SNull)) in He.
    set (g := fun r : row => if hit r then assign fields params r else r) in He.
    destruct (first_violation _ _) eqn:Hv; [discriminate|].
    injection He as _ <-.
    pose proof (first_violation_None _ _ Hv) as Hall.
    intros t' i j ri rj x [= <-] Hi Hj Hri Hrj. cbn [rows] in Hi, Hj.
    pose proof Hi as Hi'. pose proof Hj as Hj'.
    rewrite list_lookup_fmap in Hi', Hj'.
    destruct (rows t !! i) as [ri0|] eqn:Ei; [|discriminate].
    destruct (rows t !! j) as [rj0|] eqn:Ej; [|discriminate].
    injection Hi' as Eri. injection Hj' as Erj.
    assert (Hchanged : forall k r0, rows t !! k = Some r0 -> hit r0 = true ->
              violation (g <$> rows t) (g r0) = None).
    { intros k r0 Hk Hhit. apply Hall. unfold g. rewrite Hhit.
      apply list_elem_of_fmap. exists r0. split; [reflexivity|].
      apply list_elem_of_filter. split; [rewrite Hhit; exact I|].
      apply list_elem_of_lookup. eauto. }
    destruct (hit ri0) eqn:Hhi.
    { apply (violation_unique _ (g ri0) i j ri rj x (Hchanged i ri0 Ei Hhi) Hi Hj);
        try assumption. rewrite Eri. exact Hri. }
    destruct (hit rj0) eqn:Hhj.
    { apply (violation_unique _ (g rj0) i j ri rj x (Hchanged j rj0 Ej Hhj) Hi Hj);
        try assumption. rewrite Erj. exact Hrj. }
    unfold g in Eri, Erj. rewrite Hhi in Eri. rewrite Hhj in Erj. subst ri rj.
    apply (Hu t i j ri0 rj0 x eq_refl Ei Ej Hri Hrj).
  - injection He as _ <-. intros t' i j ri rj x [= <-] Hi. discriminate.
Qed.

Lemma engine_unique st s :
  class_statement st ->
  unique_emails (file s) -> unique_emails (file (snd (engine st s))).
Proof.
  intros Hst Hu. destruct (engine_file st s) as [->|(rs & f & _ & He & ->)];
    [exact Hu|]. apply (exec_unique st _ rs f Hst He Hu).
Qed.

Lemma added_column_elem c :
  c = "isEmailVerified" \/ c = "verificationToken"
  \/ c = "verificationTokenExpiry" \/ c = "collegeData" -> c ∈ added_columns.
Proof.
  unfold added_columns. rewrite !elem_of_cons, elem_of_nil. tauto.
Qed.

Lemma migrated_unique s :
  unique_emails (file s) -> unique_emails (file (migrated s)).
Proof.
  intros H. unfold migrated. cbv zeta.
  apply engine_unique; [apply added_column_elem; auto|].
  apply engine_unique; [apply added_column_elem; auto|].
  apply engine_unique; [apply added_column_elem; auto|].
  apply engine_unique; [apply added_column_elem; auto|].
  apply engine_unique; [exact I|]. exact H.
Qed.

Lemma settle_unique s :
  unique_emails (file s) -> unique_emails (file (settle s)).
Proof.
  intros Hu. unfold settle.
  destruct (initPromise s) as [[| |e|]|]; try exact Hu.
  destruct (init_ok s) eqn:Hok.
  - rewrite (doInitialize_ok s Hok). autorewrite with fields.
    apply migrated_unique, Hu.
  - destruct (stalls s) eqn:Hst.
    + rewrite (doInitialize_stall s Hst). autorewrite with fields. exact Hu.
    + destruct (doInitialize_fail s Hok Hst) as (s' & -> & _ & _ & Hfile & _).
      autorewrite with fields. rewrite Hfile. exact Hu.
Qed.

Lemma after_init_unique s :
  unique_emails (file s) -> unique_emails (file (after_init s)).
Proof.
  intros Hu. unfold after_init. rewrite initializeDatabase_cases.
  destruct (initialized s); [exact Hu|].
  destruct (initPromise s) as [[| |e|]|]; cbv zeta; cbn [snd]; try exact Hu.
  - apply settle_unique, Hu.
  - apply settle_unique. autorewrite with fields. exact Hu.
Qed.

Lemma body_statement op s :
  body op s = s
  \/ exists st, body op s = snd (engine st s) /\ class_statement st.
Proof.
  destruct op as [u|q|i|t|i us|e| |]; unfold body.
  - destruct (addUser_body_spec u s) as [->|[params ->]]; [left; reflexivity|].
    right. eexists. split; [apply run_state|]. exact I.
  - right. eexists. split; [|shelve].
    match goal with |- snd (?f _ s) = _ => unfold f end.
    rewrite lookup_spec. reflexivity. Unshelve. exact I.
  - right. eexists. split; [|shelve].
    match goal with |- snd (?f _ s) = _ => unfold f end.
    rewrite lookup_spec. reflexivity. Unshelve. exact I.
  - right. eexists. split; [|shelve].
    match goal with |- snd (?f _ s) = _ => unfold f end.
    rewrite lookup_spec. reflexivity. Unshelve. exact I.
  - unfold updateUser_body.
    destruct (collect us [] []) as [e|[fields values]]; run_monad;
      [left; reflexivity|].
    destruct (0 <? length fields)%nat; [|left; reflexivity].
    right. eexists. split; [apply run_state|]. exact I.
  - right. exists (SELECT_COUNT_BY_EMAIL (bind (VStr e))). split; [|exact I].
    unfold emailExists_body. unfold bindM at 1. rewrite get_spec.
    destruct (engine _ s) as [[e'|rs] s']; [reflexivity|].
    cbn [fst snd]. destruct (head rs); reflexivity.
  - right. exists SELECT_ALL_ORDER_BY_CREATED_DESC. split; [|exact I].
    unfold getAllUsers_body, all, bindM, lift.
    destruct (engine _ s) as [[e'|rs] s']; reflexivity.
  - right. eexists. split; [apply run_state|]. exact I.
Qed.

Lemma perform_unique op s :
  unique_emails (file s) -> unique_emails (file (snd (perform op s))).
Proof.
  intros Hu. apply after_init_unique in Hu. unfold after_init in Hu.
  destruct (perform_spec op s) as [-> _].
  destruct (initializeDatabase s) as [[e|[]] s']; cbn [snd] in *; [exact Hu|].
  destruct (body_statement op s') as [->|(st & -> & Hst)]; [exact Hu|].
  apply engine_unique; assumption.
Qed.

Lemma perform_all_unique ops : forall s,
  unique_emails (file s) -> unique_emails (file (perform_all ops s)).
Proof.
  unfold perform_all. induction ops as [|op ops IH]; intros s Hu; [exact Hu|].
  cbn [foldl]. apply IH, perform_unique, Hu.
Qed.

Lemma insert_columns_present t :
  filter (fun c => c ∉ columns t) insert_columns = []
  <-> forall c, c ∈ insert_columns -> c ∈ columns t.
Proof.
  split.
  - intros Hf c Hc. destruct (decide (c ∈ columns t)) as [H|H]; [exact H|].
    assert (Hin : c ∈ filter (fun c => c ∉ columns t) insert_columns)
      by (apply list_elem_of_filter; auto).
    rewrite Hf in Hin. inversion Hin.
  - intros H. apply filter_nil_all. intros c Hc Hn. exact (Hn (H c Hc)).
Qed.

(** The INSERT of a row whose address is in the table. *)
Lemma violation_duplicate_email l r i n e p r0 :
  col r "id" = SText i -> col r "fullName" = SText n ->
  col r "universityEmail" = SText e -> col r "password" = SText p ->
  r0 ∈ l -> col r0 "universityEmail" = SText e ->
  violation (l ++ [r]) r
  = Some (SQLITE_CONSTRAINT "UNIQUE constraint failed: users.universityEmail").
Proof.
  intros Hi Hn He Hp Hin H0.
  unfold violation, not_null_columns, unique_columns.
  rewrite (filter_cons _ "fullName"), (filter_cons _ "universityEmail"),
    (filter_cons _ "password"), filter_nil.
  rewrite Hn, He, Hp. rewrite !decide_False by discriminate.
  rewrite (filter_cons _ "universityEmail"). rewrite He.
  rewrite decide_True; [reflexivity|].
  apply Is_true_true, Z.ltb_lt. rewrite count_where_app.
  rewrite (count_where_one _ r (where_column_refl _ _ _ He)).
  pose proof (count_where_elem _ _ _ Hin (where_column_refl _ _ _ H0)). lia.
Qed.

(** C2 (as amended).  No operation of the class, and no sequence of
    them, makes two rows with the same [universityEmail]: what holds of
    the table before holds after, and a database that starts without a
    table never has two such rows.  After [addUser u] has succeeded the
    store is initialised and the table holds a row with the address of
    [u].  And in every such store, for every user [v] with the address
    of a stored row, [emailExists] answers [true] and [addUser v] stores
    nothing and fails: with the engine's error "UNIQUE constraint
    failed: users.universityEmail" when the dates of [v] are dates, with
    a RangeError when [createdAt] or [verificationTokenExpiry] is the
    invalid date. *)
Theorem universityEmail_is_unique :
  (forall s op,
     unique_emails (file s) -> unique_emails (file (snd (perform op s))))
  /\ (forall s ops, file s = None -> unique_emails (file (perform_all ops s)))
  /\ (forall u s s1,
        reliable s -> addUser u s = (inr tt, s1) ->
        steady s1 /\ reliable s1
        /\ exists t r,
             file s1 = Some t
             /\ (forall c, c ∈ insert_columns -> c ∈ columns t)
             /\ r ∈ rows t
             /\ col r "universityEmail" = SText (universityEmail u))
  /\ (forall s t v r,
        steady s -> reliable s -> file s = Some t ->
        (forall c, c ∈ insert_columns -> c ∈ columns t) ->
        r ∈ rows t -> col r "universityEmail" = SText (universityEmail v) ->
        fst (emailExists (universityEmail v) s) = inr true
        /\ file (snd (addUser v s)) = file s
        /\ (createdAt v <> InvalidDate ->
            verificationTokenExpiry v <> Some InvalidDate ->
            fst (addUser v s)
            = inl (SqliteError
                     (SQLITE_CONSTRAINT
                        "UNIQUE constraint failed: users.universityEmail")))
        /\ (createdAt v = InvalidDate \/ verificationTokenExpiry v = Some InvalidDate ->
            fst (addUser v s) = inl RangeError)).
Proof.
  split; [exact (fun s op => perform_unique op s)|].
  split.
  { intros s ops Hf. apply perform_all_unique. rewrite Hf.
    intros t i j ri rj x H. discriminate. }
  split.
  - intros u s s1 Hr Hadd.
    destruct (addUser_steady u s s1 Hr Hadd) as [Hst Hr1].
    destruct (addUser_ok u s s1 Hr Hadd) as (_ & t & ps & Hps & _ & Hcols & _ & Hs1).
    split; [exact Hst|]. split; [exact Hr1|].
    exists (with_row t ps), (inserted t ps).
    split; [rewrite Hs1; reflexivity|].
    split; [apply insert_columns_present, Hcols|].
    split; [cbn [with_row rows]; apply elem_of_app; right; left|].
    apply (inserted_col t ps 2%nat); [reflexivity|apply stored_params_email, Hps].
  - intros s t v r Hst Hr Hf Hcols Hin Hrow.
    assert (Hinit : initializeDatabase s = (inr tt, s)) by apply (steady_init _ Hst).
    assert (Hafter : after_init s = s) by (unfold after_init; rewrite Hinit; reflexivity).
    split.
    { rewrite (emailExists_spec _ s t);
        [|rewrite Hinit; reflexivity|exact Hr|rewrite Hafter; exact Hf].
      pose proof (count_where_elem _ _ _ Hin (where_column_refl _ _ _ Hrow)) as Hc.
      f_equal. apply Z.ltb_lt. lia. }
    unfold addUser. rewrite method_spec, Hinit, addUser_body_params.
    destruct (stored_params v) as [pv|] eqn:Hpv.
    + assert (Hrun : run (INSERT insert_columns pv) s
                     = (inl (SqliteError
                               (SQLITE_CONSTRAINT
                                  "UNIQUE constraint failed: users.universityEmail")),
                        log (Run (INSERT insert_columns pv)) s)).
      { rewrite run_spec, (engine_reliable _ _ Hr), Hf, exec_insert.
        rewrite (proj2 (insert_columns_present t) Hcols).
        destruct (stored_params_shape v pv Hpv) as (e & c & x & Hshape).
        rewrite (violation_duplicate_email (rows t) (inserted t pv)
                   (id v) (fullName v) (universityEmail v) (password v) r);
          [reflexivity|..|exact Hin|exact Hrow].
        - apply (inserted_col t pv 0%nat); [reflexivity|apply stored_params_id, Hpv].
        - apply (inserted_col t pv 1%nat); [reflexivity|rewrite Hshape; reflexivity].
        - apply (inserted_col t pv 2%nat); [reflexivity|apply stored_params_email, Hpv].
        - apply (inserted_col t pv 3%nat); [reflexivity|rewrite Hshape; reflexivity]. }
      rewrite Hrun. cbn [fst snd]. split; [reflexivity|]. split; [reflexivity|].
      intros Hbad. apply stored_params_None in Hbad. congruence.
    + cbn [fst snd]. split; [reflexivity|]. split; [|reflexivity].
      intros H1 H2. apply stored_params_None in Hpv. tauto.
Qed.

Lemma universityEmail_is_unique_witness :
  fst (emailExists (universityEmail bob_twin) stored) = inr true
  /\ file (snd (addUser bob_twin stored)) = file stored
  /\ fst (addUser bob_twin stored)
     = inl (SqliteError
              (SQLITE_CONSTRAINT "UNIQUE constraint failed: users.universityEmail"))
  /\ fst (addUser ann_undated stored) = inl RangeError.
Proof.
  destruct universityEmail_is_unique as (_ & _ & Hadd & Hdup).
  destruct (Hadd ann fresh stored (fun st => eq_refl)) as (Hst & Hr & t & r & Hf & Hc & Hin & Hrow).
  { vm_compute. reflexivity. }
  destruct (Hdup stored t bob_twin r Hst Hr Hf Hc Hin Hrow) as (H1 & H2 & H3 & _).
  destruct (Hdup stored t ann_undated r Hst Hr Hf Hc Hin Hrow) as (_ & _ & _ & H4).
  split; [exact H1|]. split; [exact H2|].
  split; [apply H3; discriminate|]. apply H4. left. reflexivity.
Defined.

(** C2 as the specification words it does not hold: [ann] is stored, and
    a second user with her address whose [createdAt] is the invalid date
    is refused with a RangeError, not with a constraint error: the date
    is written out before the statement is issued. *)
Lemma duplicate_email_invalid_date :
  fst (addUser ann fresh) = inr tt
  /\ universityEmail ann_undated = universityEmail ann
  /\ fst (addUser ann_undated stored) = inl RangeError
  /\ file (snd (addUser ann_undated stored)) = file stored.
Proof. repeat apply conj; vm_compute; reflexivity. Qed.

(** *** Absent text properties *)

Lemma addUser_stores_after u s s1 :
  reliable s -> addUser u s = (inr tt, s1) ->
  exists t ps,
    stored_params u = Some ps
    /\ file (after_init s) = Some t
    /\ file s1 = Some (with_row t ps)
    /\ (forall r', r' ∈ rows t -> where_column "id" (SText (id u)) r' = false)
    /\ col (inserted t ps) "id" = SText (id u)
    /\ fst (initializeDatabase s1) = inr tt /\ after_init s1 = s1 /\ reliable s1.
Proof.
  intros Hr Hadd.
  destruct (addUser_steady u s s1 Hr Hadd) as [Hst Hr1].
  destruct (addUser_ok u s s1 Hr Hadd) as (_ & t & ps & Hps & Hf & _ & Hviol & Hs1).
  assert (Hid : col (inserted t ps) "id" = SText (id u)).
  { apply (inserted_col t ps 0%nat); [reflexivity|apply stored_params_id, Hps]. }
  exists t, ps. split; [exact Hps|]. split; [exact Hf|].
  split; [rewrite Hs1; reflexivity|].
  split; [exact (inserted_id_fresh _ _ _ Hviol Hid)|]. split; [exact Hid|].
  split; [rewrite (steady_init _ Hst); reflexivity|].
  split; [unfold after_init; rewrite (steady_init _ Hst); reflexivity|exact Hr1].
Qed.

(** The first row that [P] holds of, when it is the last row. *)
Lemma head_filter_last (P : row -> bool) (l : list row) r :
  (forall x, x ∈ l -> P x = false) -> P r = true ->
  head (filter (fun x => P x) (l ++ [r])) = Some r.
Proof.
  intros Hl Hr. rewrite filter_app, (filter_none _ _ Hl).
  rewrite filter_cons, decide_True by (rewrite Hr; exact I). reflexivity.
Qed.

Lemma stored_params_token u ps tok :
  stored_params u = Some ps -> verificationToken u = Some tok ->
  ps !! 10%nat = Some (SText tok).
Proof.
  intros H Ht. destruct (stored_params_shape u ps H) as (e & c & t & ->).
  rewrite Ht. reflexivity.
Qed.

Lemma stored_params_name u ps :
  stored_params u = Some ps -> ps !! 1%nat = Some (SText (fullName u)).
Proof. intros H. destruct (stored_params_shape u ps H) as (e & c & t & ->). reflexivity. Qed.

(** C10: a user added without one of the optional text properties is
    stored with NULL in that column, in a new last row, the one row that
    carries the user's [id].  Whatever [findUser], [findUserById],
    [findUserByVerificationToken] or [getAllUsers] then return for that
    user has the property equal to [null], not [undefined].  And for a
    valid user they do return the user's record, with [null] there:
    [findUserById] for the [id]; [findUser] for the address or the name
    and [findUserByVerificationToken] for the token, when no earlier row
    answers to them; [getAllUsers] among its records, when the earlier
    rows can be read. *)
Theorem absent_text_field_reads_null (u : User) (s s1 : Database) (k : string) :
  reliable s -> addUser u s = (inr tt, s1) ->
  k ∈ text_fields -> prop (user_object u) k = undefined ->
  exists t r,
    file (after_init s) = Some t
    /\ file s1 = Some {| columns := columns t; rows := rows t ++ [r] |}
    /\ col r "id" = SText (id u) /\ r !! k = Some SNull
    /\ (forall x, x ∈ rows t -> col x "id" <> SText (id u))
    /\ (forall q o, fst (findUser q s1) = inr (Some o) ->
          prop o "id" = VStr (id u) -> prop o k = null)
    /\ (forall i o, fst (findUserById i s1) = inr (Some o) ->
          prop o "id" = VStr (id u) -> prop o k = null)
    /\ (forall tok o, fst (findUserByVerificationToken tok s1) = inr (Some o) ->
          prop o "id" = VStr (id u) -> prop o k = null)
    /\ (forall l, fst (getAllUsers s1) = inr l ->
          (exists o, o ∈ l /\ prop o "id" = VStr (id u))
          /\ forall o, o ∈ l -> prop o "id" = VStr (id u) -> prop o k = null)
    /\ (valid_user u ->
        exists o,
          prop o "id" = VStr (id u) /\ prop o k = null
          /\ fst (findUserById (id u) s1) = inr (Some o)
          /\ (forall q,
                q = universityEmail u \/ same_up_to_case (fullName u) q ->
                (forall x, x ∈ rows t -> ~ answers_to x q) ->
                fst (findUser q s1) = inr (Some o))
          /\ (forall tok,
                verificationToken u = Some tok ->
                (forall x, x ∈ rows t -> col x "verificationToken" <> SText tok) ->
                fst (findUserByVerificationToken tok s1) = inr (Some o))
          /\ ((forall x, x ∈ rows t -> exists ox, rowToUser x = inr ox) ->
              exists l, fst (getAllUsers s1) = inr l /\ o ∈ l)).
Proof.
  intros Hr Hadd Hk Hundef.
  destruct (addUser_stores_after u s s1 Hr Hadd)
    as (t & ps & Hps & Hbefore & Hf & Hfresh & Hid & Hi & Ha & Hr1).
  pose proof (inserted_absent u t ps k Hps Hk Hundef) as Hnull.
  destruct (text_field_copied k Hk) as (K1 & K2 & K3 & K4).
  assert (Hf' : file (after_init s1) = Some (with_row t ps))
    by (rewrite Ha; exact Hf).
  assert (Hrow : forall r' o, r' ∈ rows (with_row t ps) -> rowToUser r' = inr o ->
                   prop o "id" = VStr (id u) -> prop o k = null).
  { intros r' o Hin Ho Hoid. apply (rowToUser_id r' o (id u) Ho) in Hoid.
    rewrite (row_of_id t ps (id u) r' Hfresh Hin Hoid) in Ho.
    unfold prop. rewrite (rowToUser_copies _ o k Ho K1 K2 K3 K4), Hnull.
    reflexivity. }
  assert (Hfound : forall (P : row -> bool) o,
             decode (head (filter (fun r => P r) (rows (with_row t ps))))
             = inr (Some o) ->
             prop o "id" = VStr (id u) -> prop o k = null).
  { intros P o Hd Hoid. apply decode_Some in Hd. destruct Hd as (r' & Hh & Ho).
    apply head_filter_elem in Hh. destruct Hh as [Hin _].
    exact (Hrow r' o Hin Ho Hoid). }
  assert (Hlast : inserted t ps ∈ rows (with_row t ps)).
  { cbn [with_row rows]. apply elem_of_app. right. left. }
  exists t, (inserted t ps).
  split; [exact Hbefore|]. split; [exact Hf|]. split; [exact Hid|].
  split; [exact Hnull|].
  split.
  { intros x Hx Hc.
    pose proof (Hfresh x Hx) as Hne. rewrite (where_column_refl _ _ _ Hc) in Hne.
    discriminate. }
  split; [intros q o; rewrite (findUser_spec q s1 _ Hi Hr1 Hf'); apply Hfound|].
  split; [intros i o; rewrite (findUserById_spec i s1 _ Hi Hr1 Hf'); apply Hfound|].
  split; [intros tok o;
          rewrite (findUserByVerificationToken_spec tok s1 _ Hi Hr1 Hf');
          apply Hfound|].
  split.
  - intros l. rewrite (getAllUsers_spec s1 _ Hi Hr1 Hf'). intros Hl.
    destruct (mapM_elem _ _ _ Hl) as [Hback Hforth]. split.
    + destruct (Hforth (inserted t ps)) as (o & Ho & Hdec).
      { apply order_by_desc_elem. exact Hlast. }
      exists o. split; [exact Ho|].
      apply (rowToUser_id _ o (id u) Hdec). exact Hid.
    + intros o Ho Hoid. destruct (Hback o Ho) as (r' & Hin & Hdec).
      apply order_by_desc_elem in Hin. exact (Hrow r' o Hin Hdec Hoid).
  - intros Hv. destruct (rowToUser_inserted u t ps Hv Hps) as (o & Ho & _).
    assert (Hoid : prop o "id" = VStr (id u))
      by (apply (rowToUser_id _ o (id u) Ho); exact Hid).
    exists o. split; [exact Hoid|].
    split; [exact (Hrow _ o Hlast Ho Hoid)|].
    split; [|split; [|split]].
    + rewrite (findUserById_inserted u s1 s1 t ps Hf Hfresh Hid Hi Ha Hr1 eq_refl).
      apply decode_row, Ho.
    + intros q Hq Hnone. rewrite (findUser_spec q s1 _ Hi Hr1 Hf').
      cbn [with_row rows].
      rewrite (head_filter_last (where_email_or_name (SText q) (SText q))).
      * apply decode_row, Ho.
      * intros x Hx. apply answers_to_not, Hnone, Hx.
      * apply answers_to_spec. destruct Hq as [->|Hq].
        -- left. apply (inserted_col t ps 2%nat);
             [reflexivity|apply stored_params_email, Hps].
        -- right. exists (fullName u). split; [|exact Hq].
           apply (inserted_col t ps 1%nat);
             [reflexivity|apply stored_params_name, Hps].
    + intros tok Htok Hnone.
      rewrite (findUserByVerificationToken_spec tok s1 _ Hi Hr1 Hf').
      cbn [with_row rows].
      rewrite (head_filter_last (where_column "verificationToken" (SText tok))).
      * apply decode_row, Ho.
      * intros x Hx. apply where_text_not, Hnone, Hx.
      * apply where_text_spec. apply (inserted_col t ps 10%nat);
          [reflexivity|apply (stored_params_token u ps tok Hps Htok)].
    + intros Hall. rewrite (getAllUsers_spec s1 _ Hi Hr1 Hf').
      destruct (mapM_all rowToUser (order_by_desc "createdAt" (rows (with_row t ps))))
        as (l & Hl).
      { intros x Hx. apply order_by_desc_elem in Hx. cbn [with_row rows] in Hx.
        apply elem_of_app in Hx. destruct Hx as [Hx|Hx]; [apply Hall, Hx|].
        apply list_elem_of_singleton in Hx. subst x. eauto. }
      exists l. split; [exact Hl|].
      destruct (mapM_elem _ _ _ Hl) as [_ Hforth].
      destruct (Hforth (inserted t ps)) as (o' & Ho' & Hdec).
      { apply order_by_desc_elem. exact Hlast. }
      congruence.
Qed.

Lemma absent_text_field_reads_null_witness :
  exists o,
    prop o "id" = VStr "1" /\ prop o "phoneNumber" = null
    /\ fst (findUserById "1" stored) = inr (Some o)
    /\ fst (findUser "ann@x.edu" stored) = inr (Some o)
    /\ fst (findUser "ANN LEE" stored) = inr (Some o)
    /\ fst (findUserByVerificationToken "tok" stored) = inr (Some o)
    /\ exists l, fst (getAllUsers stored) = inr l /\ o ∈ l.
Proof.
  destruct (absent_text_field_reads_null ann fresh stored "phoneNumber")
    as (t & r & Hbefore & _ & _ & _ & _ & _ & _ & _ & _ & Hret).
  - intros st. reflexivity.
  - vm_compute. reflexivity.
  - apply (bool_decide_unpack _). vm_compute. exact I.
  - vm_compute. reflexivity.
  - assert (Ht : file (after_init fresh)
                 = Some {| columns := users_columns; rows := [] |})
      by (vm_compute; reflexivity).
    rewrite Ht in Hbefore. injection Hbefore as <-.
    destruct (Hret ann_valid) as (o & H1 & H2 & H3 & H4 & H5 & H6).
    exists o. split; [exact H1|]. split; [exact H2|]. split; [exact H3|].
    split; [apply H4; [left; reflexivity|intros x Hx; inversion Hx]|].
    split; [apply H4; [right; apply lower_same; reflexivity
                      |intros x Hx; inversion Hx]|].
    split; [apply (H5 "tok" eq_refl); intros x Hx; inversion Hx|].
    apply H6. intros x Hx. inversion Hx.
Defined.
